(* ===== verification/_CoqProject ===== *)
-Q . S2P
Prelude.v
Netip.v
Model.v
UserCode.v
Accounts.v
Condition.v
Lifetime.v
CertPolicy.v
Sha256.v
World.v
AuditLog.v
CertRequest.v
CertWait.v
Signer.v
SignReply.v
Enrollment.v
Users.v
Seq.v
Invariant.v
Legal.v
CertSafe.v
WaitSafe.v
ReplySafe.v
EnrollSafe.v
System.v
Scenario.v
Safety.v
Behaviour.v
Delivery.v
Bounds.v
