(* ===== verification/Prelude.v ===== *)
(** * ssoossh: a verification development for an SSO-driven SSH certificate authority

    ssoosshd turns a single sign-on identity into short-lived SSH certificates. A
    client posts a public key and gets a certificate request; a person opens the
    approval page, is bound to the request and approves or denies it; an approval
    queues a signing job; the signer, which alone holds the CA key, answers with a
    signed reply; the reply handler records the certificate and wakes the waiting
    client. A service account instead gets an enrollment code, which is redeemed again
    and again for fresh certificates. This library models that issuing path, from
    configuration to delivered certificate, and proves what makes it safe.

    ** The program and the files that model it

    The path is one database shared by handlers that run concurrently, a message bus
    between them, and a per-process cache of outcomes. Sources are under src/.

    - [Prelude]: time, durations, integer division, the tactics and the list lemmas the
      other files share. [Netip]: net/netip and net.IP as the code uses them (parsing,
      unmapping, prefixes, link-local).
    - [Model]: the rows of server/model, the messages of server/certmsg, identities and
      the configuration of server/config, as records and inductive types. A JSON text
      column is an [encoded] value, which may be undecodable.
    - [UserCode]: server/service/consolecode.go. [Accounts]: account linkage and pickers
      of certrequest.go, internal/crypto/ssh/principal.go, internal/fipsmode, and the
      role grants of server/config/types.go.
    - [Condition]: server/service/policycondition.go. [Lifetime]: lifetimepolicy.go.
      [CertPolicy]: certtypepolicy.go, keyid.go, validation and the time budget of
      server/config/types_certificates.go, internal/serial.
    - [Sha256]: the hash under which a page claim is stored, computed, so that claims
      are compared as the code compares them.
    - [World]: the state [Sys] (tables, outcome cache, published messages, notices,
      shipped audit events, clock), the effects a handler performs ([eff]), programs
      over them ([prog]), and the interpreter [exec_eff]. Each effect is one atomic
      step, a transaction included; each takes a [choice] of the environment, which
      may fail the statement, publish or entropy read, move the clock, draw bytes and
      uuids, and pick what arrives first in a select.
    - [AuditLog]: server/service/audit.go. [CertRequest]: CreateRequest, Detail, Approve
      with both flows, Deny and their helpers of certrequest.go and hostcontext.go.
      [CertWait]: Wait and its loops, certrequest_claim.go, certrequest_usercode.go,
      sweep.go. [Signer]: server/signer. [SignReply]: signreply.go. [Enrollment]:
      enrollment.go. [Users]: the user upsert and disabled check of auth.go. One
      definition per function, in the source's statement order.
    - [Seq]: total correctness of one call run alone. [Invariant]: the order [evolves]
      on states and the invariant [SInv]. [Legal]: one rule per effect when other
      handlers take legal steps in between. [CertSafe], [WaitSafe], [ReplySafe],
      [EnrollSafe]: each handler takes only legal steps, and what its answer promises.
    - [System]: threads over one state, interleaved effect by effect; consumers are
      started by what was published, as often as the bus likes; a restart loses the
      threads and the cache. [Scenario]: one evaluated run, from login to a delivered
      certificate and a redeemed code, on which hypotheses are shown to hold.

    ** What the theorems show

    - [Safety], over every reachable state: the invariant; every certificate on record
      traces back to an approval by the request's owner and stays inside policy; a
      request's life cycle moves forward only; one decision per request; and what an
      answer of Approve, Wait, Retrieve and the page claim means.
    - [Behaviour], one call at a time: strangers are refused whatever fails, late
      approvals expire the request, waiting for a finished request answers, wake
      messages are confirmed against the row, the sweep fails exactly what is stranded.
    - [Delivery]: what the signer signs, that a reply is recorded, delivered before the
      row reads approved, and harmless when repeated; dead codes; who manages and who
      sees an enrollment.
    - [Bounds]: host-reported text, source addresses, roles, logins against disabled
      accounts, audit retention, and two observations at concrete states.
    - [UserCode], [Accounts], [Condition], [Lifetime], [CertPolicy] each end with the
      theorems of their component: round trips, agreement of picker and check, of parsed
      and configured conditions, tier and source-rule selection, bounds on lifetimes,
      the extension algebra, the time budget, principals that are held.

    ** Parameters, bounds and fuel

    Code outside the repository is a parameter: [ParseAuthorizedKey] (x/crypto/ssh),
    [ParseAddress] (net/mail), the template parser (text/template) and the CA's signing
    function. No theorem assumes anything of them; the scenario instantiates them.

    Integers are unbounded: durations and times are nanosecond counts whose bounds are
    stated where they matter, and serials are masked to 63 bits as the code does. uuids
    are never drawn twice; other random draws may repeat, so unique-constraint
    failures are reachable.

    [confirm_fuel] is 81, one round per 25 ms poll of the two second window plus one;
    [Behaviour.awaitStatus_terminates] shows that more changes nothing. The audit sweep
    has as much fuel as rows to delete, one per batch at worst. [Wait] and [Retrieve]
    take the number of messages they look at as an argument: in the code these loops
    end only with an answer, a closed subscription or a done context, so a run out of
    fuel is a call still waiting; theorems that a call answers give it enough. IPv6
    parsing has one unit per group.

    ** What is not modelled

    The HTTP layer, the web UI, the command line client and process wiring (decoding
    and routing around the services above); the bus library, seen here as a log of
    published messages any of which may be delivered any number of times or never; mail
    rendering; the OIDC exchange and LDAP synchronisation that produce an identity (an
    identity is an argument); administrator listings; the NSS account directory and its
    host daemon, a second product on the same database. Next in the plan: LDAP identity
    refresh and role groups, the administrator listings of enrollments and certificates,
    then the NSS directory, the host daemon's cache and policy, principals maps and
    POSIX names. *)

From stdpp Require Export base gmap strings list fin_maps pretty.
From Stdlib Require Export ZArith Lia.

Global Open Scope Z_scope.

Declare Scope go_scope.
Delimit Scope go_scope with go.

(** ** Time and durations

    [time.Time] and [time.Duration] are signed counts of nanoseconds; the zero
    [time.Time] is 1 January of year 1, which is what [IsZero] tests. *)
Abbreviation GoTime := Z (only parsing).
Abbreviation Duration := Z (only parsing).

Definition Microsecond : Duration := 1000.
Definition Millisecond : Duration := 1000 * Microsecond.
Definition Second : Duration := 1000 * Millisecond.
Definition Minute : Duration := 60 * Second.
Definition Hour : Duration := 60 * Minute.

Definition zero_time : GoTime := -62135596800 * Second.

Definition IsZeroTime (t : GoTime) : bool := t =? zero_time.
Definition Before (t u : GoTime) : bool := t <? u.
Definition After (t u : GoTime) : bool := u <? t.

(** Integer division of Go truncates toward zero. *)
Definition go_div (a b : Z) : Z := Z.quot a b.

(** [t.Truncate(d)] rounds down to a multiple of [d] counted from the zero time. *)
Definition TruncateTime (t : GoTime) (d : Duration) : GoTime :=
  if d <=? 0 then t else t - (t - zero_time) mod d.

(** [t.Unix()], whole seconds since the epoch. *)
Definition UnixSeconds (t : GoTime) : Z := t / Second.

(** ** Errors

    A Go error is a value; the typed errors of [errorresponses] are the
    constructors the HTTP layer tells apart, every other error is [Internal].
    A formatted message keeps its format and its arguments: rendering is not
    part of any property. *)
Record message : Type := Msg { msg_format : string; msg_args : list string }.

Inductive goerr : Type :=
| NotFoundError (resource : message)
| ForbiddenError (reason : message)
| InvalidRequestError (reason : message)
| ConflictError (reason : message)
| ExpiredError (resource : message)
| CertificateUnavailableError (request_id : string)
| ShuttingDownError
| UserDisabledError
| UserStatusCheckError
| ContextError
| DBError
| UniqueViolation
| Internal (text : message).

#[export] Instance message_eq_dec : EqDecision message.
Proof. solve_decision. Defined.
#[export] Instance goerr_eq_dec : EqDecision goerr.
Proof. solve_decision. Defined.

Definition text (s : string) : message := Msg s [].

Inductive res (A : Type) : Type :=
| Ok (a : A)
| Err (e : goerr).
Arguments Ok {A} a.
Arguments Err {A} e.

Definition is_ok {A} (r : res A) : bool :=
  match r with Ok _ => true | Err _ => false end.

(** Pure fallible code: the bind of [res]. *)
Definition res_bind {A B} (r : res A) (k : A -> res B) : res B :=
  match r with Ok a => k a | Err e => Err e end.

Notation "'let!' x := r 'in' k" := (res_bind r (fun x => k))
  (at level 10, x name, r at level 100, k at level 200) : go_scope.
Notation "'check!' r ;; k" := (res_bind r (fun _ : unit => k))
  (at level 10, r at level 99, k at level 200) : go_scope.

Lemma res_bind_ok {A B} (r : res A) (k : A -> res B) b :
  res_bind r k = Ok b <-> exists a, r = Ok a /\ k a = Ok b.
Proof. destruct r; simpl; naive_solver. Qed.

Lemma res_bind_err {A B} (r : res A) (k : A -> res B) e :
  res_bind r k = Err e <-> r = Err e \/ exists a, r = Ok a /\ k a = Err e.
Proof. destruct r; simpl; naive_solver. Qed.

(** ** Slices used as ordered sets *)

(** [slices.Contains]. *)
Definition contains {A} `{EqDecision A} (l : list A) (x : A) : bool := bool_decide (x ∈ l).

Definition empty_str (s : string) : bool := bool_decide (s = "").

Lemma contains_true {A} `{EqDecision A} (l : list A) x : contains l x = true <-> x ∈ l.
Proof. apply bool_decide_eq_true. Qed.

Lemma contains_false {A} `{EqDecision A} (l : list A) x : contains l x = false <-> x ∉ l.
Proof. apply bool_decide_eq_false. Qed.

Lemma empty_str_true s : empty_str s = true <-> s = "".
Proof. apply bool_decide_eq_true. Qed.

Lemma empty_str_false s : empty_str s = false <-> s <> "".
Proof. apply bool_decide_eq_false. Qed.

(** The idiom [if !slices.Contains(out, x) { out = append(out, x) }]. *)
Definition append_new {A} `{EqDecision A} (out : list A) (x : A) : list A :=
  if contains out x then out else out ++ [x].

Definition append_all_new {A} `{EqDecision A} (out xs : list A) : list A :=
  foldl append_new out xs.

Section ordered_sets.
Context {A : Type} `{EqDecision A}.
Implicit Types (out xs : list A) (x y : A).

Lemma elem_of_append_new out x y : y ∈ append_new out x <-> y ∈ out \/ y = x.
Proof.
  unfold append_new. destruct (contains out x) eqn:E.
  - apply contains_true in E. naive_solver.
  - rewrite elem_of_app, list_elem_of_singleton. done.
Qed.

Lemma NoDup_append_new out x : NoDup out -> NoDup (append_new out x).
Proof.
  intros H. unfold append_new. destruct (contains out x) eqn:E; [done|].
  apply contains_false in E. apply NoDup_app. repeat split; [done| |apply NoDup_singleton].
  intros z Hz ->%list_elem_of_singleton. done.
Qed.

Lemma elem_of_append_all_new xs : forall out y,
  y ∈ append_all_new out xs <-> y ∈ out \/ y ∈ xs.
Proof.
  unfold append_all_new. induction xs as [|x xs IH]; intros out y; simpl; [set_solver|].
  rewrite IH, elem_of_append_new. set_solver.
Qed.

Lemma NoDup_append_all_new xs : forall out, NoDup out -> NoDup (append_all_new out xs).
Proof.
  unfold append_all_new. induction xs as [|x xs IH]; intros out Ho; simpl; [done|].
  by apply IH, NoDup_append_new.
Qed.

Lemma prefix_append_new out x : out `prefix_of` append_new out x.
Proof. unfold append_new. destruct (contains out x); [done|]. by eexists. Qed.

Lemma prefix_append_all_new xs : forall out, out `prefix_of` append_all_new out xs.
Proof.
  unfold append_all_new. induction xs as [|x xs IH]; intros out; simpl; [done|].
  etrans; [apply prefix_append_new|apply IH].
Qed.

(** Appending members of [out] changes nothing: the idiom is idempotent. *)
Lemma append_all_new_subset xs : forall out, xs ⊆ out -> append_all_new out xs = out.
Proof.
  unfold append_all_new. induction xs as [|x xs IH]; intros out Hs; simpl; [done|].
  assert (append_new out x = out) as ->.
  { unfold append_new. rewrite (proj2 (contains_true out x)); [done|set_solver]. }
  apply IH. set_solver.
Qed.
End ordered_sets.

(** ** Words *)

(** Shifting in [k] fresh low bits is multiplying and adding: the big-endian
    accumulation the code writes with [<<] and [|]. *)
Lemma lor_shiftl_add a b k :
  0 <= k -> 0 <= b < 2 ^ k -> Z.lor (Z.shiftl a k) b = a * 2 ^ k + b.
Proof.
  intros Hk Hb. rewrite <- Z.shiftl_mul_pow2 by lia.
  pose proof (Z.add_lor_land (Z.shiftl a k) b) as E.
  assert (Z.land (Z.shiftl a k) b = 0) as Hz; [|lia].
  apply Z.bits_inj'. intros n Hn. rewrite Z.land_spec, Z.bits_0, Z.shiftl_spec by lia.
  destruct (Z.lt_ge_cases n k).
  - by rewrite (Z.testbit_neg_r a) by lia.
  - destruct (Z.eq_dec b 0) as [->|]; [by rewrite Z.bits_0, andb_false_r|].
    rewrite (Z.bits_above_log2 b n); [by rewrite andb_false_r|lia|].
    apply Z.log2_lt_pow2; [lia|]. eapply Z.lt_le_trans; [apply Hb|]. by apply Z.pow_le_mono_r.
Qed.

(** A byte slice read big-endian. *)
Definition bytes_ok (l : list Z) : Prop := Forall (fun b => 0 <= b < 256) l.

#[export] Instance bytes_ok_dec l : Decision (bytes_ok l).
Proof. unfold bytes_ok. apply _. Defined.

Lemma bytes_ok_snoc l b : bytes_ok (l ++ [b]) <-> bytes_ok l /\ 0 <= b < 256.
Proof. unfold bytes_ok. by rewrite Forall_app, Forall_singleton. Qed.

Definition big_endian (l : list Z) : Z := foldl (fun acc b => acc * 256 + b) 0 l.

Lemma big_endian_snoc l b : big_endian (l ++ [b]) = big_endian l * 256 + b.
Proof. unfold big_endian. by rewrite foldl_app. Qed.

Lemma big_endian_bound l :
  bytes_ok l -> 0 <= big_endian l < 256 ^ Z.of_nat (length l).
Proof.
  induction l as [|b l IH] using rev_ind; intros H; [simpl; unfold big_endian; simpl; lia|].
  apply bytes_ok_snoc in H as [Hl Hb]. specialize (IH Hl).
  rewrite big_endian_snoc, length_app, Nat2Z.inj_add, Z.pow_add_r by lia.
  change (256 ^ Z.of_nat (length [b])) with 256. lia.
Qed.

(** Equal-length byte slices with the same big-endian value are equal. *)
Lemma big_endian_inj l : forall l',
  bytes_ok l -> bytes_ok l' -> length l = length l' ->
  big_endian l = big_endian l' -> l = l'.
Proof.
  induction l as [|b l IH] using rev_ind; intros l' H H' Hlen E.
  - by destruct l'.
  - destruct l' as [|b' l' _] using rev_ind; [rewrite length_app in Hlen; simpl in Hlen; lia|].
    rewrite !big_endian_snoc in E. rewrite !length_app in Hlen. simpl in Hlen.
    apply bytes_ok_snoc in H as [Hl Hb].
    apply bytes_ok_snoc in H' as [Hl' Hb'].
    assert (b = b') as -> by lia. f_equal. apply IH; [done|done|lia|lia].
Qed.

(** ** Automation *)

Create HintDb ssoossh.
#[export] Hint Resolve NoDup_append_new NoDup_append_all_new prefix_append_all_new : ssoossh.

(** Case split on the scrutinee of the outermost match of the goal or a hypothesis. *)
Ltac split_match :=
  match goal with
  | |- context [match ?x with _ => _ end] => destruct x eqn:?
  | H : context [match ?x with _ => _ end] |- _ => destruct x eqn:?
  end.

(** Turn boolean tests of the code into the propositions they decide. *)
Ltac unbool :=
  repeat match goal with
  | H : contains _ _ = true |- _ => apply contains_true in H
  | H : contains _ _ = false |- _ => apply contains_false in H
  | H : empty_str _ = true |- _ => apply empty_str_true in H
  | H : empty_str _ = false |- _ => apply empty_str_false in H
  | H : bool_decide _ = true |- _ => apply bool_decide_eq_true in H
  | H : bool_decide _ = false |- _ => apply bool_decide_eq_false in H
  | H : (_ <? _) = true |- _ => apply Z.ltb_lt in H
  | H : (_ <? _) = false |- _ => apply Z.ltb_ge in H
  | H : (_ <=? _) = true |- _ => apply Z.leb_le in H
  | H : (_ <=? _) = false |- _ => apply Z.leb_gt in H
  | H : (_ =? _) = true |- _ => apply Z.eqb_eq in H
  | H : (_ =? _) = false |- _ => apply Z.eqb_neq in H
  | H : (_ && _) = true |- _ => apply andb_true_iff in H as [? ?]
  | H : (_ || _) = false |- _ => apply orb_false_iff in H as [? ?]
  | H : (_ && _) = false |- _ => apply andb_false_iff in H as [H|H]
  | H : (_ || _) = true |- _ => apply orb_true_iff in H as [H|H]
  | H : negb _ = true |- _ => apply negb_true_iff in H
  | H : negb _ = false |- _ => apply negb_false_iff in H
  end.

(** Invert a successful pure computation bind by bind. *)
Ltac inv_res :=
  repeat match goal with
  | H : res_bind _ _ = Ok _ |- _ =>
      let x := fresh "v" in let Hx := fresh "Hv" in
      apply res_bind_ok in H as (x & Hx & H)
  | H : Ok _ = Ok _ |- _ => injection H as H; try subst
  | H : Err _ = Ok _ |- _ => discriminate H
  | H : Ok _ = Err _ |- _ => discriminate H
  end.
