(* ===== verification/Netip.v ===== *)
(** * The part of Go's [net/netip] and [net] that the server reads addresses with

    [ParseAddr], [ParsePrefix], [Addr.Unmap], [Prefix.Contains], and [net.ParseIP]
    with [IP.IsLinkLocalUnicast], at the width of the code: an IPv4 address is a
    32-bit number, an IPv6 one a 128-bit number with an optional zone. The parsers
    are the standard library's scanners, byte by byte. *)

From S2P Require Import Prelude.

(** Bytes of a Go string. *)
Definition bytes (s : string) : list Z :=
  map (fun c => Z.of_N (Ascii.N_of_ascii c)) (String.list_ascii_of_string s).

Definition chr (s : string) : Z := default 0 (head (bytes s)).

Definition is_digit (c : Z) : bool := (48 <=? c) && (c <=? 57).

Definition hex_digit (c : Z) : option Z :=
  if is_digit c then Some (c - 48)
  else if (97 <=? c) && (c <=? 102) then Some (c - 87)
  else if (65 <=? c) && (c <=? 70) then Some (c - 55)
  else None.

Inductive Addr : Type :=
| Addr4 (bits : Z)
| Addr6 (bits : Z) (zone : list Z).

#[export] Instance Addr_eq_dec : EqDecision Addr.
Proof. solve_decision. Defined.

Definition BitLen (a : Addr) : Z := match a with Addr4 _ => 32 | Addr6 _ _ => 128 end.
Definition addr_bits (a : Addr) : Z := match a with Addr4 n | Addr6 n _ => n end.
Definition has_zone (a : Addr) : bool :=
  match a with Addr6 _ (_ :: _) => true | _ => false end.

(** ** Parsing *)

(** [parseIPv4Fields]: the octets of a dotted quad. [prev_dot] is "at the start
    or just after a dot"; [digits] counts the digits of the current octet. *)
Fixpoint parse_v4_fields (s : list Z) (val digits : Z) (prev_dot : bool) (done : list Z)
  : option (list Z) :=
  match s with
  | [] => if (length done =? 3)%nat then Some (done ++ [val]) else None
  | c :: rest =>
      if is_digit c then
        if (digits =? 1) && (val =? 0) then None
        else
          let val' := val * 10 + (c - 48) in
          if 255 <? val' then None
          else parse_v4_fields rest val' (digits + 1) false done
      else if c =? 46 then
        match rest with
        | [] => None
        | _ => if prev_dot then None
               else if (length done =? 3)%nat then None
               else parse_v4_fields rest 0 0 true (done ++ [val])
        end
      else None
  end.

Definition of_octets (l : list Z) : Z := foldl (fun acc b => Z.lor (Z.shiftl acc 8) b) 0 l.

Definition parse_v4 (s : list Z) : option Addr :=
  (fun l => Addr4 (of_octets l)) <$> parse_v4_fields s 0 0 true [].

(** The hex digits at the head of [s]: the value, how many, and what follows. *)
Fixpoint scan_hex (s : list Z) (acc : Z) (off : nat) : option (Z * nat * list Z) :=
  match s with
  | [] => Some (acc, off, [])
  | c :: rest =>
      match hex_digit c with
      | None => Some (acc, off, s)
      | Some d => if (3 <? off)%nat then None else scan_hex rest (Z.shiftl acc 4 + d) (S off)
      end
  end.

(** The group loop of [parseIPv6]; [done] are the bytes read, [ell] where the
    [::] stood. [fuel] bounds the groups: eight fill the address. *)
Fixpoint parse_v6_groups (fuel : nat) (s : list Z) (done : list Z) (ell : option nat)
  : option (list Z * option nat * list Z) :=
  match fuel with
  | O => Some (done, ell, s)
  | S fuel' =>
      match scan_hex s 0 0 with
      | None => None
      | Some (acc, off, after) =>
          if (off =? 0)%nat then None
          else if match after with 46 :: _ => true | _ => false end then
            if match ell with None => negb (length done =? 12)%nat | Some _ => false end then None
            else if (16 <? length done + 4)%nat then None
            else match parse_v4_fields s 0 0 true [] with
                 | None => None
                 | Some octets => Some (done ++ octets, ell, [])
                 end
          else
            let done' := done ++ [Z.shiftr acc 8; Z.land acc 255] in
            match after with
            | [] => Some (done', ell, [])
            | 58 :: [] => None
            | 58 :: 58 :: s' =>
                match ell with
                | Some _ => None
                | None => match s' with
                          | [] => Some (done', Some (length done'), [])
                          | _ => parse_v6_groups fuel' s' done' (Some (length done'))
                          end
                end
            | 58 :: s' => parse_v6_groups fuel' s' done' ell
            | _ => None
            end
      end
  end.

Definition expand_ellipsis (done : list Z) (ell : option nat) : option (list Z) :=
  if (length done <? 16)%nat then
    match ell with
    | None => None
    | Some e => Some (take e done ++ replicate (16 - length done) 0 ++ drop e done)
    end
  else match ell with Some _ => None | None => Some done end.

Definition split_zone (s : list Z) : option (list Z * list Z) :=
  match list_find (fun c => c = 37) s with
  | None => Some (s, [])
  | Some (i, _) =>
      match drop (S i) s with
      | [] => None
      | zone => Some (take i s, zone)
      end
  end.

Definition parse_v6 (s : list Z) : option Addr :=
  match split_zone s with
  | None => None
  | Some (body, zone) =>
      let '(ell, body') :=
        match body with 58 :: 58 :: rest => (Some 0%nat, rest) | _ => (None, body) end in
      match ell, body' with
      | Some _, [] => Some (Addr6 0 zone)
      | _, _ =>
          match parse_v6_groups 8 body' [] ell with
          | Some (done, ell', []) =>
              (fun l => Addr6 (of_octets l) zone) <$> expand_ellipsis done ell'
          | _ => None
          end
      end
  end.

(** [netip.ParseAddr]: the first of [.], [:] and [%] decides the family. *)
Fixpoint addr_family (s : list Z) : option bool :=
  match s with
  | [] => None
  | c :: rest =>
      if c =? 46 then Some false
      else if c =? 58 then Some true
      else if c =? 37 then None
      else addr_family rest
  end.

Definition ParseAddr (str : string) : option Addr :=
  let s := bytes str in
  match addr_family s with
  | Some false => parse_v4 s
  | Some true => parse_v6 s
  | None => None
  end.

(** [Addr.Unmap]: an IPv4-mapped IPv6 address becomes the IPv4 one. *)
Definition Unmap (a : Addr) : Addr :=
  match a with
  | Addr6 n _ => if Z.shiftr n 32 =? 65535 then Addr4 (Z.land n 4294967295) else a
  | _ => a
  end.

Record Prefix : Type := MkPrefix { pfx_addr : Addr; pfx_bits : Z }.

#[export] Instance Prefix_eq_dec : EqDecision Prefix.
Proof. solve_decision. Defined.

(** [Prefix.Contains]: same family, no zone, equal leading bits. *)
Definition PrefixContains (p : Prefix) (a : Addr) : bool :=
  if has_zone a then false
  else if negb (BitLen (pfx_addr p) =? BitLen a) then false
  else Z.shiftr (Z.lxor (addr_bits a) (addr_bits (pfx_addr p))) (BitLen a - pfx_bits p) =? 0.

Fixpoint atoi (s : list Z) (acc : Z) : option Z :=
  match s with
  | [] => Some acc
  | c :: rest => if is_digit c then atoi rest (acc * 10 + (c - 48)) else None
  end.

Fixpoint last_slash (s : list Z) (i : nat) (found : option nat) : option nat :=
  match s with
  | [] => found
  | c :: rest => last_slash rest (S i) (if c =? 47 then Some i else found)
  end.

(** The length after the slash: no sign, and no leading zero but "0" itself. *)
Definition parse_prefix_bits (s : list Z) : option Z :=
  match s with
  | [] => None
  | c :: _ :: _ => if (49 <=? c) && (c <=? 57) then atoi s 0 else None
  | _ => atoi s 0
  end.

Definition string_of_bytes (l : list Z) : string :=
  String.string_of_list_ascii (map (fun c => Ascii.ascii_of_N (Z.to_N c)) l).

(** [netip.ParsePrefix]. *)
Definition ParsePrefix (str : string) : option Prefix :=
  let s := bytes str in
  match last_slash s 0 None with
  | None => None
  | Some i =>
      match ParseAddr (string_of_bytes (take i s)), parse_prefix_bits (drop (S i) s) with
      | Some a, Some b =>
          if has_zone a then None
          else if BitLen a <? b then None
          else Some (MkPrefix a b)
      | _, _ => None
      end
  end.

(** [net.ParseIP] refuses a zone; [IsLinkLocalUnicast] is 169.254.0.0/16, also
    in its mapped form, and fe80::/10. *)
Definition ParseIP (str : string) : option Addr :=
  match ParseAddr str with
  | Some a => if has_zone a then None else Some a
  | None => None
  end.

Definition IsLinkLocalUnicast (a : Addr) : bool :=
  match Unmap a with
  | Addr4 n => Z.shiftr n 16 =? 43518
  | Addr6 n _ => Z.shiftr n 118 =? 1018
  end.

(** ** Facts *)

(** A longer prefix of the same base that contains an address is contained in
    every shorter one: what makes longest-prefix matching a refinement order. *)
Lemma PrefixContains_shorter base b b' a :
  0 <= b' <= b -> b <= BitLen base ->
  PrefixContains (MkPrefix base b) a = true ->
  PrefixContains (MkPrefix base b') a = true.
Proof.
  intros Hb Hl. unfold PrefixContains; simpl.
  destruct (has_zone a); [done|].
  destruct (BitLen base =? BitLen a) eqn:E; simpl; [|done].
  apply Z.eqb_eq in E. rewrite !Z.eqb_eq. intros H0.
  replace (BitLen a - b') with ((BitLen a - b) + (b - b')) by lia.
  rewrite <- Z.shiftr_shiftr by lia. rewrite H0. apply Z.shiftr_0_l.
Qed.

(** An address is always inside the prefix of its own full length. *)
Lemma PrefixContains_self a :
  has_zone a = false -> PrefixContains (MkPrefix a (BitLen a)) a = true.
Proof.
  intros H. unfold PrefixContains; simpl. rewrite H, Z.eqb_refl; simpl.
  by rewrite Z.lxor_nilpotent, Z.shiftr_0_l.
Qed.

Example parse_ok_1 : ParseAddr "10.1.2.3" = Some (Addr4 167838211).
Proof. reflexivity. Qed.
Example parse_ok_2 : Unmap <$> ParseAddr "::ffff:10.1.2.3" = Some (Addr4 167838211).
Proof. reflexivity. Qed.
Example parse_ok_3 : ParseAddr "2001:db8::1" = Some (Addr6 42540766411282592856903984951653826561 []).
Proof. reflexivity. Qed.
Example parse_bad : map ParseAddr ["1.2.3"; "01.2.3.4"; "1.2.3.4.5"; "1::2::3"; "12345::"; "1.2.3.256"; ""]
  = replicate 7 None.
Proof. reflexivity. Qed.
Example prefix_ok :
  (fun p => (PrefixContains p (Addr4 167838211), PrefixContains p (Addr4 184615427)))
  <$> ParsePrefix "10.0.0.0/8" = Some (true, false).
Proof. reflexivity. Qed.
Example link_local : map (fun s => IsLinkLocalUnicast <$> ParseIP s)
  ["169.254.1.1"; "fe80::1"; "::ffff:169.254.0.9"; "10.0.0.1"; "fe80::1%eth0"]
  = [Some true; Some true; Some true; Some false; None].
Proof. reflexivity. Qed.
