(* ===== verification/Model.v ===== *)
(** * Data: the rows of [server/model], the messages of [server/certmsg], identities
    and the certificate options of [server/config]

    Column types are Go's: a pointer is an [option], a slice a [list], a string
    enumeration an inductive type whose [...Other] constructor stands for any string
    that is none of the constants. A JSON text column is an [encoded] value: either
    the encoding of a value, or text that does not decode. *)

From S2P Require Import Prelude Netip.
From Stdlib Require Import QArith.
Local Open Scope Z_scope.

(** ** Enumerations (server/model/enums.go) *)

Inductive CertificateType : Type :=
| CertificateTypeUser
| CertificateTypeService
| CertificateTypePAM
| CertificateTypeConsole
| CertificateTypeOther (s : string).

#[export] Instance CertificateType_eq_dec : EqDecision CertificateType.
Proof. solve_decision. Defined.

(** [string(t)]. *)
Definition type_string (t : CertificateType) : string :=
  match t with
  | CertificateTypeUser => "user"
  | CertificateTypeService => "service"
  | CertificateTypePAM => "pam"
  | CertificateTypeConsole => "console"
  | CertificateTypeOther s => s
  end.

Inductive CertificateRequestStatus : Type :=
| StatusPending
| StatusSigning
| StatusApproved
| StatusEnrolled
| StatusDenied
| StatusExpired
| StatusFailed
| StatusOther (s : string).

#[export] Instance CertificateRequestStatus_eq_dec : EqDecision CertificateRequestStatus.
Proof. solve_decision. Defined.

Inductive DecisionOutcome : Type := DecisionApproved | DecisionDenied.

#[export] Instance DecisionOutcome_eq_dec : EqDecision DecisionOutcome.
Proof. solve_decision. Defined.

(** ** JSON columns *)

Inductive encoded (A : Type) : Type :=
| Enc (a : A)
| Undecodable (raw : string).
Arguments Enc {A} a.
Arguments Undecodable {A} raw.

(** [json.Unmarshal] of a column; [json.Marshal] of these plain structs is [Enc]. *)
Definition unmarshal {A} (e : encoded A) (what : string) : res A :=
  match e with
  | Enc a => Ok a
  | Undecodable _ => Err (Internal (text what))
  end.

(** ** Identities and claim values (service/auth.go, service/extravalue.go) *)

(** A [float64]: a finite one is an exact rational. *)
Inductive float64 : Type :=
| Finite (q : Q)
| Infinite (negative : bool)
| NaN.

Record extraValue : Type := MkExtra {
  ev_scalar : string;
  ev_list : list string;
  ev_isList : bool;
  ev_num : Q;
  ev_isNum : bool;
}.

Record Identity : Type := MkIdentity {
  id_Subject : string;
  id_Username : string;
  id_Email : string;
  id_DisplayName : string;
  id_Groups : list string;
  id_OtherAccounts : list string;
  id_ServiceAccounts : list string;
  id_ClaimGroups : option (list string);
  id_Extra : gmap string extraValue;
}.

(** [identity.Extra = extra]. *)
Definition set_Extra (i : Identity) (x : gmap string extraValue) : Identity :=
  MkIdentity (id_Subject i) (id_Username i) (id_Email i) (id_DisplayName i) (id_Groups i)
    (id_OtherAccounts i) (id_ServiceAccounts i) (id_ClaimGroups i) x.

(** ** Queue messages (server/certmsg) *)

Record RequestedOptions : Type := MkOptions {
  ro_Extensions : list string;
  ro_ForceCommand : string;
  ro_SourceAddresses : list string;
  ro_NoTouchRequired : bool;
}.

Definition no_options : RequestedOptions := MkOptions [] "" [] false.

Record SigningJob : Type := MkJob {
  job_RequestID : string;
  job_Type : CertificateType;
  job_PublicKey : string;
  job_Principals : list string;
  job_KeyID : string;
  job_RequestedOptions : RequestedOptions;
  job_ValidAfter : GoTime;
  job_ValidBefore : GoTime;
  job_Serial : Z;
}.

(** Failure codes of a signed reply; [""] is success. *)
Definition ErrCodeUnsupportedType : string := "unsupported_type".
Definition ErrCodeBadPublicKey : string := "bad_public_key".
Definition ErrCodeCAUnavailable : string := "ca_unavailable".
Definition ErrCodeSignFailed : string := "sign_failed".
Definition ErrCodeFIPSNotApproved : string := "fips_not_approved".
Definition ErrCodeLifetimeRejected : string := "lifetime_rejected".

Record SignedReply : Type := MkReply {
  rep_RequestID : string;
  rep_Type : CertificateType;
  rep_Certificate : string;
  rep_Serial : Z;
  rep_KeyID : string;
  rep_Principals : list string;
  rep_PublicKeyFingerprint : string;
  rep_CriticalOptions : gmap string string;
  rep_Extensions : list string;
  rep_ValidAfter : GoTime;
  rep_ValidBefore : GoTime;
  rep_Error : message;
  rep_ErrorCode : string;
}.

(** [SignedReply.Failed]. *)
Definition Failed (r : SignedReply) : bool := negb (empty_str (rep_ErrorCode r)).

(** ** Certificate requests (model/certificate_request.go)

    The columns written once at creation are grouped as [RequestHead]; the others
    are those a later statement updates. *)

Record ClientPolicy : Type := MkClientPolicy {
  cp_ForbiddenExtensions : list string;
  cp_FIPS : option bool;
}.

Record RequestHead : Type := MkHead {
  rh_ID : string;
  rh_Type : CertificateType;
  rh_PublicKey : string;
  rh_Username : string;
  rh_SourceIP : string;
  rh_LocalUsername : string;
  rh_LocalHostname : string;
  rh_CreatedAt : GoTime;
  rh_UserCode : string;
  rh_Hostname : string;
  rh_PAMService : string;
  rh_TTY : string;
  rh_RemoteHost : string;
  rh_RequestingUser : string;
  rh_Process : string;
  rh_CallerUID : option Z;
  rh_CallerGID : option Z;
  rh_CallerPID : option Z;
  rh_CallerPPID : option Z;
  rh_MachineID : string;
  rh_OS : string;
  rh_Client : string;
  rh_ClientMode : string;
  rh_ClientTime : option GoTime;
  rh_TrustedCAFingerprints : option (encoded (list string));
  rh_ClientPolicy : option (encoded ClientPolicy);
}.

Record CertificateRequest : Type := MkRequest {
  cr_Head : RequestHead;
  cr_UserID : option string;
  cr_RequestedOptions : encoded RequestedOptions;
  cr_ServiceAccount : string;
  cr_SerialNumber : option Z;
  cr_Status : CertificateRequestStatus;
  cr_ResolvedAt : option GoTime;
  cr_EnrollmentToken : string;
  cr_FailureReason : message;
  cr_ClaimTokenHash : option string;
  cr_ClaimedAt : option GoTime;
  cr_ClaimUserAgent : string;
}.

Definition cr_ID (r : CertificateRequest) := rh_ID (cr_Head r).
Definition cr_Type (r : CertificateRequest) := rh_Type (cr_Head r).
Definition cr_PublicKey (r : CertificateRequest) := rh_PublicKey (cr_Head r).
Definition cr_SourceIP (r : CertificateRequest) := rh_SourceIP (cr_Head r).
Definition cr_CreatedAt (r : CertificateRequest) := rh_CreatedAt (cr_Head r).
Definition cr_UserCode (r : CertificateRequest) := rh_UserCode (cr_Head r).

(** [CertificateRequest.ReportedIdentity]. *)
Definition ReportedIdentity (r : CertificateRequest) : string * string :=
  match cr_Type r with
  | CertificateTypePAM | CertificateTypeConsole =>
      (rh_Username (cr_Head r), rh_Hostname (cr_Head r))
  | _ => (rh_LocalUsername (cr_Head r), rh_LocalHostname (cr_Head r))
  end.

(** Column updates. *)
Definition set_UserID (r : CertificateRequest) (u : string) : CertificateRequest :=
  MkRequest (cr_Head r) (Some u) (cr_RequestedOptions r) (cr_ServiceAccount r)
    (cr_SerialNumber r) (cr_Status r) (cr_ResolvedAt r) (cr_EnrollmentToken r)
    (cr_FailureReason r) (cr_ClaimTokenHash r) (cr_ClaimedAt r) (cr_ClaimUserAgent r).

Definition set_Resolved (r : CertificateRequest) (st : CertificateRequestStatus)
  (at_ : GoTime) : CertificateRequest :=
  MkRequest (cr_Head r) (cr_UserID r) (cr_RequestedOptions r) (cr_ServiceAccount r)
    (cr_SerialNumber r) st (Some at_) (cr_EnrollmentToken r)
    (cr_FailureReason r) (cr_ClaimTokenHash r) (cr_ClaimedAt r) (cr_ClaimUserAgent r).

Definition set_FailureReason (r : CertificateRequest) (reason : message) : CertificateRequest :=
  MkRequest (cr_Head r) (cr_UserID r) (cr_RequestedOptions r) (cr_ServiceAccount r)
    (cr_SerialNumber r) (cr_Status r) (cr_ResolvedAt r) (cr_EnrollmentToken r)
    reason (cr_ClaimTokenHash r) (cr_ClaimedAt r) (cr_ClaimUserAgent r).

Definition set_Signing (r : CertificateRequest) (serial : Z) (granted : RequestedOptions)
  : CertificateRequest :=
  MkRequest (cr_Head r) (cr_UserID r) (Enc granted) (cr_ServiceAccount r)
    (Some serial) StatusSigning (cr_ResolvedAt r) (cr_EnrollmentToken r)
    (cr_FailureReason r) (cr_ClaimTokenHash r) (cr_ClaimedAt r) (cr_ClaimUserAgent r).

Definition set_Enrolled (r : CertificateRequest) (granted : RequestedOptions)
  (token account : string) (at_ : GoTime) : CertificateRequest :=
  MkRequest (cr_Head r) (cr_UserID r) (Enc granted) account
    (cr_SerialNumber r) StatusEnrolled (Some at_) token
    (cr_FailureReason r) (cr_ClaimTokenHash r) (cr_ClaimedAt r) (cr_ClaimUserAgent r).

Definition set_Claim (r : CertificateRequest) (hash : string) (at_ : GoTime) (ua : string)
  : CertificateRequest :=
  MkRequest (cr_Head r) (cr_UserID r) (cr_RequestedOptions r) (cr_ServiceAccount r)
    (cr_SerialNumber r) (cr_Status r) (cr_ResolvedAt r) (cr_EnrollmentToken r)
    (cr_FailureReason r) (Some hash) (Some at_) ua.

(** ** Certificate policy configuration (server/config/types_policy.go,
       server/config/types_certificates.go) *)

Inductive PolicyCondition : Type := MkCond {
  pc_Group : string;
  pc_Claim : string;
  pc_AtLeast : option float64;
  pc_AtMost : option float64;
  pc_Exactly : option float64;
  pc_Equals : option string;
  pc_OneOf : list string;
  pc_Contains : string;
  pc_AllOf : list PolicyCondition;
  pc_AnyOf : list PolicyCondition;
}.

Record LifetimePolicyTier : Type := MkTier {
  lt_Name : string;
  lt_When : PolicyCondition;
  lt_MaxDuration : Duration;
  lt_GrantExtensions : list string;
  lt_MaxEnrollmentDuration : Duration;
}.

Record SourcePolicyEntry : Type := MkSourceEntry {
  sp_CIDR : string;
  sp_MaxDuration : Duration;
  sp_Extensions : list string;
  sp_RemovedExtensions : list string;
  sp_PinSourceAddress : bool;
}.

Record LifetimePolicy : Type := MkLifetimePolicy {
  lp_DefaultDuration : Duration;
  lp_OnAbsentClaim : string;
  lp_DefaultExtensions : list string;
  lp_DefaultEnrollmentDuration : Duration;
  lp_Tiers : list LifetimePolicyTier;
  lp_SourcePolicy : list SourcePolicyEntry;
}.

(** The four per-type blocks share their shape; a field the source's block does
    not have is left at its zero value there (AllowUserAccounts and
    EnrollmentDuration are the service block's, AllowedNetworks and ClientTimeout
    the console block's, which has no RequireGroup). *)
Record CertOptions : Type := MkCertOptions {
  co_RequireGroup : string;
  co_Require : option PolicyCondition;
  co_AllowUserAccounts : bool;
  co_ValidDuration : Duration;
  co_Extensions : list string;
  co_EnrollmentDuration : Duration;
  co_AllowedNetworks : list string;
  co_ClientTimeout : Duration;
  co_KeyIDTemplate : string;
  co_LifetimePolicy : LifetimePolicy;
}.

Record CertificateOptions : Type := MkCertificateOptions {
  opt_User : CertOptions;
  opt_Service : CertOptions;
  opt_PAM : CertOptions;
  opt_Console : CertOptions;
  opt_ClientTimeout : Duration;
}.

(** ** Policy explanations (service/lifetimepolicy.go) *)

(** The rendered condition of a tier is kept as the condition it renders. *)
Record TierExplanation : Type := MkTierExplanation {
  te_Name : string;
  te_Condition : PolicyCondition;
  te_MaxDuration : Duration;
}.

Record SourceRuleExplanation : Type := MkSourceRuleExplanation {
  se_CIDR : Prefix;
  se_MaxDuration : option Duration;
  se_RemovedExtensions : list string;
  se_PinSourceAddress : bool;
}.

Record EnrollmentExplanation : Type := MkEnrollmentExplanation {
  ee_Ceiling : Duration;
  ee_Effective : Duration;
}.

Record ExtensionsExplanation : Type := MkExtensionsExplanation {
  xe_Requested : list string;
  xe_ApproverSelected : option (list string);
  xe_Granted : list string;
  xe_GrantSource : string;
  xe_Removed : list string;
  xe_Effective : list string;
}.

Record PolicyExplanation : Type := MkExplanation {
  px_V : Z;
  px_CertType : CertificateType;
  px_PolicyConfigured : bool;
  px_Tier : option TierExplanation;
  px_NoTierMatched : bool;
  px_DefaultDuration : option Duration;
  px_SourceRule : option SourceRuleExplanation;
  px_Ceiling : Duration;
  px_EffectiveDuration : Duration;
  px_Enrollment : option EnrollmentExplanation;
  px_Extensions : option ExtensionsExplanation;
}.

(** ** Decisions, certificates, enrollments, users *)

Record Decision : Type := MkDecision {
  de_ID : string;
  de_CertificateRequestID : string;
  de_Outcome : DecisionOutcome;
  de_Subject : string;
  de_Username : string;
  de_Email : string;
  de_Groups : encoded (list string);
  de_OtherAccounts : encoded (list string);
  de_ServiceAccounts : encoded (list string);
  de_SourceIP : string;
  de_UserAgent : string;
  de_AcceptLanguage : string;
  de_ForwardedFor : string;
  de_PolicyExplanation : option (encoded PolicyExplanation);
  de_Principals : option (encoded (list string));
  de_GrantedOptions : option (encoded RequestedOptions);
  de_ReportedUsername : string;
  de_ReportedHostname : string;
  de_PAMService : string;
  de_TTY : string;
  de_RemoteHost : string;
  de_RequestingUser : string;
  de_Process : string;
  de_MachineID : string;
  de_Client : string;
  de_DecidedAt : GoTime;
}.

(** [decision.Principals, decision.GrantedOptions = ...]. *)
Definition set_Grant (d : Decision) (ps : list string) (g : RequestedOptions) : Decision :=
  MkDecision (de_ID d) (de_CertificateRequestID d) (de_Outcome d) (de_Subject d)
    (de_Username d) (de_Email d) (de_Groups d) (de_OtherAccounts d) (de_ServiceAccounts d)
    (de_SourceIP d) (de_UserAgent d) (de_AcceptLanguage d) (de_ForwardedFor d)
    (de_PolicyExplanation d) (Some (Enc ps)) (Some (Enc g)) (de_ReportedUsername d)
    (de_ReportedHostname d) (de_PAMService d) (de_TTY d) (de_RemoteHost d)
    (de_RequestingUser d) (de_Process d) (de_MachineID d) (de_Client d) (de_DecidedAt d).

Record Certificate : Type := MkCertificate {
  ce_ID : string;
  ce_Type : CertificateType;
  ce_UserID : option string;
  ce_CertificateRequestID : option string;
  ce_PublicKeyFingerprint : string;
  ce_SerialNumber : Z;
  ce_KeyID : string;
  ce_Principals : list string;  (* stored joined by commas *)
  ce_CriticalOptions : encoded (gmap string string);
  ce_Extensions : encoded (list string);
  ce_IssuedAt : GoTime;
  ce_ExpiresAt : GoTime;
}.

Record Enrollment : Type := MkEnrollment {
  en_ID : string;
  en_Code : string;
  en_PublicKey : string;
  en_OptionSet : encoded RequestedOptions;
  en_KeyID : string;
  en_Principals : encoded (list string);
  en_ServiceAccount : string;
  en_CertificateRequestID : option string;
  en_UserID : string;
  en_CreatedAt : GoTime;
  en_ExpiresAt : GoTime;
  en_CertificateDurationSeconds : option Z;
  en_RedeemedAt : option GoTime;
  en_NotificationEmail : string;
  en_ExpiryReminderSentAt : option GoTime;
  en_LastExpiredAttemptNotifiedAt : option GoTime;
}.

Record EnrollmentRetrieval : Type := MkRetrieval {
  er_ID : string;
  er_EnrollmentID : string;
  er_SourceIP : string;
  er_CertificateSerial : Z;
  er_RetrievedAt : GoTime;
  er_Succeeded : bool;
}.

Record User : Type := MkUser {
  us_ID : string;
  us_Subject : string;
  us_Username : string;
  us_Email : string;
  us_DisplayName : string;
  us_OtherAccounts : option (encoded (list string));
  us_ServiceAccounts : option (encoded (list string));
  us_ExtraFields : option (encoded (gmap string extraValue));
  us_CreatedAt : GoTime;
  us_UpdatedAt : GoTime;
  us_DisabledAt : option GoTime;
}.

(** ** Inputs of the approval handlers (service/certrequest.go) *)

Record DecisionContext : Type := MkDecisionContext {
  dc_SourceIP : string;
  dc_UserAgent : string;
  dc_AcceptLanguage : string;
  dc_ForwardedFor : string;
}.

(** [Extensions] is an [option]: nil (no choice) and empty (a cleared set) differ. *)
Record ApprovalSelection : Type := MkSelection {
  sel_ServiceAccount : string;
  sel_Principals : list string;
  sel_Extensions : option (list string);
  sel_NotificationEmail : string;
}.

Record WaitOutcome : Type := MkOutcome {
  wo_Status : CertificateRequestStatus;
  wo_Certificate : string;
  wo_Code : string;
  wo_ServiceAccount : string;
  wo_ExpiresAt : GoTime;
  wo_resolvedAt : GoTime;
}.

(** The outcome as published on a wake topic: an unset expiry is absent. *)
Record requestOutcomeMessage : Type := MkOutcomeMessage {
  om_Status : CertificateRequestStatus;
  om_Certificate : string;
  om_Code : string;
  om_ServiceAccount : string;
  om_ExpiresAt : option GoTime;
}.

(** ** Audit events (service/audit.go) *)

Inductive AuditAction : Type :=
| AuditCertRequested
| AuditCertRequestRefusedNetwork
| AuditCertClaimed
| AuditCertCodeResolved
| AuditCertApproved
| AuditCertDenied
| AuditCertExpired
| AuditCertIssued
| AuditCertSignFailed
| AuditEnrollmentCodeCreated
| AuditEnrollmentRedeemed
| AuditEnrollmentExpired
| AuditEnrollmentNotificationEmailSet.

#[export] Instance AuditAction_eq_dec : EqDecision AuditAction.
Proof. solve_decision. Defined.

Inductive AuditValue : Type :=
| AVString (s : string)
| AVStrings (l : list string)
| AVInt (n : option Z)
| AVTime (t : option GoTime)
| AVDuration (d : Duration)
| AVBool (b : bool)
| AVMessage (m : message)
| AVMap (m : gmap string string).

Record AuditSubject : Type := MkSubject {
  as_UserID : string;
  as_Subject : string;
  as_Username : string;
  as_Email : string;
  as_Groups : list string;
}.

Definition AuditSubjectFromIdentity (i : Identity) (userID : string) : AuditSubject :=
  MkSubject userID (id_Subject i) (id_Username i) (id_Email i) (id_Groups i).

Record AuditEvent : Type := MkAudit {
  ae_Action : AuditAction;
  ae_Actor : option AuditSubject;
  ae_System : bool;
  ae_Target : option AuditSubject;
  ae_Reason : message;
  ae_Detail : gmap string AuditValue;
  ae_OccurredAt : GoTime;
}.
