(* ===== verification/UserCode.v ===== *)
(** * Console user codes (server/service/consolecode.go)

    A code is eight Crockford Base32 symbols minted from five random bytes, shown
    grouped and typed back by a human. Text is a list of runes (code points), which
    is what Go's [range] over a string yields. *)

From S2P Require Import Prelude Netip.

(** ** Constants and helpers *)

Definition userCodeAlphabet : list Z := bytes "0123456789ABCDEFGHJKMNPQRSTVWXYZ".
Definition userCodeLength : nat := 8.
Definition userCodeGroupSize : nat := 4.

(** [unicode.IsSpace], what [strings.TrimSpace] trims. *)
Definition is_space (r : Z) : bool :=
  contains [9; 10; 11; 12; 13; 32; 133; 160; 5760; 8232; 8233; 8239; 8287; 12288] r
  || ((8192 <=? r) && (r <=? 8202)).

Fixpoint trim_left (l : list Z) : list Z :=
  match l with
  | r :: rest => if is_space r then trim_left rest else l
  | [] => []
  end.

Definition TrimSpace (l : list Z) : list Z := rev (trim_left (rev (trim_left l))).

(** [unicode.ToUpper] as far as ASCII is concerned: besides a-z, exactly U+0131
    (dotless i) and U+017F (long s) have an ASCII upper case. Any other rune keeps
    a non-ASCII upper case, which no branch below tells apart. *)
Definition to_upper_rune (r : Z) : Z :=
  if (97 <=? r) && (r <=? 122) then r - 32
  else if r =? 305 then 73
  else if r =? 383 then 83
  else r.

(** ** Minting *)

(** [acc = acc<<8 | uint64(b)] over the random bytes, in a 64-bit word. *)
Definition accumulate (raw : list Z) : Z :=
  foldl (fun acc b => Z.lor (Z.shiftl acc 8 mod 2 ^ 64) b) 0 raw.

(** [newUserCode] on the bytes [rand.Read] filled: five bits per symbol, from the top. *)
Definition newUserCode (raw : list Z) : list Z :=
  map (fun i => default 0 (userCodeAlphabet !! Z.to_nat (Z.land (Z.shiftr (accumulate raw) (Z.of_nat i * 5)) 31)))
    (rev (seq 0 userCodeLength)).

(** ** Display and normalization *)

Fixpoint format_from (i : nat) (code : list Z) : list Z :=
  match code with
  | [] => []
  | r :: rest =>
      (if (0 <? i)%nat && (i mod userCodeGroupSize =? 0)%nat then [45] else [])
      ++ r :: format_from (S i) rest
  end.

Definition FormatUserCode (code : list Z) : list Z :=
  if (length code <=? userCodeGroupSize)%nat then code else format_from 0 code.

(** The loop body of [NormalizeUserCode] on an upper-cased rune: dropped,
    mapped to a symbol, or refused. *)
Inductive rune_class : Type := Dropped | Symbol (c : Z) | Refused.

Definition classify (r : Z) : rune_class :=
  if contains [45; 32; 9] r then Dropped
  else if contains [73; 76] r then Symbol 49
  else if r =? 79 then Symbol 48
  else if contains userCodeAlphabet r then Symbol r
  else Refused.

Fixpoint normalize_runes (l : list Z) : option (list Z) :=
  match l with
  | [] => Some []
  | r :: rest =>
      match classify r with
      | Dropped => normalize_runes rest
      | Symbol c => cons c <$> normalize_runes rest
      | Refused => None
      end
  end.

Definition NormalizeUserCode (input : list Z) : res (list Z) :=
  match normalize_runes (map to_upper_rune (TrimSpace input)) with
  | None => Err (InvalidRequestError (text "not a character a code can contain"))
  | Some out =>
      if (length out =? userCodeLength)%nat then Ok out
      else Err (InvalidRequestError (text "a code is 8 characters"))
  end.

(** ** What a stored code is *)

Definition valid_code (code : list Z) : Prop :=
  length code = userCodeLength /\ Forall (fun c => c ∈ userCodeAlphabet) code.

#[export] Instance valid_code_dec code : Decision (valid_code code).
Proof. unfold valid_code. apply _. Defined.

(** ** Lemmas *)

(** Five bytes never overflow the 64-bit accumulator. *)
Lemma accumulate_big_endian raw :
  bytes_ok raw -> (length raw <= 8)%nat -> accumulate raw = big_endian raw.
Proof.
  unfold accumulate. induction raw as [|b raw IH] using rev_ind; intros H Hl; [done|].
  rewrite length_app in Hl; simpl in Hl.
  apply bytes_ok_snoc in H as [Hr Hb].
  rewrite foldl_app; simpl. rewrite IH by (done || lia).
  pose proof (big_endian_bound raw Hr) as Hbd.
  assert (256 ^ Z.of_nat (length raw) <= 256 ^ 7) by (apply Z.pow_le_mono_r; lia).
  rewrite Z.mod_small.
  - rewrite (lor_shiftl_add _ b 8) by lia. by rewrite big_endian_snoc.
  - rewrite Z.shiftl_mul_pow2 by lia. change (2 ^ 64) with (256 ^ 7 * 256). lia.
Qed.

(** A 40-bit number is determined by its eight five-bit digits. *)
Lemma quintets_inj a b :
  0 <= a < 2 ^ 40 -> 0 <= b < 2 ^ 40 ->
  (forall i, (i < 8)%nat ->
     Z.land (Z.shiftr a (Z.of_nat i * 5)) 31 = Z.land (Z.shiftr b (Z.of_nat i * 5)) 31) ->
  a = b.
Proof.
  intros Ha Hb H. apply Z.bits_inj'. intros n Hn.
  destruct (Z.lt_ge_cases n 40) as [Hlt|Hge].
  - pose proof (Z.div_mod n 5) as Hdm. pose proof (Z.mod_pos_bound n 5) as Hm.
    specialize (H (Z.to_nat (n / 5))). rewrite Z2Nat.id in H by (apply Z.div_pos; lia).
    assert (n / 5 < 8) by (apply Z.div_lt_upper_bound; lia).
    apply (f_equal (fun z => Z.testbit z (n mod 5))) in H; [|lia].
    rewrite !Z.land_spec, !Z.shiftr_spec in H by lia.
    replace (n mod 5 + n / 5 * 5) with n in H by lia.
    change 31 with (Z.ones 5) in H. rewrite Z.ones_spec_low, !andb_true_r in H by lia. done.
  - assert (forall x, 0 <= x < 2 ^ 40 -> Z.testbit x n = false) as Hhi.
    { intros x Hx. destruct (Z.eq_dec x 0) as [->|]; [apply Z.bits_0|].
      apply Z.bits_above_log2; [lia|]. apply Z.log2_lt_pow2; [lia|].
      eapply Z.lt_le_trans; [apply Hx|]. apply Z.pow_le_mono_r; lia. }
    by rewrite !Hhi.
Qed.

Lemma land_31_bound x : 0 <= Z.land x 31 < 32.
Proof.
  change 31 with (Z.ones 5). rewrite Z.land_ones by lia. apply Z.mod_pos_bound. lia.
Qed.

Lemma alphabet_forall (P : Z -> bool) :
  forallb P userCodeAlphabet = true -> forall c, c ∈ userCodeAlphabet -> P c = true.
Proof. intros H c Hc. apply list_elem_of_In in Hc. exact (proj1 (forallb_forall _ _) H c Hc). Qed.

(** Every symbol of the alphabet survives upper-casing, is no space and stands for itself. *)
Lemma alphabet_symbol c :
  c ∈ userCodeAlphabet ->
  to_upper_rune c = c /\ is_space c = false /\ classify c = Symbol c.
Proof.
  intros Hc.
  pose proof (alphabet_forall
    (fun c => (to_upper_rune c =? c) && negb (is_space c) &&
              match classify c with Symbol d => d =? c | _ => false end) eq_refl c Hc) as H.
  cbv beta in H. unbool. repeat split; [done|done|].
  destruct (classify c) as [|d|]; [done| |done]. unbool. by subst.
Qed.

Lemma classify_symbol r c : classify r = Symbol c -> c ∈ userCodeAlphabet.
Proof.
  unfold classify. repeat split_match; intros; simplify_eq; unbool; try done;
    apply (bool_decide_unpack _); vm_compute; done.
Qed.

Lemma normalize_runes_alphabet l : forall out,
  normalize_runes l = Some out -> Forall (fun c => c ∈ userCodeAlphabet) out.
Proof.
  induction l as [|r l IH]; intros out; simpl; [naive_solver|].
  destruct (classify r) eqn:E; [apply IH| |done].
  destruct (normalize_runes l); simpl; [|done]. intros [= <-].
  constructor; [by eapply classify_symbol|by apply IH].
Qed.

(** A separator between alphabet symbols is dropped, so formatting is invisible. *)
Lemma normalize_format_from code : forall i,
  Forall (fun c => c ∈ userCodeAlphabet) code ->
  normalize_runes (map to_upper_rune (format_from i code)) = Some code.
Proof.
  induction code as [|c code IH]; intros i H; [done|].
  apply Forall_cons in H as [Hc H]. simpl.
  destruct (alphabet_symbol c Hc) as (Hu & _ & Hs).
  destruct (_ && _); simpl; rewrite ?Hu, Hs, IH by done; done.
Qed.

Lemma normalize_alphabet code :
  Forall (fun c => c ∈ userCodeAlphabet) code ->
  normalize_runes (map to_upper_rune code) = Some code.
Proof.
  induction 1 as [|c code Hc H IH]; [done|]. simpl.
  destruct (alphabet_symbol c Hc) as (-> & _ & ->). by rewrite IH.
Qed.

Lemma trim_left_id c l : is_space c = false -> trim_left (c :: l) = c :: l.
Proof. intros H. simpl. by rewrite H. Qed.

(** Text that starts and ends with a non-space is not trimmed. *)
Lemma TrimSpace_id l c d mid :
  l = c :: mid -> last l = Some d -> is_space c = false -> is_space d = false ->
  TrimSpace l = l.
Proof.
  intros -> Hl Hc Hd. unfold TrimSpace. rewrite trim_left_id by done.
  apply last_Some in Hl as [l' Hl']. rewrite Hl', rev_app_distr. simpl.
  rewrite Hd. simpl. by rewrite rev_involutive.
Qed.

Lemma format_from_last code : forall i c, last code = Some c -> last (format_from i code) = Some c.
Proof.
  induction code as [|x code IH]; intros i c H; [done|].
  simpl. destruct code as [|y code].
  - simpl in *. destruct (_ && _); simpl; done.
  - rewrite last_cons_cons in H. specialize (IH (S i) c H).
    assert (exists z t, format_from (S i) (y :: code) = z :: t) as (z & t & Hz).
    { cbn [format_from]. case_match; simpl; eauto. }
    rewrite Hz in *. case_match; simpl; rewrite ?last_cons_cons; done.
Qed.

Lemma format_from_head c code : format_from 0 (c :: code) = c :: format_from 1 code.
Proof. done. Qed.

Lemma TrimSpace_FormatUserCode code :
  Forall (fun c => c ∈ userCodeAlphabet) code -> code <> [] ->
  TrimSpace (FormatUserCode code) = FormatUserCode code.
Proof.
  intros H Hne. destruct code as [|c code]; [done|].
  destruct (last (c :: code)) as [d|] eqn:Hl; [|apply last_None in Hl; done].
  assert (d ∈ c :: code) as Hd.
  { apply last_Some in Hl as [l' ->]. set_solver. }
  assert (is_space c = false /\ is_space d = false) as [Hc' Hd'].
  { rewrite Forall_forall in H. split; apply alphabet_symbol, H; [left|done]. }
  unfold FormatUserCode. destruct (_ <=? _)%nat.
  - by eapply TrimSpace_id.
  - eapply TrimSpace_id; [apply format_from_head|by apply format_from_last|done|done].
Qed.

Lemma newUserCode_alphabet raw : Forall (fun c => c ∈ userCodeAlphabet) (newUserCode raw).
Proof.
  unfold newUserCode. apply Forall_forall. intros c Hc.
  apply list_elem_of_In, in_map_iff in Hc as (i & <- & _).
  destruct (userCodeAlphabet !! _) as [c|] eqn:E; simpl; [by eapply list_elem_of_lookup_2|].
  apply lookup_ge_None in E. pose proof (land_31_bound (Z.shiftr (accumulate raw) (Z.of_nat i * 5))).
  simpl in E. lia.
Qed.

(** Equal codes have equal five-bit digits, because the alphabet has no repeats. *)
Lemma newUserCode_digits raw raw' :
  newUserCode raw = newUserCode raw' ->
  forall i, (i < 8)%nat ->
    Z.land (Z.shiftr (accumulate raw) (Z.of_nat i * 5)) 31
    = Z.land (Z.shiftr (accumulate raw') (Z.of_nat i * 5)) 31.
Proof.
  intros E i Hi. unfold newUserCode in E.
  assert (i ∈ rev (seq 0 userCodeLength)) as Hin.
  { apply list_elem_of_In. rewrite <- in_rev.
    apply in_seq. unfold userCodeLength. lia. }
  apply list_elem_of_lookup in Hin as [k Hk].
  pose proof (f_equal (fun l => l !! k) E) as Ek. cbv beta in Ek.
  rewrite !list_lookup_fmap, Hk in Ek. simpl in Ek.
  pose proof (land_31_bound (Z.shiftr (accumulate raw) (Z.of_nat i * 5))) as B1.
  pose proof (land_31_bound (Z.shiftr (accumulate raw') (Z.of_nat i * 5))) as B2.
  set (x := Z.land (Z.shiftr (accumulate raw) (Z.of_nat i * 5)) 31) in *.
  set (y := Z.land (Z.shiftr (accumulate raw') (Z.of_nat i * 5)) 31) in *.
  destruct (lookup_lt_is_Some_2 userCodeAlphabet (Z.to_nat x)) as [c Hc]; [simpl; lia|].
  destruct (lookup_lt_is_Some_2 userCodeAlphabet (Z.to_nat y)) as [d Hd]; [simpl; lia|].
  rewrite Hc, Hd in Ek. simpl in Ek. injection Ek as ->.
  assert (NoDup userCodeAlphabet) as Hnd by (apply (bool_decide_unpack _); vm_compute; done).
  pose proof (NoDup_lookup _ _ _ _ Hnd Hc Hd). lia.
Qed.

(** Lower-casing as a hurried typist does. *)
Definition lower (r : Z) : Z := if (65 <=? r) && (r <=? 90) then r + 32 else r.

Lemma lower_symbol c :
  c ∈ userCodeAlphabet -> to_upper_rune (lower c) = c /\ is_space (lower c) = false.
Proof.
  intros Hc.
  pose proof (alphabet_forall
    (fun c => (to_upper_rune (lower c) =? c) && negb (is_space (lower c))) eq_refl c Hc) as H.
  cbv beta in H. unbool. done.
Qed.

Lemma normalize_lower code :
  Forall (fun c => c ∈ userCodeAlphabet) code ->
  normalize_runes (map to_upper_rune (map lower code)) = Some code.
Proof.
  induction 1 as [|c code Hc H IH]; [done|]. simpl.
  destruct (alphabet_symbol c Hc) as (_ & _ & Hs). destruct (lower_symbol c Hc) as [-> _].
  by rewrite Hs, IH.
Qed.

(** Text whose ends are no spaces, and what [TrimSpace] does with it. *)
Definition solid_edges (l : list Z) : Prop :=
  exists c d, head l = Some c /\ last l = Some d /\ is_space c = false /\ is_space d = false.

Lemma TrimSpace_solid l : solid_edges l -> TrimSpace l = l.
Proof.
  intros (c & d & Hh & Hl & Hc & Hd). destruct l as [|x l]; [done|].
  injection Hh as ->. by eapply TrimSpace_id.
Qed.

Lemma TrimSpace_padded l : solid_edges l -> TrimSpace (32 :: l ++ [10]) = l.
Proof.
  intros He. rewrite <- (TrimSpace_solid l He) at 2. destruct He as (c & d & Hh & _ & Hc & _).
  destruct l as [|x l]; [done|]. injection Hh as ->. unfold TrimSpace.
  replace (trim_left (32 :: (c :: l) ++ [10])) with ((c :: l) ++ [10])
    by (simpl; by rewrite Hc).
  rewrite rev_app_distr. rewrite (trim_left_id c l Hc). done.
Qed.

Lemma solid_edges_forall l (P : Z -> Prop) :
  (forall c, P c -> is_space c = false) -> Forall P l -> l <> [] -> solid_edges l.
Proof.
  intros HP Hl Hne. destruct l as [|c l]; [done|].
  destruct (last (c :: l)) as [d|] eqn:E; [|apply last_None in E; done].
  exists c, d. repeat split; [done|by apply HP; inversion Hl|].
  apply HP. rewrite Forall_forall in Hl. apply Hl.
  apply last_Some in E as [l' ->]. set_solver.
Qed.

Lemma TrimSpace_alphabet code :
  Forall (fun c => c ∈ userCodeAlphabet) code -> code <> [] -> TrimSpace code = code.
Proof.
  intros H Hne. apply TrimSpace_solid.
  apply (solid_edges_forall code (fun c => c ∈ userCodeAlphabet)); [|done|done].
  intros c Hc. by apply alphabet_symbol.
Qed.

Lemma lower_alphabet_edges code :
  Forall (fun c => c ∈ userCodeAlphabet) code -> code <> [] -> solid_edges (map lower code).
Proof.
  intros H Hne. apply (solid_edges_forall _ (fun x => is_space x = false)); [done| |by destruct code].
  apply Forall_map. eapply Forall_impl; [exact H|]. intros c Hc. by apply lower_symbol.
Qed.

(** ** Theorems *)

(** C35: whatever five random bytes are drawn, the minted code is a well-formed stored
    code, and distinct draws give distinct codes: eight symbols carry all 40 bits. *)
Theorem newUserCode_faithful raw raw' :
  bytes_ok raw -> bytes_ok raw' -> length raw = 5%nat -> length raw' = 5%nat ->
  valid_code (newUserCode raw) /\ (newUserCode raw = newUserCode raw' -> raw = raw').
Proof.
  intros H H' Hl Hl'.
  assert (forall r, bytes_ok r -> length r = 5%nat -> 0 <= accumulate r < 2 ^ 40) as Hb.
  { intros r Hr Hlr. rewrite accumulate_big_endian by (done || lia).
    pose proof (big_endian_bound r Hr) as B. rewrite Hlr in B. exact B. }
  split; [split; [done|apply newUserCode_alphabet]|].
  intros E. apply big_endian_inj; [done|done|lia|].
  rewrite <- !accumulate_big_endian by (done || lia).
  apply quintets_inj; [by apply Hb|by apply Hb|]. by apply newUserCode_digits.
Qed.

Lemma newUserCode_faithful_witness :
  valid_code (newUserCode [1; 2; 3; 4; 5])
  /\ (newUserCode [1; 2; 3; 4; 5] = newUserCode [1; 2; 3; 4; 5] -> [1; 2; 3; 4; 5] = [1; 2; 3; 4; 5]).
Proof.
  apply (newUserCode_faithful [1; 2; 3; 4; 5] [1; 2; 3; 4; 5]);
    [apply (bool_decide_unpack _); vm_compute; done ..| |]; reflexivity.
Defined.



(** C37: whatever a human types, a code that comes out is well-formed, so the lookup
    key never carries a separator, a lower-case letter or an ambiguous I, L, O, U;
    and normalizing is idempotent. *)
Theorem NormalizeUserCode_sound input code :
  NormalizeUserCode input = Ok code ->
  valid_code code /\ NormalizeUserCode code = Ok code
  /\ Forall (fun c => c ∉ bytes "ILOUilou- ") code.
Proof.
  unfold NormalizeUserCode. destruct (normalize_runes _) as [out|] eqn:E; [|done].
  destruct (_ =? _)%nat eqn:Hl; [|done]. intros [= ->].
  apply normalize_runes_alphabet in E. apply Nat.eqb_eq in Hl as Hl'.
  assert (code <> []) by (intros ->; discriminate Hl').
  repeat split; [done|done| |].
  - rewrite TrimSpace_alphabet by done. rewrite normalize_alphabet, Hl by done. done.
  - eapply Forall_impl; [exact E|]. intros c Hc. apply contains_false.
    apply negb_true_iff.
    exact (alphabet_forall (fun c => negb (contains (bytes "ILOUilou- ") c)) eq_refl c Hc).
Qed.

Lemma NormalizeUserCode_sound_witness :
  NormalizeUserCode (bytes " k7m4 - qpox ") = Ok (bytes "K7M4QP0X")
  /\ valid_code (bytes "K7M4QP0X").
Proof.
  split; [reflexivity|].
  exact (proj1 (NormalizeUserCode_sound (bytes " k7m4 - qpox ") (bytes "K7M4QP0X") eq_refl)).
Defined.
