(* ===== verification/Accounts.v ===== *)
(** * Principals and accounts

    [ValidatePrincipal] (internal/crypto/ssh/principal.go), the accounts an identity
    holds and the linkage checks that tie a certificate's principals to them
    (server/service/certrequest.go), the FIPS key policy (internal/fipsmode) and the
    role gates of [config.AdminConfig]. *)

From S2P Require Import Prelude Netip Model.

(** ** Principal names *)

(** The class [[a-zA-Z0-9._-]]. *)
Definition principal_char (c : Z) : bool :=
  is_digit c || ((97 <=? c) && (c <=? 122)) || ((65 <=? c) && (c <=? 90)) || contains [46; 95; 45] c.

Definition ValidatePrincipal (principal : string) : res unit :=
  if empty_str principal then Err (Internal (text "principal cannot be empty"))
  else if (255 <? String.length principal)%nat then
    Err (Internal (text "principal exceeds maximum length of 255 characters"))
  else if negb (forallb principal_char (bytes principal)) then
    Err (Internal (Msg "principal contains invalid characters: %q" [principal]))
  else Ok tt.

(** The loop [for _, p := range principals { if err := ValidatePrincipal(p) ... }]. *)
Fixpoint validate_principals (l : list string) : res unit :=
  match l with
  | [] => Ok tt
  | p :: rest => res_bind (ValidatePrincipal p) (fun _ => validate_principals rest)
  end.

(** ** Held accounts *)

Definition heldAccounts (i : Identity) : list string :=
  append_all_new [id_Username i] (id_OtherAccounts i).

(** The loop that skips empty and repeated accounts. *)
Definition append_nonempty (out : list string) (xs : list string) : list string :=
  append_all_new out (filter (fun a => a <> "") xs).

Definition ApprovableServiceAccounts (i : Identity) (allowUserAccounts : bool) : list string :=
  let accounts := append_nonempty [] (id_ServiceAccounts i) in
  if allowUserAccounts then append_nonempty accounts (heldAccounts i) else accounts.

Definition UserOwnServiceAccounts (i : Identity) (allowUserAccounts : bool) : list string :=
  if allowUserAccounts then
    append_all_new [] (filter (fun a => a <> "" /\ a ∉ id_ServiceAccounts i) (heldAccounts i))
  else [].

(** ** Linkage checks *)

Definition checkServiceAccountLinkage (i : Identity) (serviceAccount : string)
  (allowUserAccounts : bool) : res unit :=
  if empty_str serviceAccount then
    Err (InvalidRequestError (text "approving a service certificate requires choosing a service account"))
  else if contains (id_ServiceAccounts i) serviceAccount then Ok tt
  else if allowUserAccounts && contains (heldAccounts i) serviceAccount then Ok tt
  else Err (ForbiddenError (Msg "identity is not associated with service account %q" [serviceAccount])).

Fixpoint check_selected (allowed selected : list string) : res unit :=
  match selected with
  | [] => Ok tt
  | p :: rest =>
      if contains allowed p then check_selected allowed rest
      else Err (ForbiddenError (Msg "approver does not hold principal %q" [p]))
  end.

Definition checkUserPrincipalLinkage (i : Identity) (selected : list string) : res unit :=
  check_selected (heldAccounts i) selected.

(** ** FIPS key policy *)

Inductive SSHKeyType : Type := SSHKeyTypeEd25519 | SSHKeyTypeECDSA | SSHKeyTypeRSA.

#[export] Instance SSHKeyType_eq_dec : EqDecision SSHKeyType.
Proof. solve_decision. Defined.

Definition fipsApprovedKeyTypes : list SSHKeyType := [SSHKeyTypeECDSA; SSHKeyTypeRSA].

Definition IsApprovedInFIPS (t : SSHKeyType) : bool := contains fipsApprovedKeyTypes t.

Definition FromSSHAlgorithm (algo : string) : option SSHKeyType :=
  if bool_decide (algo = "ssh-ed25519") then Some SSHKeyTypeEd25519
  else if bool_decide (algo = "ssh-rsa") then Some SSHKeyTypeRSA
  else if contains ["ecdsa-sha2-nistp256"; "ecdsa-sha2-nistp384"; "ecdsa-sha2-nistp521"] algo
  then Some SSHKeyTypeECDSA
  else None.

(** ** Roles (config.AdminConfig) *)

Record AdminConfig : Type := MkAdmin {
  adm_RequireGroup : string;
  adm_SOCGroup : string;
  adm_AuditorGroup : string;
}.

(** [containsGroup]: an unset group is held by nobody. *)
Definition containsGroup (groups : list string) (want : string) : bool :=
  negb (empty_str want) && contains groups want.

Definition IsAdminEnabled (a : AdminConfig) : bool := negb (empty_str (adm_RequireGroup a)).
Definition IsSOCEnabled (a : AdminConfig) : bool := negb (empty_str (adm_SOCGroup a)).
Definition IsAuditorEnabled (a : AdminConfig) : bool := negb (empty_str (adm_AuditorGroup a)).

Definition GrantsAdmin (a : AdminConfig) (groups : list string) : bool :=
  IsAdminEnabled a && containsGroup groups (adm_RequireGroup a).
Definition GrantsSOC (a : AdminConfig) (groups : list string) : bool :=
  if GrantsAdmin a groups then true
  else IsSOCEnabled a && containsGroup groups (adm_SOCGroup a).
Definition GrantsAuditor (a : AdminConfig) (groups : list string) : bool :=
  if GrantsSOC a groups then true
  else IsAuditorEnabled a && containsGroup groups (adm_AuditorGroup a).

(** ** Lemmas *)

Lemma ValidatePrincipal_ok p :
  ValidatePrincipal p = Ok tt <->
  p <> "" /\ (String.length p <= 255)%nat /\ Forall (fun c => principal_char c = true) (bytes p).
Proof.
  unfold ValidatePrincipal. destruct (empty_str p) eqn:E1; unbool; [naive_solver|].
  destruct (255 <? _)%nat eqn:E2.
  { apply Nat.ltb_lt in E2. naive_solver lia. }
  apply Nat.ltb_ge in E2. destruct (negb _) eqn:E3; unbool.
  - split; [done|]. intros (_ & _ & H). exfalso.
    assert (forallb principal_char (bytes p) = true); [|congruence].
    apply forallb_forall. intros x Hx. rewrite Forall_forall in H. by apply H, list_elem_of_In.
  - rewrite forallb_forall in E3. split; [|done]. intros _. repeat split; [done|done|].
    apply Forall_forall. intros x Hx%list_elem_of_In. by apply E3.
Qed.

Lemma validate_principals_ok l :
  validate_principals l = Ok tt <-> Forall (fun p => ValidatePrincipal p = Ok tt) l.
Proof.
  induction l as [|p l IH]; simpl; [done|].
  rewrite Forall_cons, <- IH. destruct (ValidatePrincipal p) as [[]|]; simpl; naive_solver.
Qed.

Lemma elem_of_heldAccounts i a : a ∈ heldAccounts i <-> a = id_Username i \/ a ∈ id_OtherAccounts i.
Proof.
  unfold heldAccounts. rewrite elem_of_append_all_new, list_elem_of_singleton. done.
Qed.

Lemma heldAccounts_head i : exists rest, heldAccounts i = id_Username i :: rest.
Proof.
  destruct (prefix_append_all_new (id_OtherAccounts i) [id_Username i]) as [rest H].
  by exists rest.
Qed.

Lemma check_selected_ok allowed selected :
  check_selected allowed selected = Ok tt <-> selected ⊆ allowed.
Proof.
  induction selected as [|p l IH]; simpl; [set_solver|].
  destruct (contains allowed p) eqn:E; unbool.
  - rewrite IH. set_solver.
  - split; [done|]. intros H. exfalso. apply E, H. left.
Qed.

Lemma checkUserPrincipalLinkage_ok i selected :
  checkUserPrincipalLinkage i selected = Ok tt <-> selected ⊆ heldAccounts i.
Proof. apply check_selected_ok. Qed.

Lemma elem_of_Approvable i allow a :
  a ∈ ApprovableServiceAccounts i allow <->
  a <> "" /\ (a ∈ id_ServiceAccounts i \/ allow = true /\ a ∈ heldAccounts i).
Proof.
  unfold ApprovableServiceAccounts, append_nonempty.
  destruct allow; rewrite !elem_of_append_all_new, ?list_elem_of_filter; set_solver.
Qed.

Lemma service_linkage_ok i account allow :
  checkServiceAccountLinkage i account allow = Ok tt <->
  account ∈ ApprovableServiceAccounts i allow.
Proof.
  rewrite elem_of_Approvable. unfold checkServiceAccountLinkage.
  repeat split_match; unbool; intuition congruence.
Qed.

(** ** Theorems *)

(** C32: the picker and the check agree. The approval page offers exactly the accounts
    an approval would accept, each once; an empty choice is the caller's mistake
    (invalid request), any other refused account is forbidden. *)
Theorem picker_matches_linkage i account allow :
  (account ∈ ApprovableServiceAccounts i allow <-> checkServiceAccountLinkage i account allow = Ok tt)
  /\ NoDup (ApprovableServiceAccounts i allow)
  /\ (account ∉ ApprovableServiceAccounts i allow ->
      checkServiceAccountLinkage i account allow =
        if empty_str account
        then Err (InvalidRequestError (text "approving a service certificate requires choosing a service account"))
        else Err (ForbiddenError (Msg "identity is not associated with service account %q" [account]))).
Proof.
  split_and!.
  - by rewrite service_linkage_ok.
  - unfold ApprovableServiceAccounts, append_nonempty.
    destruct allow; simpl; auto using NoDup_nil_2 with ssoossh.
  - rewrite elem_of_Approvable. unfold checkServiceAccountLinkage. intros H.
    repeat split_match; unbool; done || (exfalso; tauto).
Qed.
