(* ===== verification/Condition.v ===== *)
(** * Policy conditions (server/service/policycondition.go, extravalue.go)

    The closed condition grammar of certificate policy: parsing it at startup,
    evaluating it against an identity, and what both promise. *)

From S2P Require Import Prelude Netip Model.
From Stdlib Require Import QArith.
Local Open Scope Z_scope.

(** ** Claim values *)

Section extra_values.
(** [strconv.ParseFloat(s, 64)]; [None] is its error. *)
Context (ParseFloat : string -> option float64).

Definition scalarExtra (s : string) : extraValue :=
  let plain := MkExtra s [] false 0 false in
  if empty_str s then plain
  else match ParseFloat s with
       | Some (Finite q) => MkExtra s [] false q true
       | _ => plain
       end.
End extra_values.

Definition listExtra (l : list string) : extraValue := MkExtra "" l true 0 false.

Definition Number (v : extraValue) : Q * bool := (ev_num v, ev_isNum v && negb (ev_isList v)).
Definition List (v : extraValue) : list string * bool :=
  if negb (ev_isList v) then ([], false) else (ev_list v, true).
Definition Scalar (v : extraValue) : string * bool :=
  if ev_isList v || empty_str (ev_scalar v) then ("", false) else (ev_scalar v, true).

(** ** Float comparisons *)

Definition float_lt (a b : float64) : bool :=
  match a, b with
  | NaN, _ | _, NaN => false
  | Infinite na, Infinite nb => na && negb nb
  | Infinite n, Finite _ => n
  | Finite _, Infinite n => negb n
  | Finite p, Finite q => negb (Qle_bool q p)
  end.

Definition float_le (a b : float64) : bool :=
  match a, b with
  | NaN, _ | _, NaN => false
  | Infinite na, Infinite nb => na || negb nb
  | Infinite n, Finite _ => n
  | Finite _, Infinite n => negb n
  | Finite p, Finite q => Qle_bool p q
  end.

Definition finite (b : float64) : bool := match b with Finite _ => true | _ => false end.

(** ** Parsed conditions *)

Inductive condKind : Type := condGroup | condClaim | condAllOf | condAnyOf.

(** One comparator family, with [exactly] already desugared. *)
Record comparator : Type := MkComparator {
  cmp_atLeast : option float64;
  cmp_atMost : option float64;
  cmp_equals : option string;
  cmp_oneOf : list string;
  cmp_contains : string;
}.

Definition no_comparator : comparator := MkComparator None None None [] "".

Inductive parsedCondition : Type := MkParsed {
  pd_kind : condKind;
  pd_group : string;
  pd_claim : string;
  pd_cmp : comparator;
  pd_children : list parsedCondition;
  pd_rendered : PolicyCondition;
}.

(** ** Parsing *)

Definition IsZero (c : PolicyCondition) : bool :=
  empty_str (pc_Group c) && empty_str (pc_Claim c)
  && negb (bool_decide (is_Some (pc_AtLeast c))) && negb (bool_decide (is_Some (pc_AtMost c)))
  && negb (bool_decide (is_Some (pc_Exactly c))) && negb (bool_decide (is_Some (pc_Equals c)))
  && (length (pc_OneOf c) =? 0)%nat && empty_str (pc_Contains c)
  && (length (pc_AllOf c) =? 0)%nat && (length (pc_AnyOf c) =? 0)%nat.

Definition count_true (l : list bool) : nat := length (filter (fun b => b = true) l).

Definition cond_error (s : string) (c : PolicyCondition) : goerr :=
  Internal (Msg s [pc_Group c; pc_Claim c]).

Definition has_comparator (c : PolicyCondition) : bool :=
  bool_decide (is_Some (pc_AtLeast c)) || bool_decide (is_Some (pc_AtMost c))
  || bool_decide (is_Some (pc_Exactly c)) || bool_decide (is_Some (pc_Equals c))
  || (0 <? length (pc_OneOf c))%nat || negb (empty_str (pc_Contains c)).

Definition checkExactlyOneForm (c : PolicyCondition) : res unit :=
  let forms := count_true [negb (empty_str (pc_Group c)); negb (empty_str (pc_Claim c));
                           (0 <? length (pc_AllOf c))%nat; (0 <? length (pc_AnyOf c))%nat] in
  if negb (forms =? 1)%nat then Err (cond_error "condition mixes forms" c)
  else if empty_str (pc_Claim c) && has_comparator c then
    Err (cond_error "condition has a comparator but no claim" c)
  else Ok tt.

(** [parseComparator]: the families are counted in source order; later ones
    overwrite the numeric bounds as the assignments do. *)
Definition parseComparator (c : PolicyCondition) : res comparator :=
  let range := bool_decide (is_Some (pc_AtLeast c)) || bool_decide (is_Some (pc_AtMost c)) in
  let exact := bool_decide (is_Some (pc_Exactly c)) in
  let equal := bool_decide (is_Some (pc_Equals c)) in
  let oneOf := (0 <? length (pc_OneOf c))%nat in
  let cont := negb (empty_str (pc_Contains c)) in
  let lo := if exact then pc_Exactly c else pc_AtLeast c in
  let hi := if exact then pc_Exactly c else pc_AtMost c in
  if equal && bool_decide (pc_Equals c = Some "") then
    Err (cond_error "condition has an empty equals value" c)
  else if negb (count_true [range; exact; equal; oneOf; cont] =? 1)%nat then
    Err (cond_error "condition must use exactly one comparator family" c)
  else if negb (from_option finite true lo && from_option finite true hi) then
    Err (cond_error "condition has a non-finite numeric bound" c)
  else Ok (MkComparator lo hi (pc_Equals c) (pc_OneOf c) (pc_Contains c)).

(** Parse a list of children, stopping at the first error. *)
Definition parse_children (parse : PolicyCondition -> res parsedCondition) :=
  fix go (l : list PolicyCondition) : res (list parsedCondition) :=
    match l with
    | [] => Ok []
    | c :: rest => res_bind (parse c) (fun p => res_bind (go rest) (fun ps => Ok (p :: ps)))
    end.

Fixpoint parseCondition (declared : gset string) (nested : bool) (cond : PolicyCondition)
  {struct cond} : res parsedCondition :=
  match cond with
  | MkCond g cl al am ex eq oo ct allOf anyOf =>
      if IsZero cond then Err (cond_error "condition is empty" cond)
      else res_bind (checkExactlyOneForm cond) (fun _ =>
        if (0 <? length allOf)%nat || (0 <? length anyOf)%nat then
          if nested then Err (cond_error "nesting stops at one level" cond)
          else
            let any := (0 <? length anyOf)%nat in
            let kids := if any then parse_children (parseCondition declared true) anyOf
                        else parse_children (parseCondition declared true) allOf in
            res_bind kids (fun children =>
              Ok (MkParsed (if any then condAnyOf else condAllOf) "" "" no_comparator children cond))
        else if negb (empty_str g) then
          Ok (MkParsed condGroup g "" no_comparator [] cond)
        else if negb (bool_decide (cl ∈ declared)) then
          Err (cond_error "condition references an undeclared claim" cond)
        else
          res_bind (parseComparator cond) (fun cmp =>
            Ok (MkParsed condClaim "" cl cmp [] cond)))
  end.

(** ** Evaluation *)

(** [compare]; an unusable value takes the [absent] path, which is false. *)
Definition compare (cmp : comparator) (v : extraValue) : bool :=
  if bool_decide (is_Some (cmp_atLeast cmp)) || bool_decide (is_Some (cmp_atMost cmp)) then
    let '(num, ok) := Number v in
    if negb ok then false
    else if from_option (fun lo => float_lt (Finite num) lo) false (cmp_atLeast cmp) then false
    else from_option (fun hi => float_le (Finite num) hi) true (cmp_atMost cmp)
  else
    match cmp_equals cmp with
    | Some want =>
        let '(s, ok) := Scalar v in if negb ok then false else bool_decide (s = want)
    | None =>
        if (0 <? length (cmp_oneOf cmp))%nat then
          let '(s, ok) := Scalar v in if negb ok then false else contains (cmp_oneOf cmp) s
        else
          let '(l, ok) := List v in if negb ok then false else contains l (cmp_contains cmp)
    end.

Fixpoint evaluate (c : parsedCondition) (i : Identity) {struct c} : bool :=
  match c with
  | MkParsed k g cl cmp children _ =>
      match k with
      | condGroup => contains (id_Groups i) g
      | condAllOf => forallb (fun ch => evaluate ch i) children
      | condAnyOf => existsb (fun ch => evaluate ch i) children
      | condClaim =>
          match id_Extra i !! cl with
          | None => false
          | Some v => compare cmp v
          end
      end
  end.

(** ** Reference semantics of a configured condition *)

(** What the grammar documents, read off the configuration directly. *)
Definition claim_holds (c : PolicyCondition) (v : extraValue) : Prop :=
  let '(num, isnum) := Number v in
  let '(s, isscalar) := Scalar v in
  let '(l, islist) := List v in
  match pc_AtLeast c, pc_AtMost c, pc_Exactly c, pc_Equals c with
  | None, None, None, None =>
      if (0 <? length (pc_OneOf c))%nat then isscalar = true /\ s ∈ pc_OneOf c
      else islist = true /\ pc_Contains c ∈ l
  | None, None, None, Some want => isscalar = true /\ s = want
  | _, _, Some b, _ => isnum = true /\ exists q, b = Finite q /\ (num == q)%Q
  | lo, hi, None, _ =>
      isnum = true
      /\ (forall b, lo = Some b -> exists q, b = Finite q /\ (q <= num)%Q)
      /\ (forall b, hi = Some b -> exists q, b = Finite q /\ (num <= q)%Q)
  end.

Definition atom_holds (c : PolicyCondition) (i : Identity) : Prop :=
  if empty_str (pc_Group c)
  then exists v, id_Extra i !! pc_Claim c = Some v /\ claim_holds c v
  else pc_Group c ∈ id_Groups i.

Definition condition_holds (c : PolicyCondition) (i : Identity) : Prop :=
  match pc_AllOf c, pc_AnyOf c with
  | [], [] => atom_holds c i
  | _ :: _, [] => Forall (fun ch => atom_holds ch i) (pc_AllOf c)
  | _, _ => Exists (fun ch => atom_holds ch i) (pc_AnyOf c)
  end.

(** ** Lemmas *)

Lemma Qle_bool_false x y : Qle_bool x y = false <-> (y < x)%Q.
Proof.
  rewrite <- not_true_iff_false, Qle_bool_iff. split; [apply Qnot_le_lt|apply Qlt_not_le].
Qed.

Lemma float_range num lo hi :
  float_lt (Finite num) (Finite lo) = false -> float_le (Finite num) (Finite hi) = true ->
  (lo <= num)%Q /\ (num <= hi)%Q.
Proof. simpl. rewrite negb_false_iff, !Qle_bool_iff. done. Qed.

Lemma finite_inv b : finite b = true -> exists q, b = Finite q.
Proof. destruct b; naive_solver. Qed.

(** The numeric comparison of [compare] is the documented inclusive range. *)
Lemma range_correct (num : Q) (lo hi : option float64) :
  from_option finite true lo && from_option finite true hi = true ->
  (if from_option (fun b => float_lt (Finite num) b) false lo then false
   else from_option (fun b => float_le (Finite num) b) true hi) = true <->
  (forall b, lo = Some b -> exists q, b = Finite q /\ (q <= num)%Q)
  /\ (forall b, hi = Some b -> exists q, b = Finite q /\ (num <= q)%Q).
Proof.
  intros [Hlo Hhi]%andb_true_iff.
  destruct lo as [lo|]; [apply finite_inv in Hlo as [l ->]|];
  (destruct hi as [hi|]; [apply finite_inv in Hhi as [h ->]|]); simpl;
  try destruct (Qle_bool l num) eqn:El; simpl;
  rewrite ?Qle_bool_iff, ?Qle_bool_false in *;
  (split; [intros H; split; intros b [= <-]; eauto | intros [H1 H2]; try reflexivity]);
  try discriminate H;
  try (destruct (H2 _ eq_refl) as (? & [= <-] & ?); done);
  destruct (H1 _ eq_refl) as (? & [= <-] & Hc); exfalso; by apply (Qlt_not_le _ _ El).
Qed.

(** The five comparator families of an accepted claim condition, one at a time. *)
Lemma parseComparator_correct c cmp v :
  parseComparator c = Ok cmp -> compare cmp v = true <-> claim_holds c v.
Proof.
  unfold parseComparator. intros H.
  destruct (_ && bool_decide (pc_Equals c = Some "")); [done|].
  destruct (negb (count_true _ =? 1)%nat) eqn:Hn; [done|].
  destruct (negb (from_option _ _ _ && _)) eqn:Hf; [done|].
  apply negb_false_iff in Hn, Hf. injection H as <-. unfold compare, claim_holds.
  destruct (Number v) as [num isnum], (Scalar v) as [s iss], (List v) as [l isl].
  destruct c as [g cl al am ex eq oo ct allOf anyOf]; simpl in *.
  destruct ex as [x|].
  - destruct al, am, eq, oo, (empty_str ct); try discriminate Hn; simpl in *.
    destruct isnum; simpl; [|intuition congruence].
    apply andb_true_iff in Hf as [Hf _]. apply finite_inv in Hf as [q ->]. simpl. destruct (Qle_bool q num) eqn:E1; simpl; rewrite ?Qle_bool_iff, ?Qle_bool_false in *.
    + split; [intros; split; [done|]; exists q; split; [done|by apply Qle_antisym]|].
      intros (_ & ? & [= <-] & E). rewrite E. apply Qle_refl.
    + split; [done|]. intros (_ & ? & [= <-] & E). rewrite E in E1. by apply Qlt_irrefl in E1.
  - destruct al, am, eq, oo, (empty_str ct); try discriminate Hn; simpl in *;
      try (destruct isnum; simpl; [|intuition congruence];
           match goal with
           | |- _ = true <-> _ /\ (forall b, ?lo = Some b -> _) /\ (forall b, ?hi = Some b -> _) =>
               pose proof (range_correct num lo hi Hf) as Hr
           end; simpl in Hr; intuition);
      try (destruct iss; simpl; [|intuition congruence];
           rewrite ?bool_decide_eq_true, ?contains_true; intuition);
      destruct isl; simpl; [|intuition congruence]; rewrite contains_true; intuition.
Qed.

Lemma length_pos_nil {A} (l : list A) : (0 <? length l)%nat = false -> l = [].
Proof. destruct l; done. Qed.

(** A parsed condition without children is an atom of the reference semantics. *)
Lemma parse_atom declared nested c p i :
  pc_AllOf c = [] -> pc_AnyOf c = [] ->
  parseCondition declared nested c = Ok p -> evaluate p i = true <-> atom_holds c i.
Proof.
  intros Hall Hany H. unfold atom_holds.
  destruct c as [g cl al am ex eq oo ct allOf anyOf]. simpl in Hall, Hany. subst.
  cbn [parseCondition] in H. destruct (IsZero _); [done|].
  apply res_bind_ok in H as (_ & _ & H). simpl in H.
  cbn [pc_Group pc_Claim]. destruct (empty_str g) eqn:Eg; simpl in H.
  - destruct (negb _); [done|]. apply res_bind_ok in H as (cmp & Hc & H). injection H as <-.
    cbn [evaluate]. destruct (id_Extra i !! cl) as [v|] eqn:Ev.
    + rewrite (parseComparator_correct _ _ v Hc). naive_solver.
    + naive_solver.
  - injection H as <-. cbn [evaluate]. apply contains_true.
Qed.

Lemma parse_nested_atom declared c p :
  parseCondition declared true c = Ok p -> pc_AllOf c = [] /\ pc_AnyOf c = [].
Proof.
  intros H. destruct c as [g cl al am ex eq oo ct allOf anyOf]. cbn [parseCondition] in H.
  destruct (IsZero _); [done|]. apply res_bind_ok in H as (_ & _ & H).
  destruct ((0 <? length allOf)%nat || (0 <? length anyOf)%nat) eqn:E; [done|].
  apply orb_false_iff in E as [E1 E2]. split; by apply length_pos_nil.
Qed.

Lemma parse_children_ok parse l : forall ps,
  parse_children parse l = Ok ps -> Forall2 (fun c p => parse c = Ok p) l ps.
Proof.
  induction l as [|c l IH]; intros ps H; simpl in H; [injection H as <-; constructor|].
  apply res_bind_ok in H as (p & Hp & H). apply res_bind_ok in H as (qs & Hqs & H).
  injection H as <-. constructor; [done|by apply IH].
Qed.

(** ** Theorems *)

(** The agreement for one condition, shared with the lifetime policy's tiers. *)
Lemma evaluate_reference_iff declared cond p i :
  parseCondition declared false cond = Ok p ->
  evaluate p i = true <-> condition_holds cond i.
Proof.
  intros H. unfold condition_holds.
  destruct (pc_AllOf cond) as [|a all] eqn:Ea, (pc_AnyOf cond) as [|b any] eqn:Eb;
    [by eapply parse_atom|..];
    destruct cond as [g cl al am ex eq oo ct allOf anyOf]; simpl in Ea, Eb; subst;
    cbn [parseCondition] in H; destruct (IsZero _); try done;
    apply res_bind_ok in H as (u & Hf & H); cbn [length Nat.ltb Nat.leb orb] in H;
    apply res_bind_ok in H as (ps & Hps & H); injection H as <-;
    apply parse_children_ok in Hps; cbn [evaluate].
  - rewrite Exists_exists, existsb_exists.
    split; intros (x & Hx & Hh).
    + apply list_elem_of_In, list_elem_of_lookup in Hx as [k Hk].
      destruct (Forall2_lookup_r _ _ _ _ _ Hps Hk) as (c & Hc & Hp).
      destruct (parse_nested_atom _ _ _ Hp). exists c.
      split; [by eapply list_elem_of_lookup_2|]. by eapply parse_atom.
    + apply list_elem_of_lookup in Hx as [k Hk].
      destruct (Forall2_lookup_l _ _ _ _ _ Hps Hk) as (q & Hq & Hp).
      destruct (parse_nested_atom _ _ _ Hp). exists q.
      split; [by eapply list_elem_of_In, list_elem_of_lookup_2|]. by eapply parse_atom.
  - rewrite forallb_forall, Forall_forall. split; intros Hh x Hx.
    + apply list_elem_of_lookup in Hx as [k Hk].
      destruct (Forall2_lookup_l _ _ _ _ _ Hps Hk) as (q & Hq & Hp).
      destruct (parse_nested_atom _ _ _ Hp). eapply parse_atom; [done|done|exact Hp|].
      by eapply Hh, list_elem_of_In, list_elem_of_lookup_2.
    + apply list_elem_of_In, list_elem_of_lookup in Hx as [k Hk].
      destruct (Forall2_lookup_r _ _ _ _ _ Hps Hk) as (c & Hc & Hp).
      destruct (parse_nested_atom _ _ _ Hp). eapply parse_atom; [done|done|exact Hp|].
      by eapply Hh, list_elem_of_lookup_2.
  - unfold checkExactlyOneForm in Hf; simpl in Hf.
    destruct (empty_str g), (empty_str cl); discriminate Hf.
Qed.

(** C23: a condition accepted at startup means what the configuration documents. For
    every form of the grammar, evaluating the parsed condition agrees with the
    reference reading of the configured one: group membership, inclusive numeric
    ranges, [exactly] as equality, string equality and membership, and one level of
    all_of or any_of over them. *)
Theorem evaluate_reference declared cond p i :
  parseCondition declared false cond = Ok p ->
  evaluate p i = true <-> condition_holds cond i.
Proof. apply evaluate_reference_iff. Qed.

(** An identity with the claim [age] and the group [ops], used by the witnesses. *)
Definition sample_identity : Identity :=
  MkIdentity "sub" "ann" "" "" ["ops"] [] [] None
    {[ "age" := MkExtra "21" [] false 21 true ]}.

Lemma evaluate_reference_witness :
  condition_holds
    (MkCond "" "" None None None None [] "" []
       [MkCond "" "age" (Some (Finite 18)) None None None [] "" [] [];
        MkCond "root" "" None None None None [] "" [] []]) sample_identity.
Proof.
  eapply (evaluate_reference {[ "age" ]}); [vm_compute; reflexivity|reflexivity].
Defined.

(** ** Monotonicity *)

(** What a presented identity may lose between two evaluations. *)
Definition knows_less (i j : Identity) : Prop :=
  id_Groups i ⊆ id_Groups j /\ id_Extra i ⊆ id_Extra j.

Fixpoint cond_size (c : parsedCondition) : nat :=
  match c with MkParsed _ _ _ _ ch _ => S (sum_list_with cond_size ch) end.

Lemma cond_size_child ch c : ch ∈ pd_children c -> (cond_size ch < cond_size c)%nat.
Proof.
  destruct c as [k g cl cmp kids r]; simpl. intros H. apply Nat.lt_succ_r.
  induction H as [|x y l ? IH]; simpl in *; lia.
Qed.

(** C24: a condition can only be satisfied by evidence that is present. Evaluation is
    monotone in the identity's groups and claims, for every condition the parser can
    produce: dropping a group, or losing a claim the provider no longer sends, never
    turns an unsatisfied condition into a satisfied one (there is no negation in the
    grammar, and an absent claim fails closed). *)
Theorem evaluate_fails_closed (c : parsedCondition) (i j : Identity) :
  knows_less i j -> evaluate c i = true -> evaluate c j = true.
Proof.
  intros [Hg Hx]. induction c as [c IH] using (induction_ltof1 _ cond_size). intros H.
  assert (forall ch, ch ∈ pd_children c -> evaluate ch i = true -> evaluate ch j = true) as Hch.
  { intros ch Hin. by apply IH, cond_size_child. }
  destruct c as [k g cl cmp kids r]; simpl in Hch. cbn [evaluate] in *. destruct k.
  - apply contains_true in H. apply contains_true. set_solver.
  - destruct (id_Extra i !! cl) as [v|] eqn:Ev; [|done].
    by rewrite (lookup_weaken _ _ _ _ Ev Hx).
  - rewrite forallb_forall in *. intros x Hin. apply Hch; [by apply list_elem_of_In|auto].
  - rewrite existsb_exists in *. destruct H as (x & Hin & Hev). exists x.
    split; [done|]. apply Hch; [by apply list_elem_of_In|done].
Qed.

Lemma evaluate_fails_closed_witness :
  evaluate (MkParsed condGroup "ops" "" no_comparator [] (MkCond "ops" "" None None None None [] "" [] []))
    (MkIdentity "sub" "ann" "" "" ["ops"; "root"] [] [] None ∅) = true.
Proof.
  apply (evaluate_fails_closed _ (MkIdentity "sub" "ann" "" "" ["ops"] [] [] None ∅)); [|reflexivity].
  split; simpl; [set_solver|done].
Defined.
