(* ===== verification/Lifetime.v ===== *)
(** * The lifetime policy engine (server/service/lifetimepolicy.go)

    Parsing of the per-type lifetime policies at startup, the evaluation of one
    approval against them (tier axis, source-network axis, enrollment axis,
    extension algebra), and the bounds every outcome keeps. *)

From S2P Require Import Prelude Netip Model Condition.

(** ** Parsed policies *)

Record parsedTier : Type := MkParsedTier {
  pt_name : string;
  pt_when : parsedCondition;
  pt_maxDuration : Duration;
  pt_grantExtensions : list string;
  pt_maxEnrollmentDuration : Duration;
}.

Record parsedSourceRule : Type := MkRule {
  sr_prefix : Prefix;
  sr_maxDuration : Duration;
  sr_removedExtensions : list string;
  sr_pinSourceAddress : bool;
  sr_prefixLen : Z;
}.

Record parsedLifetimePolicy : Type := MkParsedPolicy {
  pl_defaultDuration : Duration;
  pl_defaultExtensions : list string;
  pl_defaultEnrollmentDuration : Duration;
  pl_tiers : list parsedTier;
  pl_sourceRules : list parsedSourceRule;
}.

Record policyParseContext : Type := MkParseContext {
  ppc_label : string;
  ppc_declaredClaims : gset string;
  ppc_allowedExtensions : list string;
  ppc_isService : bool;
}.

(** A nil policy is [None]. *)
Record lifetimePolicyEngine : Type := MkEngine {
  eng_userPolicy : option parsedLifetimePolicy;
  eng_servicePolicy : option parsedLifetimePolicy;
  eng_pamPolicy : option parsedLifetimePolicy;
  eng_consolePolicy : option parsedLifetimePolicy;
}.

Definition isLifetimePolicyConfigured (p : LifetimePolicy) : bool :=
  (0 <? lp_DefaultDuration p) || (0 <? length (lp_Tiers p))%nat
  || (0 <? length (lp_SourcePolicy p))%nat || (0 <? length (lp_DefaultExtensions p))%nat
  || (0 <? lp_DefaultEnrollmentDuration p).

(** ** Parsing *)

(** The loops that refuse the first extension outside the type's ceiling. *)
Fixpoint within_ceiling (allowed : list string) (what : string) (exts : list string) : res unit :=
  match exts with
  | [] => Ok tt
  | e :: rest =>
      if negb (contains allowed e) then Err (Internal (Msg what [e]))
      else within_ceiling allowed what rest
  end.

Definition parseTier (t : LifetimePolicyTier) (ctx : policyParseContext) : res parsedTier :=
  (if empty_str (lt_Name t) then Err (Internal (text "tier has no name"))
   else if IsZero (lt_When t) then
     Err (Internal (Msg "tier has no when condition" [lt_Name t]))
   else
     let! when := parseCondition (ppc_declaredClaims ctx) false (lt_When t) in
     if lt_MaxDuration t <=? 0 then
       Err (Internal (Msg "tier needs a max_duration greater than zero" [lt_Name t]))
     else
       check! within_ceiling (ppc_allowedExtensions ctx) "tier grants an extension outside the ceiling"
                (lt_GrantExtensions t) ;;
       if negb (ppc_isService ctx) && negb (lt_MaxEnrollmentDuration t =? 0) then
         Err (Internal (Msg "tier sets max_enrollment_duration" [lt_Name t]))
       else
         Ok (MkParsedTier (lt_Name t) when (lt_MaxDuration t) (lt_GrantExtensions t)
               (lt_MaxEnrollmentDuration t)))%go.

Fixpoint parse_tiers (ctx : policyParseContext) (ts : list LifetimePolicyTier)
  : res (list parsedTier) :=
  match ts with
  | [] => Ok []
  | t :: rest =>
      (let! tier := parseTier t ctx in
       let! tiers := parse_tiers ctx rest in
       Ok (tier :: tiers))%go
  end.

Fixpoint parse_source_rules (es : list SourcePolicyEntry) : res (list parsedSourceRule) :=
  match es with
  | [] => Ok []
  | entry :: rest =>
      match ParsePrefix (sp_CIDR entry) with
      | None => Err (Internal (Msg "invalid CIDR" [sp_CIDR entry]))
      | Some prefix =>
          (let! rules := parse_source_rules rest in
           Ok (MkRule prefix (sp_MaxDuration entry) (sp_RemovedExtensions entry)
                 (sp_PinSourceAddress entry) (pfx_bits prefix) :: rules))%go
      end
  end.

Definition parseLifetimePolicy (lp : LifetimePolicy) (ctx : policyParseContext)
  : res parsedLifetimePolicy :=
  (if lp_DefaultDuration lp <=? 0 then
     Err (Internal (text "default_duration is required"))
   else if negb (empty_str (lp_OnAbsentClaim lp))
           && negb (bool_decide (lp_OnAbsentClaim lp = "floor")) then
     Err (Internal (text "on_absent_claim only accepts floor"))
   else if negb (ppc_isService ctx) && negb (lp_DefaultEnrollmentDuration lp =? 0) then
     Err (Internal (text "default_enrollment_duration only applies to service certificates"))
   else
     check! within_ceiling (ppc_allowedExtensions ctx) "default_extensions outside the ceiling"
              (lp_DefaultExtensions lp) ;;
     let! tiers := parse_tiers ctx (lp_Tiers lp) in
     let! rules := parse_source_rules (lp_SourcePolicy lp) in
     Ok (MkParsedPolicy (lp_DefaultDuration lp) (lp_DefaultExtensions lp)
           (lp_DefaultEnrollmentDuration lp) tiers rules))%go.

(** One slot of the engine: left nil when the type has no policy configured. *)
Definition parse_slot (lp : LifetimePolicy) (ctx : policyParseContext)
  : res (option parsedLifetimePolicy) :=
  if negb (isLifetimePolicyConfigured lp) then Ok None
  else res_bind (parseLifetimePolicy lp ctx) (fun p => Ok (Some p)).

Definition newLifetimePolicyEngine (opts : CertificateOptions) (declaredClaims : gset string)
  : res lifetimePolicyEngine :=
  (let ctx label o svc := MkParseContext label declaredClaims (co_Extensions o) svc in
   let! u := parse_slot (co_LifetimePolicy (opt_User opts))
               (ctx "cert_options.user.lifetime_policy" (opt_User opts) false) in
   let! s := parse_slot (co_LifetimePolicy (opt_Service opts))
               (ctx "cert_options.service.lifetime_policy" (opt_Service opts) true) in
   let! p := parse_slot (co_LifetimePolicy (opt_PAM opts))
               (ctx "cert_options.pam.lifetime_policy" (opt_PAM opts) false) in
   let! c := parse_slot (co_LifetimePolicy (opt_Console opts))
               (ctx "cert_options.console.lifetime_policy" (opt_Console opts) false) in
   Ok (MkEngine u s p c))%go.

Definition engine_policyFor (e : lifetimePolicyEngine) (certType : CertificateType)
  : option parsedLifetimePolicy :=
  match certType with
  | CertificateTypeUser => eng_userPolicy e
  | CertificateTypeService => eng_servicePolicy e
  | CertificateTypePAM => eng_pamPolicy e
  | CertificateTypeConsole => eng_consolePolicy e
  | CertificateTypeOther _ => None
  end.

(** ** Set helpers *)

Definition intersectStrings (requested permitted : list string) : list string :=
  if (length permitted =? 0)%nat then []
  else filter (fun r => r ∈ permitted) requested.

Definition subtractStrings (set remove : list string) : list string :=
  filter (fun s => s ∉ remove) set.

(** ** Source rules *)

(** One iteration of the scan: does [rule] displace the best match so far. *)
Definition better_rule (best : option parsedSourceRule) (rule : parsedSourceRule)
  : option parsedSourceRule :=
  match best with
  | None => Some rule
  | Some b =>
      if sr_prefixLen b <? sr_prefixLen rule then Some rule
      else if (sr_prefixLen rule =? sr_prefixLen b) && (sr_maxDuration rule <? sr_maxDuration b)
      then Some rule
      else Some b
  end.

Definition scan_rules (addr : Addr) (best : option parsedSourceRule)
  (rules : list parsedSourceRule) : option parsedSourceRule :=
  foldl (fun b rule => if PrefixContains (sr_prefix rule) addr then better_rule b rule else b)
    best rules.

Definition matchSourceRule (rules : list parsedSourceRule) (sourceIP : string)
  : option parsedSourceRule :=
  if (length rules =? 0)%nat then None
  else match ParseAddr sourceIP with
       | None => None
       | Some addr => scan_rules (Unmap addr) None rules
       end.

(** ** Evaluation *)

Record policyOutcome : Type := MkPolicyOutcome {
  out_duration : Duration;
  out_enrollmentDuration : Duration;
  out_grantActive : bool;
  out_granted : list string;
  out_grantSource : string;
  out_removed : list string;
  out_pinSource : bool;
  out_explanation : PolicyExplanation;
}.

(** The first tier whose condition holds. *)
Definition match_tier (tiers : list parsedTier) (i : Identity) : option parsedTier :=
  List.find (fun t => evaluate (pt_when t) i) tiers.

Definition evaluate_policy (e : lifetimePolicyEngine) (certType : CertificateType)
  (identity : Identity) (sourceIP : string) (ceiling enrollmentCeiling : Duration)
  : policyOutcome :=
  match engine_policyFor e certType with
  | None =>
      MkPolicyOutcome ceiling enrollmentCeiling false [] "" [] false
        (MkExplanation 1 certType false None false None None ceiling ceiling None None)
  | Some policy =>
      let tier := match_tier (pl_tiers policy) identity in
      let active := (0 <? length (pl_tiers policy))%nat in
      let tierDuration := from_option pt_maxDuration (pl_defaultDuration policy) tier in
      let granted :=
        match tier with
        | Some t => if (0 <? length (pt_grantExtensions t))%nat
                    then (pt_grantExtensions t, "tier") else (pl_defaultExtensions policy, "default")
        | None => (pl_defaultExtensions policy, "default")
        end in
      let enrollmentDuration :=
        match tier with
        | Some t => if 0 <? pt_maxEnrollmentDuration t then pt_maxEnrollmentDuration t
                    else pl_defaultEnrollmentDuration policy
        | None => pl_defaultEnrollmentDuration policy
        end in
      let rule := matchSourceRule (pl_sourceRules policy) sourceIP in
      let isService := bool_decide (certType = CertificateTypeService) in
      let pin := from_option (fun r => sr_pinSourceAddress r && isService) false rule in
      let tierDuration' :=
        match rule with
        | Some r => if (0 <? sr_maxDuration r) && (sr_maxDuration r <? tierDuration)
                    then sr_maxDuration r else tierDuration
        | None => tierDuration
        end in
      let duration := Z.min tierDuration' ceiling in
      let enroll :=
        if isService then
          Z.min (if enrollmentDuration <=? 0 then enrollmentCeiling else enrollmentDuration)
            enrollmentCeiling
        else enrollmentCeiling in
      MkPolicyOutcome duration enroll active
        (if active then granted.1 else []) (if active then granted.2 else "")
        (from_option sr_removedExtensions [] rule) pin
        (MkExplanation 1 certType true
           ((fun t => MkTierExplanation (pt_name t) (pd_rendered (pt_when t)) (pt_maxDuration t)) <$> tier)
           (if tier then false else active)
           (if tier then None else Some (pl_defaultDuration policy))
           ((fun r => MkSourceRuleExplanation (sr_prefix r)
                        (if 0 <? sr_maxDuration r then Some (sr_maxDuration r) else None)
                        (sr_removedExtensions r) pin) <$> rule)
           ceiling duration
           (if isService then Some (MkEnrollmentExplanation enrollmentCeiling enroll) else None)
           None)
  end.

(** [o.explanation.Extensions = ext]. *)
Definition set_px_Extensions (x : PolicyExplanation) (ext : option ExtensionsExplanation)
  : PolicyExplanation :=
  MkExplanation (px_V x) (px_CertType x) (px_PolicyConfigured x) (px_Tier x) (px_NoTierMatched x)
    (px_DefaultDuration x) (px_SourceRule x) (px_Ceiling x) (px_EffectiveDuration x)
    (px_Enrollment x) ext.

Definition set_out_explanation (o : policyOutcome) (x : PolicyExplanation) : policyOutcome :=
  MkPolicyOutcome (out_duration o) (out_enrollmentDuration o) (out_grantActive o) (out_granted o)
    (out_grantSource o) (out_removed o) (out_pinSource o) x.

(** [narrowOptions] updates the outcome's explanation and returns the options. *)
Definition narrowOptions (o : policyOutcome) (narrowed : RequestedOptions) (sourceIP : string)
  : RequestedOptions * policyOutcome :=
  let e1 := if out_grantActive o then intersectStrings (ro_Extensions narrowed) (out_granted o)
            else ro_Extensions narrowed in
  let removes := (0 <? length (out_removed o))%nat in
  let e2 := if removes then subtractStrings e1 (out_removed o) else e1 in
  let ext := MkExtensionsExplanation (ro_Extensions narrowed) None
               (if out_grantActive o then out_granted o else [])
               (if out_grantActive o then out_grantSource o else "")
               (if removes then out_removed o else []) e2 in
  (MkOptions e2 (ro_ForceCommand narrowed)
     (if out_pinSource o then [sourceIP] else ro_SourceAddresses narrowed)
     (ro_NoTouchRequired narrowed),
   set_out_explanation o (set_px_Extensions (out_explanation o) (Some ext))).

(** The explanation's Extensions is shared by pointer, so the caller's outcome sees
    the two assignments. *)
Definition recordApproverExtensions (o : policyOutcome) (selected : option (list string))
  (narrowed requestedByClient : list string) : policyOutcome :=
  match selected, px_Extensions (out_explanation o) with
  | Some _, Some x =>
      set_out_explanation o
        (set_px_Extensions (out_explanation o)
           (Some (MkExtensionsExplanation requestedByClient (Some narrowed) (xe_Granted x)
                    (xe_GrantSource x) (xe_Removed x) (xe_Effective x))))
  | _, _ => o
  end.

(** ** Set helpers: what they compute *)

Lemma elem_of_intersectStrings req perm x :
  x ∈ intersectStrings req perm <-> x ∈ req /\ x ∈ perm.
Proof.
  unfold intersectStrings. destruct perm as [|p perm]; simpl; [set_solver|].
  rewrite list_elem_of_filter. tauto.
Qed.

Lemma sublist_intersectStrings req perm : intersectStrings req perm `sublist_of` req.
Proof.
  unfold intersectStrings. destruct (_ =? _)%nat; [apply sublist_nil_l|apply sublist_filter].
Qed.

Lemma elem_of_subtractStrings set remove x :
  x ∈ subtractStrings set remove <-> x ∈ set /\ x ∉ remove.
Proof. unfold subtractStrings. rewrite list_elem_of_filter. tauto. Qed.

Lemma sublist_subtractStrings set remove : subtractStrings set remove `sublist_of` set.
Proof. apply sublist_filter. Qed.

#[export] Hint Resolve sublist_intersectStrings sublist_subtractStrings : ssoossh.

(** ** Parsed policies are well formed *)

Definition tier_ok (allowed : list string) (svc : bool) (t : parsedTier) : Prop :=
  0 < pt_maxDuration t /\ pt_grantExtensions t ⊆ allowed
  /\ (svc = false -> pt_maxEnrollmentDuration t = 0).

Record policy_ok (allowed : list string) (svc : bool) (p : parsedLifetimePolicy) : Prop := {
  po_default : 0 < pl_defaultDuration p;
  po_exts : pl_defaultExtensions p ⊆ allowed;
  po_tiers : Forall (tier_ok allowed svc) (pl_tiers p);
  po_enroll : svc = false -> pl_defaultEnrollmentDuration p = 0;
  po_rules : Forall (fun r => sr_prefixLen r = pfx_bits (sr_prefix r)) (pl_sourceRules p);
}.

Lemma within_ceiling_ok allowed what exts :
  within_ceiling allowed what exts = Ok tt -> exts ⊆ allowed.
Proof.
  induction exts as [|e exts IH]; simpl; [set_solver|].
  destruct (contains allowed e) eqn:E; simpl; [|done]. unbool. intros H%IH. set_solver.
Qed.

Lemma parseTier_ok t ctx pt :
  parseTier t ctx = Ok pt ->
  tier_ok (ppc_allowedExtensions ctx) (ppc_isService ctx) pt
  /\ pt_name pt = lt_Name t /\ pt_maxDuration pt = lt_MaxDuration t
  /\ parseCondition (ppc_declaredClaims ctx) false (lt_When t) = Ok (pt_when pt).
Proof.
  unfold parseTier. intros H. destruct (empty_str _); [done|]. destruct (IsZero _); [done|].
  inv_res. destruct (_ <=? 0) eqn:E; [done|]. inv_res. destruct v0.
  apply within_ceiling_ok in Hv0.
  destruct (negb (ppc_isService ctx) && _) eqn:E2; [done|]. inv_res. unfold tier_ok. simpl.
  repeat split; try done; [by unbool|]. intros Hs. rewrite Hs in E2. simpl in E2.
  apply negb_false_iff in E2. by unbool.
Qed.

Lemma parse_tiers_ok ctx ts : forall pts,
  parse_tiers ctx ts = Ok pts -> Forall2 (fun t pt => parseTier t ctx = Ok pt) ts pts.
Proof.
  induction ts as [|t ts IH]; intros pts H; simpl in H; inv_res; constructor; auto.
Qed.

Lemma parse_source_rules_ok es : forall rules,
  parse_source_rules es = Ok rules ->
  Forall (fun r => sr_prefixLen r = pfx_bits (sr_prefix r)) rules.
Proof.
  induction es as [|e es IH]; intros rules H; simpl in H; inv_res; [done|].
  destruct (ParsePrefix _); [|done]. inv_res. constructor; auto.
Qed.

Lemma parseLifetimePolicy_ok lp ctx p :
  parseLifetimePolicy lp ctx = Ok p ->
  policy_ok (ppc_allowedExtensions ctx) (ppc_isService ctx) p
  /\ Forall2 (fun t pt => parseTier t ctx = Ok pt) (lp_Tiers lp) (pl_tiers p).
Proof.
  unfold parseLifetimePolicy. intros H.
  destruct (_ <=? 0) eqn:E; [done|]. destruct (negb _ && negb (bool_decide _)); [done|].
  destruct (negb (ppc_isService ctx) && _) eqn:E2; [done|]. inv_res. destruct v.
  apply within_ceiling_ok in Hv. apply parse_tiers_ok in Hv0. split; [|done].
  constructor; simpl; [by unbool|done| | |by eapply parse_source_rules_ok].
  - apply Forall_forall. intros pt Hin. apply list_elem_of_lookup in Hin as [k Hk].
    destruct (Forall2_lookup_r _ _ _ _ _ Hv0 Hk) as (t & _ & Ht). by apply parseTier_ok in Ht as [? _].
  - intros Hs. rewrite Hs in E2. simpl in E2. apply negb_false_iff in E2. by unbool.
Qed.

(** The configuration block of a certificate type. *)
Definition options_for (opts : CertificateOptions) (ty : CertificateType) : option CertOptions :=
  match ty with
  | CertificateTypeUser => Some (opt_User opts)
  | CertificateTypeService => Some (opt_Service opts)
  | CertificateTypePAM => Some (opt_PAM opts)
  | CertificateTypeConsole => Some (opt_Console opts)
  | CertificateTypeOther _ => None
  end.

Definition is_service (ty : CertificateType) : bool := bool_decide (ty = CertificateTypeService).

Lemma engine_slot opts claims e ty p :
  newLifetimePolicyEngine opts claims = Ok e -> engine_policyFor e ty = Some p ->
  exists o label, options_for opts ty = Some o
    /\ parseLifetimePolicy (co_LifetimePolicy o)
         (MkParseContext label claims (co_Extensions o) (is_service ty)) = Ok p.
Proof.
  unfold newLifetimePolicyEngine. intros H Hp. inv_res.
  assert (forall lp ctx slot, parse_slot lp ctx = Ok slot -> slot = Some p ->
            parseLifetimePolicy lp ctx = Ok p) as Hslot.
  { unfold parse_slot. intros lp ctx slot Hs ->. destruct (negb _); [done|]. by inv_res. }
  destruct ty; simpl in Hp; try done; subst; eexists _, _; (split; [done|]); eauto.
Qed.

Lemma engine_policy_ok opts claims e ty p o :
  newLifetimePolicyEngine opts claims = Ok e -> engine_policyFor e ty = Some p ->
  options_for opts ty = Some o -> policy_ok (co_Extensions o) (is_service ty) p.
Proof.
  intros He Hp Ho. destruct (engine_slot _ _ _ _ _ He Hp) as (o' & l & Ho' & H).
  simplify_eq. by apply parseLifetimePolicy_ok in H as [H _].
Qed.

(** ** Source-rule matching *)

Definition covers (addr : Addr) (r : parsedSourceRule) : Prop :=
  PrefixContains (sr_prefix r) addr = true.

(** [r] is at least as good a match as [r']: longer prefix, then smaller max_duration. *)
Definition at_least_as_specific (r r' : parsedSourceRule) : Prop :=
  sr_prefixLen r' < sr_prefixLen r
  \/ sr_prefixLen r' = sr_prefixLen r /\ sr_maxDuration r <= sr_maxDuration r'.

#[export] Instance at_least_as_specific_po : PreOrder at_least_as_specific.
Proof. unfold at_least_as_specific. split; [intros r|intros r1 r2 r3]; lia. Qed.

Lemma better_rule_spec best rule :
  exists r, better_rule best rule = Some r /\ at_least_as_specific r rule
    /\ (forall b, best = Some b -> at_least_as_specific r b) /\ (r = rule \/ best = Some r).
Proof.
  unfold better_rule, at_least_as_specific. destruct best as [b|].
  - repeat case_match; unbool; eexists; (split; [done|]); (split; [lia|]);
      split; auto; intros ? [= <-]; lia.
  - exists rule. split; [done|]. split; [lia|]. split; [done|auto].
Qed.

Lemma scan_rules_spec addr rules : forall best,
  match scan_rules addr best rules with
  | Some r => (r ∈ rules /\ covers addr r \/ best = Some r)
              /\ (forall b, best = Some b -> at_least_as_specific r b)
              /\ (forall r', r' ∈ rules -> covers addr r' -> at_least_as_specific r r')
  | None => best = None /\ forall r', r' ∈ rules -> ~ covers addr r'
  end.
Proof.
  unfold scan_rules. induction rules as [|x rules IH]; intros best; simpl.
  { destruct best; [|set_solver]. split; [auto|]. split; [intros ? [= <-]; done|set_solver]. }
  destruct (PrefixContains (sr_prefix x) addr) eqn:E.
  - destruct (better_rule_spec best x) as (b & Hb & Hx & Hbest & Hor). rewrite Hb.
    specialize (IH (Some b)). destruct (foldl _ _ _) as [r|]; [|by destruct IH].
    destruct IH as (H1 & H2 & H3). specialize (H2 b eq_refl). split; [|split].
    + destruct H1 as [[??]|[= ->]]; [left; set_solver|].
      destruct Hor as [->| ?]; [left; split; [set_solver|done]|by right].
    + intros b' Hb'. etrans; eauto.
    + intros r' [->|?]%elem_of_cons Hc; [by etrans|eauto].
  - specialize (IH best). destruct (foldl _ _ _) as [r|].
    + destruct IH as (H1 & H2 & H3). split; [set_solver|]. split; [done|].
      intros r' [->|?]%elem_of_cons Hc; [unfold covers in Hc; congruence|auto].
    + destruct IH as [-> IH]. split; [done|].
      intros r' [->|?]%elem_of_cons; [unfold covers; congruence|auto].
Qed.

(** ** Theorems *)

(** C27: source-network rules match by longest prefix. The rule selected for a source
    address covers it (IPv4-mapped addresses unmapped), is one of the configured rules,
    and no covering rule has a longer prefix, nor an equal one with a smaller
    max_duration; no rule is selected exactly when the address does not parse or no
    rule covers it. *)
Theorem matchSourceRule_longest_prefix rules sourceIP :
  match matchSourceRule rules sourceIP with
  | Some r => exists addr, ParseAddr sourceIP = Some addr /\ r ∈ rules
      /\ covers (Unmap addr) r
      /\ forall r', r' ∈ rules -> covers (Unmap addr) r' -> at_least_as_specific r r'
  | None => forall addr, ParseAddr sourceIP = Some addr ->
      forall r, r ∈ rules -> ~ covers (Unmap addr) r
  end.
Proof.
  unfold matchSourceRule. destruct rules as [|r0 rules]; simpl; [set_solver|].
  destruct (ParseAddr sourceIP) as [addr|]; [|done].
  pose proof (scan_rules_spec (Unmap addr) (r0 :: rules) None) as H. simpl in H.
  unfold scan_rules in *. simpl. destruct (foldl _ _ _) as [r|].
  - destruct H as ([[??]|?] & _ & H); [|done]. exists addr. eauto.
  - destruct H as [_ H]. intros ? [= <-]. exact H.
Qed.

(** Bounds on a policy's tier duration. *)
Lemma match_tier_ok allowed svc p i t :
  policy_ok allowed svc p -> match_tier (pl_tiers p) i = Some t ->
  t ∈ pl_tiers p /\ tier_ok allowed svc t.
Proof.
  intros Hp [Hin _]%List.find_some. apply list_elem_of_In in Hin.
  split; [done|]. pose proof (po_tiers _ _ _ Hp) as H. rewrite Forall_forall in H. auto.
Qed.

(** The exact duration the engine computes, as a minimum of caps. *)
Lemma evaluate_policy_duration e ty i ip ceiling ec p :
  engine_policyFor e ty = Some p ->
  let base := from_option pt_maxDuration (pl_defaultDuration p) (match_tier (pl_tiers p) i) in
  let o := evaluate_policy e ty i ip ceiling ec in
  out_duration o =
    match matchSourceRule (pl_sourceRules p) ip with
    | Some r => if 0 <? sr_maxDuration r then Z.min (Z.min (sr_maxDuration r) base) ceiling
                else Z.min base ceiling
    | None => Z.min base ceiling
    end.
Proof.
  intros Hp. unfold evaluate_policy. rewrite Hp. simpl.
  destruct (matchSourceRule _ _) as [r|]; [|done]. unfold from_option.
  destruct (0 <? sr_maxDuration r) eqn:E; simpl; [|done].
  destruct (sr_maxDuration r <? _) eqn:E2; unbool; lia.
Qed.


(** A small configuration, used to instantiate the theorems. *)
Module Sample.

Definition group_cond (g : string) : PolicyCondition := MkCond g "" None None None None [] "" [] [].

Definition no_policy : LifetimePolicy := MkLifetimePolicy 0 "" [] 0 [] [].

Definition staff_policy : LifetimePolicy :=
  MkLifetimePolicy Hour "floor" [] 0
    [MkTier "oncall" (group_cond "oncall") (12 * Hour) [] 0;
     MkTier "staff" (group_cond "ops") (8 * Hour) ["permit-pty"] 0]
    [MkSourceEntry "10.0.0.0/8" (30 * Minute) [] ["permit-port-forwarding"] false].

Definition cert_options (lp : LifetimePolicy) : CertOptions :=
  MkCertOptions "" None true (10 * Hour) ["permit-pty"; "permit-port-forwarding"] (24 * Hour) [] 0
    "" lp.

Definition options : CertificateOptions :=
  MkCertificateOptions (cert_options staff_policy) (cert_options no_policy)
    (cert_options no_policy) (cert_options no_policy) (10 * Minute).

Definition engine : lifetimePolicyEngine :=
  match newLifetimePolicyEngine options {[ "age" ]} with
  | Ok e => e
  | Err _ => MkEngine None None None None
  end.

Lemma engine_built : newLifetimePolicyEngine options {[ "age" ]} = Ok engine.
Proof. vm_compute. reflexivity. Qed.

(** A staff member on the office network: the source rule's 30 minutes win. *)
Example office_duration :
  out_duration (evaluate_policy engine CertificateTypeUser sample_identity "::ffff:10.1.2.3"
    (10 * Hour) (24 * Hour)) = 30 * Minute.
Proof. vm_compute. reflexivity. Qed.

Example elsewhere_duration :
  out_duration (evaluate_policy engine CertificateTypeUser sample_identity "192.0.2.1"
    (10 * Hour) (24 * Hour)) = 8 * Hour.
Proof. vm_compute. reflexivity. Qed.

End Sample.


(** A list whose first satisfying element is known. *)
Lemma find_first {A} (f : A -> bool) pre x post :
  Forall (fun y => f y = false) pre -> f x = true -> List.find f (pre ++ x :: post) = Some x.
Proof. induction 1 as [|y l Hy _ IH]; intros Hx; simpl; [by rewrite Hx|]. rewrite Hy. auto. Qed.



(** The stages of the extension algebra, as membership. *)
Lemma narrowOptions_extensions o narrowed ip x :
  x ∈ ro_Extensions (narrowOptions o narrowed ip).1 <->
  x ∈ ro_Extensions narrowed /\ (out_grantActive o = true -> x ∈ out_granted o)
  /\ x ∉ out_removed o.
Proof.
  unfold narrowOptions. simpl.
  destruct (out_removed o) as [|y l] eqn:Er; simpl; destruct (out_grantActive o);
    rewrite ?elem_of_subtractStrings, ?elem_of_intersectStrings; set_solver.
Qed.

Lemma narrowOptions_sublist o narrowed ip :
  ro_Extensions (narrowOptions o narrowed ip).1 `sublist_of` ro_Extensions narrowed.
Proof.
  unfold narrowOptions. simpl. do 2 case_match; auto with ssoossh; try done;
    try (etrans; [apply sublist_subtractStrings|]; auto with ssoossh).
Qed.

Lemma granted_within_ceiling opts claims e ty op i ip ceiling ec :
  newLifetimePolicyEngine opts claims = Ok e -> options_for opts ty = Some op ->
  out_granted (evaluate_policy e ty i ip ceiling ec) ⊆ co_Extensions op.
Proof.
  intros He Ho. unfold evaluate_policy.
  destruct (engine_policyFor e ty) as [p|] eqn:Hp; simpl; [|set_solver].
  pose proof (engine_policy_ok _ _ _ _ _ _ He Hp Ho) as Hok.
  case_match; [|set_solver]. destruct (match_tier _ i) as [t|] eqn:Et; [|apply Hok].
  case_match; [|apply Hok]. by destruct (match_tier_ok _ _ _ _ _ Hok Et) as [_ (_ & ? & _)].
Qed.


(** C39: at equal prefix length an uncapped source rule displaces a capped one. A rule
    without max_duration is stored with 0, the tie-break keeps the smaller number, and
    0 means "no cap" when the duration is computed: so of two covering rules of equal
    prefix length, the one without a cap is selected whichever order they are
    configured in, and the certificate keeps the full tier duration although the
    stricter rule would have shortened it. *)
Theorem uncapped_rule_wins_tie e ty i ip addr ceiling ec p capped open :
  engine_policyFor e ty = Some p ->
  pl_sourceRules p = [capped; open] \/ pl_sourceRules p = [open; capped] ->
  ParseAddr ip = Some addr -> covers (Unmap addr) capped -> covers (Unmap addr) open ->
  sr_prefixLen capped = sr_prefixLen open -> sr_maxDuration open = 0 -> 0 < sr_maxDuration capped ->
  out_duration (evaluate_policy e ty i ip ceiling ec) =
    Z.min (from_option pt_maxDuration (pl_defaultDuration p) (match_tier (pl_tiers p) i)) ceiling.
Proof.
  intros Hp Hr Ha Hc Ho Hl H0 Hcap. unfold covers in *.
  rewrite (evaluate_policy_duration _ _ _ _ _ _ _ Hp).
  assert (matchSourceRule (pl_sourceRules p) ip = Some open) as ->; [|by rewrite H0].
  unfold matchSourceRule. destruct Hr as [-> | ->]; simpl; rewrite Ha; unfold scan_rules; simpl;
    rewrite Hc, Ho; simpl; unfold better_rule.
  - rewrite (proj2 (Z.ltb_ge _ _)) by lia. rewrite (proj2 (Z.eqb_eq _ _)) by lia. simpl.
    by rewrite (proj2 (Z.ltb_lt _ _)) by lia.
  - rewrite (proj2 (Z.ltb_ge _ _)) by lia. rewrite (proj2 (Z.eqb_eq _ _)) by lia. simpl.
    by rewrite (proj2 (Z.ltb_ge _ _)) by lia.
Qed.

Module Tie.
Definition net : Prefix := MkPrefix (Addr4 167772160) 8.
Definition capped : parsedSourceRule := MkRule net (10 * Minute) [] false 8.
Definition open : parsedSourceRule := MkRule net 0 ["permit-pty"] false 8.
Definition policy : parsedLifetimePolicy := MkParsedPolicy (8 * Hour) [] 0 [] [capped; open].
Definition engine : lifetimePolicyEngine := MkEngine (Some policy) None None None.
End Tie.

Lemma uncapped_rule_wins_tie_witness :
  out_duration (evaluate_policy Tie.engine CertificateTypeUser sample_identity "10.1.2.3"
    (10 * Hour) (24 * Hour)) = 8 * Hour.
Proof.
  rewrite (uncapped_rule_wins_tie Tie.engine CertificateTypeUser sample_identity "10.1.2.3"
    (Addr4 167838211) (10 * Hour) (24 * Hour) Tie.policy Tie.capped Tie.open);
    [reflexivity|reflexivity|left; reflexivity|vm_compute; reflexivity|vm_compute; reflexivity
    |vm_compute; reflexivity|reflexivity|reflexivity|reflexivity].
Defined.
