(* ===== verification/CertPolicy.v ===== *)
(** * Per-type certificate policy (server/config/types_certificates.go,
      server/service/certtypepolicy.go, keyid.go, internal/serial)

    The timing budget and its shares, startup validation of the certificate
    options, key-id templates, the policy table built once at startup, approver
    authorization, and serial allocation. *)

From S2P Require Import Prelude Netip Model Accounts Condition Lifetime.

(** ** The timing budget (config/types_certificates.go) *)

Definition signingShare : Z := 10.

Definition SigningGraceFor (budget : Duration) : Duration := go_div budget signingShare.
Definition ApprovalTTLFor (budget : Duration) : Duration := budget - 2 * SigningGraceFor budget.
Definition SigningGrace (c : CertificateOptions) : Duration := SigningGraceFor (opt_ClientTimeout c).
Definition ApprovalTTL (c : CertificateOptions) : Duration := ApprovalTTLFor (opt_ClientTimeout c).

(** ** Extension names *)

(** [strings.Cut(s, sep)] for a one-byte separator; [None] when it is absent. *)
Fixpoint cut (sep : Z) (s : list Z) : option (list Z * list Z) :=
  match s with
  | [] => None
  | c :: rest =>
      if c =? sep then Some ([], rest)
      else match cut sep rest with
           | Some (before, after) => Some (c :: before, after)
           | None => None
           end
  end.

Definition standard_extensions : list string :=
  ["permit-X11-forwarding"; "permit-agent-forwarding"; "permit-port-forwarding"; "permit-pty";
   "permit-user-rc"].

Definition validateExtensionName (name : string) : res unit :=
  if contains standard_extensions name then Ok tt
  else if bool_decide (name = "source-address") then
    Err (Internal (Msg "%q is an SSH critical option, not an extension: pin service certificates" [name]))
  else if bool_decide (name = "force-command") then
    Err (Internal (Msg "%q is an SSH critical option, not an extension" [name]))
  else if bool_decide (name = "verify-required") then
    Err (Internal (Msg "%q is an SSH critical option, and ssoossh never sets it" [name]))
  else if bool_decide (name = "no-touch-required") then
    Err (Internal (Msg "%q cannot be configured" [name]))
  else match cut 64 (bytes name) with
       | Some (_ :: _, _ :: _) => Ok tt
       | _ => Err (Internal (Msg "%q is not an SSH certificate extension" [name]))
       end.

Fixpoint validate_names (names : list string) : res unit :=
  match names with
  | [] => Ok tt
  | n :: rest => (check! validateExtensionName n ;; validate_names rest)%go
  end.

(** Every extension list a type's configuration has, in the source's order. *)
Definition extension_lists (o : CertOptions) : list (list string) :=
  [co_Extensions o; lp_DefaultExtensions (co_LifetimePolicy o)]
  ++ map lt_GrantExtensions (lp_Tiers (co_LifetimePolicy o))
  ++ map sp_RemovedExtensions (lp_SourcePolicy (co_LifetimePolicy o)).

Definition type_blocks (c : CertificateOptions) : list CertOptions :=
  [opt_User c; opt_Service c; opt_PAM c; opt_Console c].

Definition validateExtensionNames (c : CertificateOptions) : res unit :=
  validate_names (mjoin (map (fun o => mjoin (extension_lists o)) (type_blocks c))).

(** ** [CertificateOptions.Validate]; the two map-range loops are in a fixed order *)

Fixpoint validate_networks (cidrs : list string) : res unit :=
  match cidrs with
  | [] => Ok tt
  | c :: rest =>
      match ParsePrefix c with
      | None => Err (Internal (Msg "cert_options.console.allowed_networks: %q is not a CIDR network" [c]))
      | Some _ => validate_networks rest
      end
  end.

Definition Validate (c : CertificateOptions) : res unit :=
  (if opt_ClientTimeout c <? signingShare then
     Err (Internal (text "cert_options.client_timeout must be greater than zero"))
   else if opt_ClientTimeout c <? co_ClientTimeout (opt_Console c) then
     Err (Internal (text "cert_options.console.client_timeout must not exceed cert_options.client_timeout"))
   else if negb (co_ClientTimeout (opt_Console c) =? 0)
           && (co_ClientTimeout (opt_Console c) <? signingShare) then
     Err (Internal (text "cert_options.console.client_timeout must be greater than zero"))
   else
     check! validate_networks (co_AllowedNetworks (opt_Console c)) ;;
     if co_EnrollmentDuration (opt_Service c) <=? 0 then
       Err (Internal (text "cert_options.service.enrollment_duration must be greater than zero"))
     else if existsb (fun o => negb (empty_str (co_RequireGroup o)))
               [opt_User c; opt_Service c; opt_PAM c] then
       Err (Internal (text "require_group has been replaced by require"))
     else if existsb (fun o => existsb (fun r => (0 <? length (sp_Extensions r))%nat)
                                 (lp_SourcePolicy (co_LifetimePolicy o))) (type_blocks c) then
       Err (Internal (text "source_policy extensions has been replaced by removed_extensions"))
     else validateExtensionNames c)%go.

(** ** Key-id templates (service/keyid.go) *)

Record keyIDTemplateData : Type := MkKeyIDData {
  kd_Username : string;
  kd_Subject : string;
  kd_Email : string;
  kd_ClientIP : string;
  kd_UniqueID : string;
  kd_Extra : gmap string extraValue;
}.

Definition missingPlaceholder : string := "MISSING".
Definition orMissing (s : string) : string := if empty_str s then missingPlaceholder else s.

Definition newKeyIDTemplateData (i : Identity) (clientIP uniqueID : string) : keyIDTemplateData :=
  MkKeyIDData (orMissing (id_Username i)) (orMissing (id_Subject i)) (orMissing (id_Email i))
    (orMissing clientIP) (orMissing uniqueID) (id_Extra i).

Definition zero_keyIDTemplateData : keyIDTemplateData := MkKeyIDData "" "" "" "" "" ∅.

(** A parsed template: what executing it on data gives. *)
Definition template : Type := keyIDTemplateData -> res string.

Record keyIDTemplates : Type := MkTemplates {
  kt_user : template;
  kt_service : template;
  kt_pam : template;
  kt_console : template;
}.

Definition executeKeyIDTemplate (tmpl : template) (data : keyIDTemplateData) : res string :=
  tmpl data.

Section templates.
(** [template.New(name).Option(...).Funcs(...).Parse(src)] of text/template. *)
Context (TemplateParse : string -> res template).

Definition parseKeyIDTemplate (src : string) : res template :=
  (let! tmpl := TemplateParse src in
   let! _ := executeKeyIDTemplate tmpl zero_keyIDTemplateData in
   Ok tmpl)%go.

Definition newKeyIDTemplates (opts : CertificateOptions) : res keyIDTemplates :=
  (let pick src dflt := if empty_str src then dflt else src in
   let userSrc := pick (co_KeyIDTemplate (opt_User opts)) "{{.Username}}" in
   let! u := parseKeyIDTemplate userSrc in
   let! s := parseKeyIDTemplate (pick (co_KeyIDTemplate (opt_Service opts)) userSrc) in
   let! p := parseKeyIDTemplate (pick (co_KeyIDTemplate (opt_PAM opts)) "pam:{{.Username}}") in
   let! c := parseKeyIDTemplate (pick (co_KeyIDTemplate (opt_Console opts)) "console:{{.Username}}") in
   Ok (MkTemplates u s p c))%go.
End templates.

(** ** The policy table (service/certtypepolicy.go) *)

Inductive certApprovalFlow : Type := flowUnsupported | flowEnrollment | flowSigning.

#[export] Instance certApprovalFlow_eq_dec : EqDecision certApprovalFlow.
Proof. solve_decision. Defined.

Record certTypePolicy : Type := MkCertTypePolicy {
  tp_require : option parsedCondition;
  tp_validDuration : Duration;
  tp_enrollmentDuration : Duration;
  tp_extensions : list string;
  tp_noTouchEligible : bool;
  tp_keyIDTemplate : template;
  tp_principals : Identity -> list string -> list string;
  tp_flow : certApprovalFlow;
  tp_linkage : option (Identity -> ApprovalSelection -> res unit);
  tp_clientTimeout : Duration;
  tp_allowedNetworks : list Prefix;
  tp_usesUserCode : bool;
}.

Definition approvalTTL (p : certTypePolicy) : Duration := ApprovalTTLFor (tp_clientTimeout p).

Definition permitsSource (p : certTypePolicy) (sourceIP : string) : bool :=
  if (length (tp_allowedNetworks p) =? 0)%nat then true
  else match ParseAddr sourceIP with
       | None => false
       | Some addr => existsb (fun n => PrefixContains n (Unmap addr)) (tp_allowedNetworks p)
       end.

Definition narrowRequestedOptions (p : certTypePolicy) (requested : RequestedOptions)
  : RequestedOptions :=
  MkOptions (intersectStrings (ro_Extensions requested) (tp_extensions p)) "" []
    (ro_NoTouchRequired requested && tp_noTouchEligible p).

Fixpoint parseAllowedNetworks (cidrs : list string) (label : string) : res (list Prefix) :=
  match cidrs with
  | [] => Ok []
  | c :: rest =>
      match ParsePrefix c with
      | None => Err (Internal (Msg "%s: invalid CIDR %q" [label; c]))
      | Some prefix =>
          (let! out := parseAllowedNetworks rest label in Ok (prefix :: out))%go
      end
  end.

(** A nil condition is zero. *)
Definition parseRequire (cond : option PolicyCondition) (declaredClaims : gset string)
  : res (option parsedCondition) :=
  match cond with
  | None => Ok None
  | Some c =>
      if IsZero c then Ok None
      else (let! p := parseCondition declaredClaims false c in Ok (Some p))%go
  end.

Definition userPrincipals (i : Identity) (selected : list string) : list string :=
  if (0 <? length selected)%nat then selected else [id_Username i].
Definition servicePrincipals (i : Identity) (_ : list string) : list string := [id_Username i].
Definition localAuthPrincipals (i : Identity) (selected : list string) : list string :=
  if (0 <? length selected)%nat then selected else heldAccounts i.

Definition policyTable : Type := CertificateType -> option certTypePolicy.

Definition newCertTypePolicies (opts : CertificateOptions) (kt : keyIDTemplates)
  (declaredClaims : gset string) : res policyTable :=
  (let! requireUser := parseRequire (co_Require (opt_User opts)) declaredClaims in
   let! requireService := parseRequire (co_Require (opt_Service opts)) declaredClaims in
   let! requirePAM := parseRequire (co_Require (opt_PAM opts)) declaredClaims in
   let! requireConsole := parseRequire (co_Require (opt_Console opts)) declaredClaims in
   let! consoleNetworks := parseAllowedNetworks (co_AllowedNetworks (opt_Console opts))
                             "cert_options.console.allowed_networks" in
   let consoleTimeout := if co_ClientTimeout (opt_Console opts) <=? 0 then opt_ClientTimeout opts
                         else co_ClientTimeout (opt_Console opts) in
   let principalLinkage := Some (fun i sel => checkUserPrincipalLinkage i (sel_Principals sel)) in
   Ok (fun ty =>
     match ty with
     | CertificateTypeUser =>
         Some (MkCertTypePolicy requireUser (co_ValidDuration (opt_User opts)) 0
                 (co_Extensions (opt_User opts)) false (kt_user kt) userPrincipals flowSigning
                 principalLinkage (opt_ClientTimeout opts) [] false)
     | CertificateTypeService =>
         Some (MkCertTypePolicy requireService (co_ValidDuration (opt_Service opts))
                 (co_EnrollmentDuration (opt_Service opts)) (co_Extensions (opt_Service opts)) true
                 (kt_service kt) servicePrincipals flowEnrollment
                 (Some (fun i sel => checkServiceAccountLinkage i (sel_ServiceAccount sel)
                                       (co_AllowUserAccounts (opt_Service opts))))
                 (opt_ClientTimeout opts) [] false)
     | CertificateTypePAM =>
         Some (MkCertTypePolicy requirePAM (co_ValidDuration (opt_PAM opts)) 0
                 (co_Extensions (opt_PAM opts)) false (kt_pam kt) localAuthPrincipals flowSigning
                 principalLinkage (opt_ClientTimeout opts) [] false)
     | CertificateTypeConsole =>
         Some (MkCertTypePolicy requireConsole (co_ValidDuration (opt_Console opts)) 0
                 (co_Extensions (opt_Console opts)) false (kt_console kt) localAuthPrincipals
                 flowSigning principalLinkage consoleTimeout consoleNetworks true)
     | CertificateTypeOther _ => None
     end))%go.

Definition checkApproverAuthorization (certType : CertificateType) (policy : certTypePolicy)
  (i : Identity) (selection : ApprovalSelection) : res unit :=
  if from_option (fun c => negb (evaluate c i)) false (tp_require policy) then
    Err (ForbiddenError (Msg "identity is not authorized to approve %s certificates"
                           [type_string certType]))
  else match tp_linkage policy with
       | Some linkage => linkage i selection
       | None => Ok tt
       end.

(** What the service decides with: [compileCertOptions]. *)
Definition compileCertOptions (TemplateParse : string -> res template) (opts : CertificateOptions)
  (declaredClaims : gset string) : res (lifetimePolicyEngine * policyTable) :=
  (let! kt := newKeyIDTemplates TemplateParse opts in
   let! engine := newLifetimePolicyEngine opts declaredClaims in
   let! policies := newCertTypePolicies opts kt declaredClaims in
   Ok (engine, policies))%go.

(** ** Serial numbers (internal/serial) *)

Definition Mask : Z := Z.shiftl 1 63 - 1.

(** [serial.New]: the eight random bytes, shifted and masked as the code does. *)
Definition serial_of_bytes (b : list Z) : Z :=
  let at_ k := default 0 (b !! k) in
  let serial := Z.lor (Z.shiftl (at_ 0%nat) 56) (Z.lor (Z.shiftl (at_ 1%nat) 48)
    (Z.lor (Z.shiftl (at_ 2%nat) 40) (Z.lor (Z.shiftl (at_ 3%nat) 32)
    (Z.lor (Z.shiftl (at_ 4%nat) 24) (Z.lor (Z.shiftl (at_ 5%nat) 16)
    (Z.lor (Z.shiftl (at_ 6%nat) 8) (at_ 7%nat))))))) in
  Z.land serial Mask.

(** ** Lemmas *)

Lemma SigningGraceFor_div b : 0 <= b -> SigningGraceFor b = b / 10.
Proof. intros H. unfold SigningGraceFor, go_div, signingShare. by apply Z.quot_div_nonneg. Qed.

Lemma budget_split b : ApprovalTTLFor b + 2 * SigningGraceFor b = b.
Proof. unfold ApprovalTTLFor. lia. Qed.

Lemma budget_positive b : signingShare <= b -> 0 < SigningGraceFor b /\ 0 < ApprovalTTLFor b.
Proof.
  unfold signingShare. intros H. unfold ApprovalTTLFor.
  rewrite SigningGraceFor_div by lia.
  Z.to_euclidean_division_equations. lia.
Qed.

(** A shorter budget's approval window ends before the longer one's sweep cutoff. *)
Lemma shorter_budget_ttl b b' :
  signingShare <= b' <= b -> ApprovalTTLFor b' <= ApprovalTTLFor b + SigningGraceFor b.
Proof.
  unfold signingShare. intros H. unfold ApprovalTTLFor. rewrite !SigningGraceFor_div by lia.
  Z.to_euclidean_division_equations. lia.
Qed.

Lemma Validate_ok c :
  Validate c = Ok tt ->
  signingShare <= opt_ClientTimeout c
  /\ co_ClientTimeout (opt_Console c) <= opt_ClientTimeout c
  /\ (co_ClientTimeout (opt_Console c) = 0 \/ signingShare <= co_ClientTimeout (opt_Console c))
  /\ 0 < co_EnrollmentDuration (opt_Service c)
  /\ validateExtensionNames c = Ok tt.
Proof.
  unfold Validate. intros H.
  destruct (opt_ClientTimeout c <? signingShare) eqn:E1; [done|].
  destruct (opt_ClientTimeout c <? co_ClientTimeout _) eqn:E2; [done|].
  destruct (negb _ && _) eqn:E3; [done|]. inv_res.
  destruct (_ <=? 0) eqn:E4; [done|]. destruct (existsb _ _); [done|].
  destruct (existsb _ _); [done|]. unfold signingShare in *. unbool; split_and!; (done || lia).
Qed.

Lemma validate_names_ok names :
  validate_names names = Ok tt <-> Forall (fun n => validateExtensionName n = Ok tt) names.
Proof.
  induction names as [|n names IH]; simpl; [done|].
  rewrite Forall_cons, <- IH. destruct (validateExtensionName n) as [[]|]; simpl; naive_solver.
Qed.

(** Names a validated configuration cannot contain. *)
Definition reserved_names : list string :=
  ["source-address"; "force-command"; "verify-required"; "no-touch-required"].

Lemma validateExtensionName_reserved n : validateExtensionName n = Ok tt -> n ∉ reserved_names.
Proof.
  unfold reserved_names. rewrite !not_elem_of_cons. intros H.
  split_and!; [..|apply not_elem_of_nil]; intros ->; vm_compute in H; discriminate.
Qed.

Lemma extension_names_ok c o l n :
  validateExtensionNames c = Ok tt -> o ∈ type_blocks c -> l ∈ extension_lists o -> n ∈ l ->
  validateExtensionName n = Ok tt.
Proof.
  unfold validateExtensionNames. rewrite validate_names_ok, Forall_forall.
  intros H Ho Hl Hn. apply H. apply list_elem_of_join. exists (mjoin (extension_lists o)).
  split; [apply list_elem_of_join; eauto|]. by apply (list_elem_of_fmap_2 (fun o => mjoin (extension_lists o))).
Qed.

Lemma options_for_block c ty o : options_for c ty = Some o -> o ∈ type_blocks c.
Proof. unfold type_blocks. destruct ty; simpl; intros [= <-] || done; set_solver. Qed.

(** What the table promises about one type's policy. *)
Record policy_sound (opts : CertificateOptions) (ty : CertificateType) (o : CertOptions)
  (p : certTypePolicy) : Prop := {
  ps_valid : tp_validDuration p = co_ValidDuration o;
  ps_exts : tp_extensions p = co_Extensions o;
  ps_touch : tp_noTouchEligible p = is_service ty;
  ps_flow : tp_flow p = if is_service ty then flowEnrollment else flowSigning;
  ps_enroll : ty = CertificateTypeService ->
    tp_enrollmentDuration p = co_EnrollmentDuration (opt_Service opts);
  ps_budget : tp_clientTimeout p = opt_ClientTimeout opts
    \/ 0 < tp_clientTimeout p /\ tp_clientTimeout p = co_ClientTimeout (opt_Console opts);
  ps_code : tp_usesUserCode p = bool_decide (ty = CertificateTypeConsole);
  ps_linkage : forall i sel,
    (if tp_linkage p is Some l then l i sel else Ok tt) =
    if is_service ty
    then checkServiceAccountLinkage i (sel_ServiceAccount sel) (co_AllowUserAccounts (opt_Service opts))
    else checkUserPrincipalLinkage i (sel_Principals sel);
  ps_principals : forall i sel, ty <> CertificateTypeService ->
    sel ⊆ heldAccounts i -> tp_principals p i sel <> [] /\ tp_principals p i sel ⊆ heldAccounts i;
}.

Lemma userPrincipals_held i sel :
  sel ⊆ heldAccounts i -> userPrincipals i sel <> [] /\ userPrincipals i sel ⊆ heldAccounts i.
Proof.
  unfold userPrincipals. destruct sel as [|s sel]; simpl; [|done]. intros _.
  destruct (heldAccounts_head i) as [rest ->]. split; [done|set_solver].
Qed.

Lemma localAuthPrincipals_held i sel :
  sel ⊆ heldAccounts i ->
  localAuthPrincipals i sel <> [] /\ localAuthPrincipals i sel ⊆ heldAccounts i.
Proof.
  unfold localAuthPrincipals. destruct sel as [|s sel]; simpl; [|done]. intros _.
  destruct (heldAccounts_head i) as [rest ->]. done.
Qed.

Lemma newCertTypePolicies_sound opts kt claims table ty p :
  newCertTypePolicies opts kt claims = Ok table -> table ty = Some p ->
  exists o, options_for opts ty = Some o /\ policy_sound opts ty o p.
Proof.
  unfold newCertTypePolicies. intros H Hp. inv_res.
  destruct ty; simpl in Hp; try done; injection Hp as <-; eexists; (split; [reflexivity|]);
    constructor; simpl; auto using userPrincipals_held, localAuthPrincipals_held; try done.
  destruct (_ <=? 0) eqn:E; [by left|]. unbool. by right.
Qed.

Lemma newCertTypePolicies_total opts kt claims table ty o :
  newCertTypePolicies opts kt claims = Ok table -> options_for opts ty = Some o ->
  is_Some (table ty).
Proof. unfold newCertTypePolicies. intros H Ho. inv_res. destruct ty; try done; eauto. Qed.

Lemma compileCertOptions_ok parse opts claims e table :
  compileCertOptions parse opts claims = Ok (e, table) ->
  newLifetimePolicyEngine opts claims = Ok e
  /\ forall ty p, table ty = Some p -> exists o, options_for opts ty = Some o /\ policy_sound opts ty o p.
Proof.
  unfold compileCertOptions. intros H. inv_res. simplify_eq. split; [done|].
  intros. by eapply newCertTypePolicies_sound.
Qed.

Lemma narrowRequestedOptions_ceiling p req x :
  x ∈ ro_Extensions (narrowRequestedOptions p req) <-> x ∈ ro_Extensions req /\ x ∈ tp_extensions p.
Proof. apply elem_of_intersectStrings. Qed.

(** ** Theorems *)

(** C28: the timing budget adds up and per-type budgets stay inside it. For options
    accepted by [Validate], the approval window and the two signing shares make up the
    whole client timeout, every share is positive, and the approval window of every
    certificate type (console's shorter one included) ends no later than the stranded
    sweep's cutoff, approval window plus one signing share of the global budget. *)
Theorem approval_window_before_sweep parse opts claims e table ty p :
  Validate opts = Ok tt -> compileCertOptions parse opts claims = Ok (e, table) ->
  table ty = Some p ->
  ApprovalTTL opts + 2 * SigningGrace opts = opt_ClientTimeout opts
  /\ 0 < SigningGrace opts /\ 0 < approvalTTL p
  /\ tp_clientTimeout p <= opt_ClientTimeout opts
  /\ approvalTTL p <= ApprovalTTL opts + SigningGrace opts.
Proof.
  intros (H1 & H2 & H3 & _)%Validate_ok [_ Ht]%compileCertOptions_ok Hp.
  destruct (Ht _ _ Hp) as (o & _ & Hs).
  assert (signingShare <= tp_clientTimeout p <= opt_ClientTimeout opts) as Hb.
  { destruct (ps_budget _ _ _ _ Hs) as [?|[??]]; lia. }
  split_and!; [apply budget_split|by apply budget_positive|apply budget_positive; lia|lia|].
  by apply shorter_budget_ttl.
Qed.

(** C38: a validated configuration cannot smuggle in a critical option. In options that
    [Validate] accepts, no extension list of any type (ceiling, default grants, tier
    grants, source removals) names source-address, force-command, verify-required or
    no-touch-required; so no certificate type's ceiling contains one. *)
Theorem validated_lists_have_no_critical_option opts ty o l n :
  Validate opts = Ok tt -> options_for opts ty = Some o -> l ∈ extension_lists o -> n ∈ l ->
  n ∉ reserved_names.
Proof.
  intros (_ & _ & _ & _ & Hv)%Validate_ok Ho%options_for_block Hl Hn.
  eapply validateExtensionName_reserved, extension_names_ok; eauto.
Qed.

(** C17: an approver can only certify accounts they hold. When the authorization check
    of an approval passes, the type's require condition holds for the approver and the
    principals the certificate would carry are non-empty and all among the approver's
    own accounts (or, for a service enrollment, the chosen account is one the approver
    may vouch for). *)
Theorem authorized_principals_held parse opts claims e table ty p i sel :
  compileCertOptions parse opts claims = Ok (e, table) -> table ty = Some p ->
  checkApproverAuthorization ty p i sel = Ok tt ->
  (forall c, tp_require p = Some c -> evaluate c i = true)
  /\ (if is_service ty
      then sel_ServiceAccount sel
             ∈ ApprovableServiceAccounts i (co_AllowUserAccounts (opt_Service opts))
      else tp_principals p i (sel_Principals sel) <> []
           /\ tp_principals p i (sel_Principals sel) ⊆ heldAccounts i).
Proof.
  intros [_ Ht]%compileCertOptions_ok Hp H. destruct (Ht _ _ Hp) as (o & _ & Hs).
  unfold checkApproverAuthorization in H.
  destruct (from_option _ _ _) eqn:E; [done|].
  pose proof (ps_linkage _ _ _ _ Hs i sel) as Hl. rewrite H in Hl. split.
  - intros c Hc. rewrite Hc in E. simpl in E. by apply negb_false_iff.
  - destruct (is_service ty) eqn:Es; symmetry in Hl.
    + by apply service_linkage_ok.
    + apply (ps_principals _ _ _ _ Hs); [|by apply checkUserPrincipalLinkage_ok].
      intros ->. discriminate Es.
Qed.

(** A configured network gate fails closed. With no networks configured every
    source is admitted; otherwise a source is admitted exactly when it parses as an
    address one of the networks covers (IPv4-mapped addresses unmapped), so an empty or
    unparseable source address is refused. *)
Theorem permitsSource_gate p sourceIP :
  permitsSource p sourceIP = true <->
  tp_allowedNetworks p = []
  \/ exists addr n, ParseAddr sourceIP = Some addr /\ n ∈ tp_allowedNetworks p
       /\ PrefixContains n (Unmap addr) = true.
Proof.
  unfold permitsSource. destruct (tp_allowedNetworks p) as [|n0 ns] eqn:E; [naive_solver|].
  simpl (length _ =? 0)%nat. cbv iota.
  destruct (ParseAddr sourceIP) as [addr|]; [|naive_solver].
  rewrite existsb_exists. split.
  - intros (n & Hn & Hc). right. exists addr, n. rewrite <- list_elem_of_In in Hn. done.
  - intros [?|(a & n & [= <-] & Hn & Hc)]; [done|]. exists n.
    rewrite <- list_elem_of_In. done.
Qed.

Lemma land_mask_mod x : Z.land x Mask = x mod 2 ^ 63.
Proof. unfold Mask. rewrite Z.shiftl_1_l, <- Z.land_ones by lia. f_equal. Qed.

(** Serial numbers are the masked big-endian value of their random bytes: the 63 low
    bits, so a serial always fits a signed 64-bit column. *)
Lemma serial_63_bits b :
  bytes_ok b -> length b = 8%nat ->
  serial_of_bytes b = big_endian b mod 2 ^ 63 /\ 0 <= serial_of_bytes b < 2 ^ 63.
Proof.
  intros Hb Hl. assert (serial_of_bytes b = big_endian b mod 2 ^ 63) as E.
  { do 8 (destruct b as [|? b]; [discriminate Hl|]). destruct b; [|discriminate Hl].
    unfold bytes_ok in Hb. rewrite !Forall_cons in Hb.
    unfold serial_of_bytes. cbn [lookup list_lookup default from_option id].
    rewrite land_mask_mod. f_equal. unfold big_endian. cbn [foldl].
    change (id ?x) with x.
    rewrite (lor_shiftl_add _ _ 8) by lia. rewrite (lor_shiftl_add _ _ 16) by lia.
    rewrite (lor_shiftl_add _ _ 24) by lia. rewrite (lor_shiftl_add _ _ 32) by lia.
    rewrite (lor_shiftl_add _ _ 40) by lia. rewrite (lor_shiftl_add _ _ 48) by lia.
    rewrite (lor_shiftl_add _ _ 56) by lia. lia. }
  split; [done|]. rewrite E. apply Z.mod_pos_bound. lia.
Qed.

(** ** Instances *)

Module PolicySample.

(** A template engine that renders the username after the literal source. *)
Definition parse (src : string) : res template := Ok (fun d => Ok (src +:+ kd_Username d)).

Definition compiled : lifetimePolicyEngine * policyTable :=
  match compileCertOptions parse Sample.options {[ "age" ]} with
  | Ok x => x
  | Err _ => (MkEngine None None None None, fun _ => None)
  end.

Lemma compiled_ok : compileCertOptions parse Sample.options {[ "age" ]} = Ok (compiled.1, compiled.2).
Proof. vm_compute. reflexivity. Qed.

Definition policy (ty : CertificateType) : certTypePolicy :=
  default (MkCertTypePolicy None 0 0 [] false (fun _ => Ok "") (fun _ _ => []) flowUnsupported None 0 []
    false) (compiled.2 ty).

Lemma policy_user : compiled.2 CertificateTypeUser = Some (policy CertificateTypeUser).
Proof. vm_compute. reflexivity. Qed.

Definition selection (ps : list string) : ApprovalSelection := MkSelection "" ps None "".

End PolicySample.

Lemma approval_window_before_sweep_witness :
  approvalTTL (PolicySample.policy CertificateTypeUser)
    <= ApprovalTTL Sample.options + SigningGrace Sample.options.
Proof.
  apply (approval_window_before_sweep PolicySample.parse Sample.options {[ "age" ]}
    PolicySample.compiled.1 PolicySample.compiled.2 CertificateTypeUser);
    [vm_compute; reflexivity|exact PolicySample.compiled_ok|exact PolicySample.policy_user].
Defined.

Lemma validated_lists_have_no_critical_option_witness : "permit-pty" ∉ reserved_names.
Proof.
  apply (validated_lists_have_no_critical_option Sample.options CertificateTypeUser
    (Sample.cert_options Sample.staff_policy) ["permit-pty"; "permit-port-forwarding"]);
    [vm_compute; reflexivity|reflexivity|left|left].
Defined.

Lemma authorized_principals_held_witness :
  tp_principals (PolicySample.policy CertificateTypeUser) sample_identity ["ann"]
    ⊆ heldAccounts sample_identity.
Proof.
  apply (authorized_principals_held PolicySample.parse Sample.options {[ "age" ]}
    PolicySample.compiled.1 PolicySample.compiled.2 CertificateTypeUser _ sample_identity
    (PolicySample.selection ["ann"]));
    [exact PolicySample.compiled_ok|exact PolicySample.policy_user|vm_compute; reflexivity].
Defined.
