(* ===== verification/World.v ===== *)
(** * The world the handlers run in

    A database of tables, the process-wide outcome cache, the message log and the
    sinks; the effects a handler performs on them, one atomic step each; handlers as
    programs over those effects; and the two ways of running them: alone, and
    interleaved with others (a rely/guarantee weakest precondition).

    Everything the code does not control (clock, randomness, uuids, failing
    statements, which message arrives) is a [choice] made at each step. *)

From S2P Require Import Prelude Netip Model.

(** ** Tables *)

(** A row of audit_events; the source address column is kept parsed. *)
Record AuditRow : Type := MkAuditRow {
  ar_ID : string;
  ar_CreatedAt : GoTime;
  ar_ActorUserID : option string;
  ar_TargetUserID : option string;
  ar_SourceIP : option Addr;
  ar_Event : AuditEvent;
}.

Record DB : Type := MkDB {
  db_requests : gmap string CertificateRequest;     (* by id *)
  db_decisions : gmap string Decision;              (* by certificate_request_id, unique *)
  db_enrollments : gmap string Enrollment;          (* by id *)
  db_retrievals : gmap string EnrollmentRetrieval;  (* by id *)
  db_certificates : gmap Z Certificate;             (* by serial_number, unique *)
  db_users : gmap string User;                      (* by id *)
  db_audit : list AuditRow;
}.

Definition set_requests (d : DB) x : DB :=
  MkDB x (db_decisions d) (db_enrollments d) (db_retrievals d) (db_certificates d) (db_users d) (db_audit d).
Definition set_decisions (d : DB) x : DB :=
  MkDB (db_requests d) x (db_enrollments d) (db_retrievals d) (db_certificates d) (db_users d) (db_audit d).
Definition set_enrollments (d : DB) x : DB :=
  MkDB (db_requests d) (db_decisions d) x (db_retrievals d) (db_certificates d) (db_users d) (db_audit d).
Definition set_retrievals (d : DB) x : DB :=
  MkDB (db_requests d) (db_decisions d) (db_enrollments d) x (db_certificates d) (db_users d) (db_audit d).
Definition set_certificates (d : DB) x : DB :=
  MkDB (db_requests d) (db_decisions d) (db_enrollments d) (db_retrievals d) x (db_users d) (db_audit d).
Definition set_users (d : DB) x : DB :=
  MkDB (db_requests d) (db_decisions d) (db_enrollments d) (db_retrievals d) (db_certificates d) x (db_audit d).
Definition set_audit (d : DB) x : DB :=
  MkDB (db_requests d) (db_decisions d) (db_enrollments d) (db_retrievals d) (db_certificates d) (db_users d) x.

(** ** Statements and transactions

    A statement maps a database to its answer and the database after it. An error
    discards the changes: a failed statement changes nothing and a transaction whose
    function returns an error is rolled back (see [exec_eff]). *)

Definition tx (A : Type) : Type := DB -> res A * DB.

Definition tx_ret {A} (a : A) : tx A := fun d => (Ok a, d).
Definition tx_err {A} (e : goerr) : tx A := fun d => (Err e, d).
Definition tx_bind {A B} (m : tx A) (k : A -> tx B) : tx B := fun d =>
  match m d with
  | (Ok a, d') => k a d'
  | (Err e, d') => (Err e, d')
  end.

Notation "'tx!' x := m 'in' k" := (tx_bind m (fun x => k))
  (at level 10, x name, m at level 100, k at level 200) : go_scope.

(** The first row, in key order, that satisfies a predicate. *)
Definition find_row {A} (m : gmap string A) (P : A -> bool) : option A :=
  snd <$> List.find (fun kv => P kv.2) (map_to_list m).

Definition first_request (id : string) : tx (option CertificateRequest) := fun d =>
  (Ok (db_requests d !! id), d).

Definition request_by_code (code : string) (sts : list CertificateRequestStatus) (d : DB)
  : option CertificateRequest :=
  find_row (db_requests d)
    (fun r => bool_decide (cr_UserCode r = code) && contains sts (cr_Status r)).

Definition user_by_subject (subject : string) (d : DB) : option User :=
  find_row (db_users d) (fun u => bool_decide (us_Subject u = subject)).

Definition enrollment_by_code (code : string) (d : DB) : option Enrollment :=
  find_row (db_enrollments d) (fun e => bool_decide (en_Code e = code)).

(** [UPDATE ... WHERE id = ? AND guard]; the answer is RowsAffected = 1. *)
Definition update_request (id : string) (guard : CertificateRequest -> bool)
  (f : CertificateRequest -> CertificateRequest) : tx bool := fun d =>
  match db_requests d !! id with
  | Some r => if guard r then (Ok true, set_requests d (<[id := f r]> (db_requests d))) else (Ok false, d)
  | None => (Ok false, d)
  end.

Definition update_enrollment (id : string) (guard : Enrollment -> bool)
  (f : Enrollment -> Enrollment) : tx bool := fun d =>
  match db_enrollments d !! id with
  | Some e => if guard e then (Ok true, set_enrollments d (<[id := f e]> (db_enrollments d)))
              else (Ok false, d)
  | None => (Ok false, d)
  end.

Definition update_retrieval (id : string) (f : EnrollmentRetrieval -> EnrollmentRetrieval)
  : tx bool := fun d =>
  match db_retrievals d !! id with
  | Some r => (Ok true, set_retrievals d (<[id := f r]> (db_retrievals d)))
  | None => (Ok false, d)
  end.

Definition live_status (st : CertificateRequestStatus) : bool :=
  contains [StatusPending; StatusSigning] st.

(** certificate_requests: the primary key, and user_code unique among the live rows
    that carry one. *)
Definition create_request (r : CertificateRequest) : tx unit := fun d =>
  if bool_decide (is_Some (db_requests d !! cr_ID r)) then (Err UniqueViolation, d)
  else if negb (empty_str (cr_UserCode r))
          && bool_decide (is_Some (request_by_code (cr_UserCode r) [StatusPending; StatusSigning] d))
  then (Err UniqueViolation, d)
  else (Ok tt, set_requests d (<[cr_ID r := r]> (db_requests d))).

Definition create_decision (x : Decision) : tx unit := fun d =>
  if bool_decide (is_Some (db_decisions d !! de_CertificateRequestID x)) then (Err UniqueViolation, d)
  else (Ok tt, set_decisions d (<[de_CertificateRequestID x := x]> (db_decisions d))).

Definition create_enrollment (e : Enrollment) : tx unit := fun d =>
  if bool_decide (is_Some (db_enrollments d !! en_ID e))
     || bool_decide (is_Some (enrollment_by_code (en_Code e) d))
  then (Err UniqueViolation, d)
  else (Ok tt, set_enrollments d (<[en_ID e := e]> (db_enrollments d))).

Definition create_retrieval (r : EnrollmentRetrieval) : tx unit := fun d =>
  if bool_decide (is_Some (db_retrievals d !! er_ID r)) then (Err UniqueViolation, d)
  else (Ok tt, set_retrievals d (<[er_ID r := r]> (db_retrievals d))).

(** [ON CONFLICT (serial_number) DO NOTHING]; the answer is RowsAffected = 1. *)
Definition create_certificate (c : Certificate) : tx bool := fun d =>
  if bool_decide (is_Some (db_certificates d !! ce_SerialNumber c)) then (Ok false, d)
  else (Ok true, set_certificates d (<[ce_SerialNumber c := c]> (db_certificates d))).

Definition create_audit (a : AuditRow) : tx unit := fun d => (Ok tt, set_audit d (db_audit d ++ [a])).

(** ** The rest of the state *)

Inductive Published : Type :=
| PubJob (j : SigningJob)
| PubReply (r : SignedReply)
| PubWake (id : string) (m : requestOutcomeMessage).

(** A queued notification: its kind, whom it is for, and the payload's fields. *)
Record Notice : Type := MkNotice {
  no_Kind : string;
  no_Recipient : string;
  no_Payload : list (string * AuditValue);
}.

(** What a uuid was drawn to name; kept as history, no operation reads it. *)
Inductive uuid_kind : Type := KRequest | KRetrieval | KEnrollment | KCode | KRow.

#[export] Instance uuid_kind_eq_dec : EqDecision uuid_kind.
Proof. solve_decision. Defined.

Record Sys : Type := MkSys {
  sys_db : DB;
  sys_resolved : gmap string WaitOutcome;
  sys_published : list Published;
  sys_notices : list Notice;
  sys_shipped : list AuditEvent;
  sys_clock : GoTime;
  sys_issued : gmap string uuid_kind;   (* uuids handed out; never reissued *)
}.

Definition set_db (s : Sys) x : Sys :=
  MkSys x (sys_resolved s) (sys_published s) (sys_notices s) (sys_shipped s) (sys_clock s) (sys_issued s).
Definition set_resolved (s : Sys) x : Sys :=
  MkSys (sys_db s) x (sys_published s) (sys_notices s) (sys_shipped s) (sys_clock s) (sys_issued s).
Definition set_published (s : Sys) x : Sys :=
  MkSys (sys_db s) (sys_resolved s) x (sys_notices s) (sys_shipped s) (sys_clock s) (sys_issued s).
Definition set_notices (s : Sys) x : Sys :=
  MkSys (sys_db s) (sys_resolved s) (sys_published s) x (sys_shipped s) (sys_clock s) (sys_issued s).
Definition set_shipped (s : Sys) x : Sys :=
  MkSys (sys_db s) (sys_resolved s) (sys_published s) (sys_notices s) x (sys_clock s) (sys_issued s).
Definition set_clock (s : Sys) x : Sys :=
  MkSys (sys_db s) (sys_resolved s) (sys_published s) (sys_notices s) (sys_shipped s) x (sys_issued s).
Definition set_issued (s : Sys) x : Sys :=
  MkSys (sys_db s) (sys_resolved s) (sys_published s) (sys_notices s) (sys_shipped s) (sys_clock s) x.

Definition requests (s : Sys) : gmap string CertificateRequest := db_requests (sys_db s).
Definition decisions (s : Sys) : gmap string Decision := db_decisions (sys_db s).
Definition enrollments (s : Sys) : gmap string Enrollment := db_enrollments (sys_db s).
Definition retrievals (s : Sys) : gmap string EnrollmentRetrieval := db_retrievals (sys_db s).
Definition certificates (s : Sys) : gmap Z Certificate := db_certificates (sys_db s).
Definition users (s : Sys) : gmap string User := db_users (sys_db s).

(** ** Choices of the environment *)

(** What arrives first in a select over a subscription, the context and a timer. *)
Inductive arrival : Type := ArriveMessage (n : nat) | ArriveGarbage | ArriveClosed | ArriveDone | ArriveTimer.

Record choice : Type := MkChoice {
  ch_now : GoTime;         (* what the clock reads, if it has moved on *)
  ch_later : Duration;     (* how much later a second reading is *)
  ch_fault : bool;         (* the statement, publish or entropy read fails *)
  ch_bytes : list Z;       (* entropy *)
  ch_uuid : string;        (* the uuid drawn, if it is fresh *)
  ch_arrival : arrival;    (* the select branch taken *)
  ch_cancelled : bool;     (* the context is already done *)
}.

Definition calm : choice := MkChoice 0 0 false [] "" ArriveDone false.

(** [n] entropy bytes, padded with zeros. *)
Definition entropy (n : nat) (l : list Z) : list Z :=
  take n (map (fun b => b mod 256) l ++ repeat 0 n).

(** What a select yields: a message of the topic (decoded or not), the closed
    subscription, the done context, or the timer. *)
Inductive received : Type :=
| GotMessage (m : encoded requestOutcomeMessage)
| GotClosed
| GotDone
| GotTimer.

Definition wakes_for (id : string) (l : list Published) : list requestOutcomeMessage :=
  omap (fun p => match p with
                 | PubWake id' m => if decide (id' = id) then Some m else None
                 | _ => None
                 end) l.

(** ** Effects *)

Inductive eff : Type -> Type :=
| Now : eff GoTime
| NewUUID (kind : uuid_kind) : eff string
| RandRead (n : nat) : eff (res (list Z))
| Query {A : Type} (q : DB -> A) : eff (res A)
| Exec {A : Type} (stmt : GoTime -> GoTime -> tx A) : eff (res A)
| CacheGet (id : string) : eff (option WaitOutcome)
| CacheSet (id : string) (o : WaitOutcome) : eff unit
| CacheEvict (cutoff : GoTime) : eff unit
| Publish (m : Published) : eff (res unit)
| Notify (n : Notice) : eff unit
| Ship (e : AuditEvent) : eff unit
| Subscribe (id : string) : eff (res unit)
| Receive (id : string) (timer : bool) : eff received
| Sleep (d : Duration) : eff bool.

(** A statement or transaction is one atomic step and may read the clock twice
    ([Exec] passes both readings); an error leaves the database as it was. A
    subscription delivers only published messages of its topic, or bytes that do not
    decode; a branch that cannot be taken falls back to the done context. *)
Definition exec_eff (c : choice) (s : Sys) {X} (e : eff X) : X * Sys :=
  let t1 := Z.max (sys_clock s) (ch_now c) in
  match e in eff X return X * Sys with
  | Now => (t1, set_clock s t1)
  | NewUUID kind =>
      let u := match sys_issued s !! ch_uuid c with
               | Some _ => fresh (dom (sys_issued s))
               | None => ch_uuid c
               end in
      (u, set_issued s (<[u := kind]> (sys_issued s)))
  | RandRead n =>
      (if ch_fault c then Err (Internal (text "entropy")) else Ok (entropy n (ch_bytes c)), s)
  | Query q => (if ch_fault c then Err DBError else Ok (q (sys_db s)), s)
  | Exec stmt =>
      if ch_fault c then (Err DBError, s)
      else
        let t2 := t1 + Z.max 0 (ch_later c) in
        match stmt t1 t2 (sys_db s) with
        | (Ok a, d') => (Ok a, set_clock (set_db s d') t2)
        | (Err e, _) => (Err e, set_clock s t2)
        end
  | CacheGet id => (sys_resolved s !! id, s)
  | CacheSet id o => (tt, set_resolved s (<[id := o]> (sys_resolved s)))
  | CacheEvict cutoff =>
      (tt, set_resolved s (filter (fun kv => Before (wo_resolvedAt kv.2) cutoff = false) (sys_resolved s)))
  | Publish m =>
      if ch_fault c then (Err (Internal (text "publish")), s)
      else (Ok tt, set_published s (sys_published s ++ [m]))
  | Notify n => (tt, set_notices s (sys_notices s ++ [n]))
  | Ship ev => (tt, set_shipped s (sys_shipped s ++ [ev]))
  | Subscribe id => (if ch_fault c then Err (Internal (text "subscribe")) else Ok tt, s)
  | Receive id timer =>
      (match ch_arrival c with
       | ArriveMessage n => match wakes_for id (sys_published s) !! n with
                            | Some m => GotMessage (Enc m)
                            | None => GotDone
                            end
       | ArriveGarbage => GotMessage (Undecodable "")
       | ArriveClosed => GotClosed
       | ArriveDone => GotDone
       | ArriveTimer => if timer then GotTimer else GotDone
       end, set_clock s t1)
  | Sleep d =>
      if ch_cancelled c then (false, set_clock s t1)
      else (true, set_clock s (Z.max t1 (sys_clock s + d)))
  end.

(** ** Programs *)

Inductive prog (A : Type) : Type :=
| Ret (a : A)
| Step {X : Type} (e : eff X) (k : X -> prog A).
Arguments Ret {A} a.
Arguments Step {A X} e k.

Fixpoint bind {A B} (p : prog A) (f : A -> prog B) : prog B :=
  match p with
  | Ret a => f a
  | Step e k => Step e (fun x => bind (k x) f)
  end.

(** Run [p], continue with its value, or stop with its error. *)
Definition bind_ok {A B} (p : prog (res A)) (f : A -> prog (res B)) : prog (res B) :=
  bind p (fun r => match r with Ok a => f a | Err e => Ret (Err e) end).

Definition perform {X} (e : eff X) : prog X := Step e Ret.

Definition Return {A} (a : A) : prog (res A) := Ret (Ok a).
Definition Fail {A} (e : goerr) : prog (res A) := Ret (Err e).

Declare Scope prog_scope.
Delimit Scope prog_scope with prog.
Notation "'let*' x := p 'in' k" := (bind p (fun x => k))
  (at level 10, x name, p at level 100, k at level 200) : prog_scope.
Notation "'do*' p ;; k" := (bind p (fun _ => k))
  (at level 10, p at level 99, k at level 200) : prog_scope.
Notation "'let?' x := p 'in' k" := (bind_ok p (fun x => k))
  (at level 10, x name, p at level 100, k at level 200) : prog_scope.
Notation "'do?' p ;; k" := (bind_ok p (fun _ => k))
  (at level 10, p at level 99, k at level 200) : prog_scope.

(** Running a program alone, its choices given in order ([calm] when they run out). *)
Fixpoint run {A} (cs : list choice) (p : prog A) (s : Sys) : A * Sys :=
  match p with
  | Ret a => (a, s)
  | Step e k =>
      let '(x, s') := exec_eff (default calm (head cs)) s e in
      run (tail cs) (k x) s'
  end.

(** ** Rely/guarantee weakest precondition

    [wp R G p Q s]: started in [s], with other steps allowed to move the state along
    [R] before each of its own, every step of [p] moves it along [G], and if [p]
    finishes then [Q] holds of its answer and state. Programs are finite trees, so
    this is total correctness up to the fuel of the modelled loops. *)
Fixpoint wp {A} (R G : Sys -> Sys -> Prop) (p : prog A) (Q : A -> Sys -> Prop) (s : Sys) : Prop :=
  match p with
  | Ret a => Q a s
  | Step e k => forall s1, R s s1 -> forall c,
      let '(x, s2) := exec_eff c s1 e in G s1 s2 /\ wp R G (k x) Q s2
  end.

Section wp.
Context (R G : Sys -> Sys -> Prop).

Lemma wp_bind {A B} (p : prog A) (f : A -> prog B) Q : forall s,
  wp R G p (fun a => wp R G (f a) Q) s -> wp R G (bind p f) Q s.
Proof.
  induction p as [a|X e k IH]; simpl; intros s H; [done|].
  intros s1 HR c. specialize (H s1 HR c). destruct (exec_eff c s1 e). naive_solver.
Qed.

Lemma wp_bind_ok {A B} (p : prog (res A)) (f : A -> prog (res B)) Q s :
  wp R G p (fun r s' => match r with
                        | Ok a => wp R G (f a) Q s'
                        | Err e => Q (Err e) s'
                        end) s ->
  wp R G (bind_ok p f) Q s.
Proof.
  intros H. unfold bind_ok. apply wp_bind. revert s H.
  induction p as [r|X e k IH]; simpl; intros s H; [by destruct r|].
  intros s1 HR c. specialize (H s1 HR c). destruct (exec_eff c s1 e). naive_solver.
Qed.

Lemma wp_mono {A} (p : prog A) (Q Q' : A -> Sys -> Prop) : forall s,
  (forall a s', Q a s' -> Q' a s') -> wp R G p Q s -> wp R G p Q' s.
Proof.
  induction p as [a|X e k IH]; simpl; intros s HQ H; [auto|].
  intros s1 HR c. specialize (H s1 HR c). destruct (exec_eff c s1 e) as [x s2].
  destruct H as [HG H]. split; [done|]. by apply IH.
Qed.

(** Steps of others before the first own step are absorbed. *)
Lemma wp_rely {A} (p : prog A) (Q : A -> Sys -> Prop) s s' :
  (forall a, Q a s -> R s s' -> Q a s') -> Transitive R ->
  wp R G p Q s -> R s s' -> wp R G p Q s'.
Proof.
  intros HQ Htr. destruct p as [a|X e k]; simpl; intros H HR; [auto|].
  intros s1 HR1 c. apply (H s1); by etrans.
Qed.

(** Both relations may be strengthened or weakened. *)
Lemma wp_run {A} (p : prog A) (Q : A -> Sys -> Prop) : Reflexive R ->
  forall cs s, wp R G p Q s -> let '(a, s') := run cs p s in Q a s'.
Proof.
  intros Hrefl. induction p as [a|X e k IH]; simpl; intros cs s H; [done|].
  specialize (H s (Hrefl s) (default calm (head cs))).
  destruct (exec_eff _ s e) as [x s2]. destruct H as [_ H]. by apply IH.
Qed.
End wp.

Lemma wp_conseq {A} (R R' G G' : Sys -> Sys -> Prop) (p : prog A) (Q : A -> Sys -> Prop) :
  (forall s s', R' s s' -> R s s') -> (forall s s', G s s' -> G' s s') ->
  forall s, wp R G p Q s -> wp R' G' p Q s.
Proof.
  intros HR HG. induction p as [a|X e k IH]; simpl; intros s H; [done|].
  intros s1 H1 c. specialize (H s1 (HR _ _ H1) c). destruct (exec_eff c s1 e). naive_solver.
Qed.
