(* ===== verification/AuditLog.v ===== *)
(** * The audit log (server/service/audit.go)

    Two sinks: the audit_events table and the shipped log. Preparing an event,
    recording it inside a transaction or on its own, and the retention sweep. *)

From S2P Require Import Prelude Netip Model World.
Local Open Scope prog_scope.

(** ** strings.TrimSpace, on the bytes of a Go string *)

(** The UTF-8 encodings of the Unicode white space characters. *)
Definition spaces : list (list Z) :=
  [[9]; [10]; [11]; [12]; [13]; [32]; [194; 133]; [194; 160]; [225; 154; 128]]
  ++ map (fun k => [226; 128; 128 + Z.of_nat k]) (seq 0 11)
  ++ [[226; 128; 168]; [226; 128; 169]; [226; 128; 175]; [226; 129; 159]; [227; 128; 128]].

(** Drop one white space character from the front, if there is one. *)
Definition strip_one (sp : list (list Z)) (l : list Z) : option (list Z) :=
  (fun w => drop (length w) l) <$> List.find (fun w => bool_decide (take (length w) l = w)) sp.

Fixpoint strip_front (fuel : nat) (sp : list (list Z)) (l : list Z) : list Z :=
  match fuel with
  | O => l
  | S n => match strip_one sp l with
           | Some l' => strip_front n sp l'
           | None => l
           end
  end.

Definition trim_bytes (l : list Z) : list Z :=
  let front := strip_front (length l) spaces l in
  rev (strip_front (length front) (map (@rev Z) spaces) (rev front)).

Definition trim_space (s : string) : string := string_of_bytes (trim_bytes (bytes s)).

(** ** Reasons *)

Definition maxAuditReasonLength : nat := 1000.

Definition reasonRequired (a : AuditAction) : bool := bool_decide (a = AuditEnrollmentExpired).

Definition ValidateAuditReason (action : AuditAction) (reason : string) : res string :=
  let trimmed := trim_space reason in
  if negb (reasonRequired action) then Ok trimmed
  else if empty_str trimmed then Err (Internal (text "a reason is required"))
  else if (maxAuditReasonLength <? String.length trimmed)%nat then
    Err (Internal (text "the reason is too long"))
  else Ok trimmed.

(** A reason built from a format and arguments is never one of the required ones. *)
Definition validate_reason (action : AuditAction) (m : message) : res message :=
  match msg_args m with
  | [] => (let! t := ValidateAuditReason action (msg_format m) in Ok (text t))%go
  | _ :: _ => Ok m
  end.

(** ** Preparing an event *)

Definition tableSkipped (a : AuditAction) : bool := bool_decide (a = AuditCertIssued).

Definition canonicalSourceIP (raw : string) : option Addr := Unmap <$> ParseAddr (trim_space raw).

Definition auditSourceIP (detail : gmap string AuditValue) : option Addr :=
  match detail !! "source_ip" with
  | Some (AVString raw) => canonicalSourceIP raw
  | _ => None
  end.

Definition subjectUserID (subject : option AuditSubject) : option string :=
  match subject with
  | Some x => if empty_str (as_UserID x) then None else Some (as_UserID x)
  | None => None
  end.

Definition prepare (event : AuditEvent) : prog (res (AuditRow * AuditEvent)) :=
  let* at_ := (if IsZeroTime (ae_OccurredAt event) then perform Now else Ret (ae_OccurredAt event)) in
  match validate_reason (ae_Action event) (ae_Reason event) with
  | Err e => Fail e
  | Ok reason =>
      let event := MkAudit (ae_Action event) (ae_Actor event) (ae_System event) (ae_Target event)
                     reason (ae_Detail event) at_ in
      let* id := perform (NewUUID KRow) in
      Return (MkAuditRow id at_ (subjectUserID (ae_Actor event)) (subjectUserID (ae_Target event))
                (auditSourceIP (ae_Detail event)) event, event)
  end.

(** ** Recording *)

(** [RecordTx], given what [prepare] answered: the row rides along with the caller's
    transaction. *)
Definition RecordTx (prepared : res (AuditRow * AuditEvent)) : tx unit :=
  match prepared with
  | Err e => tx_err e
  | Ok (row, event) => if tableSkipped (ae_Action event) then tx_ret tt else create_audit row
  end.

Definition LogOnly (event : AuditEvent) : prog unit :=
  let* r := prepare event in
  match r with
  | Ok (_, prepared) => perform (Ship prepared)
  | Err _ => Ret tt
  end.

(** [Record]: shipped first, then written; a failed write is only logged. *)
Definition Record_ (event : AuditEvent) : prog unit :=
  let* r := prepare event in
  match r with
  | Err _ => Ret tt
  | Ok (row, prepared) =>
      do* perform (Ship prepared) ;;
      if tableSkipped (ae_Action prepared) then Ret tt
      else do* perform (Exec (fun _ _ => create_audit row)) ;; Ret tt
  end.

(** ** Retention *)

Definition auditSweepBatch : nat := 1000.

(** [ORDER BY created_at ASC, id ASC]. *)
Definition audit_before (a b : AuditRow) : bool :=
  (ar_CreatedAt a <? ar_CreatedAt b)
  || ((ar_CreatedAt a =? ar_CreatedAt b) && String.leb (ar_ID a) (ar_ID b)).

Fixpoint insert_oldest (a : AuditRow) (l : list AuditRow) : list AuditRow :=
  match l with
  | [] => [a]
  | b :: rest => if audit_before a b then a :: l else b :: insert_oldest a rest
  end.
Definition oldest_first (l : list AuditRow) : list AuditRow := foldr insert_oldest [] l.

Definition delete_audit_ids (ids : list string) : tx nat := fun d =>
  let kept := filter (fun a => ar_ID a ∉ ids) (db_audit d) in
  (Ok (length (db_audit d) - length kept)%nat, set_audit d kept).

(** [deleteOldestAuditEvents]: batches of at most [auditSweepBatch], until [limit]
    rows are gone or the table is empty; [fuel] bounds the loop, which runs once per
    deleted batch. *)
Fixpoint deleteOldestAuditEvents (fuel : nat) (limit deleted : nat) : prog (res nat) :=
  match fuel with
  | O => Return deleted
  | S fuel' =>
      if (limit <=? deleted)%nat then Return deleted
      else
        let? ids := perform (Query (fun d =>
          map ar_ID (take (Nat.min (limit - deleted) auditSweepBatch) (oldest_first (db_audit d))))) in
        if (length ids =? 0)%nat then Return deleted
        else
          let? _ := perform (Exec (fun _ _ => delete_audit_ids ids)) in
          deleteOldestAuditEvents fuel' limit (deleted + length ids)
  end.

Definition SweepAuditEvents (retention : Duration) (maxRows : Z) : prog (res unit) :=
  let? _ :=
    (if 0 <? retention then
       let* now := perform Now in
       let cutoff := now - retention in
       perform (Exec (fun _ _ d =>
         let kept := filter (fun a => Before (ar_CreatedAt a) cutoff = false) (db_audit d) in
         (Ok tt, set_audit d kept)))
     else Return tt) in
  if maxRows <=? 0 then Return tt
  else
    let? total := perform (Query (fun d => Z.of_nat (length (db_audit d)))) in
    if total <=? maxRows then Return tt
    else
      let excess := Z.to_nat (total - maxRows) in
      let? _ := deleteOldestAuditEvents (S excess) excess 0 in
      Return tt.

Example trim_example : trim_space "  why not " = "why not".
Proof. vm_compute. reflexivity. Qed.
