(* ===== verification/CertRequest.v ===== *)
(** * The certificate-request service (server/service/certrequest.go, hostcontext.go)

    The operations of the service as programs over the effects of [World]: request
    creation, the approval page, approval in both flows, denial and expiry (waiting,
    page claims, console codes and the sweep are in [CertWait]). Statement order,
    guards and early returns are the source's. *)

From S2P Require Import Prelude Netip Model UserCode Accounts Condition Lifetime CertPolicy Sha256 World AuditLog.
Local Open Scope prog_scope.

(** ** Configuration the services are built with *)

Record Server : Type := MkServer {
  srv_Options : CertificateOptions;
  srv_engine : lifetimePolicyEngine;
  srv_policies : policyTable;
  srv_FIPS : bool;
  srv_PublicOrigin : string;
  srv_Admin : AdminConfig;
  srv_ExpiredAttemptWindow : Duration;
  srv_ExpiryReminderLead : Duration;
}.

(** What the code reads of a parsed [ssh.PublicKey]. *)
Record sshPublicKey : Type := MkKey {
  pk_Type : string;
  pk_FingerprintSHA256 : string;
}.

(** ** Host context (hostcontext.go) *)

Record HostContext : Type := MkHostContext {
  hc_RequestingUser : string;
  hc_Process : string;
  hc_CallerUID : option Z;
  hc_CallerGID : option Z;
  hc_CallerPID : option Z;
  hc_CallerPPID : option Z;
  hc_MachineID : string;
  hc_OS : string;
  hc_Client : string;
  hc_Mode : string;
  hc_ClientTime : option GoTime;
  hc_TrustedCAFingerprints : list string;
  hc_ClientPolicy : option ClientPolicy;
}.

Definition maxContextFieldLen : nat := 256.
Definition maxTrustedCAFingerprints : nat := 8.
Definition maxClientPolicyExtensions : nat := 32.

Definition truncateContextField (v : string) : string :=
  if (maxContextFieldLen <? String.length v)%nat then String.substring 0 maxContextFieldLen v else v.

Definition applyClientPolicy (policy : option ClientPolicy) : option (encoded ClientPolicy) :=
  match policy with
  | None => None
  | Some p =>
      if (length (cp_ForbiddenExtensions p) =? 0)%nat && negb (bool_decide (is_Some (cp_FIPS p)))
      then None
      else Some (Enc (MkClientPolicy
             (map truncateContextField (take maxClientPolicyExtensions (cp_ForbiddenExtensions p)))
             (cp_FIPS p)))
  end.

Definition boundFingerprints (fps : list string) : option (encoded (list string)) :=
  let fps := take maxTrustedCAFingerprints fps in
  if (length fps =? 0)%nat then None else Some (Enc (map truncateContextField fps)).

Definition applyHostContext (h : RequestHead) (hc : HostContext) : RequestHead :=
  MkHead (rh_ID h) (rh_Type h) (rh_PublicKey h) (rh_Username h) (rh_SourceIP h) (rh_LocalUsername h)
    (rh_LocalHostname h) (rh_CreatedAt h) (rh_UserCode h) (rh_Hostname h) (rh_PAMService h)
    (rh_TTY h) (rh_RemoteHost h)
    (truncateContextField (hc_RequestingUser hc)) (truncateContextField (hc_Process hc))
    (hc_CallerUID hc) (hc_CallerGID hc) (hc_CallerPID hc) (hc_CallerPPID hc)
    (truncateContextField (hc_MachineID hc)) (truncateContextField (hc_OS hc))
    (truncateContextField (hc_Client hc)) (truncateContextField (hc_Mode hc)) (hc_ClientTime hc)
    (boundFingerprints (hc_TrustedCAFingerprints hc)) (applyClientPolicy (hc_ClientPolicy hc)).

Definition decodeClientPolicy (e : option (encoded ClientPolicy)) : option ClientPolicy :=
  match e with Some (Enc p) => Some p | _ => None end.

Definition decodeTrustedCAFingerprints (e : option (encoded (list string))) : list string :=
  match e with Some (Enc l) => l | _ => [] end.

Definition detail (l : list (string * AuditValue)) : gmap string AuditValue := list_to_map l.

(** [withDetail]: the entries of [extra] win. *)
Definition withDetail (base extra : gmap string AuditValue) : gmap string AuditValue := extra ∪ base.

Definition hostContextDetail (r : CertificateRequest) : gmap string AuditValue :=
  let '(username, hostname) := ReportedIdentity r in
  let h := cr_Head r in
  detail [("username", AVString username); ("hostname", AVString hostname);
          ("pam_service", AVString (rh_PAMService h)); ("tty", AVString (rh_TTY h));
          ("remote_host", AVString (rh_RemoteHost h));
          ("requesting_user", AVString (rh_RequestingUser h)); ("process", AVString (rh_Process h));
          ("machine_id", AVString (rh_MachineID h)); ("client", AVString (rh_Client h))].

Definition fullHostContextDetail (r : CertificateRequest) : gmap string AuditValue :=
  let h := cr_Head r in
  withDetail (hostContextDetail r)
    (detail [("local_username", AVString (rh_LocalUsername h));
             ("local_hostname", AVString (rh_LocalHostname h));
             ("caller_uid", AVInt (rh_CallerUID h)); ("caller_gid", AVInt (rh_CallerGID h));
             ("caller_pid", AVInt (rh_CallerPID h)); ("caller_ppid", AVInt (rh_CallerPPID h));
             ("os", AVString (rh_OS h)); ("client_mode", AVString (rh_ClientMode h));
             ("client_time", AVTime (rh_ClientTime h));
             ("trusted_ca_fingerprints",
               AVStrings (decodeTrustedCAFingerprints (rh_TrustedCAFingerprints h)))]).

(** ** Creation parameters *)

Record NewCertRequestParams : Type := MkParams {
  p_Type : CertificateType;
  p_PublicKey : string;
  p_Username : string;
  p_SourceIP : string;
  p_LocalUsername : string;
  p_LocalHostname : string;
  p_RequestedOptions : RequestedOptions;
  p_Hostname : string;
  p_PAMService : string;
  p_TTY : string;
  p_RemoteHost : string;
  p_HostContext : HostContext;
}.

Record CreatedRequest : Type := MkCreated {
  cd_ID : string;
  cd_ExpiresAt : GoTime;
  cd_UserCode : string;
}.

Record RequestDetail : Type := MkDetail {
  rd_Request : CertificateRequest;
  rd_Requested : RequestedOptions;
  rd_Narrowed : RequestedOptions;
  rd_ClientPolicy : option ClientPolicy;
  rd_SelectableExtensions : list string;
  rd_Principals : list string;
  rd_ValidDuration : Duration;
  rd_ExpiresAt : GoTime;
  rd_Decision : option Decision;
  rd_TrustedCAFingerprints : list string;
}.

Definition normalizeSourceAddresses (addrs : list string) : list string :=
  foldl (fun out a =>
           if match ParseIP a with Some ip => IsLinkLocalUnicast ip | None => false end
           then out else append_new out a) [] addrs.

Definition refusedNetworkEvent (p : NewCertRequestParams) : AuditEvent :=
  MkAudit AuditCertRequestRefusedNetwork None true None
    (Msg "the source address is outside cert_options.%s.allowed_networks" [type_string (p_Type p)])
    (detail [("cert_type", AVString (type_string (p_Type p))); ("source_ip", AVString (p_SourceIP p));
             ("claimed_username", AVString (truncateContextField (p_Username p)));
             ("claimed_hostname", AVString (truncateContextField (p_Hostname p)))])
    zero_time.

Definition userCodeMintAttempts : nat := 3.

Definition isUniqueConstraintViolation (e : goerr) : bool := bool_decide (e = UniqueViolation).

(** [mintUserCode]: five random bytes as a code. *)
Definition mintUserCode : prog (res string) :=
  let? raw := perform (RandRead 5) in
  Return (string_of_bytes (newUserCode raw)).

(** [req.UserCode = code]. *)
Definition set_UserCode (r : CertificateRequest) (code : string) : CertificateRequest :=
  let h := cr_Head r in
  MkRequest
    (MkHead (rh_ID h) (rh_Type h) (rh_PublicKey h) (rh_Username h) (rh_SourceIP h) (rh_LocalUsername h)
       (rh_LocalHostname h) (rh_CreatedAt h) code (rh_Hostname h) (rh_PAMService h) (rh_TTY h)
       (rh_RemoteHost h) (rh_RequestingUser h) (rh_Process h) (rh_CallerUID h) (rh_CallerGID h)
       (rh_CallerPID h) (rh_CallerPPID h) (rh_MachineID h) (rh_OS h) (rh_Client h) (rh_ClientMode h)
       (rh_ClientTime h) (rh_TrustedCAFingerprints h) (rh_ClientPolicy h))
    (cr_UserID r) (cr_RequestedOptions r) (cr_ServiceAccount r) (cr_SerialNumber r) (cr_Status r)
    (cr_ResolvedAt r) (cr_EnrollmentToken r) (cr_FailureReason r) (cr_ClaimTokenHash r)
    (cr_ClaimedAt r) (cr_ClaimUserAgent r).

(** The retry loop; [last] is [lastErr]. *)
Fixpoint mint_attempts (n : nat) (last : goerr) (r : CertificateRequest)
  : prog (res CertificateRequest) :=
  match n with
  | O => Fail last
  | S n' =>
      let? code := mintUserCode in
      let r' := set_UserCode r code in
      let* created := perform (Exec (fun _ _ => create_request r')) in
      match created with
      | Ok _ => Return r'
      | Err e => if isUniqueConstraintViolation e then mint_attempts n' e r else Fail e
      end
  end.

(** [persistNewRequest]; the created row is returned because the code is set on it. *)
Definition persistNewRequest (r : CertificateRequest) (policy : certTypePolicy)
  : prog (res CertificateRequest) :=
  if negb (tp_usesUserCode policy) then
    let? _ := perform (Exec (fun _ _ => create_request r)) in Return r
  else mint_attempts userCodeMintAttempts DBError r.

(** ** Decisions *)

Definition derefOrEmpty (v : option string) : string := default "" v.

Definition newDecision (id : string) (r : CertificateRequest) (outcome : DecisionOutcome) (i : Identity)
  (dc : DecisionContext) (decidedAt : GoTime) (explanation : option PolicyExplanation) : Decision :=
  let '(reportedUsername, reportedHostname) := ReportedIdentity r in
  let h := cr_Head r in
  MkDecision id (cr_ID r) outcome (id_Subject i) (id_Username i) (id_Email i) (Enc (id_Groups i))
    (Enc (id_OtherAccounts i)) (Enc (id_ServiceAccounts i)) (dc_SourceIP dc) (dc_UserAgent dc)
    (dc_AcceptLanguage dc) (dc_ForwardedFor dc) (Enc <$> explanation) None None reportedUsername
    reportedHostname (rh_PAMService h) (rh_TTY h) (rh_RemoteHost h) (rh_RequestingUser h)
    (rh_Process h) (rh_MachineID h) (rh_Client h) decidedAt.

(** Why a request is not approvable any more. *)
Definition notPendingError (r : CertificateRequest) (cutoff : GoTime) : goerr :=
  let no_longer := ConflictError (text "this certificate request is no longer pending") in
  match cr_Status r with
  | StatusExpired => ExpiredError (text "certificate request")
  | StatusPending =>
      if negb (IsZeroTime cutoff) && Before (cr_CreatedAt r) cutoff
      then ExpiredError (text "certificate request") else no_longer
  | StatusDenied => ConflictError (text "this certificate request was already denied")
  | StatusApproved | StatusSigning | StatusEnrolled | StatusFailed =>
      ConflictError (text "this certificate request was already approved")
  | StatusOther _ => no_longer
  end.

Definition decodeExtraFields (raw : option (encoded (gmap string extraValue)))
  : gmap string extraValue :=
  match raw with Some (Enc m) => m | _ => ∅ end.

(** [requested.Extensions = selection.Extensions]. *)
Definition set_ro_Extensions (o : RequestedOptions) (l : list string) : RequestedOptions :=
  MkOptions l (ro_ForceCommand o) (ro_SourceAddresses o) (ro_NoTouchRequired o).

Definition notFoundRequest (id : string) : goerr :=
  NotFoundError (Msg "certificate request %q" [id]).

Definition refusedOwner : goerr := ForbiddenError (text "certificate request belongs to another user").

(** Outcome statuses that only name a status. *)
Definition status_outcome (st : CertificateRequestStatus) : WaitOutcome :=
  MkOutcome st "" "" "" zero_time zero_time.

(** ** The service *)

Section service.
Context (srv : Server).
(** golang.org/x/crypto/ssh's parser; [None] is its error. *)
Context (ParseAuthorizedKey : string -> option sshPublicKey).
(** net/mail's [ParseAddress]: does the address parse. *)
Context (ParseAddress : string -> bool).

Definition auditLog (ev : AuditEvent) : prog unit := LogOnly ev.
Definition auditRecord (ev : AuditEvent) : prog unit := Record_ ev.
Definition auditTx (prepared : res (AuditRow * AuditEvent)) : tx unit := RecordTx prepared.

Definition policyFor (ty : CertificateType) : res certTypePolicy :=
  match srv_policies srv ty with
  | Some p => Ok p
  | None => Err (Internal (Msg "unsupported certificate type %q" [type_string ty]))
  end.

Definition approvalTTLFor (ty : CertificateType) : Duration :=
  match srv_policies srv ty with
  | Some p => approvalTTL p
  | None => ApprovalTTL (srv_Options srv)
  end.

(** [ttlCutoffFor] at the clock reading [now]. *)
Definition ttl_cutoff (ty : CertificateType) (now : GoTime) : GoTime :=
  let ttl := approvalTTLFor ty in
  if ttl <=? 0 then zero_time else now - ttl.

Definition ttlCutoffFor (ty : CertificateType) : prog GoTime :=
  if approvalTTLFor ty <=? 0 then Ret zero_time
  else let* now := perform Now in Ret (now - approvalTTLFor ty).

Definition past_cutoff (r : CertificateRequest) (cutoff : GoTime) : bool :=
  negb (IsZeroTime cutoff) && Before (cr_CreatedAt r) cutoff.

Definition EvictResolved : prog unit :=
  let* now := perform Now in
  perform (CacheEvict (now - ApprovalTTL (srv_Options srv))).

(** *** Waking a waiter *)

Definition outcome_message (o : WaitOutcome) : requestOutcomeMessage :=
  MkOutcomeMessage (wo_Status o) (wo_Certificate o) (wo_Code o) (wo_ServiceAccount o)
    (if IsZeroTime (wo_ExpiresAt o) then None else Some (wo_ExpiresAt o)).

Definition notifyWaiter (id : string) (o : WaitOutcome) : prog unit :=
  let* now := perform Now in
  let o := MkOutcome (wo_Status o) (wo_Certificate o) (wo_Code o) (wo_ServiceAccount o)
             (wo_ExpiresAt o) now in
  do* perform (CacheSet id o) ;;
  do* perform (Publish (PubWake id (outcome_message o))) ;;
  Ret tt.

(** *** Lookups *)

Definition lookupRequest (id : string) : prog (res CertificateRequest) :=
  let? row := perform (Query (fun d => db_requests d !! id)) in
  match row with
  | Some r => Return r
  | None => Fail (notFoundRequest id)
  end.

Definition resolveUser (i : Identity) : prog (res User) :=
  let? row := perform (Query (user_by_subject (id_Subject i))) in
  match row with
  | Some u => Return u
  | None => Fail (ForbiddenError (text "no user record for the authenticated identity"))
  end.

Definition lookupDecision (id : string) : prog (res (option Decision)) :=
  perform (Query (fun d => db_decisions d !! id)).

(** *** Binding a request to its requester; the request with its owner set is returned *)

Definition bindRequester (r : CertificateRequest) (u : User) : prog (res CertificateRequest) :=
  match cr_UserID r with
  | Some owner => if bool_decide (owner = us_ID u) then Return r else Fail refusedOwner
  | None =>
      let? affected := perform (Exec (fun _ _ =>
        update_request (cr_ID r) (fun row => negb (bool_decide (is_Some (cr_UserID row))))
          (fun row => set_UserID row (us_ID u)))) in
      if (affected : bool) then Return (set_UserID r (us_ID u))
      else
        let? claimed := perform (Query (fun d => db_requests d !! cr_ID r)) in
        match claimed with
        | None => Fail DBError
        | Some row =>
            if bool_decide (cr_UserID row = Some (us_ID u)) then Return (set_UserID r (us_ID u))
            else Fail refusedOwner
        end
  end.

(** *** Expiry *)

Definition expire (id : string) : prog unit :=
  let* now := perform Now in
  let* result := perform (Exec (fun _ _ =>
    update_request id (fun row => bool_decide (cr_Status row = StatusPending))
      (fun row => set_Resolved row StatusExpired now))) in
  match result with
  | Ok true =>
      let* row := lookupRequest id in
      let det :=
        match row with
        | Ok r => withDetail (hostContextDetail r)
                    (detail [("request_id", AVString id);
                             ("cert_type", AVString (type_string (cr_Type r)));
                             ("source_ip", AVString (cr_SourceIP r));
                             ("created_at", AVTime (Some (cr_CreatedAt r)))])
        | Err _ => detail [("request_id", AVString id)]
        end in
      do* auditRecord (MkAudit AuditCertExpired None true None (text "") det now) ;;
      notifyWaiter id (status_outcome StatusExpired)
  | _ => Ret tt
  end.

(** *** Creating a request *)

Definition CreateRequest (p : NewCertRequestParams) : prog (res CreatedRequest) :=
  match policyFor (p_Type p) with
  | Err e => Fail e
  | Ok policy =>
      if negb (permitsSource policy (p_SourceIP p)) then
        do* auditRecord (refusedNetworkEvent p) ;;
        Fail (ForbiddenError (Msg "%s certificate requests are not accepted from this network"
                                [type_string (p_Type p)]))
      else
        let ro := p_RequestedOptions p in
        let addrs := normalizeSourceAddresses (ro_SourceAddresses ro) in
        let addrs := if negb (empty_str (p_SourceIP p)) && negb (contains addrs (p_SourceIP p))
                     then addrs ++ [p_SourceIP p] else addrs in
        let options := MkOptions (ro_Extensions ro) (ro_ForceCommand ro) addrs (ro_NoTouchRequired ro) in
        let* id := perform (NewUUID KRequest) in
        let* now := perform Now in
        let head := applyHostContext
          (MkHead id (p_Type p) (p_PublicKey p) (p_Username p) (p_SourceIP p) (p_LocalUsername p)
             (p_LocalHostname p) now "" (truncateContextField (p_Hostname p))
             (truncateContextField (p_PAMService p)) (truncateContextField (p_TTY p))
             (truncateContextField (p_RemoteHost p)) "" "" None None None None "" "" "" "" None None None)
          (p_HostContext p) in
        let req := MkRequest head None (Enc options) "" None StatusPending None "" (text "") None None "" in
        let? req := persistNewRequest req policy in
        do* auditRecord (MkAudit AuditCertRequested None false None (text "")
               (withDetail (fullHostContextDetail req)
                  (detail [("request_id", AVString (cr_ID req));
                           ("cert_type", AVString (type_string (cr_Type req)));
                           ("source_ip", AVString (cr_SourceIP req))])) (cr_CreatedAt req)) ;;
        Return (MkCreated (cr_ID req) (cr_CreatedAt req + approvalTTL policy) (cr_UserCode req))
  end.

(** *** The approval page *)

Definition Detail (requestID : string) (i : Identity) : prog (res RequestDetail) :=
  let? req := lookupRequest requestID in
  let? user := resolveUser i in
  let? req := bindRequester req user in
  match unmarshal (cr_RequestedOptions req) "failed to decode requested options" with
  | Err e => Fail e
  | Ok requested =>
      match policyFor (cr_Type req) with
      | Err e => Fail e
      | Ok policy =>
          let? decision := lookupDecision (cr_ID req) in
          let principals := tp_principals policy i [] in
          match validate_principals principals with
          | Err e => Fail e
          | Ok _ =>
              Return (MkDetail req requested (narrowRequestedOptions policy requested)
                (decodeClientPolicy (rh_ClientPolicy (cr_Head req))) (tp_extensions policy) principals
                (tp_validDuration policy) (cr_CreatedAt req + approvalTTL policy) decision
                (decodeTrustedCAFingerprints (rh_TrustedCAFingerprints (cr_Head req))))
          end
      end
  end.

(** *** Explaining a lost race, inside the transaction *)

Definition explainNotPending {A} (id : string) (now : GoTime) : tx A :=
  (tx! row := first_request id in
   match row with
   | None => tx_err (notFoundRequest id)
   | Some r => tx_err (notPendingError r (ttl_cutoff (cr_Type r) now))
   end)%go.

(** *** Approval, enrollment flow *)

Definition describeAuthorizedKey (key : string) : string * string :=
  match ParseAuthorizedKey key with
  | None => ("", "")
  | Some k => (pk_FingerprintSHA256 k, pk_Type k)
  end.

Definition maxNotificationEmailLength : nat := 320.

Definition validateNotificationEmail (address : string) : res string :=
  let address := trim_space address in
  if empty_str address then Ok ""
  else if (maxNotificationEmailLength <? String.length address)%nat then
    Err (InvalidRequestError (text "notification address is over the limit"))
  else if negb (ParseAddress address) then
    Err (InvalidRequestError (Msg "%q is not a valid email address" [address]))
  else Ok address.

Definition approveServiceEnrollment (req : CertificateRequest) (narrowed : RequestedOptions)
  (requestedByClient : list string) (i : Identity) (policy : certTypePolicy) (dc : DecisionContext)
  (selection : ApprovalSelection) : prog (res unit) :=
  let serviceAccount := sel_ServiceAccount selection in
  match validateNotificationEmail (sel_NotificationEmail selection) with
  | Err e => Fail e
  | Ok notificationEmail =>
  let outcome := evaluate_policy (srv_engine srv) (cr_Type req) i (cr_SourceIP req)
                   (tp_validDuration policy) (tp_enrollmentDuration policy) in
  let effectiveDuration := out_duration outcome in
  let '(narrowed, outcome) := narrowOptions outcome narrowed (cr_SourceIP req) in
  let outcome := recordApproverExtensions outcome (sel_Extensions selection)
                   (ro_Extensions narrowed) requestedByClient in
  match executeKeyIDTemplate (tp_keyIDTemplate policy)
          (newKeyIDTemplateData i (cr_SourceIP req) (cr_ID req)) with
  | Err e => Fail e
  | Ok keyID =>
  let principals := [serviceAccount] in
  match validate_principals principals with
  | Err e => Fail e
  | Ok _ =>
  let* token := perform (NewUUID KCode) in
  let* enrollmentID := perform (NewUUID KEnrollment) in
  let '(fingerprint, keyType) := describeAuthorizedKey (cr_PublicKey req) in
  let* now := perform Now in
  let certDurationSeconds := go_div effectiveDuration Second in
  let expiresAt := TruncateTime (now + out_enrollmentDuration outcome) Microsecond in
  let* decisionID := perform (NewUUID KRow) in
  let decision := newDecision decisionID req DecisionApproved i dc now (Some (out_explanation outcome)) in
  let auditEvent := MkAudit AuditEnrollmentCodeCreated
    (Some (AuditSubjectFromIdentity i (derefOrEmpty (cr_UserID req)))) false None (text "")
    (detail [("request_id", AVString (cr_ID req)); ("enrollment_id", AVString enrollmentID);
             ("service_account", AVString serviceAccount); ("key_id", AVString keyID);
             ("principals", AVStrings principals); ("source_ip", AVString (cr_SourceIP req));
             ("expires_at", AVTime (Some expiresAt)); ("cert_lifetime", AVDuration effectiveDuration);
             ("notification_email", AVString notificationEmail)]) now in
  let* prepared := prepare auditEvent in
  let? _ := perform (Exec (fun _ t2 =>
    (tx! affected := update_request (cr_ID req)
                       (fun row => bool_decide (cr_Status row = StatusPending))
                       (fun row => set_Enrolled row narrowed token serviceAccount now) in
     if negb affected then explainNotPending (cr_ID req) t2
     else
       tx! _ := create_enrollment
                  (MkEnrollment enrollmentID token (cr_PublicKey req) (Enc narrowed) keyID
                     (Enc principals) serviceAccount (Some (cr_ID req))
                     (derefOrEmpty (cr_UserID req)) now expiresAt (Some certDurationSeconds) None
                     notificationEmail None None) in
       tx! _ := create_decision decision in
       auditTx prepared)%go)) in
  do* auditLog auditEvent ;;
  do* notifyWaiter (cr_ID req)
        (MkOutcome StatusEnrolled "" token serviceAccount expiresAt zero_time) ;;
  do* perform (Notify (MkNotice "service_enrollment_created" enrollmentID
    [("service_account", AVString serviceAccount); ("request_id", AVString (cr_ID req));
     ("enrollment_id", AVString enrollmentID); ("key_id", AVString keyID);
     ("principals", AVStrings principals); ("public_key_fingerprint", AVString fingerprint);
     ("public_key_type", AVString keyType); ("extensions", AVStrings (ro_Extensions narrowed));
     ("force_command", AVString (ro_ForceCommand narrowed));
     ("source_addresses", AVStrings (ro_SourceAddresses narrowed));
     ("no_touch_required", AVBool (ro_NoTouchRequired narrowed));
     ("request_source_ip", AVString (cr_SourceIP req)); ("approved_at", AVTime (Some now));
     ("approved_by_username", AVString (id_Username i));
     ("approved_by_name", AVString (id_DisplayName i));
     ("approved_by_email", AVString (id_Email i)); ("approver_source_ip", AVString (dc_SourceIP dc));
     ("code_expires_at", AVTime (Some expiresAt));
     ("certificate_lifetime", AVDuration effectiveDuration);
     ("server_url", AVString (srv_PublicOrigin srv))])) ;;
  Return tt
  end end end.

(** *** Approval, signing flow *)

Definition serialNew : prog (res Z) :=
  let? b := perform (RandRead 8) in Return (serial_of_bytes b).

Definition approveForSigning (req : CertificateRequest) (i : Identity) (policy : certTypePolicy)
  (narrowed : RequestedOptions) (dc : DecisionContext) (selectedPrincipals : list string)
  : prog (res unit) :=
  match executeKeyIDTemplate (tp_keyIDTemplate policy)
          (newKeyIDTemplateData i (cr_SourceIP req) (cr_ID req)) with
  | Err e => Fail e
  | Ok keyID =>
  let? serialNum := serialNew in
  let* now := perform Now in
  let outcome := evaluate_policy (srv_engine srv) (cr_Type req) i (cr_SourceIP req)
                   (tp_validDuration policy) 0 in
  let effectiveDuration := out_duration outcome in
  let '(narrowed, outcome) := narrowOptions outcome narrowed (cr_SourceIP req) in
  let principals := tp_principals policy i selectedPrincipals in
  if (length principals =? 0)%nat then
    Fail (Internal (Msg "refusing to sign a certificate with no principals for %s request %q"
                      [type_string (cr_Type req); cr_ID req]))
  else match validate_principals principals with
  | Err e => Fail e
  | Ok _ =>
  let* decisionID := perform (NewUUID KRow) in
  let decision := set_Grant
    (newDecision decisionID req DecisionApproved i dc now (Some (out_explanation outcome)))
    principals narrowed in
  let auditEvent := MkAudit AuditCertApproved
    (Some (AuditSubjectFromIdentity i (derefOrEmpty (cr_UserID req)))) false None (text "")
    (withDetail (hostContextDetail req)
       (detail [("request_id", AVString (cr_ID req)); ("cert_type", AVString (type_string (cr_Type req)));
                ("key_id", AVString keyID); ("serial", AVInt (Some serialNum));
                ("source_ip", AVString (cr_SourceIP req));
                ("cert_lifetime", AVDuration effectiveDuration); ("principals", AVStrings principals);
                ("extensions", AVStrings (ro_Extensions narrowed));
                ("force_command", AVString (ro_ForceCommand narrowed));
                ("source_addresses", AVStrings (ro_SourceAddresses narrowed));
                ("no_touch_required", AVBool (ro_NoTouchRequired narrowed));
                ("approver_ip", AVString (dc_SourceIP dc));
                ("approver_user_agent", AVString (dc_UserAgent dc))])) now in
  let* prepared := prepare auditEvent in
  let? _ := perform (Exec (fun _ t2 =>
    (tx! affected := update_request (cr_ID req)
                       (fun row => bool_decide (cr_Status row = StatusPending))
                       (fun row => set_Signing row serialNum narrowed) in
     if negb affected then explainNotPending (cr_ID req) t2
     else
       tx! _ := create_decision decision in
       auditTx prepared)%go)) in
  do* auditLog auditEvent ;;
  perform (Publish (PubJob (MkJob (cr_ID req) (cr_Type req) (cr_PublicKey req) principals keyID
                              narrowed now (now + effectiveDuration) serialNum)))
  end end.

(** *** Approve *)

Definition checkFIPSApproved (key : string) : res unit :=
  match ParseAuthorizedKey key with
  | None => Err (Internal (text "failed to parse public key"))
  | Some k =>
      if match FromSSHAlgorithm (pk_Type k) with Some t => IsApprovedInFIPS t | None => false end
      then Ok tt
      else Err (Internal (Msg "public key algorithm %q is not FIPS-approved" [pk_Type k]))
  end.

Definition Approve (requestID : string) (i : Identity) (dc : DecisionContext)
  (selection : ApprovalSelection) : prog (res unit) :=
  let? req := lookupRequest requestID in
  if negb (bool_decide (cr_Status req = StatusPending)) then
    let* cutoff := ttlCutoffFor (cr_Type req) in Fail (notPendingError req cutoff)
  else
  let* cutoff := ttlCutoffFor (cr_Type req) in
  if past_cutoff req cutoff then
    do* expire requestID ;; Fail (notPendingError req cutoff)
  else match unmarshal (cr_RequestedOptions req) "failed to decode requested options" with
  | Err e => Fail e
  | Ok requested =>
  match policyFor (cr_Type req) with
  | Err e => Fail e
  | Ok policy =>
  let clientNarrowed := narrowRequestedOptions policy requested in
  let requested := from_option (set_ro_Extensions requested) requested (sel_Extensions selection) in
  let narrowed := narrowRequestedOptions policy requested in
  let? user := resolveUser i in
  let i := set_Extra i (decodeExtraFields (us_ExtraFields user)) in
  match checkApproverAuthorization (cr_Type req) policy i selection with
  | Err e => Fail e
  | Ok _ =>
  let? req := bindRequester req user in
  match (if srv_FIPS srv then checkFIPSApproved (cr_PublicKey req) else Ok tt) with
  | Err e => Fail e
  | Ok _ =>
  match tp_flow policy with
  | flowEnrollment =>
      approveServiceEnrollment req narrowed (ro_Extensions clientNarrowed) i policy dc selection
  | flowSigning => approveForSigning req i policy narrowed dc (sel_Principals selection)
  | flowUnsupported =>
      Fail (Internal (Msg "unsupported certificate approval flow for %s" [type_string (cr_Type req)]))
  end end end end end.

(** *** Deny *)

Definition Deny (requestID : string) (i : Identity) (dc : DecisionContext) : prog (res unit) :=
  let* now := perform Now in
  let? req := lookupRequest requestID in
  let* decisionID := perform (NewUUID KRow) in
  let decision := newDecision decisionID req DecisionDenied i dc now None in
  let? user := resolveUser i in
  let? req := bindRequester req user in
  let auditEvent := MkAudit AuditCertDenied (Some (AuditSubjectFromIdentity i (us_ID user))) false None
    (text "")
    (withDetail (hostContextDetail req)
       (detail [("request_id", AVString requestID); ("cert_type", AVString (type_string (cr_Type req)));
                ("source_ip", AVString (cr_SourceIP req)); ("approver_ip", AVString (dc_SourceIP dc));
                ("approver_user_agent", AVString (dc_UserAgent dc))])) now in
  let* prepared := prepare auditEvent in
  let? _ := perform (Exec (fun t1 t2 =>
    (let cutoff := ttl_cutoff (cr_Type req) t1 in
     tx! affected := update_request requestID
       (fun row => bool_decide (cr_Status row = StatusPending)
                   && (IsZeroTime cutoff || After (cr_CreatedAt row) cutoff))
       (fun row => set_Resolved row StatusDenied now) in
     if negb affected then explainNotPending requestID t2
     else
       tx! _ := create_decision decision in
       auditTx prepared)%go)) in
  do* auditLog auditEvent ;;
  do* notifyWaiter requestID (status_outcome StatusDenied) ;;
  Return tt.
End service.
