(* ===== verification/CertWait.v ===== *)
(** * Waiting, claiming, console codes and the stranded sweep (server/service/
      certrequest.go from [Wait] on, certrequest_claim.go, certrequest_usercode.go,
      sweep.go) *)

From S2P Require Import Prelude Netip Model UserCode Accounts Condition Lifetime CertPolicy Sha256 World AuditLog CertRequest.
Local Open Scope prog_scope.

(** ** Page claims *)

Inductive ClaimPageOutcome : Type :=
| ClaimPageClaimed
| ClaimPageMatched
| ClaimPageUnknownRequest
| ClaimPageRejected
| ClaimPageCookieBlocked.

#[export] Instance ClaimPageOutcome_eq_dec : EqDecision ClaimPageOutcome.
Proof. solve_decision. Defined.

Record ClaimPageResult : Type := MkClaimResult {
  cl_Outcome : ClaimPageOutcome;
  cl_Token : string;
}.

Definition claimCookieBlockedWindow : Duration := 10 * Minute.
Definition claimUserAgentMaxLen : nat := 400.

Definition hashClaimToken (token : string) : string := hex_EncodeToString (Sum256 (bytes token)).

Definition newClaimToken : prog (res (string * string)) :=
  let? raw := perform (RandRead 32) in
  let token := base64_RawURLEncode raw in
  Return (token, hashClaimToken token).

(** The comparison of a presented token with the row's claim. *)
Definition compare_claim (r : CertificateRequest) (hash : string) (presented userAgent : string)
  (now : GoTime) : ClaimPageResult :=
  if negb (empty_str presented) && bool_decide (hashClaimToken presented = hash)
  then MkClaimResult ClaimPageMatched ""
  else if empty_str presented && negb (empty_str userAgent)
          && bool_decide (userAgent = cr_ClaimUserAgent r)
          && from_option (fun at_ => now - at_ <=? claimCookieBlockedWindow) false (cr_ClaimedAt r)
  then MkClaimResult ClaimPageCookieBlocked ""
  else MkClaimResult ClaimPageRejected "".

(** Read the clock and compare. *)
Definition decide_claim (r : CertificateRequest) (hash presented userAgent : string)
  : prog (res ClaimPageResult) :=
  let* now := perform Now in Return (compare_claim r hash presented userAgent now).

Definition claimApprovalPage (r : CertificateRequest) (presented userAgent : string)
  : prog (res ClaimPageResult) :=
  let userAgent := if (claimUserAgentMaxLen <? String.length userAgent)%nat
                   then String.substring 0 claimUserAgentMaxLen userAgent else userAgent in
  match cr_ClaimTokenHash r with
  | Some hash => decide_claim r hash presented userAgent
  | None =>
      let? fresh_claim := newClaimToken in
      let '(token, hash) := fresh_claim in
      let* at_ := perform Now in
      let? affected := perform (Exec (fun _ _ =>
        update_request (cr_ID r) (fun row => negb (bool_decide (is_Some (cr_ClaimTokenHash row))))
          (fun row => set_Claim row hash at_ userAgent))) in
      if (affected : bool) then
        let* now := perform Now in
        do* Record_ (MkAudit AuditCertClaimed None false None (text "")
               (withDetail (hostContextDetail r)
                  (detail [("request_id", AVString (cr_ID r));
                           ("cert_type", AVString (type_string (cr_Type r)));
                           ("source_ip", AVString (cr_SourceIP r));
                           ("user_agent", AVString userAgent)])) now) ;;
        Return (MkClaimResult ClaimPageClaimed token)
      else
        let? row := perform (Query (fun d => db_requests d !! cr_ID r)) in
        match row with
        | None => Fail DBError
        | Some r' =>
            match cr_ClaimTokenHash r' with
            | None => Fail (Internal (text "certificate request unclaimed after losing the claim race"))
            | Some hash' => decide_claim r' hash' presented userAgent
            end
        end
  end.

Definition ClaimApprovalPage (requestID presented userAgent : string) : prog (res ClaimPageResult) :=
  let? row := perform (Query (fun d => db_requests d !! requestID)) in
  match row with
  | None => Return (MkClaimResult ClaimPageUnknownRequest "")
  | Some r => claimApprovalPage r presented userAgent
  end.

Definition FailureReasonStranded : string := "stranded awaiting signature".

Definition statusConfirmWindow : Duration := 2 * Second.
Definition statusConfirmPoll : Duration := 25 * Millisecond.

(** One poll per [statusConfirmPoll] of the window, and one more to notice its end. *)
Definition confirm_fuel : nat := 81.

Section waiting.
Context (srv : Server).

(** ** Reconciling a waiter with the row *)

Definition enrollmentExpiry (code : string) : prog GoTime :=
  if empty_str code then Ret zero_time
  else
    let* row := perform (Query (enrollment_by_code code)) in
    match row with
    | Ok (Some e) => Ret (en_ExpiresAt e)
    | _ => Ret zero_time
    end.

(** [reconcileStatus]: may the caller block for an update. *)
Definition reconcileStatus (id : string) (r : CertificateRequest) : prog (res bool) :=
  match cr_Status r with
  | StatusPending =>
      let* cutoff := ttlCutoffFor srv (cr_Type r) in
      if past_cutoff r cutoff then do* expire id ;; Return false else Return true
  | StatusSigning => Return true
  | StatusApproved => Fail (CertificateUnavailableError id)
  | StatusEnrolled =>
      let* expiresAt := enrollmentExpiry (cr_EnrollmentToken r) in
      do* notifyWaiter id (MkOutcome (cr_Status r) "" (cr_EnrollmentToken r) (cr_ServiceAccount r)
                             expiresAt zero_time) ;;
      Return false
  | _ =>
      do* notifyWaiter id (status_outcome (cr_Status r)) ;; Return false
  end.

(** [expiryTimer]: is a timer armed. *)
Definition expiryTimer (r : CertificateRequest) : prog bool :=
  let ttl := approvalTTLFor srv (cr_Type r) in
  if ttl <=? 0 then Ret false
  else let* now := perform Now in Ret (0 <? cr_CreatedAt r + ttl - now).

(** [waitForUpdate]: a message, nothing (the timer), or an error. *)
Definition waitForUpdate (id : string) (timer : bool)
  : prog (res (option (encoded requestOutcomeMessage))) :=
  let* got := perform (Receive id timer) in
  match got with
  | GotMessage m => Return (Some m)
  | GotClosed => Fail ShuttingDownError
  | GotDone => Fail ContextError
  | GotTimer => Return None
  end.

(** [awaitStatus]: poll until the row reads [want], an error, or the deadline. *)
Fixpoint awaitStatus_loop (fuel : nat) (id : string) (want : CertificateRequestStatus)
  (current : CertificateRequest) (deadline : GoTime) : prog CertificateRequest :=
  match fuel with
  | O => Ret current
  | S fuel' =>
      let* now := perform Now in
      if negb (Before now deadline) then Ret current
      else
        let* slept := perform (Sleep statusConfirmPoll) in
        if negb slept then Ret current
        else
          let* row := lookupRequest id in
          match row with
          | Err _ => Ret current
          | Ok r =>
              if bool_decide (cr_Status r = want) then Ret r
              else awaitStatus_loop fuel' id want r deadline
          end
  end.

Definition awaitStatus (id : string) (want : CertificateRequestStatus) (current : CertificateRequest)
  : prog CertificateRequest :=
  let* now := perform Now in
  awaitStatus_loop confirm_fuel id want current (now + statusConfirmWindow).

Definition resolving_status (st : CertificateRequestStatus) : bool :=
  match st with
  | StatusApproved | StatusEnrolled | StatusDenied | StatusExpired | StatusFailed => true
  | _ => false
  end.

(** [tryHandleWakeMessage]: [None] is "not handled". *)
Definition tryHandleWakeMessage (id : string) (msg : encoded requestOutcomeMessage)
  : prog (option WaitOutcome) :=
  match msg with
  | Undecodable _ => Ret None
  | Enc m =>
      if negb (resolving_status (om_Status m)) then Ret None
      else
        let* row := lookupRequest id in
        match row with
        | Err _ => Ret None
        | Ok r =>
            let* r := (if negb (bool_decide (cr_Status r = om_Status m))
                          && bool_decide (cr_Status r = StatusSigning)
                       then awaitStatus id (om_Status m) r else Ret r) in
            if bool_decide (cr_Status r = om_Status m) then
              let* now := perform Now in
              let resolved := MkOutcome (om_Status m) (om_Certificate m) (om_Code m)
                                (om_ServiceAccount m) (default zero_time (om_ExpiresAt m)) now in
              do* perform (CacheSet id resolved) ;;
              Ret (Some resolved)
            else Ret None
        end
  end.

(** ** Wait

    One iteration of the loop answers [Some] outcome or asks for another one; after
    [fuel] iterations without an answer the caller is still waiting ([None]). *)
Fixpoint wait_loop (fuel : nat) (id : string) : prog (res (option WaitOutcome)) :=
  match fuel with
  | O => Return None
  | S fuel' =>
      let* cached := perform (CacheGet id) in
      match cached with
      | Some o => Return (Some o)
      | None =>
          let? r := lookupRequest id in
          let? block := reconcileStatus id r in
          if negb block then wait_loop fuel' id
          else
            let* timer := expiryTimer r in
            let? msg := waitForUpdate id timer in
            match msg with
            | None => wait_loop fuel' id
            | Some m =>
                let* handled := tryHandleWakeMessage id m in
                match handled with
                | Some o => Return (Some o)
                | None => wait_loop fuel' id
                end
            end
      end
  end.

Definition Wait (fuel : nat) (id : string) : prog (res (option WaitOutcome)) :=
  let* cached := perform (CacheGet id) in
  match cached with
  | Some o => Return (Some o)
  | None => let? _ := perform (Subscribe id) in wait_loop fuel id
  end.

(** ** Console codes *)

Definition ResolveUserCode (submitted : list Z) (i : Identity) : prog (res string) :=
  match NormalizeUserCode submitted with
  | Err _ => Fail (InvalidRequestError (text "that is not a valid code"))
  | Ok code =>
      let? row := perform (Query (request_by_code (string_of_bytes code)
                                    [StatusPending; StatusSigning])) in
      match row with
      | None => Fail (NotFoundError (text "console login request for that code"))
      | Some r =>
          let* expired :=
            (if bool_decide (cr_Status r = StatusPending) then
               let* cutoff := ttlCutoffFor srv (cr_Type r) in
               if past_cutoff r cutoff then do* expire (cr_ID r) ;; Ret true else Ret false
             else Ret false) in
          if (expired : bool) then Fail (ExpiredError (text "console login request"))
          else
            let? user := resolveUser i in
            let? r := bindRequester r user in
            do* auditRecord (MkAudit AuditCertCodeResolved
                   (Some (AuditSubjectFromIdentity i (us_ID user))) false None (text "")
                   (detail [("request_id", AVString (cr_ID r));
                            ("cert_type", AVString (type_string (cr_Type r)));
                            ("username", AVString (rh_Username (cr_Head r)));
                            ("hostname", AVString (rh_Hostname (cr_Head r)));
                            ("tty", AVString (rh_TTY (cr_Head r)))]) zero_time) ;;
            Return (cr_ID r)
      end
  end.

(** ** The stranded sweep *)

Definition strandedCutoff : prog GoTime :=
  if ApprovalTTL (srv_Options srv) <=? 0 then Ret zero_time
  else let* now := perform Now in
       Ret (now - (ApprovalTTL (srv_Options srv) + SigningGrace (srv_Options srv))).

Definition is_stranded (cutoff : GoTime) (r : CertificateRequest) : bool :=
  bool_decide (cr_Status r = StatusSigning)
  && (IsZeroTime cutoff || Before (cr_CreatedAt r) cutoff).

Definition rows_where (P : CertificateRequest -> bool) (d : DB) : list CertificateRequest :=
  filter (fun r => P r = true) (map snd (map_to_list (db_requests d))).

(** [UPDATE ... WHERE id IN ids AND status = 'signing' RETURNING *]. *)
Fixpoint fail_rows (ids : list string) (reason : message) (at_ : GoTime) (d : DB)
  : list CertificateRequest * DB :=
  match ids with
  | [] => ([], d)
  | id :: rest =>
      match db_requests d !! id with
      | Some r =>
          if bool_decide (cr_Status r = StatusSigning) then
            let r' := set_FailureReason (set_Resolved r StatusFailed at_) reason in
            let '(rs, d') := fail_rows rest reason at_ (set_requests d (<[id := r']> (db_requests d))) in
            (r' :: rs, d')
          else fail_rows rest reason at_ d
      | None => fail_rows rest reason at_ d
      end
  end.

Fixpoint report_failed (rs : list CertificateRequest) : prog unit :=
  match rs with
  | [] => Ret tt
  | r :: rest =>
      let* now := perform Now in
      do* auditRecord (MkAudit AuditCertSignFailed None true None (text "")
             (withDetail (hostContextDetail r)
                (detail [("request_id", AVString (cr_ID r));
                         ("cert_type", AVString (type_string (cr_Type r)));
                         ("source_ip", AVString (cr_SourceIP r));
                         ("error_code", AVString "stranded");
                         ("error", AVString FailureReasonStranded)])) now) ;;
      do* notifyWaiter (cr_ID r) (status_outcome StatusFailed) ;;
      report_failed rest
  end.

Definition failStranded (ids : list string) : prog unit :=
  let* now := perform Now in
  let* updated := perform (Exec (fun _ _ d =>
    let '(rs, d') := fail_rows ids (text FailureReasonStranded) now d in (Ok rs, d'))) in
  match updated with
  | Err _ => Ret tt
  | Ok rs => report_failed rs
  end.

Definition SweepStrandedRequests : prog (res unit) :=
  let* cutoff := strandedCutoff in
  let? stranded := perform (Query (rows_where (is_stranded cutoff))) in
  if (length stranded =? 0)%nat then Return tt
  else do* failStranded (map cr_ID stranded) ;; Return tt.
End waiting.
