(* ===== verification/Signer.v ===== *)
(** * The signer (server/signer/sign.go, server/signer/handler.go)

    The process that holds the CA key: it consumes signing jobs and publishes signed
    replies. It trusts the job's serial and principals but re-checks what a
    compromised main process could get wrong: the lifetime cap, the key algorithm
    under FIPS, and the principals' syntax. *)

From S2P Require Import Prelude Netip Model Accounts World AuditLog CertRequest.
From Stdlib Require Import String.
Local Open Scope Z_scope.
Local Open Scope prog_scope.

Record SignLimits : Type := MkLimits {
  sl_MaxCertLifetime : Duration;
  sl_MaxServiceCertLifetime : Duration;
}.

(** What the code puts into an [ssh.Certificate] (golang.org/x/crypto/ssh). *)
Record sshPermissions : Type := MkPermissions {
  perm_CriticalOptions : gmap string string;
  perm_Extensions : gmap string string;
}.

Record sshCertificate : Type := MkSSHCertificate {
  sc_Key : sshPublicKey;
  sc_Serial : Z;
  sc_CertType : Z;
  sc_KeyId : string;
  sc_ValidPrincipals : list string;
  sc_ValidAfter : Z;
  sc_ValidBefore : Z;
  sc_Permissions : sshPermissions;
}.

Definition ssh_UserCert : Z := 1.

(** A failed signature: the reply's error code and text. *)
Record signError : Type := MkSignError { se_code : string; se_err : message }.

Definition errorCode (e : signError) : string := se_code e.

Definition certTypeFor (t : CertificateType) : Z + signError :=
  match t with
  | CertificateTypeUser | CertificateTypePAM | CertificateTypeConsole | CertificateTypeService =>
      inl ssh_UserCert
  | CertificateTypeOther _ =>
      inr (MkSignError ErrCodeUnsupportedType
             (Msg "certificate type %q is not supported yet" [type_string t]))
  end.

(** [sort.Strings]: ascending byte order. *)
Fixpoint insert_sorted (x : string) (l : list string) : list string :=
  match l with
  | [] => [x]
  | y :: rest => if String.leb x y then x :: l else y :: insert_sorted x rest
  end.
Definition sort_strings (l : list string) : list string := foldr insert_sorted [] l.

Definition grantedExtensions (p : sshPermissions) : list string :=
  sort_strings (map fst (map_to_list (perm_Extensions p))).

Definition permissionsFor (o : RequestedOptions) : sshPermissions :=
  let exts : gmap string string :=
    foldl (fun m e => <[e := ""]> m) ∅ (ro_Extensions o) in
  let exts := if ro_NoTouchRequired o then <["no-touch-required" := ""]> exts else exts in
  let crit : gmap string string :=
    if negb (empty_str (ro_ForceCommand o)) then {[ "force-command" := ro_ForceCommand o ]} else ∅ in
  let crit := if (0 <? List.length (ro_SourceAddresses o))%nat
              then <["source-address" := String.concat "," (ro_SourceAddresses o)]> crit else crit in
  MkPermissions crit exts.

(** [uint64(t.Unix())]. *)
Definition unix64 (t : GoTime) : Z := UnixSeconds t mod 2 ^ 64.

Section signer.
Context (ParseAuthorizedKey : string -> option sshPublicKey).

Definition parsePublicKey (key : string) : sshPublicKey + signError :=
  match ParseAuthorizedKey key with
  | Some k => inl k
  | None => inr (MkSignError ErrCodeBadPublicKey (text "failed to parse public key"))
  end.

(** [Sign]. [caSigner] is what [ks.Signer(ctx)] gave ([None] its error): signing and
    marshalling a certificate with the CA key, which may itself fail. *)
Definition Sign (caSigner : option (sshCertificate -> option string)) (job : SigningJob)
  (fipsEnabled : bool) (limits : SignLimits) : SignedReply + signError :=
  if Before (job_ValidBefore job) (job_ValidAfter job) || (job_ValidBefore job =? job_ValidAfter job)
  then inr (MkSignError ErrCodeSignFailed (text "certificate lifetime invalid"))
  else
  let span := job_ValidBefore job - job_ValidAfter job in
  let cap := if bool_decide (job_Type job = CertificateTypeService)
             then sl_MaxServiceCertLifetime limits else sl_MaxCertLifetime limits in
  if cap <? span then
    inr (MkSignError ErrCodeLifetimeRejected (text "certificate lifetime exceeds maximum"))
  else match certTypeFor (job_Type job) with
  | inr e => inr e
  | inl certType =>
  match parsePublicKey (job_PublicKey job) with
  | inr e => inr e
  | inl publicKey =>
  if fipsEnabled
     && negb (match FromSSHAlgorithm (pk_Type publicKey) with
              | Some t => IsApprovedInFIPS t
              | None => false
              end)
  then inr (MkSignError ErrCodeFIPSNotApproved
              (Msg "public key algorithm %q is not FIPS-approved" [pk_Type publicKey]))
  else match validate_principals (job_Principals job) with
  | Err _ => inr (MkSignError ErrCodeSignFailed (text "invalid principal"))
  | Ok _ =>
  match caSigner with
  | None => inr (MkSignError ErrCodeCAUnavailable (text "failed to obtain CA signing key"))
  | Some sign =>
  let permissions := permissionsFor (job_RequestedOptions job) in
  let cert := MkSSHCertificate publicKey (job_Serial job) certType (job_KeyID job)
                (job_Principals job) (unix64 (job_ValidAfter job)) (unix64 (job_ValidBefore job))
                permissions in
  match sign cert with
  | None => inr (MkSignError ErrCodeSignFailed (text "failed to sign certificate"))
  | Some marshalled =>
      inl (MkReply (job_RequestID job) (job_Type job) (trim_space marshalled) (job_Serial job)
             (job_KeyID job) (job_Principals job) (pk_FingerprintSHA256 publicKey)
             (perm_CriticalOptions permissions) (grantedExtensions permissions)
             (job_ValidAfter job) (job_ValidBefore job) (text "") "")
  end end end end end.

Definition failure_reply (job : SigningJob) (e : signError) : SignedReply :=
  MkReply (job_RequestID job) (job_Type job) "" 0 "" [] "" ∅ [] zero_time zero_time (se_err e)
    (errorCode e).

(** [Handler.handle]; a payload that does not decode is dropped. *)
Definition signer_handle (caSigner : option (sshCertificate -> option string)) (fipsEnabled : bool)
  (limits : SignLimits) (payload : encoded SigningJob) : prog (res unit) :=
  match payload with
  | Undecodable _ => Return tt
  | Enc job =>
      let reply := match Sign caSigner job fipsEnabled limits with
                   | inl r => r
                   | inr e => failure_reply job e
                   end in
      perform (Publish (PubReply reply))
  end.
End signer.
