(* ===== verification/SignReply.v ===== *)
(** * Signed replies (server/service/signreply.go)

    The consumer of the signer's replies: it records the certificate, wakes the
    waiter, notifies the owner and moves the request row out of signing. Delivery is
    at least once, so every step tolerates a repeat. *)

From S2P Require Import Prelude Netip Model UserCode Accounts Condition Lifetime CertPolicy Sha256 World AuditLog CertRequest.
From Stdlib Require Import String.
Local Open Scope Z_scope.
Local Open Scope prog_scope.

(** Go's zero [model.CertificateRequest]. *)
Definition zero_request : CertificateRequest :=
  MkRequest
    (MkHead "" (CertificateTypeOther "") "" "" "" "" "" zero_time "" "" "" "" "" "" "" None None None None
       "" "" "" "" None None None)
    None (Undecodable "") "" None (StatusOther "") None "" (text "") None None "".

Record certificateOrigin : Type := MkOrigin {
  og_UserID : option string;
  og_RequestID : option string;
  og_CertificateID : string;
  og_SourceIP : string;
  og_LocalUsername : string;
  og_LocalHostname : string;
  og_Request : CertificateRequest;
}.

Definition resolvesRequestRow (r : SignedReply) : bool :=
  negb (bool_decide (rep_Type r = CertificateTypeService)).

Definition reportedContext (r : CertificateRequest) : string * string := ReportedIdentity r.

(** [strings.Split(s, ",")] of a non-empty string. *)
Fixpoint split_comma (l : list Z) : list (list Z) :=
  match l with
  | [] => [[]]
  | c :: rest =>
      if c =? 44 then [] :: split_comma rest
      else match split_comma rest with
           | w :: ws => (c :: w) :: ws
           | [] => [[c]]
           end
  end.

Definition split_addresses (joined : string) : list string :=
  if empty_str joined then [] else map string_of_bytes (split_comma (bytes joined)).

Section signreply.
Context (srv : Server).

Definition resolveRetrievalOwner (retrievalID : string) : prog (option string * option string) :=
  let* row := perform (Query (fun d => db_retrievals d !! retrievalID)) in
  match row with
  | Ok (Some retrieval) =>
      let* row := perform (Query (fun d => db_enrollments d !! er_EnrollmentID retrieval)) in
      match row with
      | Ok (Some e) => Ret (Some (en_UserID e), en_CertificateRequestID e)
      | _ => Ret (None, None)
      end
  | _ => Ret (None, None)
  end.

(** The owner, the request and what the request row said, per certificate type. *)
Definition resolveOrigin (reply : SignedReply) : prog certificateOrigin :=
  if bool_decide (rep_Type reply = CertificateTypeService) then
    let* owner := resolveRetrievalOwner (rep_RequestID reply) in
    Ret (MkOrigin owner.1 owner.2 "" "" "" "" zero_request)
  else
    let* row := perform (Query (fun d => db_requests d !! rep_RequestID reply)) in
    match row with
    | Ok (Some r) =>
        let '(u, h) := reportedContext r in
        Ret (MkOrigin (cr_UserID r) (Some (rep_RequestID reply)) "" (cr_SourceIP r) u h r)
    | _ => Ret (MkOrigin None None "" "" "" "" zero_request)
    end.

Definition set_CertificateID (o : certificateOrigin) (id : string) : certificateOrigin :=
  MkOrigin (og_UserID o) (og_RequestID o) id (og_SourceIP o) (og_LocalUsername o)
    (og_LocalHostname o) (og_Request o).

(** The audit event of an issued certificate. *)
Definition issued_event (reply : SignedReply) (origin : certificateOrigin) : AuditEvent :=
  MkAudit AuditCertIssued None false
    (Some (MkSubject (derefOrEmpty (og_UserID origin)) "" "" "" [])) (text "")
    (withDetail (hostContextDetail (og_Request origin))
       (detail [("request_id", AVString (derefOrEmpty (og_RequestID origin)));
                ("cert_type", AVString (type_string (rep_Type reply)));
                ("serial", AVInt (Some (rep_Serial reply))); ("key_id", AVString (rep_KeyID reply));
                ("principals", AVStrings (rep_Principals reply));
                ("fingerprint", AVString (rep_PublicKeyFingerprint reply));
                ("valid_after", AVTime (Some (rep_ValidAfter reply)));
                ("valid_before", AVTime (Some (rep_ValidBefore reply)));
                ("extensions", AVStrings (rep_Extensions reply));
                ("critical_options", AVMap (rep_CriticalOptions reply));
                ("source_ip", AVString (cr_SourceIP (og_Request origin)))]))
    (rep_ValidAfter reply).

Definition recordCertificate (reply : SignedReply) : prog (res certificateOrigin) :=
  let* origin := resolveOrigin reply in
  let* certID := perform (NewUUID KRow) in
  let cert := MkCertificate certID (rep_Type reply) (og_UserID origin) (og_RequestID origin)
                (rep_PublicKeyFingerprint reply) (rep_Serial reply) (rep_KeyID reply)
                (rep_Principals reply) (Enc (rep_CriticalOptions reply)) (Enc (rep_Extensions reply))
                (rep_ValidAfter reply) (rep_ValidBefore reply) in
  let? created := perform (Exec (fun _ _ => create_certificate cert)) in
  let* origin :=
    (if (created : bool) then Ret (set_CertificateID origin certID)
     else
       let* existing := perform (Query (fun d => ce_ID <$> db_certificates d !! rep_Serial reply)) in
       match existing with
       | Ok (Some id) => Ret (set_CertificateID origin id)
       | _ => Ret (set_CertificateID origin "")
       end) in
  do* auditRecord (issued_event reply origin) ;;
  Return origin.

(** ** The owner's notification *)

Definition approverDisplayName (subject : string) : prog string :=
  if empty_str subject then Ret ""
  else
    let* row := perform (Query (user_by_subject subject)) in
    match row with
    | Ok (Some u) => Ret (us_DisplayName u)
    | _ => Ret ""
    end.

(** [applyApprover]: the fields it sets on the payload. *)
Definition applyApprover (requestID : option string) : prog (list (string * AuditValue)) :=
  if empty_str (derefOrEmpty requestID) then Ret []
  else
    let* row := perform (Query (fun d => db_decisions d !! derefOrEmpty requestID)) in
    match row with
    | Ok (Some d) =>
        let* name := approverDisplayName (de_Subject d) in
        Ret [("approved_by_username", AVString (de_Username d)); ("approved_by_name", AVString name);
             ("approved_by_email", AVString (de_Email d));
             ("approver_source_ip", AVString (de_SourceIP d));
             ("approver_user_agent", AVString (de_UserAgent d));
             ("approved_at", AVTime (Some (de_DecidedAt d)))]
    | _ => Ret []
    end.

Definition issued_kind (t : CertificateType) : option string :=
  match t with
  | CertificateTypeUser => Some "user_certificate_issued"
  | CertificateTypePAM => Some "pam_certificate_issued"
  | CertificateTypeConsole => Some "console_certificate_issued"
  | _ => None
  end.

Definition issued_payload (reply : SignedReply) (origin : certificateOrigin)
  : list (string * AuditValue) :=
  let h := cr_Head (og_Request origin) in
  let sourceAddresses :=
    split_addresses (default "" (rep_CriticalOptions reply !! "source-address")) in
  [("certificate_type", AVString (type_string (rep_Type reply)));
   ("request_id", AVString (rep_RequestID reply));
   ("certificate_id", AVString (og_CertificateID origin)); ("key_id", AVString (rep_KeyID reply));
   ("principals", AVStrings (rep_Principals reply)); ("serial", AVInt (Some (rep_Serial reply)));
   ("public_key_fingerprint", AVString (rep_PublicKeyFingerprint reply));
   ("local_username", AVString (og_LocalUsername origin));
   ("local_hostname", AVString (og_LocalHostname origin));
   ("requesting_user", AVString (rh_RequestingUser h)); ("process", AVString (rh_Process h));
   ("tty", AVString (rh_TTY h)); ("remote_host", AVString (rh_RemoteHost h));
   ("pam_service", AVString (rh_PAMService h)); ("machine_id", AVString (rh_MachineID h));
   ("os", AVString (rh_OS h)); ("client", AVString (rh_Client h));
   ("client_mode", AVString (rh_ClientMode h)); ("caller_uid", AVInt (rh_CallerUID h));
   ("caller_gid", AVInt (rh_CallerGID h)); ("caller_pid", AVInt (rh_CallerPID h));
   ("caller_ppid", AVInt (rh_CallerPPID h)); ("source_ip", AVString (og_SourceIP origin));
   ("issued_at", AVTime (Some (rep_ValidAfter reply)));
   ("expires_at", AVTime (Some (rep_ValidBefore reply)));
   ("extensions", AVStrings (rep_Extensions reply));
   ("force_command", AVString (default "" (rep_CriticalOptions reply !! "force-command")));
   ("source_addresses", AVStrings sourceAddresses);
   ("no_touch_required", AVBool (contains (rep_Extensions reply) "no-touch-required"));
   ("server_url", AVString (srv_PublicOrigin srv))].

Definition notifyIssued (reply : SignedReply) (origin : certificateOrigin) : prog unit :=
  if empty_str (derefOrEmpty (og_UserID origin)) then Ret tt
  else match issued_kind (rep_Type reply) with
       | None => Ret tt
       | Some kind =>
           let* approver := applyApprover (og_RequestID origin) in
           perform (Notify (MkNotice kind (derefOrEmpty (og_UserID origin))
                              (issued_payload reply origin ++ approver)))
       end.

(** ** Resolving the row *)

Definition markResolved (requestID : string) (status : CertificateRequestStatus) (reason : message)
  : prog (res unit) :=
  let* now := perform Now in
  let? _ := perform (Exec (fun _ _ =>
    update_request requestID (fun row => bool_decide (cr_Status row = StatusSigning))
      (fun row => set_FailureReason (set_Resolved row status now) reason))) in
  Return tt.

Definition auditSignFailed (requestID : string) (certType : CertificateType) (errorCode : string)
  (errorText : message) : prog unit :=
  let* row := perform (Query (fun d => db_requests d !! requestID)) in
  let r := match row with Ok (Some r) => r | _ => zero_request end in
  let* now := perform Now in
  auditRecord (MkAudit AuditCertSignFailed None true None (text "")
    (withDetail (hostContextDetail r)
       (detail [("request_id", AVString requestID); ("cert_type", AVString (type_string certType));
                ("source_ip", AVString (cr_SourceIP r)); ("error_code", AVString errorCode);
                ("error", AVMessage errorText)])) now).

Definition resolveSuccess (reply : SignedReply) : prog (res unit) :=
  let? origin := recordCertificate reply in
  do* notifyWaiter (rep_RequestID reply)
        (MkOutcome StatusApproved (rep_Certificate reply) "" "" zero_time zero_time) ;;
  do* notifyIssued reply origin ;;
  if negb (resolvesRequestRow reply) then Return tt
  else markResolved (rep_RequestID reply) StatusApproved (text "").

Definition resolveFailure (reply : SignedReply) : prog (res unit) :=
  do* notifyWaiter (rep_RequestID reply) (status_outcome StatusFailed) ;;
  do* auditSignFailed (rep_RequestID reply) (rep_Type reply) (rep_ErrorCode reply) (rep_Error reply) ;;
  if negb (resolvesRequestRow reply) then Return tt
  else markResolved (rep_RequestID reply) StatusFailed
         (Msg "%s: %s" (rep_ErrorCode reply :: msg_format (rep_Error reply) :: msg_args (rep_Error reply))).

Definition reply_handle (payload : encoded SignedReply) : prog (res unit) :=
  match payload with
  | Undecodable _ => Return tt
  | Enc reply => if Failed reply then resolveFailure reply else resolveSuccess reply
  end.
End signreply.
