(* ===== verification/Enrollment.v ===== *)
(** * Service enrollments (server/service/enrollment.go)

    Redeeming an enrollment code for a fresh certificate, the reminders and notices
    around it, the notification address, ending a code early, and the listings of
    the people who hold its account. *)

From S2P Require Import Prelude Netip Model UserCode Accounts Condition Lifetime CertPolicy Sha256 World AuditLog CertRequest.
Local Open Scope Z_scope.
Local Open Scope prog_scope.

(** ** Column updates *)

Definition upd_enrollment (e : Enrollment) (expires : GoTime) (redeemed : option GoTime) (email : string)
  (reminded attempted : option GoTime) : Enrollment :=
  MkEnrollment (en_ID e) (en_Code e) (en_PublicKey e) (en_OptionSet e) (en_KeyID e) (en_Principals e)
    (en_ServiceAccount e) (en_CertificateRequestID e) (en_UserID e) (en_CreatedAt e) expires
    (en_CertificateDurationSeconds e) redeemed email reminded attempted.

Definition set_LastAttempt (e : Enrollment) (t : GoTime) : Enrollment :=
  upd_enrollment e (en_ExpiresAt e) (en_RedeemedAt e) (en_NotificationEmail e)
    (en_ExpiryReminderSentAt e) (Some t).
Definition set_Reminded (e : Enrollment) (t : GoTime) : Enrollment :=
  upd_enrollment e (en_ExpiresAt e) (en_RedeemedAt e) (en_NotificationEmail e) (Some t)
    (en_LastExpiredAttemptNotifiedAt e).
Definition set_NotificationEmail (e : Enrollment) (a : string) : Enrollment :=
  upd_enrollment e (en_ExpiresAt e) (en_RedeemedAt e) a (en_ExpiryReminderSentAt e)
    (en_LastExpiredAttemptNotifiedAt e).
Definition set_Expired (e : Enrollment) (t : GoTime) : Enrollment :=
  upd_enrollment e t (en_RedeemedAt e) (en_NotificationEmail e) None
    (en_LastExpiredAttemptNotifiedAt e).
Definition set_Redeemed (e : Enrollment) (t : GoTime) : Enrollment :=
  upd_enrollment e (en_ExpiresAt e) (Some t) (en_NotificationEmail e) (en_ExpiryReminderSentAt e)
    (en_LastExpiredAttemptNotifiedAt e).

Definition set_Succeeded (r : EnrollmentRetrieval) : EnrollmentRetrieval :=
  MkRetrieval (er_ID r) (er_EnrollmentID r) (er_SourceIP r) (er_CertificateSerial r)
    (er_RetrievedAt r) true.

(** ** Decoding *)

Definition decodeEnrollmentPrincipals (e : Enrollment) : list string :=
  match en_Principals e with Enc l => l | Undecodable _ => [] end.

Definition decodeEnrollmentOptions (e : Enrollment) : RequestedOptions :=
  match en_OptionSet e with Enc o => o | Undecodable _ => no_options end.

(** ** Listings *)

Record ServiceEnrollment : Type := MkServiceEnrollment {
  sv_Enrollment : Enrollment;
  sv_Principals : list string;
  sv_Options : RequestedOptions;
  sv_Fingerprint : string;
  sv_RetrievalCount : nat;
  sv_LastRetrievedAt : option GoTime;
  sv_ApproverUsername : string;
}.

Record RetrievalLog : Type := MkRetrievalLog {
  rl_Retrievals : list EnrollmentRetrieval;
  rl_Total : nat;
}.

Definition RetrievalPageSize : nat := 100.

Definition retrievals_of (id : string) (d : DB) : list EnrollmentRetrieval :=
  filter (fun r => er_EnrollmentID r = id) (map snd (map_to_list (db_retrievals d))).

(** [ORDER BY ... DESC] on a key. *)
Fixpoint insert_desc {A} (key : A -> Z) (x : A) (l : list A) : list A :=
  match l with
  | [] => [x]
  | y :: rest => if key y <=? key x then x :: l else y :: insert_desc key x rest
  end.
Definition sort_desc {A} (key : A -> Z) (l : list A) : list A := foldr (insert_desc key) [] l.

(** ** Expiry reminders *)

Definition ExpiryReminderDailyWindow : Duration := 7 * 24 * Hour.
Definition ExpiryReminderDailyInterval : Duration := 24 * Hour.
Definition ExpiryReminderWeeklyInterval : Duration := 7 * 24 * Hour.
Definition expiryReminderBatch : nat := 500.

Definition not_reminded_since (e : Enrollment) (t : GoTime) : bool :=
  from_option (fun at_ => at_ <=? t) true (en_ExpiryReminderSentAt e).

(** The WHERE clause of the reminder query. *)
Definition reminder_due (now lead : Z) (e : Enrollment) : bool :=
  let dailyFrom := now + ExpiryReminderDailyWindow in
  (now <? en_ExpiresAt e) && (en_ExpiresAt e <=? now + lead)
  && (((en_ExpiresAt e <=? dailyFrom) && not_reminded_since e (now - ExpiryReminderDailyInterval))
      || ((dailyFrom <? en_ExpiresAt e) && not_reminded_since e (now - ExpiryReminderWeeklyInterval))).

Section enrollment.
Context (srv : Server).
Context (ParseAuthorizedKey : string -> option sshPublicKey).
Context (ParseAddress : string -> bool).

Definition enrollmentFingerprint (e : Enrollment) : string :=
  match ParseAuthorizedKey (en_PublicKey e) with
  | Some k => pk_FingerprintSHA256 k
  | None => ""
  end.

Definition heldServiceAccounts (i : Identity) : list string :=
  ApprovableServiceAccounts i (co_AllowUserAccounts (opt_Service (srv_Options srv))).

Definition ownsEnrollment (i : Identity) (e : Enrollment) : bool :=
  if empty_str (en_ServiceAccount e) then false
  else contains (heldServiceAccounts i) (en_ServiceAccount e).

Definition notFoundEnrollment (id : string) : goerr := NotFoundError (Msg "enrollment %q" [id]).

Definition lookupEnrollment (id : string) : prog (res Enrollment) :=
  let? row := perform (Query (fun d => db_enrollments d !! id)) in
  match row with
  | Some e => Return e
  | None => Fail (notFoundEnrollment id)
  end.

(** ** Retrieve *)

Definition notifyRedemption (e : Enrollment) (r : EnrollmentRetrieval) (principals : list string)
  (certificateExpiresAt : GoTime) (firstRedemption succeeded : bool) : prog unit :=
  perform (Notify (MkNotice "service_enrollment_redeemed" (en_ID e)
    [("service_account", AVString (en_ServiceAccount e));
     ("request_id", AVString (derefOrEmpty (en_CertificateRequestID e)));
     ("enrollment_id", AVString (en_ID e)); ("retrieval_id", AVString (er_ID r));
     ("source_ip", AVString (er_SourceIP r)); ("retrieved_at", AVTime (Some (er_RetrievedAt r)));
     ("certificate_serial", AVInt (Some (er_CertificateSerial r)));
     ("certificate_expires_at", AVTime (Some certificateExpiresAt));
     ("key_id", AVString (en_KeyID e)); ("principals", AVStrings principals);
     ("succeeded", AVBool succeeded); ("first_redemption", AVBool firstRedemption);
     ("code_expires_at", AVTime (Some (en_ExpiresAt e)));
     ("server_url", AVString (srv_PublicOrigin srv))])).

Definition notifyExpiredAttempt (e : Enrollment) (sourceIP : string) (attemptedAt : GoTime) : prog unit :=
  let window := srv_ExpiredAttemptWindow srv in
  if window <=? 0 then Ret tt
  else
    let* result := perform (Exec (fun _ _ =>
      update_enrollment (en_ID e)
        (fun row => from_option (fun at_ => Before at_ (attemptedAt - window)) true
                      (en_LastExpiredAttemptNotifiedAt row))
        (fun row => set_LastAttempt row attemptedAt))) in
    match result with
    | Ok true =>
        let '(fingerprint, keyType) := describeAuthorizedKey ParseAuthorizedKey (en_PublicKey e) in
        perform (Notify (MkNotice "service_enrollment_expired_attempt" (en_ID e)
          [("service_account", AVString (en_ServiceAccount e));
           ("request_id", AVString (derefOrEmpty (en_CertificateRequestID e)));
           ("enrollment_id", AVString (en_ID e)); ("key_id", AVString (en_KeyID e));
           ("principals", AVStrings (decodeEnrollmentPrincipals e));
           ("public_key_fingerprint", AVString fingerprint); ("public_key_type", AVString keyType);
           ("source_ip", AVString sourceIP); ("attempted_at", AVTime (Some attemptedAt));
           ("code_expired_at", AVTime (Some (en_ExpiresAt e)));
           ("server_url", AVString (srv_PublicOrigin srv))]))
    | _ => Ret tt
    end.

(** [awaitSignedCertificate]; [fuel] bounds the messages that are skipped. *)
Fixpoint awaitSignedCertificate (fuel : nat) (id : string) (serialNum : Z) : prog (res string) :=
  match fuel with
  | O => Fail (Internal (text "still waiting"))
  | S fuel' =>
      let* got := perform (Receive id (0 <? SigningGrace (srv_Options srv))) in
      match got with
      | GotClosed => Fail (Internal (text "retrieval outcome subscription closed before signing finished"))
      | GotDone => Fail ContextError
      | GotTimer => Fail (Internal (text "timed out waiting for certificate signing"))
      | GotMessage (Undecodable _) => awaitSignedCertificate fuel' id serialNum
      | GotMessage (Enc m) =>
          match om_Status m with
          | StatusApproved =>
              let* row := perform (Query (fun d => db_certificates d !! serialNum)) in
              match row with
              | Ok (Some _) => Return (om_Certificate m)
              | _ => awaitSignedCertificate fuel' id serialNum
              end
          | StatusFailed => Fail (Internal (text "certificate signing failed; see server logs"))
          | _ => awaitSignedCertificate fuel' id serialNum
          end
      end
  end.

Definition markRetrievalSucceeded (enrollmentID retrievalID : string) (now : GoTime) : prog unit :=
  do* perform (Exec (fun _ _ => update_retrieval retrievalID set_Succeeded)) ;;
  do* perform (Exec (fun _ _ =>
        update_enrollment enrollmentID (fun row => negb (bool_decide (is_Some (en_RedeemedAt row))))
          (fun row => set_Redeemed row now))) ;;
  Ret tt.

Definition auditRedemption (e : Enrollment) (serialNum : Z) (sourceIP : string) (now : GoTime)
  : prog unit :=
  auditRecord (MkAudit AuditEnrollmentRedeemed None false (Some (MkSubject (en_UserID e) "" "" "" []))
    (text "")
    (detail [("enrollment_id", AVString (en_ID e)); ("service_account", AVString (en_ServiceAccount e));
             ("key_id", AVString (en_KeyID e)); ("serial", AVInt (Some serialNum));
             ("source_ip", AVString sourceIP)]) now).

Definition Retrieve (fuel : nat) (code sourceIP : string) : prog (res string) :=
  let? row := perform (Query (enrollment_by_code code)) in
  match row with
  | None => Fail (NotFoundError (text "enrollment"))
  | Some e =>
  let* now := perform Now in
  if negb (After (en_ExpiresAt e) now) then
    do* notifyExpiredAttempt e sourceIP now ;; Fail (NotFoundError (text "enrollment"))
  else
  let principals := decodeEnrollmentPrincipals e in
  if (length principals =? 0)%nat then
    Fail (Internal (Msg "enrollment %q has no stored principals; re-enroll the service" [en_ID e]))
  else match unmarshal (en_OptionSet e) "failed to decode enrollment option set" with
  | Err err => Fail err
  | Ok opts =>
  let validBefore := from_option (fun secs => now + secs * Second) (en_ExpiresAt e)
                       (en_CertificateDurationSeconds e) in
  let? serialNum := serialNew in
  let* retrievalID := perform (NewUUID KRetrieval) in
  let retrieval := MkRetrieval retrievalID (en_ID e) sourceIP serialNum now false in
  let? _ := perform (Exec (fun _ _ => create_retrieval retrieval)) in
  let? _ := perform (Subscribe retrievalID) in
  let? _ := perform (Publish (PubJob (MkJob retrievalID CertificateTypeService (en_PublicKey e)
              principals (en_KeyID e) opts now validBefore serialNum))) in
  let firstRedemption := negb (bool_decide (is_Some (en_RedeemedAt e))) in
  let* cert := awaitSignedCertificate fuel retrievalID serialNum in
  match cert with
  | Err err =>
      do* notifyRedemption e retrieval principals validBefore firstRedemption false ;; Fail err
  | Ok cert =>
      do* markRetrievalSucceeded (en_ID e) retrievalID now ;;
      do* auditRedemption e serialNum sourceIP now ;;
      do* notifyRedemption e retrieval principals validBefore firstRedemption true ;;
      Return cert
  end end end.

(** ** Reminders *)

Definition remind (now : GoTime) (e : Enrollment) : prog (res unit) :=
  let daily := negb (After (en_ExpiresAt e) (now + ExpiryReminderDailyWindow)) in
  let interval := if daily then ExpiryReminderDailyInterval else ExpiryReminderWeeklyInterval in
  let? affected := perform (Exec (fun _ _ =>
    update_enrollment (en_ID e) (fun row => not_reminded_since row (now - interval))
      (fun row => set_Reminded row now))) in
  if negb affected then Return tt
  else
    let '(fingerprint, keyType) := describeAuthorizedKey ParseAuthorizedKey (en_PublicKey e) in
    do* perform (Notify (MkNotice "service_enrollment_expiring" (en_ID e)
      [("service_account", AVString (en_ServiceAccount e));
       ("request_id", AVString (derefOrEmpty (en_CertificateRequestID e)));
       ("enrollment_id", AVString (en_ID e)); ("key_id", AVString (en_KeyID e));
       ("principals", AVStrings (decodeEnrollmentPrincipals e));
       ("public_key_fingerprint", AVString fingerprint); ("public_key_type", AVString keyType);
       ("first_redeemed_at", AVTime (Some (default zero_time (en_RedeemedAt e))));
       ("code_expires_at", AVTime (Some (en_ExpiresAt e))); ("daily", AVBool daily);
       ("server_url", AVString (srv_PublicOrigin srv))])) ;;
    Return tt.

Fixpoint remind_all (now : GoTime) (due : list Enrollment) : prog (res unit) :=
  match due with
  | [] => Return tt
  | e :: rest => let? _ := remind now e in remind_all now rest
  end.

Definition SweepExpiryReminders : prog (res unit) :=
  let lead := srv_ExpiryReminderLead srv in
  if lead <=? 0 then Return tt
  else
    let* now := perform Now in
    let? due := perform (Query (fun d =>
      take expiryReminderBatch
        (rev (sort_desc en_ExpiresAt
           (filter (fun e => reminder_due now lead e = true) (map snd (map_to_list (db_enrollments d)))))))) in
    remind_all now due.

(** ** The notification address and early expiry *)

Definition actorUserID (i : Identity) : prog string :=
  let* row := perform (Query (user_by_subject (id_Subject i))) in
  match row with
  | Ok (Some u) => Ret (us_ID u)
  | _ => Ret ""
  end.

Definition refusedEnrollment : goerr :=
  ForbiddenError (text "enrollment belongs to a service account you do not hold").

Definition SetNotificationEmail (enrollmentID : string) (i : Identity) (address : string)
  : prog (res unit) :=
  match validateNotificationEmail ParseAddress address with
  | Err e => Fail e
  | Ok address =>
      let? e := lookupEnrollment enrollmentID in
      if negb (ownsEnrollment i e) && negb (GrantsSOC (srv_Admin srv) (id_Groups i)) then
        Fail refusedEnrollment
      else
        let? _ := perform (Exec (fun _ _ =>
          update_enrollment enrollmentID (fun _ => true)
            (fun row => set_NotificationEmail row address))) in
        let* actor := actorUserID i in
        do* auditRecord (MkAudit AuditEnrollmentNotificationEmailSet
               (Some (AuditSubjectFromIdentity i actor)) false
               (Some (MkSubject (en_UserID e) "" "" "" [])) (text "")
               (detail [("enrollment_id", AVString enrollmentID);
                        ("service_account", AVString (en_ServiceAccount e));
                        ("previous_email", AVString (en_NotificationEmail e));
                        ("notification_email", AVString address)]) zero_time) ;;
        Return tt
  end.

Definition ExpireForIdentity (enrollmentID : string) (i : Identity) (reason : string)
  : prog (res unit) :=
  match ValidateAuditReason AuditEnrollmentExpired reason with
  | Err _ => Fail (InvalidRequestError (text "a reason is required"))
  | Ok reason =>
      let? e := lookupEnrollment enrollmentID in
      if negb (ownsEnrollment i e) && negb (GrantsSOC (srv_Admin srv) (id_Groups i)) then
        Fail refusedEnrollment
      else
        let* now := perform Now in
        if negb (After (en_ExpiresAt e) now) then Return tt
        else
          let* actor := actorUserID i in
          let event := MkAudit AuditEnrollmentExpired (Some (AuditSubjectFromIdentity i actor)) false
            (Some (MkSubject (en_UserID e) "" "" "" [])) (text reason)
            (detail [("enrollment_id", AVString enrollmentID); ("key_id", AVString (en_KeyID e));
                     ("service_account", AVString (en_ServiceAccount e))]) now in
          let* prepared := prepare event in
          let? _ := perform (Exec (fun _ _ =>
            (tx! affected := update_enrollment enrollmentID (fun _ => true)
                               (fun row => set_Expired row now) in
             if negb affected then tx_err (notFoundEnrollment enrollmentID)
             else RecordTx prepared)%go)) in
          do* LogOnly event ;;
          Return tt
  end.

(** ** Listings *)

Definition retrievalCounts (ids : list string) : prog (res (gmap string nat)) :=
  perform (Query (fun d =>
    list_to_map (filter (fun kv => kv.2 <> 0%nat)
      (map (fun id => (id, length (retrievals_of id d))) ids)))).

Definition latestRetrievals (ids : list string) : prog (res (gmap string GoTime)) :=
  perform (Query (fun d =>
    list_to_map (omap (fun id =>
      (fun r => (id, er_RetrievedAt r)) <$> head (sort_desc er_RetrievedAt (retrievals_of id d))) ids))).

Definition ListForIdentity (i : Identity) : prog (res (list ServiceEnrollment)) :=
  let held := heldServiceAccounts i in
  if (length held =? 0)%nat then Return []
  else
    let? rows := perform (Query (fun d =>
      map (fun e => (e, us_Username <$> db_users d !! en_UserID e))
        (sort_desc en_CreatedAt (filter (fun e => en_ServiceAccount e ∈ held)
           (map snd (map_to_list (db_enrollments d))))))) in
    if (length rows =? 0)%nat then Return []
    else
      let ids := map (fun row => en_ID row.1) rows in
      let? counts := retrievalCounts ids in
      let? latest := latestRetrievals ids in
      Return (map (fun row =>
        MkServiceEnrollment row.1 (decodeEnrollmentPrincipals row.1) (decodeEnrollmentOptions row.1)
          (enrollmentFingerprint row.1) (default 0%nat (counts !! en_ID row.1))
          (latest !! en_ID row.1) (derefOrEmpty row.2)) rows).

Definition ListRetrievals (requestID : string) (i : Identity) : prog (res RetrievalLog) :=
  let? row := perform (Query (fun d =>
    find_row (db_enrollments d) (fun e => bool_decide (en_CertificateRequestID e = Some requestID)))) in
  match row with
  | None => Fail (NotFoundError (Msg "enrollment for request %q" [requestID]))
  | Some e =>
      if negb (GrantsAuditor (srv_Admin srv) (id_Groups i)) && negb (ownsEnrollment i e) then
        Fail (ForbiddenError (text "retrieval log belongs to a service account you do not hold"))
      else
        let? total := perform (Query (fun d => length (retrievals_of (en_ID e) d))) in
        let? rs := perform (Query (fun d =>
          take RetrievalPageSize (sort_desc er_RetrievedAt (retrievals_of (en_ID e) d)))) in
        Return (MkRetrievalLog rs total)
  end.
End enrollment.
