(* ===== verification/Users.v ===== *)
(** * Users (server/service/auth.go, server/service/identity.go)

    The row a login creates or refreshes, the disabled check that stands between a
    login and a session, and the account lists read back from the row. *)

From S2P Require Import Prelude Netip Model Condition World AuditLog CertRequest.
Local Open Scope Z_scope.
Local Open Scope prog_scope.

(** [clause.OnConflict] on subject with the seven assignment columns: the row keeps
    its id, its subject, its creation time and its disabled mark. *)
Definition refresh_user (old new : User) : User :=
  MkUser (us_ID old) (us_Subject old) (us_Username new) (us_Email new) (us_DisplayName new)
    (us_OtherAccounts new) (us_ServiceAccounts new) (us_ExtraFields new) (us_CreatedAt old)
    (us_UpdatedAt new) (us_DisabledAt old).

Definition put_user (user : User) : tx unit := fun d =>
  match user_by_subject (us_Subject user) d with
  | Some old => (Ok tt, set_users d (<[us_ID old := refresh_user old user]> (db_users d)))
  | None =>
      if bool_decide (is_Some (db_users d !! us_ID user)) then (Err UniqueViolation, d)
      else (Ok tt, set_users d (<[us_ID user := user]> (db_users d)))
  end.

(** [upsertUser]; marshalling lists and extras cannot fail. *)
Definition upsertUser (i : Identity) : prog (res unit) :=
  let* now := perform Now in
  let* id := perform (NewUUID KRow) in
  let user := MkUser id (id_Subject i) (id_Username i) (id_Email i) (id_DisplayName i)
                (Some (Enc (id_OtherAccounts i))) (Some (Enc (id_ServiceAccounts i)))
                (Some (Enc (id_Extra i))) now now None in
  perform (Exec (fun _ _ => put_user user)).

(** A missing row is a first login; a failing query refuses. *)
Definition checkUserDisabled (subject : string) : prog (res unit) :=
  let* row := perform (Query (fun d => user_by_subject subject d)) in
  match row with
  | Err _ => Fail UserStatusCheckError
  | Ok None => Return tt
  | Ok (Some u) => if bool_decide (is_Some (us_DisabledAt u)) then Fail UserDisabledError else Return tt
  end.

Definition decodeStoredStringList (column : option (encoded (list string))) : list string :=
  match column with
  | Some (Enc l) => l
  | _ => []
  end.
