(* ===== verification/Seq.v ===== *)
(** * Running a call alone

    A Hoare logic for [run]: [seq P p Q s] says that [p], run from [s] without
    interference and with every choice of the environment satisfying [P], ends with an
    answer and a state that satisfy [Q]. Programs are finite, so this is total
    correctness. *)

From S2P Require Import Prelude Netip Model World AuditLog CertRequest.

(** Nothing fails that the environment could fail. *)
Definition reliable (c : choice) : Prop := ch_fault c = false.
(** Anything may fail. *)
Definition any (c : choice) : Prop := True.

Fixpoint seq {A} (P : choice -> Prop) (p : prog A) (Q : A -> Sys -> Prop) (s : Sys) : Prop :=
  match p with
  | Ret a => Q a s
  | Step e k => forall c, P c -> let '(x, s2) := exec_eff c s e in seq P (k x) Q s2
  end.

Lemma seq_run {A} P (p : prog A) Q : P calm -> forall cs s,
  Forall P cs -> seq P p Q s -> Q (run cs p s).1 (run cs p s).2.
Proof.
  intros Hcalm. induction p as [a|X e k IH]; intros cs s Hcs H; [done|]. simpl in *.
  assert (P (default calm (head cs))) as HP by (destruct cs; [done|by inversion Hcs]).
  specialize (H _ HP). destruct (exec_eff _ s e) as [x s2].
  apply IH; [|done]. destruct cs; [done|by inversion Hcs].
Qed.

Lemma seq_run_pair {A} P (p : prog A) (Q : A -> Sys -> Prop) cs s :
  P calm -> Forall P cs -> seq P p Q s -> let '(a, s') := run cs p s in Q a s'.
Proof. intros Hc Hcs H. rewrite (surjective_pairing (run cs p s)). by apply (seq_run P). Qed.

Lemma seq_mono {A} P (p : prog A) (Q Q' : A -> Sys -> Prop) : forall s,
  seq P p Q s -> (forall a s', Q a s' -> Q' a s') -> seq P p Q' s.
Proof.
  induction p as [a|X e k IH]; simpl; intros s H HQ; [auto|].
  intros c Hc. specialize (H c Hc). destruct (exec_eff c s e). by eapply IH.
Qed.

Lemma seq_bind {A B} P (p : prog A) (f : A -> prog B) Q : forall s,
  seq P p (fun a => seq P (f a) Q) s -> seq P (bind p f) Q s.
Proof.
  induction p as [a|X e k IH]; simpl; intros s H; [done|].
  intros c Hc. specialize (H c Hc). destruct (exec_eff c s e). by apply IH.
Qed.

Lemma seq_bind_ok {A B} P (p : prog (res A)) (f : A -> prog (res B)) Q s :
  seq P p (fun r s' => match r with Ok a => seq P (f a) Q s' | Err e => Q (Err e) s' end) s ->
  seq P (bind_ok p f) Q s.
Proof. intros H. apply seq_bind. eapply seq_mono; [exact H|]. intros [a|e] s' Ha; done. Qed.

Lemma seq_ret {A} P (a : A) (Q : A -> Sys -> Prop) s : Q a s -> seq P (Ret a) Q s.
Proof. done. Qed.

#[global] Arguments seq : simpl never.

Section effects.
Context (P : choice -> Prop).
Implicit Types (s : Sys).

Lemma seq_now (Q : GoTime -> Sys -> Prop) s :
  (forall t, sys_clock s <= t -> Q t (set_clock s t)) -> seq P (perform Now) Q s.
Proof. intros H c Hc. apply H. lia. Qed.

Lemma seq_uuid k (Q : string -> Sys -> Prop) s :
  (forall u, sys_issued s !! u = None -> Q u (set_issued s (<[u := k]> (sys_issued s)))) ->
  seq P (perform (NewUUID k)) Q s.
Proof.
  intros H c Hc. simpl. apply H. destruct (sys_issued s !! ch_uuid c) eqn:E; [|done].
  apply not_elem_of_dom, is_fresh.
Qed.

Lemma seq_rand n (Q : res (list Z) -> Sys -> Prop) s :
  (forall r, Q r s) -> seq P (perform (RandRead n)) Q s.
Proof. intros H c Hc. simpl. apply H. Qed.

Lemma seq_subscribe id (Q : res unit -> Sys -> Prop) s :
  Q (Ok tt) s -> (~ (forall c, P c -> reliable c) -> forall e, Q (Err e) s) ->
  seq P (perform (Subscribe id)) Q s.
Proof.
  intros H HE c Hc. simpl. destruct (ch_fault c) eqn:E; [|done]. apply HE. intros Hr.
  specialize (Hr c Hc). unfold reliable in Hr. congruence.
Qed.

(** A query answers, or fails when failures are possible. *)
Lemma seq_query {A} (q : DB -> A) (Q : res A -> Sys -> Prop) s :
  Q (Ok (q (sys_db s))) s -> (~ (forall c, P c -> reliable c) -> Q (Err DBError) s) ->
  seq P (perform (Query q)) Q s.
Proof.
  intros H HE c Hc. simpl. destruct (ch_fault c) eqn:E; [|done]. apply HE. intros Hr.
  specialize (Hr c Hc). unfold reliable in Hr. congruence.
Qed.

Lemma seq_exec {A} (stmt : GoTime -> GoTime -> tx A) (Q : res A -> Sys -> Prop) s :
  (forall t1 t2, sys_clock s <= t1 -> t1 <= t2 ->
     match stmt t1 t2 (sys_db s) with
     | (Ok a, d') => Q (Ok a) (set_clock (set_db s d') t2)
     | (Err e, _) => Q (Err e) (set_clock s t2)
     end) ->
  (~ (forall c, P c -> reliable c) -> Q (Err DBError) s) ->
  seq P (perform (Exec stmt)) Q s.
Proof.
  intros H HE c Hc. simpl. destruct (ch_fault c) eqn:E.
  - apply HE. intros Hr. specialize (Hr c Hc). unfold reliable in Hr. congruence.
  - specialize (H (Z.max (sys_clock s) (ch_now c)) (Z.max (sys_clock s) (ch_now c) + Z.max 0 (ch_later c))
      ltac:(lia) ltac:(lia)).
    by destruct (stmt _ _ (sys_db s)) as [[a|e] d'].
Qed.

Lemma seq_cache_get id (Q : option WaitOutcome -> Sys -> Prop) s :
  Q (sys_resolved s !! id) s -> seq P (perform (CacheGet id)) Q s.
Proof. intros H c Hc. done. Qed.

Lemma seq_cache_set id o (Q : unit -> Sys -> Prop) s :
  Q tt (set_resolved s (<[id := o]> (sys_resolved s))) -> seq P (perform (CacheSet id o)) Q s.
Proof. intros H c Hc. done. Qed.

Lemma seq_publish m (Q : res unit -> Sys -> Prop) s :
  Q (Ok tt) (set_published s (sys_published s ++ [m])) ->
  (~ (forall c, P c -> reliable c) -> forall e, Q (Err e) s) ->
  seq P (perform (Publish m)) Q s.
Proof.
  intros H HE c Hc. simpl. destruct (ch_fault c) eqn:E; [|done]. apply HE. intros Hr.
  specialize (Hr c Hc). unfold reliable in Hr. congruence.
Qed.

Lemma seq_notify n (Q : unit -> Sys -> Prop) s :
  Q tt (set_notices s (sys_notices s ++ [n])) -> seq P (perform (Notify n)) Q s.
Proof. intros H c Hc. done. Qed.

Lemma seq_ship ev (Q : unit -> Sys -> Prop) s :
  Q tt (set_shipped s (sys_shipped s ++ [ev])) -> seq P (perform (Ship ev)) Q s.
Proof. intros H c Hc. done. Qed.

Lemma seq_receive id timer (Q : received -> Sys -> Prop) s :
  (forall x t, sys_clock s <= t -> Q x (set_clock s t)) -> seq P (perform (Receive id timer)) Q s.
Proof. intros H c Hc. simpl. apply H. lia. Qed.

Lemma seq_sleep d (Q : bool -> Sys -> Prop) s :
  (forall b t, sys_clock s <= t -> (b = true -> sys_clock s + d <= t) -> Q b (set_clock s t)) ->
  seq P (perform (Sleep d)) Q s.
Proof.
  intros H c Hc. simpl. destruct (ch_cancelled c); apply H; first [lia|done|intros; lia].
Qed.
End effects.

(** ** States that differ only in clock, audit trail, uuids and sinks

    What auditing and time keeping leave alone: every table but the audit trail, the
    outcome cache and the messages published. *)
Record same_records (s s' : Sys) : Prop := {
  sr_db : exists l, sys_db s' = set_audit (sys_db s) l;
  sr_resolved : sys_resolved s' = sys_resolved s;
  sr_published : sys_published s' = sys_published s;
  sr_clock : sys_clock s <= sys_clock s';
}.

#[export] Instance same_records_po : PreOrder same_records.
Proof.
  split.
  - intros s. constructor; try done. exists (db_audit (sys_db s)). by destruct (sys_db s).
  - intros a b c [[l Hl] R1 P1 C1] [[l' Hl'] R2 P2 C2]. constructor; [|congruence|congruence|lia].
    exists l'. rewrite Hl', Hl. done.
Qed.

Lemma same_records_requests s s' : same_records s s' -> requests s' = requests s.
Proof. intros [[l H] _ _ _]. unfold requests. by rewrite H. Qed.
Lemma same_records_decisions s s' : same_records s s' -> decisions s' = decisions s.
Proof. intros [[l H] _ _ _]. unfold decisions. by rewrite H. Qed.
Lemma same_records_enrollments s s' : same_records s s' -> enrollments s' = enrollments s.
Proof. intros [[l H] _ _ _]. unfold enrollments. by rewrite H. Qed.
Lemma same_records_certificates s s' : same_records s s' -> certificates s' = certificates s.
Proof. intros [[l H] _ _ _]. unfold certificates. by rewrite H. Qed.
Lemma same_records_users s s' : same_records s s' -> users s' = users s.
Proof. intros [[l H] _ _ _]. unfold users. by rewrite H. Qed.
Lemma same_records_retrievals s s' : same_records s s' -> retrievals s' = retrievals s.
Proof. intros [[l H] _ _ _]. unfold retrievals. by rewrite H. Qed.

Section quiet.
Context (P : choice -> Prop).

Lemma seq_prepare ev (Q : res (AuditRow * AuditEvent) -> Sys -> Prop) s :
  (forall r s', same_records s s' -> Q r s') -> seq P (prepare ev) Q s.
Proof.
  intros HQ. unfold prepare. apply seq_bind.
  assert (forall (t : GoTime) s2, same_records s s2 -> seq P (match validate_reason (ae_Action ev) (ae_Reason ev) with
          | Err e => Fail e
          | Ok reason =>
              let event := MkAudit (ae_Action ev) (ae_Actor ev) (ae_System ev) (ae_Target ev)
                             reason (ae_Detail ev) t in
              (let* id := perform (NewUUID KRow) in
              Return (MkAuditRow id t (subjectUserID (ae_Actor event)) (subjectUserID (ae_Target event))
                        (auditSourceIP (ae_Detail event)) event, event))%prog
          end) Q s2) as Hk.
  { intros t s2 Hs. destruct (validate_reason _ _); [|by apply seq_ret, HQ]. cbv zeta.
    apply seq_bind, seq_uuid. intros u _. apply seq_ret, HQ. etrans; [exact Hs|]. constructor; simpl; try done.
    exists (db_audit (sys_db s2)). by destruct (sys_db s2). }
  destruct (IsZeroTime _).
  - apply seq_now. intros t Ht. apply Hk. constructor; simpl; try done.
    exists (db_audit (sys_db s)). by destruct (sys_db s).
  - by apply seq_ret, Hk.
Qed.

Lemma seq_Record ev (Q : unit -> Sys -> Prop) s :
  (forall s', same_records s s' -> Q tt s') -> seq P (Record_ ev) Q s.
Proof.
  intros HQ. unfold Record_. apply seq_bind, seq_prepare. intros r s1 H1.
  destruct r as [[row prepared]|e]; [|by apply seq_ret, HQ].
  apply seq_bind, seq_ship.
  assert (same_records s (set_shipped s1 (sys_shipped s1 ++ [prepared]))) as H2.
  { etrans; [exact H1|]. constructor; simpl; try done. exists (db_audit (sys_db s1)). by destruct (sys_db s1). }
  destruct (tableSkipped _); [by apply seq_ret, HQ|].
  apply seq_bind, seq_exec; [|by intros _; apply seq_ret, HQ].
  intros t1 t2 Ht1 Ht2. simpl. apply seq_ret, HQ. etrans; [exact H2|]. constructor; simpl in *; try done; [|lia].
  by eexists.
Qed.

Lemma seq_LogOnly ev (Q : unit -> Sys -> Prop) s :
  (forall s', same_records s s' -> Q tt s') -> seq P (LogOnly ev) Q s.
Proof.
  intros HQ. unfold LogOnly. apply seq_bind, seq_prepare. intros r s1 H1.
  destruct r as [[row prepared]|e]; [|by apply seq_ret, HQ].
  apply seq_ship, HQ. etrans; [exact H1|]. constructor; simpl; try done.
  exists (db_audit (sys_db s1)). by destruct (sys_db s1).
Qed.
End quiet.
