(* ===== verification/Invariant.v ===== *)
(** * How the state may evolve, and the invariant of every reachable state

    [evolves] orders states: rows only move forward in the request life cycle, owners
    and claims are set once, decisions and certificates are never changed or removed.
    [SInv] says what every state satisfies. A step is [legal] when it preserves the
    invariant and evolves the state; [legal] is both the rely and the guarantee of
    every handler. *)

From S2P Require Import Prelude Netip Model UserCode Accounts Condition Lifetime CertPolicy World AuditLog CertRequest Signer.

(** ** Evolution of a row *)

Definition status_le (a b : CertificateRequestStatus) : Prop :=
  a = b
  \/ a = StatusPending /\ b ∈ [StatusSigning; StatusApproved; StatusFailed; StatusEnrolled; StatusDenied; StatusExpired]
  \/ a = StatusSigning /\ b ∈ [StatusApproved; StatusFailed].

#[export] Instance status_le_po : PreOrder status_le.
Proof.
  split; [by left|]. intros a b c [->|[[-> Hb]|[-> Hb]]] H; [done| |].
  - destruct H as [<-|[[-> Hc]|[-> Hc]]]; unfold status_le; set_solver.
  - destruct H as [<-|[[-> Hc]|[-> Hc]]]; unfold status_le; set_solver.
Qed.

Record row_evolves (r r' : CertificateRequest) : Prop := {
  re_head : cr_Head r' = cr_Head r;
  re_status : status_le (cr_Status r) (cr_Status r');
  re_owner : forall u, cr_UserID r = Some u -> cr_UserID r' = Some u;
  re_claim : forall h, cr_ClaimTokenHash r = Some h ->
    cr_ClaimTokenHash r' = Some h /\ cr_ClaimedAt r' = cr_ClaimedAt r
    /\ cr_ClaimUserAgent r' = cr_ClaimUserAgent r;
  re_grant : cr_Status r <> StatusPending ->
    cr_RequestedOptions r' = cr_RequestedOptions r /\ cr_SerialNumber r' = cr_SerialNumber r
    /\ cr_EnrollmentToken r' = cr_EnrollmentToken r /\ cr_ServiceAccount r' = cr_ServiceAccount r;
}.

#[export] Instance row_evolves_po : PreOrder row_evolves.
Proof.
  split; [intros r; by constructor|].
  intros a b c [h1 s1 o1 c1 g1] [h2 s2 o2 c2 g2]. constructor.
  - by rewrite h2.
  - by etrans.
  - auto.
  - intros h Hh. destruct (c1 h Hh) as (Hb & E1 & E2). destruct (c2 h Hb) as (? & ? & ?).
    split_and!; congruence.
  - intros Ha. destruct (g1 Ha) as (E1 & E2 & E3 & E4).
    assert (cr_Status b <> StatusPending) as Hb.
    { intros Hb. rewrite Hb in s1. unfold status_le in s1. set_solver. }
    destruct (g2 Hb) as (? & ? & ? & ?). split_and!; congruence.
Qed.

Definition enrollment_evolves (e e' : Enrollment) : Prop :=
  (en_ID e', en_Code e', en_PublicKey e', en_KeyID e', en_ServiceAccount e')
    = (en_ID e, en_Code e, en_PublicKey e, en_KeyID e, en_ServiceAccount e)
  /\ en_OptionSet e' = en_OptionSet e /\ en_Principals e' = en_Principals e
  /\ en_CertificateRequestID e' = en_CertificateRequestID e /\ en_UserID e' = en_UserID e
  /\ en_CertificateDurationSeconds e' = en_CertificateDurationSeconds e.

#[export] Instance enrollment_evolves_po : PreOrder enrollment_evolves.
Proof.
  unfold enrollment_evolves. split; [done|].
  intros a b c (H1 & H2 & H3 & H4 & H5 & H6) (K1 & K2 & K3 & K4 & K5 & K6).
  split_and!; congruence.
Qed.

Definition retrieval_evolves (r r' : EnrollmentRetrieval) : Prop :=
  (er_ID r', er_EnrollmentID r', er_SourceIP r', er_CertificateSerial r', er_RetrievedAt r')
    = (er_ID r, er_EnrollmentID r, er_SourceIP r, er_CertificateSerial r, er_RetrievedAt r).

Definition user_evolves (u u' : User) : Prop := us_ID u' = us_ID u /\ us_Subject u' = us_Subject u.

(** Every row of [m] has a successor in [m']. *)
Definition rows_evolve {A} (rel : A -> A -> Prop) (m m' : gmap string A) : Prop :=
  forall id x, m !! id = Some x -> exists x', m' !! id = Some x' /\ rel x x'.

#[export] Instance rows_evolve_po {A} (rel : A -> A -> Prop) `{!PreOrder rel} :
  PreOrder (rows_evolve rel).
Proof.
  split.
  - intros m id x H. by exists x.
  - intros m1 m2 m3 H1 H2 id x Hx. destruct (H1 id x Hx) as (y & Hy & ?).
    destruct (H2 id y Hy) as (z & Hz & ?). exists z. split; [done|]. by etrans.
Qed.

Lemma rows_evolve_insert {A} (rel : A -> A -> Prop) `{!Reflexive rel} m id x :
  (forall y, m !! id = Some y -> rel y x) -> rows_evolve rel m (<[id := x]> m).
Proof.
  intros H k y Hy. destruct (decide (k = id)) as [->|].
  - exists x. rewrite lookup_insert_eq. auto.
  - exists y. rewrite lookup_insert_ne by done. done.
Qed.

Record evolves (s s' : Sys) : Prop := {
  ev_requests : rows_evolve row_evolves (requests s) (requests s');
  ev_enrollments : rows_evolve enrollment_evolves (enrollments s) (enrollments s');
  ev_retrievals : rows_evolve retrieval_evolves (retrievals s) (retrievals s');
  ev_users : rows_evolve user_evolves (users s) (users s');
  ev_decisions : decisions s ⊆ decisions s';
  ev_certificates : certificates s ⊆ certificates s';
  ev_published : sys_published s `prefix_of` sys_published s';
  ev_issued : sys_issued s ⊆ sys_issued s';
  ev_clock : sys_clock s <= sys_clock s';
}.

#[export] Instance retrieval_evolves_po : PreOrder retrieval_evolves.
Proof. unfold retrieval_evolves. split; [done|]. intros a b c H K. congruence. Qed.

#[export] Instance user_evolves_po : PreOrder user_evolves.
Proof. unfold user_evolves. split; [done|]. intros a b c [] []. split; congruence. Qed.

#[export] Instance evolves_po : PreOrder evolves.
Proof.
  split.
  - intros s. by constructor.
  - intros a b c [] []. constructor; by etrans.
Qed.

(** ** What the items of a state satisfy *)

Section invariant.
Context (srv : Server).

(** The approver's own accounts, as the decision recorded them. *)
Definition held_by_decider (d : Decision) (ps : list string) : Prop :=
  exists other, de_OtherAccounts d = Enc other /\ ps ⊆ de_Username d :: other.

Definition can_vouch_for (d : Decision) (account : string) : Prop :=
  exists other svcs, de_OtherAccounts d = Enc other /\ de_ServiceAccounts d = Enc svcs
    /\ (account ∈ svcs \/ co_AllowUserAccounts (opt_Service (srv_Options srv)) = true
                          /\ account ∈ de_Username d :: other).

(** A grant stays inside the type's configured ceiling. *)
Definition within_type (ty : CertificateType) (g : RequestedOptions) : Prop :=
  exists p, srv_policies srv ty = Some p /\ ro_Extensions g ⊆ tp_extensions p
    /\ (ro_NoTouchRequired g = true -> ty = CertificateTypeService)
    /\ ro_ForceCommand g = "".

Definition status_decision (st : CertificateRequestStatus) (d : option Decision) : Prop :=
  match st with
  | StatusPending | StatusExpired => d = None
  | StatusDenied => exists x, d = Some x /\ de_Outcome x = DecisionDenied
  | StatusSigning | StatusApproved | StatusFailed | StatusEnrolled =>
      exists x, d = Some x /\ de_Outcome x = DecisionApproved
  | StatusOther _ => False
  end.

(** Depends on the current decision of the row, so it is not monotone. *)
Record req_ok (s : Sys) (id : string) (r : CertificateRequest) : Prop := {
  rq_id : cr_ID r = id;
  rq_kind : sys_issued s !! id = Some KRequest;
  rq_owner : forall u, cr_UserID r = Some u -> is_Some (users s !! u);
  rq_decision : status_decision (cr_Status r) (decisions s !! id);
  rq_signing : cr_Status r ∈ [StatusSigning; StatusApproved; StatusFailed] ->
    is_Some (cr_SerialNumber r) /\ cr_Type r <> CertificateTypeService;
  rq_enrolled : cr_Status r = StatusEnrolled ->
    cr_Type r = CertificateTypeService
    /\ exists eid e, enrollments s !! eid = Some e /\ en_Code e = cr_EnrollmentToken r;
}.

(** A decision names its request, which belongs to the person who decided; an approval
    for signing records a non-empty grant inside what that person holds. *)
Record dec_ok (s : Sys) (id : string) (d : Decision) : Prop := {
  dk_id : de_CertificateRequestID d = id;
  dk_row : exists r u usr, requests s !! id = Some r /\ cr_UserID r = Some u
    /\ users s !! u = Some usr /\ us_Subject usr = de_Subject d
    /\ cr_Status r <> StatusPending
    /\ (de_Outcome d = DecisionApproved -> cr_Type r <> CertificateTypeService ->
        exists ps g, de_Principals d = Some (Enc ps) /\ de_GrantedOptions d = Some (Enc g)
          /\ ps <> [] /\ Forall (fun p => ValidatePrincipal p = Ok tt) ps
          /\ held_by_decider d ps /\ within_type (cr_Type r) g
          /\ cr_RequestedOptions r = Enc g);
}.

(** An enrollment comes from an approved service request and mirrors it. *)
Record enr_ok (s : Sys) (id : string) (e : Enrollment) : Prop := {
  ek_id : en_ID e = id;
  ek_row : exists rid r d g secs, en_CertificateRequestID e = Some rid
    /\ requests s !! rid = Some r /\ cr_Status r = StatusEnrolled
    /\ cr_EnrollmentToken r = en_Code e /\ cr_ServiceAccount r = en_ServiceAccount e
    /\ cr_PublicKey r = en_PublicKey e /\ cr_UserID r = Some (en_UserID e)
    /\ decisions s !! rid = Some d /\ de_Outcome d = DecisionApproved
    /\ can_vouch_for d (en_ServiceAccount e)
    /\ en_Principals e = Enc [en_ServiceAccount e]
    /\ ValidatePrincipal (en_ServiceAccount e) = Ok tt
    /\ en_OptionSet e = Enc g /\ cr_RequestedOptions r = Enc g
    /\ within_type CertificateTypeService g
    /\ en_CertificateDurationSeconds e = Some secs
    /\ (forall p, srv_policies srv CertificateTypeService = Some p ->
          secs * Second <= Z.max 0 (tp_validDuration p));
}.

Record ret_ok (s : Sys) (id : string) (x : EnrollmentRetrieval) : Prop := {
  tk_id : er_ID x = id;
  tk_kind : sys_issued s !! id = Some KRetrieval;
  tk_enrollment : is_Some (enrollments s !! er_EnrollmentID x);
}.

(** A signing job is the image of an approval, or of the redemption of a code. *)
Definition job_for_request (s : Sys) (j : SigningJob) : Prop :=
  job_Type j <> CertificateTypeService
  /\ exists r d p, requests s !! job_RequestID j = Some r
    /\ cr_Type r = job_Type j /\ cr_PublicKey r = job_PublicKey j
    /\ cr_SerialNumber r = Some (job_Serial j)
    /\ cr_Status r ∈ [StatusSigning; StatusApproved; StatusFailed]
    /\ decisions s !! job_RequestID j = Some d /\ de_Outcome d = DecisionApproved
    /\ de_Principals d = Some (Enc (job_Principals j))
    /\ de_GrantedOptions d = Some (Enc (job_RequestedOptions j))
    /\ job_ValidAfter j = de_DecidedAt d
    /\ srv_policies srv (job_Type j) = Some p
    /\ job_ValidBefore j - job_ValidAfter j <= tp_validDuration p.

Definition job_for_retrieval (s : Sys) (j : SigningJob) : Prop :=
  job_Type j = CertificateTypeService
  /\ exists x e, retrievals s !! job_RequestID j = Some x
    /\ enrollments s !! er_EnrollmentID x = Some e
    /\ er_CertificateSerial x = job_Serial j /\ er_RetrievedAt x = job_ValidAfter j
    /\ en_PublicKey e = job_PublicKey j /\ en_KeyID e = job_KeyID j
    /\ en_Principals e = Enc (job_Principals j)
    /\ en_OptionSet e = Enc (job_RequestedOptions j)
    /\ (forall secs, en_CertificateDurationSeconds e = Some secs ->
          job_ValidBefore j = job_ValidAfter j + secs * Second).

Definition job_ok (s : Sys) (j : SigningJob) : Prop := job_for_request s j \/ job_for_retrieval s j.

(** A successful reply carries the job's identity fields into the certificate. *)
Definition reply_matches (rep : SignedReply) (j : SigningJob) : Prop :=
  rep_Serial rep = job_Serial j /\ rep_KeyID rep = job_KeyID j
  /\ rep_Principals rep = job_Principals j
  /\ rep_ValidAfter rep = job_ValidAfter j /\ rep_ValidBefore rep = job_ValidBefore j
  /\ rep_CriticalOptions rep = perm_CriticalOptions (permissionsFor (job_RequestedOptions j))
  /\ rep_Extensions rep = grantedExtensions (permissionsFor (job_RequestedOptions j)).

Definition reply_ok (s : Sys) (rep : SignedReply) : Prop :=
  exists j, PubJob j ∈ sys_published s /\ rep_RequestID rep = job_RequestID j
    /\ rep_Type rep = job_Type j /\ (Failed rep = false -> reply_matches rep j).

(** What may be said about a request to whoever waits for it. *)
Definition outcome_class (r : CertificateRequest) (st : CertificateRequestStatus)
  (code account : string) : Prop :=
  match st with
  | StatusApproved | StatusFailed => cr_Status r ∈ [StatusSigning; StatusApproved; StatusFailed]
  | StatusEnrolled => cr_Status r = StatusEnrolled /\ code = cr_EnrollmentToken r
                      /\ account = cr_ServiceAccount r
  | StatusDenied => cr_Status r = StatusDenied
  | StatusExpired => cr_Status r = StatusExpired
  | StatusPending | StatusSigning | StatusOther _ => False
  end.

Record out_ok (s : Sys) (id : string) (st : CertificateRequestStatus)
  (cert code account : string) : Prop := {
  ok_class : match sys_issued s !! id with
             | Some KRequest => exists r, requests s !! id = Some r /\ outcome_class r st code account
             | Some KRetrieval => st = StatusApproved \/ st = StatusFailed
             | _ => False
             end;
  ok_cert : st = StatusApproved -> exists rep, PubReply rep ∈ sys_published s
    /\ rep_RequestID rep = id /\ Failed rep = false /\ rep_Certificate rep = cert;
}.

Definition pub_ok (s : Sys) (m : Published) : Prop :=
  match m with
  | PubJob j => job_ok s j
  | PubReply rep => reply_ok s rep
  | PubWake id w => out_ok s id (om_Status w) (om_Certificate w) (om_Code w) (om_ServiceAccount w)
  end.

Definition cached_ok (s : Sys) (id : string) (o : WaitOutcome) : Prop :=
  out_ok s id (wo_Status o) (wo_Certificate o) (wo_Code o) (wo_ServiceAccount o).

(** An issued certificate is the one a published, successful reply described; its
    owner and request are those of the request or enrollment behind it, or unset
    when they could not be read. *)
Record cert_ok (s : Sys) (n : Z) (c : Certificate) : Prop := {
  ck_serial : ce_SerialNumber c = n;
  ck_reply : exists rep, PubReply rep ∈ sys_published s /\ Failed rep = false
    /\ rep_Serial rep = n /\ rep_Type rep = ce_Type c /\ rep_KeyID rep = ce_KeyID c
    /\ rep_Principals rep = ce_Principals c
    /\ rep_ValidAfter rep = ce_IssuedAt c /\ rep_ValidBefore rep = ce_ExpiresAt c
    /\ Enc (rep_Extensions rep) = ce_Extensions c
    /\ Enc (rep_CriticalOptions rep) = ce_CriticalOptions c
    /\ match ce_CertificateRequestID c with
       | None => True
       | Some rid => exists r, requests s !! rid = Some r
           /\ (forall u, ce_UserID c = Some u -> cr_UserID r = Some u)
           /\ (ce_Type c <> CertificateTypeService -> rid = rep_RequestID rep)
       end;
}.

Record SInv (s : Sys) : Prop := {
  si_req : forall id r, requests s !! id = Some r -> req_ok s id r;
  si_dec : forall id d, decisions s !! id = Some d -> dec_ok s id d;
  si_enr : forall id e, enrollments s !! id = Some e -> enr_ok s id e;
  si_ret : forall id x, retrievals s !! id = Some x -> ret_ok s id x;
  si_cert : forall n c, certificates s !! n = Some c -> cert_ok s n c;
  si_pub : forall m, m ∈ sys_published s -> pub_ok s m;
  si_cache : forall id o, sys_resolved s !! id = Some o -> cached_ok s id o;
  si_user : forall id u, users s !! id = Some u -> us_ID u = id;
}.

Definition legal (s s' : Sys) : Prop := SInv s -> evolves s s' /\ SInv s'.

#[export] Instance legal_po : PreOrder legal.
Proof.
  split; [intros s H; split; done|].
  intros a b c H1 H2 Ha. destruct (H1 Ha) as [? Hb]. destruct (H2 Hb) as [? Hc].
  split; [by etrans|done].
Qed.
End invariant.

(** ** Item predicates are kept by evolution *)

Section monotone.
Context (srv : Server).
Implicit Types (s : Sys).

Lemma evolves_request s s' id r :
  evolves s s' -> requests s !! id = Some r ->
  exists r', requests s' !! id = Some r' /\ row_evolves r r'.
Proof. intros H. apply (ev_requests _ _ H). Qed.

Lemma evolves_decision s s' id d :
  evolves s s' -> decisions s !! id = Some d -> decisions s' !! id = Some d.
Proof. intros H Hd. eapply lookup_weaken; [exact Hd|apply H]. Qed.

Lemma evolves_issued s s' id k :
  evolves s s' -> sys_issued s !! id = Some k -> sys_issued s' !! id = Some k.
Proof. intros H Hd. eapply lookup_weaken; [exact Hd|apply H]. Qed.

Lemma evolves_published s s' m :
  evolves s s' -> m ∈ sys_published s -> m ∈ sys_published s'.
Proof. intros H Hm. destruct (ev_published _ _ H) as [l ->]. set_solver. Qed.

Lemma evolves_user s s' id u :
  evolves s s' -> users s !! id = Some u ->
  exists u', users s' !! id = Some u' /\ us_Subject u' = us_Subject u.
Proof. intros H Hu. destruct (ev_users _ _ H id u Hu) as (u' & ? & _ & ?). eauto. Qed.

Lemma evolves_enrollment s s' id e :
  evolves s s' -> enrollments s !! id = Some e ->
  exists e', enrollments s' !! id = Some e' /\ enrollment_evolves e e'.
Proof. intros H. apply (ev_enrollments _ _ H). Qed.

Lemma evolves_retrieval s s' id x :
  evolves s s' -> retrievals s !! id = Some x ->
  exists x', retrievals s' !! id = Some x' /\ retrieval_evolves x x'.
Proof. intros H. apply (ev_retrievals _ _ H). Qed.

(** Statuses that never change again, and the signing family. *)
Lemma status_le_not_pending a b : status_le a b -> a <> StatusPending -> b <> StatusPending.
Proof. unfold status_le. intros H Ha ->. set_solver. Qed.

Lemma status_le_terminal a b :
  status_le a b -> a ∈ [StatusApproved; StatusFailed; StatusEnrolled; StatusDenied; StatusExpired] ->
  b = a.
Proof. unfold status_le. intros H Ha. set_solver. Qed.

Lemma status_le_signing a b :
  status_le a b -> a ∈ [StatusSigning; StatusApproved; StatusFailed] ->
  b ∈ [StatusSigning; StatusApproved; StatusFailed].
Proof. unfold status_le. intros H Ha. set_solver. Qed.

Lemma row_evolves_type r r' : row_evolves r r' -> cr_Type r' = cr_Type r.
Proof. intros H. unfold cr_Type. by rewrite (re_head _ _ H). Qed.

Lemma row_evolves_key r r' : row_evolves r r' -> cr_PublicKey r' = cr_PublicKey r.
Proof. intros H. unfold cr_PublicKey. by rewrite (re_head _ _ H). Qed.

Lemma row_evolves_created r r' : row_evolves r r' -> cr_CreatedAt r' = cr_CreatedAt r.
Proof. intros H. unfold cr_CreatedAt. by rewrite (re_head _ _ H). Qed.

Lemma row_evolves_id r r' : row_evolves r r' -> cr_ID r' = cr_ID r.
Proof. intros H. unfold cr_ID. by rewrite (re_head _ _ H). Qed.

Lemma row_evolves_terminal r r' st :
  row_evolves r r' -> cr_Status r = st ->
  st ∈ [StatusApproved; StatusFailed; StatusEnrolled; StatusDenied; StatusExpired] -> cr_Status r' = st.
Proof. intros H <-. apply status_le_terminal, H. Qed.

Lemma dec_ok_mono s s' id d : evolves s s' -> dec_ok srv s id d -> dec_ok srv s' id d.
Proof.
  intros Hev [Hid (r & u & usr & Hr & Hu & Husr & Hsub & Hst & Hgr)]. constructor; [done|].
  destruct (evolves_request _ _ _ _ Hev Hr) as (r' & Hr' & Hrr).
  destruct (evolves_user _ _ _ _ Hev Husr) as (usr' & Husr' & Hs').
  exists r', u, usr'. split_and!; [done|by apply Hrr|done|congruence| |].
  - eapply status_le_not_pending; [apply Hrr|done].
  - intros Ho Ht. rewrite (row_evolves_type _ _ Hrr) in *.
    destruct (Hgr Ho Ht) as (ps & g & H1 & H2 & H3 & H4 & H5 & H6 & H7).
    exists ps, g. split_and!; try done. destruct (re_grant _ _ Hrr Hst) as (-> & _). done.
Qed.

Lemma enr_ok_mono s s' id e e' :
  evolves s s' -> enrollment_evolves e e' -> enr_ok srv s id e -> enr_ok srv s' id e'.
Proof.
  intros Hev (E & E2 & E3 & E4 & E5 & E6)
    [Hid (rid & r & d & g & secs & H1 & Hr & Hst & Htok & Hacc & Hkey & Huid & Hd & Hrest)].
  injection E as Ei Ec Ek Ekid Ea. constructor; [congruence|].
  destruct (evolves_request _ _ _ _ Hev Hr) as (r' & Hr' & Hrr).
  assert (cr_Status r <> StatusPending) as Hnp by congruence.
  destruct (re_grant _ _ Hrr Hnp) as (G1 & G2 & G3 & G4).
  exists rid, r', d, g, secs. rewrite ?Ea, ?Ec, ?Ek, ?E2, ?E3, ?E4, ?E5, ?E6.
  destruct Hrest as (K1 & K2 & K3 & K4 & K5 & K6 & K7 & K8 & K9).
  split_and!; try done; try congruence.
  - eapply row_evolves_terminal; [done..|set_solver].
  - by rewrite (row_evolves_key _ _ Hrr).
  - by apply Hrr.
  - by eapply evolves_decision.
Qed.

Lemma ret_ok_mono s s' id x x' :
  evolves s s' -> retrieval_evolves x x' -> ret_ok s id x -> ret_ok s' id x'.
Proof.
  intros Hev E [H1 H2 H3]. injection E as E1 E2 _ _ _. constructor.
  - congruence.
  - by eapply evolves_issued.
  - rewrite E2. destruct H3 as [e He]. destruct (evolves_enrollment _ _ _ _ Hev He) as (e' & ? & _).
    eauto.
Qed.

Lemma job_ok_mono s s' j : evolves s s' -> job_ok srv s j -> job_ok srv s' j.
Proof.
  intros Hev [[Ht (r & d & p & Hr & Hty & Hk & Hsn & Hst & Hd & Hrest)]
             |[Ht (x & e & Hx & He & H1 & H2 & H3 & H4 & H5 & H6 & H7)]].
  - left. split; [done|]. destruct (evolves_request _ _ _ _ Hev Hr) as (r' & Hr' & Hrr).
    exists r', d, p. assert (cr_Status r <> StatusPending) as Hnp by (intros E; rewrite E in Hst; set_solver).
    destruct (re_grant _ _ Hrr Hnp) as (G1 & G2 & G3 & G4). split_and!; try (by apply Hrest); [done|..].
    + by rewrite (row_evolves_type _ _ Hrr).
    + by rewrite (row_evolves_key _ _ Hrr).
    + congruence.
    + by eapply status_le_signing; [apply Hrr|].
    + by eapply evolves_decision.
  - right. split; [done|]. destruct (evolves_retrieval _ _ _ _ Hev Hx) as (x' & Hx' & Ex).
    injection Ex as X1 X2 _ X3 X4.
    destruct (evolves_enrollment _ _ _ _ Hev He) as (e' & He' & (E & E2 & E3 & E4 & E5 & E6)).
    injection E as Ei Ec Ek Ekid Ea.
    exists x', e'. rewrite X2, X3, X4, E2, E3, E6, Ek, Ekid. split_and!; done.
Qed.

Lemma reply_ok_mono s s' rep : evolves s s' -> reply_ok s rep -> reply_ok s' rep.
Proof. intros Hev (j & Hj & ?). exists j. split; [by eapply evolves_published|done]. Qed.

Lemma outcome_class_mono r r' st code account :
  row_evolves r r' -> outcome_class r st code account -> outcome_class r' st code account.
Proof.
  intros Hrr. pose proof (re_status _ _ Hrr) as Hs.
  destruct st; simpl; try done; try (by apply status_le_signing);
    try (intros Hst; eapply row_evolves_terminal; [done..|set_solver]).
  intros (Hst & -> & ->).
  assert (cr_Status r <> StatusPending) as Hnp by congruence.
  destruct (re_grant _ _ Hrr Hnp) as (_ & _ & -> & ->). split_and!; try done.
  eapply row_evolves_terminal; [done..|set_solver].
Qed.

Lemma out_ok_mono s s' id st cert code account :
  evolves s s' -> out_ok s id st cert code account -> out_ok s' id st cert code account.
Proof.
  intros Hev [Hc Hcert]. constructor.
  - destruct (sys_issued s !! id) as [k|] eqn:Hk; [|done].
    rewrite (evolves_issued _ _ _ _ Hev Hk). destruct k; try done.
    destruct Hc as (r & Hr & Ho). destruct (evolves_request _ _ _ _ Hev Hr) as (r' & Hr' & Hrr).
    exists r'. split; [done|]. by eapply outcome_class_mono.
  - intros Hst. destruct (Hcert Hst) as (rep & Hrep & ?). exists rep.
    split; [by eapply evolves_published|done].
Qed.

Lemma pub_ok_mono s s' m : evolves s s' -> pub_ok srv s m -> pub_ok srv s' m.
Proof. destruct m; simpl; eauto using job_ok_mono, reply_ok_mono, out_ok_mono. Qed.

Lemma cert_ok_mono s s' n c : evolves s s' -> cert_ok s n c -> cert_ok s' n c.
Proof.
  intros Hev [H1 (rep & Hrep & H2 & H3 & H4 & H5 & H6 & H7 & H8 & H9 & H10 & H11)].
  constructor; [done|]. exists rep. split_and!; try done; [by eapply evolves_published|].
  destruct (ce_CertificateRequestID c) as [rid|]; [|done].
  destruct H11 as (r & Hr & Ho & Hrid). destruct (evolves_request _ _ _ _ Hev Hr) as (r' & Hr' & Hrr).
  exists r'. split_and!; [done| |done]. intros u Hu. by apply Hrr, Ho.
Qed.

(** A row keeps [req_ok] when neither it nor its decision changed. *)
Lemma req_ok_frame s s' id r :
  evolves s s' -> decisions s' !! id = decisions s !! id -> req_ok s id r -> req_ok s' id r.
Proof.
  intros Hev Hd [H1 H2 H3 H4 H5 H6]. constructor; [done|by eapply evolves_issued| |by rewrite Hd|done|].
  - intros u Hu. destruct (H3 u Hu) as [usr Husr].
    destruct (evolves_user _ _ _ _ Hev Husr) as (? & ? & _). eauto.
  - intros Hst. destruct (H6 Hst) as [Ht (eid & e & He & Hc)]. split; [done|].
    destruct (evolves_enrollment _ _ _ _ Hev He) as (e' & He' & (E & _)).
    injection E as _ Ec _ _ _. exists eid, e'. split; [done|congruence].
Qed.

(** Everything old is kept by evolution; what remains is what a step added. *)
Lemma SInv_step s s' :
  SInv srv s -> evolves s s' ->
  (forall id r, requests s' !! id = Some r ->
     requests s !! id = Some r /\ decisions s' !! id = decisions s !! id \/ req_ok s' id r) ->
  (forall id d, decisions s' !! id = Some d -> decisions s !! id = Some d \/ dec_ok srv s' id d) ->
  (forall id e, enrollments s' !! id = Some e ->
     (exists e0, enrollments s !! id = Some e0 /\ enrollment_evolves e0 e) \/ enr_ok srv s' id e) ->
  (forall id x, retrievals s' !! id = Some x ->
     (exists x0, retrievals s !! id = Some x0 /\ retrieval_evolves x0 x) \/ ret_ok s' id x) ->
  (forall n c, certificates s' !! n = Some c -> certificates s !! n = Some c \/ cert_ok s' n c) ->
  (forall m, m ∈ sys_published s' -> m ∈ sys_published s \/ pub_ok srv s' m) ->
  (forall id o, sys_resolved s' !! id = Some o -> sys_resolved s !! id = Some o \/ cached_ok s' id o) ->
  (forall id u, users s' !! id = Some u -> us_ID u = id) ->
  evolves s s' /\ SInv srv s'.
Proof.
  intros [I1 I2 I3 I4 I5 I6 I7 I8] Hev Hreq Hdec Henr Hret Hcert Hpub Hcache Huser.
  split; [done|]. constructor; [| | | | | | |done].
  - intros id r Hr. destruct (Hreq id r Hr) as [[Hr0 Hd]|]; [|done]. eapply req_ok_frame; eauto.
  - intros id d Hd. destruct (Hdec id d Hd); [|done]. eapply dec_ok_mono; eauto.
  - intros id e He. destruct (Henr id e He) as [(e0 & He0 & Hee)|]; [|done]. eapply enr_ok_mono; eauto.
  - intros id x Hx. destruct (Hret id x Hx) as [(x0 & Hx0 & Hxx)|]; [|done]. eapply ret_ok_mono; eauto.
  - intros n c Hc. destruct (Hcert n c Hc); [|done]. eapply cert_ok_mono; eauto.
  - intros m Hm. destruct (Hpub m Hm); [|done]. eapply pub_ok_mono; eauto.
  - intros id o Ho. destruct (Hcache id o Ho); [|done]. eapply out_ok_mono; eauto. by apply I7.
Qed.
End monotone.
