(* ===== verification/Legal.v ===== *)
(** * Proof rules: legal steps and the effects under interference

    The state changes of the handlers as [legal] steps, and one rule per effect for
    the weakest precondition in which every other step is legal too. *)

From S2P Require Import Prelude Netip Model UserCode Accounts Condition Lifetime CertPolicy World AuditLog CertRequest Signer Invariant.

(** Projections of an updated state. *)
Ltac proj :=
  unfold requests, decisions, enrollments, retrievals, certificates, users in *; simpl in *.

Ltac evolve := constructor; proj; try reflexivity; try lia; try done.

(** A step that satisfies [SInv_step] for what it leaves alone. *)
Ltac by_frame :=
  let H := fresh in
  first
    [ intros ? ? H; left; split; [exact H|reflexivity]
    | intros ? ? H; left; eexists; split; [exact H|reflexivity]
    | intros ? ? H; left; exact H
    | intros ? H; left; exact H
    | intros ? ? H; match goal with HI : SInv _ ?s |- _ => exact (si_user _ s HI _ _ H) end ].

Section legal.
Context (srv : Server).
Implicit Types (s : Sys).
Notation legal := (legal srv).
Notation SInv := (SInv srv).

(** ** Steps that touch no table the invariant reads *)

Lemma legal_clock s t : sys_clock s <= t -> legal s (set_clock s t).
Proof. intros Ht HI. apply SInv_step; [done|evolve|by_frame..]. Qed.

Lemma legal_issue s u k : sys_issued s !! u = None -> legal s (set_issued s (<[u := k]> (sys_issued s))).
Proof.
  intros Hu HI. apply SInv_step; [done|evolve|by_frame..]. by apply insert_subseteq.
Qed.

Lemma legal_notices s l : legal s (set_notices s l).
Proof. intros HI. apply SInv_step; [done|evolve|by_frame..]. Qed.

Lemma legal_shipped s l : legal s (set_shipped s l).
Proof. intros HI. apply SInv_step; [done|evolve|by_frame..]. Qed.

Lemma legal_audit s l t : sys_clock s <= t -> legal s (set_clock (set_db s (set_audit (sys_db s) l)) t).
Proof. intros Ht HI. apply SInv_step; [done|evolve|by_frame..]. Qed.

(** A committed statement that changed nothing but the clock. *)
Lemma legal_same_db s t : sys_clock s <= t -> legal s (set_clock (set_db s (sys_db s)) t).
Proof. intros Ht HI. apply SInv_step; [done|evolve|by_frame..]. Qed.

(** ** The cache and the message log *)

Lemma legal_cache_set s id o :
  (SInv s -> cached_ok s id o) -> legal s (set_resolved s (<[id := o]> (sys_resolved s))).
Proof.
  intros Ho HI. assert (evolves s (set_resolved s (<[id := o]> (sys_resolved s)))) as Hev by evolve.
  apply SInv_step; [done|done|by_frame..| |by_frame].
  intros id' o'. simpl. destruct (decide (id' = id)) as [->|].
  - rewrite lookup_insert_eq. intros [= <-]. right. eapply out_ok_mono; [exact Hev|by apply Ho].
  - rewrite lookup_insert_ne by done. by left.
Qed.

Lemma legal_cache_evict s (P : string * WaitOutcome -> Prop) `{!forall kv, base.Decision (P kv)} :
  legal s (set_resolved s (filter P (sys_resolved s))).
Proof.
  intros HI. apply SInv_step; [done|evolve|by_frame..| |by_frame].
  intros id o Ho. simpl in Ho. apply map_lookup_filter_Some in Ho as [? _]. by left.
Qed.

Lemma legal_publish s m :
  (SInv s -> pub_ok srv s m) -> legal s (set_published s (sys_published s ++ [m])).
Proof.
  intros Hm HI.
  assert (evolves s (set_published s (sys_published s ++ [m]))) as Hev.
  { evolve. by apply prefix_app_r. }
  apply SInv_step; [done|done|by_frame..| |by_frame|by_frame].
  intros m' [?| ->%list_elem_of_singleton]%elem_of_app; [by left|right].
  eapply pub_ok_mono; [exact Hev|by apply Hm].
Qed.

(** ** Request rows *)

Lemma legal_create_request s r t :
  sys_clock s <= t -> requests s !! cr_ID r = None -> sys_issued s !! cr_ID r = Some KRequest ->
  cr_UserID r = None -> cr_Status r = StatusPending ->
  legal s (set_clock (set_db s (set_requests (sys_db s) (<[cr_ID r := r]> (requests s)))) t).
Proof.
  intros Ht Hnone Hk Hu Hst HI.
  assert (decisions s !! cr_ID r = None) as Hd.
  { destruct (decisions s !! cr_ID r) as [d|] eqn:E; [|done].
    destruct (dk_row _ _ _ _ (si_dec _ _ HI _ _ E)) as (? & ? & ? & ? & _). congruence. }
  apply SInv_step; [done| |try by_frame..].
  - evolve. apply rows_evolve_insert; [apply _|]. intros y Hy. unfold requests in Hnone. congruence.
  - intros id r'. proj. destruct (decide (id = cr_ID r)) as [->|].
    + rewrite lookup_insert_eq. intros [= <-]. right. constructor; proj; try done.
      * intros u. rewrite Hu. done.
      * rewrite Hst. done.
      * rewrite Hst. set_solver.
      * rewrite Hst. done.
    + rewrite lookup_insert_ne by done. by left.
Qed.

(** The new version of one row; its decision is unchanged. *)
Lemma legal_update_request s id r r' t :
  sys_clock s <= t -> requests s !! id = Some r -> row_evolves r r' ->
  (forall u, cr_UserID r' = Some u -> is_Some (users s !! u)) ->
  status_decision (cr_Status r') (decisions s !! id) ->
  (cr_Status r' ∈ [StatusSigning; StatusApproved; StatusFailed] ->
     cr_Status r ∈ [StatusSigning; StatusApproved; StatusFailed]) ->
  (cr_Status r' = StatusEnrolled -> cr_Status r = StatusEnrolled) ->
  legal s (set_clock (set_db s (set_requests (sys_db s) (<[id := r']> (requests s)))) t).
Proof.
  intros Ht Hr Hrr Hu Hsd Hsg Hen HI.
  assert (evolves s (set_clock (set_db s (set_requests (sys_db s) (<[id := r']> (requests s)))) t)) as Hev.
  { evolve. apply rows_evolve_insert; [apply _|]. intros y Hy. unfold requests in Hr. congruence. }
  apply SInv_step; [done|done| |by_frame..].
  intros id' x. proj. destruct (decide (id' = id)) as [->|].
  - rewrite lookup_insert_eq. intros [= <-]. right.
    destruct (si_req _ _ HI _ _ Hr) as [K1 K2 K3 K4 K5 K6]. constructor; proj; try done.
    + by rewrite (row_evolves_id _ _ Hrr).
    + intros Hst. destruct (K5 (Hsg Hst)) as [Hs ?].
      destruct (re_grant _ _ Hrr) as (_ & -> & _).
      { intros E. specialize (Hsg Hst). rewrite E in Hsg. set_solver. }
      by rewrite (row_evolves_type _ _ Hrr).
    + intros Hst. specialize (Hen Hst). destruct (K6 Hen) as [? (eid & e & ? & ?)].
      destruct (re_grant _ _ Hrr) as (_ & _ & -> & _); [by rewrite Hen|].
      rewrite (row_evolves_type _ _ Hrr). eauto.
  - rewrite lookup_insert_ne by done. by left.
Qed.

(** A pending row is decided: the row and its decision change together. *)
Lemma legal_decide s id r r' d t l :
  sys_clock s <= t -> requests s !! id = Some r -> cr_Status r = StatusPending -> row_evolves r r' ->
  decisions s !! id = None -> cr_UserID r' = cr_UserID r ->
  let s' := set_clock (set_db s (set_audit (set_decisions (set_requests (sys_db s)
              (<[id := r']> (requests s))) (<[id := d]> (decisions s))) l)) t in
  (SInv s -> evolves s s' -> dec_ok srv s' id d) ->
  status_decision (cr_Status r') (Some d) ->
  (cr_Status r' ∈ [StatusSigning; StatusApproved; StatusFailed] ->
     is_Some (cr_SerialNumber r') /\ cr_Type r' <> CertificateTypeService) ->
  cr_Status r' <> StatusEnrolled ->
  legal s s'.
Proof.
  intros Ht Hr Hp Hrr Hd Hu s' Hdec Hsd Hsg Hne HI.
  assert (evolves s s') as Hev.
  { evolve.
    - apply rows_evolve_insert; [apply _|]. intros y Hy. unfold requests in Hr. congruence.
    - by apply insert_subseteq. }
  apply SInv_step; [done|done| | |by_frame..].
  - intros id' x. subst s'. proj. destruct (decide (id' = id)) as [->|].
    + rewrite lookup_insert_eq. intros [= <-]. right.
      destruct (si_req _ _ HI _ _ Hr) as [K1 K2 K3 K4 K5 K6]. constructor; proj; try done.
      * by rewrite (row_evolves_id _ _ Hrr).
      * rewrite Hu. done.
      * by rewrite lookup_insert_eq.
    + rewrite !lookup_insert_ne by done. by left.
  - intros id' x. destruct (decide (id' = id)) as [->|].
    + subst s'. proj. rewrite lookup_insert_eq. intros [= <-]. right. by apply Hdec.
    + subst s'. proj. rewrite lookup_insert_ne by done. by left.
Qed.

(** ** Other tables *)

Lemma legal_update_enrollment s id e e' t :
  sys_clock s <= t -> enrollments s !! id = Some e -> enrollment_evolves e e' ->
  legal s (set_clock (set_db s (set_enrollments (sys_db s) (<[id := e']> (enrollments s)))) t).
Proof.
  intros Ht He Hee HI. apply SInv_step; [done| |try by_frame..].
  - evolve. apply rows_evolve_insert; [apply _|]. intros y Hy. unfold enrollments in He. congruence.
  - intros id' x. proj. destruct (decide (id' = id)) as [->|].
    + rewrite lookup_insert_eq. intros [= <-]. left. eauto.
    + rewrite lookup_insert_ne by done. left. by eexists.
Qed.

Lemma legal_put_retrieval s id x t :
  sys_clock s <= t -> (forall y, retrievals s !! id = Some y -> retrieval_evolves y x) ->
  er_ID x = id -> sys_issued s !! id = Some KRetrieval -> is_Some (enrollments s !! er_EnrollmentID x) ->
  legal s (set_clock (set_db s (set_retrievals (sys_db s) (<[id := x]> (retrievals s)))) t).
Proof.
  intros Ht Hx Hid Hk He HI. apply SInv_step; [done| |try by_frame..].
  - evolve. by apply rows_evolve_insert; [apply _|].
  - intros id' y. proj. destruct (decide (id' = id)) as [->|].
    + rewrite lookup_insert_eq. intros [= <-]. right. by constructor.
    + rewrite lookup_insert_ne by done. left. by eexists.
Qed.

Lemma legal_create_certificate s c t :
  sys_clock s <= t -> certificates s !! ce_SerialNumber c = None ->
  (SInv s -> cert_ok s (ce_SerialNumber c) c) ->
  legal s (set_clock (set_db s (set_certificates (sys_db s)
            (<[ce_SerialNumber c := c]> (certificates s)))) t).
Proof.
  intros Ht Hn Hc HI.
  assert (evolves s (set_clock (set_db s (set_certificates (sys_db s)
            (<[ce_SerialNumber c := c]> (certificates s)))) t)) as Hev.
  { evolve. by apply insert_subseteq. }
  apply SInv_step; [done|done|try by_frame..].
  intros n x. destruct (decide (n = ce_SerialNumber c)) as [->|].
  - proj. rewrite lookup_insert_eq. intros [= <-]. right. eapply cert_ok_mono; [exact Hev|by apply Hc].
  - proj. rewrite lookup_insert_ne by done. by left.
Qed.

Lemma legal_put_user s id u t :
  sys_clock s <= t -> us_ID u = id -> (forall y, users s !! id = Some y -> user_evolves y u) ->
  legal s (set_clock (set_db s (set_users (sys_db s) (<[id := u]> (users s)))) t).
Proof.
  intros Ht Hid Hu HI. apply SInv_step; [done| |try by_frame..].
  - evolve. by apply rows_evolve_insert; [apply _|].
  - intros id' y. proj. destruct (decide (id' = id)) as [->|].
    + rewrite lookup_insert_eq. intros [= <-]. done.
    + rewrite lookup_insert_ne by done. apply (si_user _ _ HI).
Qed.

(** A pending service request is enrolled: row, enrollment and decision together. *)
Lemma legal_enroll s id r r' d e t l :
  sys_clock s <= t -> requests s !! id = Some r -> cr_Status r = StatusPending -> row_evolves r r' ->
  decisions s !! id = None -> enrollments s !! en_ID e = None ->
  cr_UserID r' = cr_UserID r -> cr_Status r' = StatusEnrolled ->
  cr_Type r' = CertificateTypeService -> en_Code e = cr_EnrollmentToken r' ->
  de_Outcome d = DecisionApproved ->
  let s' := set_clock (set_db s (set_audit (set_decisions (set_enrollments (set_requests (sys_db s)
              (<[id := r']> (requests s))) (<[en_ID e := e]> (enrollments s)))
              (<[id := d]> (decisions s))) l)) t in
  (SInv s -> evolves s s' -> dec_ok srv s' id d) ->
  (SInv s -> evolves s s' -> enr_ok srv s' (en_ID e) e) ->
  legal s s'.
Proof.
  intros Ht Hr Hp Hrr Hd Hen Hu Hst Hty Htok Ho s' Hdec Henr HI.
  assert (evolves s s') as Hev.
  { evolve.
    - apply rows_evolve_insert; [apply _|]. intros y Hy. unfold requests in Hr. congruence.
    - apply rows_evolve_insert; [apply _|]. intros y Hy. unfold enrollments in Hen. congruence.
    - by apply insert_subseteq. }
  apply SInv_step; [done|done| | | |by_frame..].
  - intros id' x. subst s'. proj. destruct (decide (id' = id)) as [->|].
    + rewrite lookup_insert_eq. intros [= <-]. right.
      destruct (si_req _ _ HI _ _ Hr) as [K1 K2 K3 K4 K5 K6]. constructor; proj; try done.
      * by rewrite (row_evolves_id _ _ Hrr).
      * rewrite Hu. done.
      * rewrite lookup_insert_eq, Hst. simpl. eauto.
      * rewrite Hst. set_solver.
      * intros _. split; [done|]. exists (en_ID e), e. by rewrite lookup_insert_eq.
    + rewrite !lookup_insert_ne by done. by left.
  - intros id' x. destruct (decide (id' = id)) as [->|].
    + subst s'. proj. rewrite lookup_insert_eq. intros [= <-]. right. by apply Hdec.
    + subst s'. proj. rewrite lookup_insert_ne by done. by left.
  - intros id' x. destruct (decide (id' = en_ID e)) as [->|].
    + subst s'. proj. rewrite lookup_insert_eq. intros [= <-]. right. by apply Henr.
    + subst s'. proj. rewrite lookup_insert_ne by done. left. by eexists.
Qed.
End legal.

(** ** Effects under legal interference *)

(** Every step of [p] is legal whatever legal steps others take in between. *)
Definition safe (srv : Server) {A} (p : prog A) (Q : A -> Sys -> Prop) (s : Sys) : Prop :=
  wp (legal srv) (legal srv) p Q s.

Section effects.
Context (srv : Server).
Implicit Types (s : Sys).
Notation SInv := (SInv srv).
Notation safe := (safe srv).

Lemma safe_ret {A} (a : A) (Q : A -> Sys -> Prop) s : Q a s -> safe (Ret a) Q s.
Proof. done. Qed.

Lemma safe_bind {A B} (p : prog A) (f : A -> prog B) Q s :
  safe p (fun a => safe (f a) Q) s -> safe (bind p f) Q s.
Proof. apply wp_bind. Qed.

Lemma safe_bind_ok {A B} (p : prog (res A)) (f : A -> prog (res B)) Q s :
  safe p (fun r s' => match r with Ok a => safe (f a) Q s' | Err e => Q (Err e) s' end) s ->
  safe (bind_ok p f) Q s.
Proof. apply wp_bind_ok. Qed.

Lemma safe_mono {A} (p : prog A) (Q Q' : A -> Sys -> Prop) s :
  safe p Q s -> (forall a s', Q a s' -> Q' a s') -> safe p Q' s.
Proof. intros H HQ. by eapply wp_mono. Qed.

(** The state after the step, and the step's own legality. *)
Lemma safe_perform {X} (e : eff X) (Q : X -> Sys -> Prop) s :
  SInv s ->
  (forall s1 c, evolves s s1 -> SInv s1 ->
     let '(x, s2) := exec_eff c s1 e in
     legal srv s1 s2 /\ (evolves s s2 -> SInv s2 -> Q x s2)) ->
  safe (perform e) Q s.
Proof.
  intros HI H s1 HR c. destruct (HR HI) as [Hev HI1]. specialize (H s1 c Hev HI1).
  destruct (exec_eff c s1 e) as [x s2]. destruct H as [HG HQ]. split; [done|].
  destruct (HG HI1) as [Hev2 HI2]. simpl. apply HQ; [by etrans|done].
Qed.

Lemma safe_now (Q : GoTime -> Sys -> Prop) s :
  SInv s ->
  (forall s2, evolves s s2 -> SInv s2 -> Q (sys_clock s2) s2) -> safe (perform Now) Q s.
Proof.
  intros HI H. apply safe_perform; [done|]. intros s1 c Hev HI1. simpl.
  split; [apply legal_clock; lia|]. intros Hev2 HI2. by apply (H (set_clock s1 _)).
Qed.

Lemma safe_uuid k (Q : string -> Sys -> Prop) s :
  SInv s ->
  (forall s2 u, evolves s s2 -> SInv s2 -> sys_issued s2 !! u = Some k -> Q u s2) ->
  safe (perform (NewUUID k)) Q s.
Proof.
  intros HI H. apply safe_perform; [done|]. intros s1 c Hev HI1. simpl.
  set (u := match sys_issued s1 !! ch_uuid c with Some _ => _ | None => _ end).
  assert (sys_issued s1 !! u = None) as Hu.
  { subst u. destruct (sys_issued s1 !! ch_uuid c) eqn:E; [|done].
    apply not_elem_of_dom. apply is_fresh. }
  split; [by apply legal_issue|]. intros Hev2 HI2. apply H; [done|done|]. simpl.
  apply lookup_insert_eq.
Qed.

Lemma safe_rand n (Q : res (list Z) -> Sys -> Prop) s :
  SInv s ->
  (forall s2 r, evolves s s2 -> SInv s2 -> Q r s2) ->
  safe (perform (RandRead n)) Q s.
Proof.
  intros HI H. apply safe_perform; [done|]. intros s1 c Hev HI1. simpl. split; [done|]. auto.
Qed.

Lemma safe_query {A} (q : DB -> A) (Q : res A -> Sys -> Prop) s :
  SInv s ->
  (forall s2, evolves s s2 -> SInv s2 -> Q (Err DBError) s2 /\ Q (Ok (q (sys_db s2))) s2) ->
  safe (perform (Query q)) Q s.
Proof.
  intros HI H. apply safe_perform; [done|]. intros s1 c Hev HI1. simpl. split; [done|].
  intros Hev2 HI2. destruct (H s1 Hev2 HI2). by destruct (ch_fault c).
Qed.

Lemma safe_exec {A} (stmt : GoTime -> GoTime -> tx A) (Q : res A -> Sys -> Prop) s :
  SInv s ->
  (forall s1 t1 t2, evolves s s1 -> SInv s1 -> sys_clock s1 <= t1 -> t1 <= t2 ->
     match stmt t1 t2 (sys_db s1) with
     | (Ok a, d') => let s2 := set_clock (set_db s1 d') t2 in
         legal srv s1 s2 /\ (evolves s s2 -> SInv s2 -> Q (Ok a) s2)
     | (Err _, _) => True
     end) ->
  (forall s2 e, evolves s s2 -> SInv s2 -> Q (Err e) s2) ->
  safe (perform (Exec stmt)) Q s.
Proof.
  intros HI H He. apply safe_perform; [done|]. intros s1 c Hev HI1. simpl.
  destruct (ch_fault c); [split; [done|auto]|].
  set (t1 := Z.max _ _). set (t2 := t1 + _).
  specialize (H s1 t1 t2 Hev HI1 ltac:(lia) ltac:(lia)).
  destruct (stmt t1 t2 (sys_db s1)) as [[a|e] d']; [done|].
  split; [apply legal_clock; lia|auto].
Qed.

Lemma safe_cache_get id (Q : option WaitOutcome -> Sys -> Prop) s :
  SInv s ->
  (forall s2, evolves s s2 -> SInv s2 -> Q (sys_resolved s2 !! id) s2) ->
  safe (perform (CacheGet id)) Q s.
Proof. intros HI H. apply safe_perform; [done|]. intros s1 c Hev HI1. simpl. split; [done|]. auto. Qed.

Lemma safe_cache_set id o (Q : unit -> Sys -> Prop) s :
  SInv s -> (forall s1, evolves s s1 -> SInv s1 -> cached_ok s1 id o) ->
  (forall s2, evolves s s2 -> SInv s2 -> Q tt s2) ->
  safe (perform (CacheSet id o)) Q s.
Proof.
  intros HI Ho H. apply safe_perform; [done|]. intros s1 c Hev HI1. simpl.
  split; [apply legal_cache_set|]; auto.
Qed.

Lemma safe_cache_evict cutoff (Q : unit -> Sys -> Prop) s :
  SInv s -> (forall s2, evolves s s2 -> SInv s2 -> Q tt s2) ->
  safe (perform (CacheEvict cutoff)) Q s.
Proof.
  intros HI H. apply safe_perform; [done|]. intros s1 c Hev HI1. simpl.
  split; [apply legal_cache_evict|]; auto.
Qed.

Lemma safe_publish m (Q : res unit -> Sys -> Prop) s :
  SInv s -> (forall s1, evolves s s1 -> SInv s1 -> pub_ok srv s1 m) ->
  (forall s2 r, evolves s s2 -> SInv s2 -> (r = Ok tt -> m ∈ sys_published s2) -> Q r s2) ->
  safe (perform (Publish m)) Q s.
Proof.
  intros HI Hm H. apply safe_perform; [done|]. intros s1 c Hev HI1. simpl.
  destruct (ch_fault c); [split; [done|]; intros; by apply H|].
  split; [apply legal_publish; auto|]. intros. apply H; [done|done|]. intros _. simpl. set_solver.
Qed.

Lemma safe_notify n (Q : unit -> Sys -> Prop) s :
  SInv s -> (forall s2, evolves s s2 -> SInv s2 -> Q tt s2) -> safe (perform (Notify n)) Q s.
Proof.
  intros HI H. apply safe_perform; [done|]. intros s1 c Hev HI1. simpl.
  split; [apply legal_notices|]; auto.
Qed.

Lemma safe_ship ev (Q : unit -> Sys -> Prop) s :
  SInv s -> (forall s2, evolves s s2 -> SInv s2 -> Q tt s2) -> safe (perform (Ship ev)) Q s.
Proof.
  intros HI H. apply safe_perform; [done|]. intros s1 c Hev HI1. simpl.
  split; [apply legal_shipped|]; auto.
Qed.

Lemma safe_subscribe id (Q : res unit -> Sys -> Prop) s :
  SInv s -> (forall s2 r, evolves s s2 -> SInv s2 -> Q r s2) -> safe (perform (Subscribe id)) Q s.
Proof. intros HI H. apply safe_perform; [done|]. intros s1 c Hev HI1. simpl. split; [done|]. auto. Qed.

(** A delivered message was published on the topic. *)
Lemma safe_receive id timer (Q : received -> Sys -> Prop) s :
  SInv s ->
  (forall s2 x, evolves s s2 -> SInv s2 ->
     (forall m, x = GotMessage (Enc m) -> PubWake id m ∈ sys_published s2) -> Q x s2) ->
  safe (perform (Receive id timer)) Q s.
Proof.
  intros HI H. apply safe_perform; [done|]. intros s1 c Hev HI1. simpl.
  split; [apply legal_clock; lia|]. intros Hev2 HI2. apply H; [done|done|]. simpl.
  intros m. destruct (ch_arrival c) as [n| | | |]; [|done|done|done|by destruct timer].
  destruct (wakes_for id (sys_published s1) !! n) as [m'|] eqn:E; [|done]. intros [= <-].
  apply list_elem_of_lookup_2, list_elem_of_omap in E as (p & Hp & E).
  destruct p as [| |id' w]; try done. by destruct (decide (id' = id)) as [->|]; simplify_eq.
Qed.

Lemma safe_sleep d (Q : bool -> Sys -> Prop) s :
  SInv s -> (forall s2 b, evolves s s2 -> SInv s2 -> Q b s2) -> safe (perform (Sleep d)) Q s.
Proof.
  intros HI H. apply safe_perform; [done|]. intros s1 c Hev HI1. simpl.
  destruct (ch_cancelled c); (split; [apply legal_clock; lia|auto]).
Qed.
End effects.

#[global] Arguments safe : simpl never.
#[global] Arguments bind : simpl never.
#[global] Arguments bind_ok : simpl never.
#[global] Arguments perform : simpl never.
