(* ===== verification/CertSafe.v ===== *)
(** * The certificate-request operations are legal under every interleaving

    For each operation of the request service: every step it takes preserves the
    invariant and evolves the state, whatever legal steps other handlers take between
    its own, and what its answer guarantees in the state it returns in. *)

From S2P Require Import Prelude Netip Model UserCode Accounts Condition Lifetime CertPolicy Sha256 World AuditLog CertRequest CertWait Signer Invariant Legal.
Local Open Scope prog_scope.

(** ** Facts that survive interference *)

(** The row behind a request value read earlier. *)
Definition seen (s : Sys) (r : CertificateRequest) : Prop :=
  exists row, requests s !! cr_ID r = Some row /\ row_evolves r row.

Lemma seen_mono s s' r : evolves s s' -> seen s r -> seen s' r.
Proof.
  intros Hev (row & Hr & Hrr). destruct (evolves_request _ _ _ _ Hev Hr) as (row' & ? & ?).
  exists row'. split; [done|]. by etrans.
Qed.

(** The user row behind an identity. *)
Definition known_user (s : Sys) (u : User) (i : Identity) : Prop :=
  exists row, users s !! us_ID u = Some row /\ us_Subject row = id_Subject i.

Lemma known_user_mono s s' u i : evolves s s' -> known_user s u i -> known_user s' u i.
Proof.
  intros Hev (row & Hr & Hs). destruct (evolves_user _ _ _ _ Hev Hr) as (row' & ? & ?).
  exists row'. split; [done|congruence].
Qed.

Lemma find_row_Some {A} (m : gmap string A) P x :
  find_row m P = Some x -> exists id, m !! id = Some x /\ P x = true.
Proof.
  unfold find_row. intros ([id y] & Hf & ->)%fmap_Some. simpl.
  apply List.find_some in Hf as [Hin HP]. apply list_elem_of_In, elem_of_map_to_list in Hin. eauto.
Qed.

#[export] Hint Resolve seen_mono known_user_mono out_ok_mono : ssoossh.

(** Compose two evolutions. *)
Ltac chain :=
  match goal with
  | H1 : evolves ?a ?b, H2 : evolves ?b ?c |- evolves ?a ?c => exact (transitivity H1 H2)
  end.

(** Case split on the answer of a committed statement; an error leaves nothing to show. *)
Tactic Notation "run_tx" ident(a) ident(d) ident(E) :=
  cbv beta zeta;
  match goal with
  | |- match ?m with _ => _ end => destruct m as [[a|?] d] eqn:E; [|exact I]
  end.

Section quiet.
Context (srv : Server).
Notation SInv := (SInv srv).
Notation safe := (safe srv).

(** Auditing changes nothing the invariant reads. *)
Lemma safe_prepare ev Q s :
  SInv s -> (forall r s2, evolves s s2 -> SInv s2 -> Q r s2) -> safe (prepare ev) Q s.
Proof.
  intros HI HQ. unfold prepare. apply safe_bind.
  assert (forall (t : GoTime) s2, evolves s s2 -> SInv s2 ->
    safe (match validate_reason (ae_Action ev) (ae_Reason ev) with
          | Err e => Fail e
          | Ok reason =>
              let event := MkAudit (ae_Action ev) (ae_Actor ev) (ae_System ev) (ae_Target ev)
                             reason (ae_Detail ev) t in
              let* id := perform (NewUUID KRow) in
              Return (MkAuditRow id t (subjectUserID (ae_Actor event)) (subjectUserID (ae_Target event))
                        (auditSourceIP (ae_Detail event)) event, event)
          end) Q s2) as Hk.
  { intros t s2 Hev HI2. destruct (validate_reason _ _); [|by apply safe_ret, HQ].
    simpl. apply safe_bind, safe_uuid; [done|]. intros s3 u Hev3 HI3 _. apply safe_ret, HQ; [chain|done]. }
  destruct (IsZeroTime _).
  - apply safe_now; [done|]. intros s2 Hev HI2. by apply Hk.
  - apply safe_ret. by apply Hk.
Qed.

Lemma safe_LogOnly ev Q s :
  SInv s -> (forall s2, evolves s s2 -> SInv s2 -> Q tt s2) -> safe (LogOnly ev) Q s.
Proof.
  intros HI HQ. unfold LogOnly. apply safe_bind, safe_prepare; [done|]. intros r s2 Hev HI2.
  destruct r as [[row prepared]|e]; [|by apply safe_ret, HQ].
  apply safe_ship; [done|]. intros s3 Hev3 HI3. apply HQ; [chain|done].
Qed.

Lemma safe_Record ev Q s :
  SInv s -> (forall s2, evolves s s2 -> SInv s2 -> Q tt s2) -> safe (Record_ ev) Q s.
Proof.
  intros HI HQ. unfold Record_. apply safe_bind, safe_prepare; [done|]. intros r s2 Hev HI2.
  destruct r as [[row prepared]|e]; [|by apply safe_ret, HQ].
  apply safe_bind, safe_ship; [done|]. intros s3 Hev3 HI3.
  destruct (tableSkipped _); [apply safe_ret, HQ; [chain|done]|].
  assert (evolves s s3) as E3 by chain.
  apply safe_bind, safe_exec; [done| |].
  - intros s4 t1 t2 Hev4 HI4 Ht1 Ht2. simpl. split; [apply legal_audit; lia|].
    intros Hev5 HI5. apply safe_ret, HQ; [by etrans|done].
  - intros s4 e Hev4 HI4. apply safe_ret, HQ; [chain|done].
Qed.

(** Waking a waiter is legal when what it says is. *)
Lemma safe_notifyWaiter id o Q s :
  SInv s -> out_ok s id (wo_Status o) (wo_Certificate o) (wo_Code o) (wo_ServiceAccount o) ->
  (forall s2, evolves s s2 -> SInv s2 -> Q tt s2) -> safe (notifyWaiter id o) Q s.
Proof.
  intros HI Ho HQ. unfold notifyWaiter. apply safe_bind, safe_now; [done|]. intros s2 Hev HI2.
  apply safe_bind, safe_cache_set; [done| |].
  { intros s3 Hev3 HI3. unfold cached_ok. simpl. eapply out_ok_mono; [|done]. chain. }
  intros s3 Hev3 HI3. assert (evolves s s3) as E3 by chain.
  apply safe_bind, safe_publish; [done| |].
  { intros s4 Hev4 HI4. simpl. eapply out_ok_mono; [|done]. chain. }
  intros s4 r Hev4 HI4 _. apply safe_ret, HQ; [chain|done].
Qed.

Lemma safe_lookupRequest id Q s :
  SInv s ->
  (forall e s2, evolves s s2 -> SInv s2 -> Q (Err e) s2) ->
  (forall r s2, evolves s s2 -> SInv s2 -> requests s2 !! id = Some r -> Q (Ok r) s2) ->
  safe (lookupRequest id) Q s.
Proof.
  intros HI HE HQ. unfold lookupRequest. apply safe_bind_ok, safe_query; [done|].
  intros s2 Hev HI2. split; [by apply HE|].
  destruct (db_requests (sys_db s2) !! id) eqn:E; apply safe_ret; auto.
Qed.

Lemma lookup_seen s id r : SInv s -> requests s !! id = Some r -> cr_ID r = id /\ seen s r.
Proof.
  intros HI Hr. pose proof (rq_id _ _ _ (si_req _ _ HI _ _ Hr)) as Hid. split; [done|].
  exists r. by rewrite Hid.
Qed.

Lemma safe_resolveUser i Q s :
  SInv s ->
  (forall e s2, evolves s s2 -> SInv s2 -> Q (Err e) s2) ->
  (forall u s2, evolves s s2 -> SInv s2 -> known_user s2 u i -> Q (Ok u) s2) ->
  safe (resolveUser i) Q s.
Proof.
  intros HI HE HQ. unfold resolveUser. apply safe_bind_ok, safe_query; [done|].
  intros s2 Hev HI2. split; [by apply HE|].
  destruct (user_by_subject (id_Subject i) (sys_db s2)) as [u|] eqn:E; apply safe_ret; [|auto].
  apply HQ; [done|done|]. apply find_row_Some in E as (id & Hu & Hs). unbool.
  pose proof (si_user _ _ HI2 id u Hu) as Hid. exists u. by rewrite Hid.
Qed.

(** Binding sets the owner once and never changes it. *)
Lemma safe_bindRequester r u i Q s :
  SInv s -> seen s r -> known_user s u i ->
  (forall e s2, evolves s s2 -> SInv s2 -> Q (Err e) s2) ->
  (forall s2, evolves s s2 -> SInv s2 -> seen s2 (set_UserID r (us_ID u)) ->
     known_user s2 u i -> Q (Ok (set_UserID r (us_ID u))) s2) ->
  safe (bindRequester r u) Q s.
Proof.
  intros HI Hseen Hu HE HQ. unfold bindRequester. destruct (cr_UserID r) as [owner|] eqn:Hown.
  - destruct (bool_decide (owner = us_ID u)) eqn:E; unbool; [|by apply safe_ret, HE].
    assert (set_UserID r (us_ID u) = r) as Er by (subst owner; destruct r; simpl in *; by subst).
    apply safe_ret. rewrite <- Er at 1. apply HQ; [done|done|by rewrite Er|done].
  - assert (forall row, row_evolves r row -> cr_UserID row = Some (us_ID u) ->
              row_evolves (set_UserID r (us_ID u)) row) as Hset.
    { intros row [] Ho. constructor; simpl; try done. intros w [= <-]. done. }
    apply safe_bind_ok, safe_exec; [done| |auto].
    intros s1 t1 t2 Hev HI1 Ht1 Ht2. unfold update_request.
    destruct (seen_mono _ _ _ Hev Hseen) as (row & Hrow & Hrr).
    unfold requests in Hrow. rewrite Hrow.
    destruct (cr_UserID row) as [w|] eqn:Hw; rewrite ?bool_decide_true, ?bool_decide_false by eauto;
      try (intros [? ?]; congruence); simpl.
    + split; [apply legal_same_db; lia|]. intros Hev2 HI2. apply safe_bind_ok, safe_query; [done|].
      intros s3 Hev3 HI3. assert (evolves s s3) as E3 by chain. split; [by apply HE|].
      destruct (db_requests (sys_db s3) !! cr_ID r) as [row3|] eqn:E; [|by apply safe_ret, HE].
      destruct (bool_decide (cr_UserID row3 = Some (us_ID u))) eqn:Eo; unbool; [|by apply safe_ret, HE].
      apply safe_ret, HQ; [done|done| |by eapply known_user_mono].
      destruct (seen_mono _ _ _ E3 Hseen) as (row3' & Hr3 & Hrr3). unfold requests in Hr3.
      simplify_eq. exists row3. split; [done|]. by apply Hset.
    + assert (row_evolves row (set_UserID row (us_ID u))) as Hre.
      { constructor; simpl; try done. congruence. }
      split.
      * apply (legal_update_request _ _ _ row); [lia|done|done| | |done|done].
        -- simpl. intros w [= <-]. destruct (known_user_mono _ _ _ _ Hev Hu) as (x & ? & _). eauto.
        -- simpl. apply (si_req _ _ HI1 _ _ Hrow).
      * intros Hev2 HI2. apply safe_ret, HQ; [done|done| |by eapply known_user_mono].
        exists (set_UserID row (us_ID u)). unfold requests. simpl. rewrite lookup_insert_eq.
        split; [done|]. apply Hset; [by etrans|done].
Qed.
End quiet.

(** ** Creation, expiry, the approval page, denial *)

Section operations.
Context (srv : Server).
Notation SInv := (SInv srv).
Notation safe := (safe srv).

(** What may be said of a row whose status is [st]. *)
Lemma out_ok_row s id r st code account :
  SInv s -> requests s !! id = Some r -> st <> StatusApproved ->
  outcome_class r st code account -> out_ok s id st "" code account.
Proof.
  intros HI Hr Hna Hc. constructor; [|done].
  rewrite (rq_kind _ _ _ (si_req _ _ HI _ _ Hr)). eauto.
Qed.

Lemma safe_expire id Q s :
  SInv s -> (forall s2, evolves s s2 -> SInv s2 -> Q tt s2) -> safe (expire id) Q s.
Proof.
  intros HI HQ. unfold expire. apply safe_bind, safe_now; [done|]. intros s1 Hev1 HI1.
  apply safe_bind, safe_exec; [done| |].
  2:{ intros s2 e Hev2 HI2. apply safe_ret, HQ; [chain|done]. }
  intros s2 t1 t2 Hev2 HI2 Ht1 Ht2. unfold update_request.
  destruct (db_requests (sys_db s2) !! id) as [r|] eqn:Hr; simpl.
  2:{ split; [apply legal_same_db; lia|]. intros Hev3 HI3. apply safe_ret, HQ; [by etrans|done]. }
  destruct (bool_decide (cr_Status r = StatusPending)) eqn:Hst; unbool; simpl.
  2:{ split; [apply legal_same_db; lia|]. intros Hev3 HI3. apply safe_ret, HQ; [by etrans|done]. }
  set (r' := set_Resolved r StatusExpired (sys_clock s1)). split.
  - apply (legal_update_request _ _ _ r); [lia|done| | | |simpl; set_solver|done].
    + constructor; simpl; try done. right. left. rewrite Hst. set_solver.
    + simpl. apply (rq_owner _ _ _ (si_req _ _ HI2 _ _ Hr)).
    + simpl. pose proof (rq_decision _ _ _ (si_req _ _ HI2 _ _ Hr)) as Hd. by rewrite Hst in Hd.
  - intros Hev3 HI3. set (s3 := set_clock _ _) in *.
    assert (requests s3 !! id = Some r') as Hr3 by (unfold requests; simpl; apply lookup_insert_eq).
    assert (out_ok s3 id StatusExpired "" "" "") as Ho by (eapply out_ok_row; done).
    assert (evolves s s3) as E3 by (by etrans).
    apply safe_bind.
    assert (forall row s4, evolves s3 s4 -> SInv s4 ->
      safe (do* auditRecord row ;; notifyWaiter id (status_outcome StatusExpired)) Q s4) as Hk.
    { intros row s4 Hev4 HI4. apply safe_bind, safe_Record; [done|]. intros s5 Hev5 HI5.
      apply safe_notifyWaiter; [done| |].
      - eapply out_ok_mono; [|exact Ho]. chain.
      - intros s6 Hev6 HI6. apply HQ; [|done]. repeat (etrans; [eassumption|]). done. }
    apply safe_lookupRequest; [done|intros e s4 Hev4 HI4; by apply Hk
                              |intros row s4 Hev4 HI4 _; by apply Hk].
Qed.

Lemma legal_create s r t :
  sys_clock s <= t -> sys_issued s !! cr_ID r = Some KRequest ->
  cr_UserID r = None -> cr_Status r = StatusPending ->
  match create_request r (sys_db s) with
  | (Ok _, d') => legal srv s (set_clock (set_db s d') t)
      /\ requests (set_clock (set_db s d') t) !! cr_ID r = Some r
  | (Err _, _) => True
  end.
Proof.
  intros Ht Hk Hu Hst. unfold create_request.
  destruct (bool_decide (is_Some (db_requests (sys_db s) !! cr_ID r))) eqn:E; [done|].
  unbool. rewrite <- eq_None_not_Some in E.
  destruct (negb _ && _); [done|]. split; [by apply legal_create_request|].
  unfold requests. simpl. apply lookup_insert_eq.
Qed.

Lemma safe_mint_attempts n : forall last r Q s,
  SInv s -> sys_issued s !! cr_ID r = Some KRequest -> cr_UserID r = None ->
  cr_Status r = StatusPending ->
  (forall e s2, evolves s s2 -> SInv s2 -> Q (Err e) s2) ->
  (forall code s2, evolves s s2 -> SInv s2 -> seen s2 (set_UserCode r code) ->
     Q (Ok (set_UserCode r code)) s2) ->
  safe (mint_attempts n last r) Q s.
Proof.
  induction n as [|n IH]; intros last r Q s HI Hk Hu Hst HE HQ; simpl; [by apply safe_ret, HE|].
  apply safe_bind_ok. unfold mintUserCode. apply safe_bind_ok, safe_rand; [done|].
  intros s1 raw Hev1 HI1. destruct raw as [raw|e]; [|by apply HE]. apply safe_ret.
  set (code := string_of_bytes _). apply safe_bind, safe_exec; [done| |].
  - intros s2 t1 t2 Hev2 HI2 Ht1 Ht2.
    pose proof (legal_create s2 (set_UserCode r code) t2 ltac:(lia)) as Hc.
    destruct (create_request _ _) as [[u|e] d']; [|done]. simpl in Hc.
    destruct Hc as [Hl Hr]; [eapply evolves_issued; [|exact Hk]; chain|done|done|].
    split; [done|]. intros Hev3 HI3. apply safe_ret, HQ; [by etrans|done|].
    exists (set_UserCode r code). split; [exact Hr|done].
  - intros s2 e Hev2 HI2. assert (evolves s s2) as E2 by chain.
    destruct (isUniqueConstraintViolation e); [|by apply safe_ret, HE].
    apply IH; try done.
    + by eapply evolves_issued.
    + intros e' s3 Hev3 HI3. apply HE; [chain|done].
    + intros code' s3 Hev3 HI3. apply HQ; [chain|done].
Qed.

Lemma safe_persistNewRequest r policy Q s :
  SInv s -> sys_issued s !! cr_ID r = Some KRequest -> cr_UserID r = None ->
  cr_Status r = StatusPending ->
  (forall e s2, evolves s s2 -> SInv s2 -> Q (Err e) s2) ->
  (forall r' s2, evolves s s2 -> SInv s2 -> seen s2 r' -> cr_ID r' = cr_ID r ->
     cr_Status r' = StatusPending -> cr_RequestedOptions r' = cr_RequestedOptions r ->
     cr_CreatedAt r' = cr_CreatedAt r -> cr_UserID r' = None -> Q (Ok r') s2) ->
  safe (persistNewRequest r policy) Q s.
Proof.
  intros HI Hk Hu Hst HE HQ. unfold persistNewRequest. destruct (negb _).
  - apply safe_bind_ok, safe_exec; [done| |intros; by apply HE].
    intros s2 t1 t2 Hev2 HI2 Ht1 Ht2.
    pose proof (legal_create s2 r t2 ltac:(lia)) as Hc.
    destruct (create_request _ _) as [[u|e] d']; [|done].
    destruct Hc as [Hl Hr]; [by eapply evolves_issued|done|done|].
    split; [done|]. intros Hev3 HI3. apply safe_ret, HQ; [done|done| |done..].
    exists r. split; [exact Hr|done].
  - apply safe_mint_attempts; [done|done|done|done|done|]. intros code s2 Hev HI2 Hs. by apply HQ.
Qed.

Lemma safe_CreateRequest p Q s :
  SInv s ->
  (forall e s2, evolves s s2 -> SInv s2 -> Q (Err e) s2) ->
  (forall c s2, evolves s s2 -> SInv s2 ->
     (exists r, requests s2 !! cd_ID c = Some r) -> Q (Ok c) s2) ->
  safe (CreateRequest srv p) Q s.
Proof.
  intros HI HE HQ. unfold CreateRequest.
  destruct (policyFor srv (p_Type p)) as [policy|e]; [|by apply safe_ret, HE].
  destruct (negb (permitsSource policy (p_SourceIP p))).
  { apply safe_bind, safe_Record; [done|]. intros s2 Hev HI2. by apply safe_ret, HE. }
  cbv zeta. apply safe_bind, safe_uuid; [done|]. intros s1 id Hev1 HI1 Hk.
  apply safe_bind, safe_now; [done|]. intros s2 Hev2 HI2. assert (evolves s s2) as E2 by chain.
  apply safe_bind_ok, safe_persistNewRequest; [done|exact (evolves_issued _ _ _ _ Hev2 Hk)|done|done| |].
  - intros e s3 Hev3 HI3. apply HE; [chain|done].
  - intros r s3 Hev3 HI3 Hs Hid _ _ _ _. assert (evolves s s3) as E3 by chain.
    apply safe_bind, safe_Record; [done|]. intros s4 Hev4 HI4. apply safe_ret, HQ; [chain|done|].
    simpl. destruct (seen_mono _ _ _ Hev4 Hs) as (row & Hrow & _). eauto.
Qed.

Lemma safe_Detail id i Q s :
  SInv s ->
  (forall e s2, evolves s s2 -> SInv s2 -> Q (Err e) s2) ->
  (forall x u s2, evolves s s2 -> SInv s2 -> known_user s2 u i -> seen s2 (rd_Request x) ->
     cr_ID (rd_Request x) = id -> cr_UserID (rd_Request x) = Some (us_ID u) -> Q (Ok x) s2) ->
  safe (Detail srv id i) Q s.
Proof.
  intros HI HE HQ. unfold Detail. apply safe_bind_ok, safe_lookupRequest; [done|done|].
  intros r s1 Hev1 HI1 Hr. destruct (lookup_seen _ _ _ _ HI1 Hr) as [Hid Hseen].
  apply safe_bind_ok, safe_resolveUser; [done| |].
  { intros e s2 Hev2 HI2. apply HE; [chain|done]. }
  intros u s2 Hev2 HI2 Hu. assert (evolves s s2) as E2 by chain.
  apply safe_bind_ok.
  apply (safe_bindRequester _ _ _ i); [done|eauto using seen_mono|done| |].
  { intros e s3 Hev3 HI3. apply HE; [chain|done]. }
  intros s3 Hev3 HI3 Hs3 Hu3. assert (evolves s s3) as E3 by chain.
  destruct (unmarshal _ _) as [requested|e]; [|by apply safe_ret, HE].
  destruct (policyFor srv _) as [policy|e]; [|by apply safe_ret, HE].
  unfold lookupDecision. apply safe_bind_ok, safe_query; [done|].
  intros s4 Hev4 HI4. assert (evolves s s4) as E4 by chain. split; [by apply HE|].
  cbv zeta. destruct (validate_principals _) as [[]|e]; [|by apply safe_ret, HE].
  apply safe_ret. eapply HQ; [done|done|eauto using known_user_mono|eauto using seen_mono|done|done].
Qed.
End operations.

(** ** Decisions *)

Section decisions.
Context (srv : Server).
Notation SInv := (SInv srv).
Notation safe := (safe srv).

Lemma explainNotPending_err {A} id now d : exists e d', @explainNotPending srv A id now d = (Err e, d').
Proof.
  unfold explainNotPending, tx_bind, first_request. destruct (db_requests d !! id); simpl; eauto.
Qed.

Lemma auditTx_ok prep d d' : auditTx prep d = (Ok tt, d') -> exists l, d' = set_audit d l.
Proof.
  unfold auditTx, RecordTx. destruct prep as [[row ev]|e]; simpl; [|done].
  destruct (tableSkipped _); unfold tx_ret, create_audit; intros [= <-]; [|eauto].
  exists (db_audit d). by destruct d.
Qed.

Lemma create_decision_ok x d d' :
  create_decision x d = (Ok tt, d') ->
  db_decisions d !! de_CertificateRequestID x = None
  /\ d' = set_decisions d (<[de_CertificateRequestID x := x]> (db_decisions d)).
Proof.
  unfold create_decision. destruct (bool_decide _) eqn:E; [done|]. intros [= <-]. unbool.
  by rewrite <- eq_None_not_Some in E.
Qed.

(** The guarded update, the decision and the audit row commit together. *)
Lemma decide_tx_ok id guard f dec prep now d d' :
  de_CertificateRequestID dec = id ->
  (tx! affected := update_request id guard f in
   if negb affected then explainNotPending srv id now
   else tx! _ := create_decision dec in auditTx prep)%go d = (Ok tt, d') ->
  exists r l, db_requests d !! id = Some r /\ guard r = true /\ db_decisions d !! id = None
    /\ d' = set_audit (set_decisions (set_requests d (<[id := f r]> (db_requests d)))
                         (<[id := dec]> (db_decisions d))) l.
Proof.
  intros Hid. unfold tx_bind at 1, update_request.
  destruct (db_requests d !! id) as [r|] eqn:Hr; [destruct (guard r) eqn:Hg|]; simpl;
    try (destruct (@explainNotPending_err unit id now d) as (e & d0 & ->); done).
  unfold tx_bind. destruct (create_decision dec _) as [[[]|e] d1] eqn:E; [|done].
  intros Ha. apply create_decision_ok in E as [Hn ->]. apply auditTx_ok in Ha as [l ->].
  simpl in *. subst id. exists r, l. done.
Qed.

(** The current version of a row its owner was bound to. *)
Lemma decided_row s r u i row :
  seen s (set_UserID r (us_ID u)) -> known_user s u i -> requests s !! cr_ID r = Some row ->
  cr_UserID row = Some (us_ID u) /\ cr_Head row = cr_Head r
  /\ exists usr, users s !! us_ID u = Some usr /\ us_Subject usr = id_Subject i.
Proof.
  intros (row' & Hr & Hrr) Hu Hrow. change (cr_ID (set_UserID r _)) with (cr_ID r) in Hr.
  rewrite Hrow in Hr. injection Hr as <-.
  split; [by apply (re_owner _ _ Hrr)|]. split; [apply (re_head _ _ Hrr)|done].
Qed.

(** The rows a decision commits, read back. *)
Lemma decided_rows s id row dec l t :
  let s' := set_clock (set_db s (set_audit (set_decisions (set_requests (sys_db s)
    (<[id := row]> (requests s))) (<[id := dec]> (decisions s))) l)) t in
  requests s' !! id = Some row /\ decisions s' !! id = Some dec.
Proof. split; apply lookup_insert_eq. Qed.

(** Committing a denial of a pending request by its owner. *)
Lemma legal_deny s id row dec u usr now t l :
  sys_clock s <= t -> requests s !! id = Some row -> cr_Status row = StatusPending ->
  decisions s !! id = None -> cr_UserID row = Some u -> users s !! u = Some usr ->
  us_Subject usr = de_Subject dec -> de_CertificateRequestID dec = id ->
  de_Outcome dec = DecisionDenied ->
  legal srv s (set_clock (set_db s (set_audit (set_decisions (set_requests (sys_db s)
    (<[id := set_Resolved row StatusDenied now]> (requests s))) (<[id := dec]> (decisions s))) l)) t).
Proof.
  intros Ht Hrow Hg Hnone Hown Husr Hsub Hid Ho.
  apply (legal_decide _ _ _ row (set_Resolved row StatusDenied now) dec); try done.
  - constructor; simpl; try done. right. left. set_solver.
  - intros _ Hev. constructor; [done|]. exists (set_Resolved row StatusDenied now), u, usr.
    split_and!; try done; [|congruence]. unfold requests. simpl. apply lookup_insert_eq.
  - simpl. eauto.
  - simpl. set_solver.
Qed.

Lemma safe_Deny id i dc Q s :
  SInv s ->
  (forall e s2, evolves s s2 -> SInv s2 -> Q (Err e) s2) ->
  (forall s2, evolves s s2 -> SInv s2 ->
     (exists d, decisions s2 !! id = Some d /\ de_Outcome d = DecisionDenied
                /\ de_Subject d = id_Subject i) -> Q (Ok tt) s2) ->
  safe (Deny srv id i dc) Q s.
Proof.
  intros HI HE HQ. unfold Deny. apply safe_bind, safe_now; [done|]. intros s1 Hev1 HI1.
  set (now := sys_clock s1).
  apply safe_bind_ok, safe_lookupRequest; [done| |].
  { intros e s2 Hev2 HI2. apply HE; [chain|done]. }
  intros r s2 Hev2 HI2 Hr. assert (evolves s s2) as E2 by chain.
  destruct (lookup_seen _ _ _ _ HI2 Hr) as [Hid Hseen].
  apply safe_bind, safe_uuid; [done|]. intros s3 did Hev3 HI3 _. assert (evolves s s3) as E3 by chain.
  cbv zeta. apply safe_bind_ok, safe_resolveUser; [done| |].
  { intros e s4 Hev4 HI4. apply HE; [chain|done]. }
  intros u s4 Hev4 HI4 Hu. assert (evolves s s4) as E4 by chain.
  apply safe_bind_ok. apply (safe_bindRequester _ _ _ i); [done| |done| |].
  { eapply seen_mono; [|exact Hseen]. chain. }
  { intros e s5 Hev5 HI5. apply HE; [chain|done]. }
  intros s5 Hev5 HI5 Hs5 Hu5. assert (evolves s s5) as E5 by chain.
  apply safe_bind, safe_prepare; [done|]. intros prep s6 Hev6 HI6. assert (evolves s s6) as E6 by chain.
  set (dec := newDecision did r DecisionDenied i dc now None).
  assert (de_CertificateRequestID dec = id) as Hdid
    by (unfold dec, newDecision; by destruct (ReportedIdentity r)).
  assert (de_Outcome dec = DecisionDenied /\ de_Subject dec = id_Subject i) as [Hdo Hds]
    by (unfold dec, newDecision; by destruct (ReportedIdentity r)).
  apply safe_bind_ok, safe_exec; [done| |].
  2:{ intros s7 e Hev7 HI7. apply HE; [chain|done]. }
  intros s7 t1 t2 Hev7 HI7 Ht1 Ht2.
  run_tx x d' Etx. destruct x.
  apply decide_tx_ok in Etx as (row & l & Hrow & Hg & Hnone & ->); [|done].
  apply andb_true_iff in Hg as [Hg _]. unbool.
  change (db_requests (sys_db s7) !! id = Some row) with (requests s7 !! id = Some row) in Hrow.
  rewrite <- Hid in Hrow. destruct (decided_row s7 r u i row) as (Hown & Hhead & usr & Husr & Hsub).
  { eapply seen_mono; [|exact Hs5]. chain. }
  { eapply known_user_mono; [|exact Hu5]. chain. }
  { done. }
  split.
  - rewrite Hid in Hrow. apply (legal_deny _ _ _ _ (us_ID u) usr); try done; [lia|congruence].
  - intros Hev8 HI8. destruct (decided_rows s7 id (set_Resolved row StatusDenied now) dec l t2) as [Hr8 Hd8].
    set (s8 := set_clock _ _) in *. assert (evolves s s8) as E8 by (by etrans).
    apply safe_bind, safe_LogOnly; [done|]. intros s9 Hev9 HI9. assert (evolves s s9) as E9 by chain.
    apply safe_bind, safe_notifyWaiter; [done| |].
    { eapply out_ok_mono; [exact Hev9|]. by eapply out_ok_row. }
    intros s10 Hev10 HI10. apply safe_ret, HQ; [chain|done|]. exists dec. split; [|done].
    eapply evolves_decision; [|exact Hd8]. chain.
Qed.
End decisions.

(** ** Approval *)

Section approval.
Context (srv : Server).
Context (ParseAuthorizedKey : string -> option sshPublicKey) (ParseAddress : string -> bool).
(** The policy table was compiled from the certificate options (see
    [compileCertOptions_ok]). *)
Context (Hsound : forall ty p, srv_policies srv ty = Some p ->
  exists o, options_for (srv_Options srv) ty = Some o /\ policy_sound (srv_Options srv) ty o p).
Notation SInv := (SInv srv).
Notation safe := (safe srv).

Lemma policyFor_Ok ty p : policyFor srv ty = Ok p -> srv_policies srv ty = Some p.
Proof. unfold policyFor. destruct (srv_policies srv ty); [by intros [= ->]|done]. Qed.

(** Every narrowing keeps the grant inside the type's ceiling. *)
Lemma narrow_within ty p o req ip :
  srv_policies srv ty = Some p ->
  within_type srv ty (narrowOptions o (narrowRequestedOptions p req) ip).1.
Proof.
  intros Hp. destruct (Hsound _ _ Hp) as (op & _ & Hs). exists p. split; [done|]. split_and!.
  - intros x Hx. apply narrowOptions_extensions in Hx as [Hx _].
    by apply narrowRequestedOptions_ceiling in Hx as [_ Hx].
  - unfold narrowOptions, narrowRequestedOptions. simpl. rewrite (ps_touch _ _ _ _ Hs).
    intros H. unbool. by unfold is_service in *; unbool.
  - done.
Qed.

Lemma flow_type ty p : srv_policies srv ty = Some p ->
  (tp_flow p = flowSigning -> ty <> CertificateTypeService)
  /\ (tp_flow p = flowEnrollment -> ty = CertificateTypeService).
Proof.
  intros Hp. destruct (Hsound _ _ Hp) as (o & _ & Hs). rewrite (ps_flow _ _ _ _ Hs).
  unfold is_service. destruct (bool_decide (ty = CertificateTypeService)) eqn:E; unbool; done.
Qed.

(** What authorization establishes, per flow. *)
Lemma authorized_signing ty p i sel :
  srv_policies srv ty = Some p -> ty <> CertificateTypeService ->
  checkApproverAuthorization ty p i sel = Ok tt ->
  tp_principals p i (sel_Principals sel) ⊆ heldAccounts i.
Proof.
  intros Hp Ht H. destruct (Hsound _ _ Hp) as (o & _ & Hs). unfold checkApproverAuthorization in H.
  destruct (from_option _ _ _); [done|]. pose proof (ps_linkage _ _ _ _ Hs i sel) as Hl.
  rewrite H in Hl. unfold is_service in Hl. rewrite bool_decide_false in Hl by done.
  symmetry in Hl. apply checkUserPrincipalLinkage_ok in Hl.
  by apply (ps_principals _ _ _ _ Hs).
Qed.

Lemma authorized_enrollment p i sel :
  srv_policies srv CertificateTypeService = Some p ->
  checkApproverAuthorization CertificateTypeService p i sel = Ok tt ->
  sel_ServiceAccount sel
    ∈ ApprovableServiceAccounts i (co_AllowUserAccounts (opt_Service (srv_Options srv))).
Proof.
  intros Hp H. destruct (Hsound _ _ Hp) as (o & _ & Hs). unfold checkApproverAuthorization in H.
  destruct (from_option _ _ _); [done|]. pose proof (ps_linkage _ _ _ _ Hs i sel) as Hl.
  rewrite H in Hl. symmetry in Hl. by apply service_linkage_ok.
Qed.

(** The fields a decision copies from its parameters. *)
Lemma newDecision_fields did r o i dc t x :
  let d := newDecision did r o i dc t x in
  de_CertificateRequestID d = cr_ID r /\ de_Outcome d = o /\ de_Subject d = id_Subject i
  /\ de_Username d = id_Username i /\ de_OtherAccounts d = Enc (id_OtherAccounts i)
  /\ de_ServiceAccounts d = Enc (id_ServiceAccounts i) /\ de_DecidedAt d = t.
Proof. unfold newDecision. by destruct (ReportedIdentity r). Qed.

Lemma evaluate_policy_ceiling e ty i ip ceiling ec :
  out_duration (evaluate_policy e ty i ip ceiling ec) <= ceiling.
Proof.
  destruct (engine_policyFor e ty) as [p|] eqn:Hp.
  - rewrite (evaluate_policy_duration _ _ _ _ _ _ _ Hp).
    destruct (matchSourceRule _ _) as [r|]; [destruct (0 <? sr_maxDuration r)|]; lia.
  - unfold evaluate_policy. rewrite Hp. simpl. lia.
Qed.

Lemma safe_serialNew Q s :
  SInv s -> (forall r s2, evolves s s2 -> SInv s2 -> Q r s2) -> safe serialNew Q s.
Proof.
  intros HI HQ. unfold serialNew. apply safe_bind_ok, safe_rand; [done|].
  intros s2 r Hev HI2. destruct r; [apply safe_ret|]; by apply HQ.
Qed.

(** The outcome of a successful approval of [id] by [i]. *)
Definition approved_by (s : Sys) (id : string) (i : Identity) : Prop :=
  exists d, decisions s !! id = Some d /\ de_Outcome d = DecisionApproved
    /\ de_Subject d = id_Subject i.

Lemma approved_by_mono s s' id i : evolves s s' -> approved_by s id i -> approved_by s' id i.
Proof. intros Hev (d & Hd & ?). exists d. split; [by eapply evolves_decision|done]. Qed.

(** The job the signing flow publishes for a committed approval. *)
Definition signing_job (s : Sys) (id : string) : Prop :=
  exists j, PubJob j ∈ sys_published s /\ job_RequestID j = id.

(** A decision record that grants [ps] and [g] for a signing type. *)
Record grants (dec : Decision) (ty : CertificateType) (ps : list string) (g : RequestedOptions) : Prop := {
  gr_outcome : de_Outcome dec = DecisionApproved;
  gr_principals : de_Principals dec = Some (Enc ps);
  gr_options : de_GrantedOptions dec = Some (Enc g);
  gr_some : ps <> [];
  gr_valid : Forall (fun p => ValidatePrincipal p = Ok tt) ps;
  gr_held : held_by_decider dec ps;
  gr_within : within_type srv ty g;
}.

(** Committing an approval for signing by the request's owner. *)
Lemma legal_sign s id row dec u usr sn ps g t l :
  sys_clock s <= t -> requests s !! id = Some row -> cr_Status row = StatusPending ->
  decisions s !! id = None -> cr_UserID row = Some u -> users s !! u = Some usr ->
  us_Subject usr = de_Subject dec -> de_CertificateRequestID dec = id ->
  cr_Type row <> CertificateTypeService -> grants dec (cr_Type row) ps g ->
  legal srv s (set_clock (set_db s (set_audit (set_decisions (set_requests (sys_db s)
    (<[id := set_Signing row sn g]> (requests s))) (<[id := dec]> (decisions s))) l)) t).
Proof.
  intros Ht Hrow Hg Hnone Hown Husr Hsub Hid Hty [G1 G2 G3 G4 G5 G6 G7].
  apply (legal_decide _ _ _ row (set_Signing row sn g) dec); try done.
  - constructor; simpl; try done. right. left. set_solver.
  - intros _ Hev. constructor; [done|]. exists (set_Signing row sn g), u, usr.
    split_and!; try done; [apply lookup_insert_eq|]. intros _ _. exists ps, g. done.
  - simpl. eauto.
Qed.

(** The job of a committed approval is backed by it in every later state. *)
Lemma signing_job_backed s s' id row dec sn ps g policy kid dur :
  evolves s s' -> requests s !! id = Some (set_Signing row sn g) -> decisions s !! id = Some dec ->
  cr_Type row <> CertificateTypeService -> srv_policies srv (cr_Type row) = Some policy ->
  grants dec (cr_Type row) ps g -> dur <= tp_validDuration policy ->
  pub_ok srv s' (PubJob (MkJob id (cr_Type row) (cr_PublicKey row) ps kid g (de_DecidedAt dec)
                           (de_DecidedAt dec + dur) sn)).
Proof.
  intros Hev Hr Hd Hty Hpol [G1 G2 G3 _ _ _ _] Hdur.
  destruct (evolves_request _ _ _ _ Hev Hr) as (row8 & Hr8 & Hrr8).
  left. split; [done|]. exists row8, dec, policy. simpl.
  destruct (re_grant _ _ Hrr8) as (K1 & K2 & _); [done|].
  split_and!; try done.
  - by rewrite (row_evolves_type _ _ Hrr8).
  - by rewrite (row_evolves_key _ _ Hrr8).
  - eapply status_le_signing; [apply Hrr8|]. simpl. set_solver.
  - by eapply evolves_decision.
  - lia.
Qed.

Lemma safe_approveForSigning r u i policy requested dc sel Q s :
  SInv s -> seen s (set_UserID r (us_ID u)) -> known_user s u i ->
  srv_policies srv (cr_Type r) = Some policy -> cr_Type r <> CertificateTypeService ->
  tp_principals policy i sel ⊆ heldAccounts i ->
  (forall e s2, evolves s s2 -> SInv s2 -> Q (Err e) s2) ->
  (forall s2, evolves s s2 -> SInv s2 -> approved_by s2 (cr_ID r) i -> signing_job s2 (cr_ID r) ->
     Q (Ok tt) s2) ->
  safe (approveForSigning srv (set_UserID r (us_ID u)) i policy
          (narrowRequestedOptions policy requested) dc sel) Q s.
Proof.
  intros HI Hseen Hu Hpol Hty Hheld HE HQ. unfold approveForSigning.
  set (req := set_UserID r (us_ID u)) in *.
  destruct (executeKeyIDTemplate _ _) as [keyID|e]; [|by apply safe_ret, HE].
  apply safe_bind_ok, safe_serialNew; [done|]. intros sn s1 Hev1 HI1.
  destruct sn as [sn|e]; [|by apply HE].
  apply safe_bind, safe_now; [done|]. intros s2 Hev2 HI2. set (now := sys_clock s2).
  assert (evolves s s2) as E2 by chain. cbv zeta.
  set (outcome := evaluate_policy _ _ _ _ _ _).
  pose proof (evaluate_policy_ceiling (srv_engine srv) (cr_Type req) i (cr_SourceIP req)
                (tp_validDuration policy) 0) as Hceil. fold outcome in Hceil.
  pose proof (narrow_within (cr_Type r) policy outcome requested (cr_SourceIP req) Hpol) as Hwithin.
  destruct (narrowOptions outcome _ _) as [g out2]. simpl in Hwithin.
  set (ps := tp_principals policy i sel) in *.
  destruct (length ps =? 0)%nat eqn:Hlen; [by apply safe_ret, HE|].
  destruct (validate_principals ps) as [[]|e] eqn:Hval; [|by apply safe_ret, HE].
  apply validate_principals_ok in Hval.
  apply safe_bind, safe_uuid; [done|]. intros s3 did Hev3 HI3 _. assert (evolves s s3) as E3 by chain.
  apply safe_bind, safe_prepare; [done|]. intros prep s4 Hev4 HI4. assert (evolves s s4) as E4 by chain.
  pose proof (newDecision_fields did req DecisionApproved i dc now (Some (out_explanation out2))) as Hf.
  set (dec := set_Grant (newDecision did req DecisionApproved i dc now _) ps g).
  cbv zeta in Hf. destruct Hf as (F1 & F2 & F3 & F4 & F5 & _ & F7).
  apply safe_bind_ok, safe_exec; [done| |].
  2:{ intros s5 e Hev5 HI5. apply HE; [chain|done]. }
  intros s5 t1 t2 Hev5 HI5 Ht1 Ht2. assert (evolves s s5) as E5 by chain. run_tx x d' Etx. destruct x.
  apply decide_tx_ok in Etx as (row & l & Hrow & Hg & Hnone & ->); [|done].
  unbool. change (requests s5 !! cr_ID r = Some row) in Hrow.
  destruct (decided_row s5 r u i row) as (Hown & Hhead & usr & Husr & Hsub);
    [by eapply seen_mono|by eapply known_user_mono|done|].
  assert (cr_Type row = cr_Type r /\ cr_PublicKey row = cr_PublicKey r) as [Hty' Hkey]
    by (unfold cr_Type, cr_PublicKey; by rewrite Hhead).
  rewrite <- Hty' in Hwithin, Hpol, Hty.
  assert (grants dec (cr_Type row) ps g) as Hgr.
  { constructor; try done; [intros E; by rewrite E in Hlen|].
    exists (id_OtherAccounts i). simpl. rewrite F4, F5. split; [done|]. intros p Hp.
    apply Hheld, elem_of_heldAccounts in Hp. set_solver. }
  split; [apply (legal_sign _ _ _ _ (us_ID u) usr _ ps); try done; [lia|simpl; congruence]|].
  intros Hev6 HI6. destruct (decided_rows s5 (cr_ID r) (set_Signing row sn g) dec l t2) as [Hr6 Hd6].
  set (s6 := set_clock _ _) in *. assert (evolves s s6) as E6 by chain.
  apply safe_bind, safe_LogOnly; [done|]. intros s7 Hev7 HI7. assert (evolves s s7) as E7 by chain.
  apply safe_publish; [done| |].
  - intros s8 Hev8 HI8. change (cr_Type req) with (cr_Type r). change (cr_PublicKey req) with (cr_PublicKey r).
    rewrite <- Hty', <- Hkey. replace now with (de_DecidedAt dec) by exact F7.
    apply (signing_job_backed s6 s8 _ _ _ _ _ _ policy); try done. chain.
  - intros s8 res Hev8 HI8 Hpub. assert (evolves s s8) as E8 by chain.
    destruct res as [[]|e]; [|by apply HE]. apply HQ; [done|done| |].
    + exists dec. split; [|done]. eapply evolves_decision; [|exact Hd6]. chain.
    + eexists. split; [by apply Hpub|done].
Qed.

Lemma create_enrollment_ok e d d' :
  create_enrollment e d = (Ok tt, d') ->
  db_enrollments d !! en_ID e = None
  /\ d' = set_enrollments d (<[en_ID e := e]> (db_enrollments d)).
Proof.
  unfold create_enrollment. destruct (_ || _) eqn:E; [done|]. intros [= <-].
  apply orb_false_iff in E as [E _]. unbool. by rewrite <- eq_None_not_Some in E.
Qed.

(** The enrolling transaction commits row, enrollment, decision and audit together. *)
Lemma enroll_tx_ok id guard f e dec prep now d d' :
  de_CertificateRequestID dec = id ->
  (tx! affected := update_request id guard f in
   if negb affected then explainNotPending srv id now
   else tx! _ := create_enrollment e in tx! _ := create_decision dec in auditTx prep)%go d
    = (Ok tt, d') ->
  exists r l, db_requests d !! id = Some r /\ guard r = true /\ db_decisions d !! id = None
    /\ db_enrollments d !! en_ID e = None
    /\ d' = set_audit (set_decisions (set_enrollments (set_requests d (<[id := f r]> (db_requests d)))
                          (<[en_ID e := e]> (db_enrollments d))) (<[id := dec]> (db_decisions d))) l.
Proof.
  intros Hid. unfold tx_bind at 1, update_request.
  destruct (db_requests d !! id) as [r|] eqn:Hr; [destruct (guard r) eqn:Hg|]; simpl;
    try (destruct (@explainNotPending_err srv unit id now d) as (x & d0 & ->); done).
  unfold tx_bind. destruct (create_enrollment e _) as [[[]|x] d1] eqn:Ee; [|done].
  apply create_enrollment_ok in Ee as [Hen ->].
  destruct (create_decision dec _) as [[[]|x] d1] eqn:E; [|done].
  intros Ha. apply create_decision_ok in E as [Hn ->]. apply auditTx_ok in Ha as [l ->].
  simpl in *. subst id. exists r, l. done.
Qed.

Lemma vouch s d i account :
  de_Username d = id_Username i -> de_OtherAccounts d = Enc (id_OtherAccounts i) ->
  de_ServiceAccounts d = Enc (id_ServiceAccounts i) ->
  account ∈ ApprovableServiceAccounts i (co_AllowUserAccounts (opt_Service (srv_Options s))) ->
  can_vouch_for s d account.
Proof.
  intros Hu Ho Hs [_ Ha]%elem_of_Approvable. exists (id_OtherAccounts i), (id_ServiceAccounts i).
  split_and!; [done|done|]. destruct Ha as [?|[Hal Hh]]; [by left|right]. split; [done|].
  apply elem_of_heldAccounts in Hh. rewrite Hu. set_solver.
Qed.

(** Whole seconds of a duration never exceed it, nor turn positive. *)
Lemma seconds_bound d c : d <= c -> go_div d Second * Second <= Z.max 0 c.
Proof.
  intros H. unfold go_div. change Second with 1000000000.
  destruct (Z.le_gt_cases 0 d).
  - rewrite Z.quot_div_nonneg by lia. pose proof (Z.mul_div_le d 1000000000). lia.
  - assert (Z.quot d 1000000000 <= 0); [|lia].
    rewrite <- (Z.opp_involutive d), Z.quot_opp_l by lia.
    rewrite Z.quot_div_nonneg by lia.
    assert (0 <= - d / 1000000000) by (apply Z.div_pos; lia). lia.
Qed.

(** Committing an enrollment by the request's owner. *)
Lemma legal_enrollment s id row dec u usr policy g eid token account kid now expires secs email t l :
  let enr := MkEnrollment eid token (cr_PublicKey row) (Enc g) kid (Enc [account]) account (Some id) u
               now expires (Some secs) None email None None in
  sys_clock s <= t -> requests s !! id = Some row -> cr_Status row = StatusPending ->
  decisions s !! id = None -> enrollments s !! eid = None -> cr_UserID row = Some u ->
  users s !! u = Some usr -> us_Subject usr = de_Subject dec -> de_CertificateRequestID dec = id ->
  de_Outcome dec = DecisionApproved -> cr_Type row = CertificateTypeService ->
  srv_policies srv CertificateTypeService = Some policy -> within_type srv CertificateTypeService g ->
  can_vouch_for srv dec account -> ValidatePrincipal account = Ok tt ->
  secs * Second <= Z.max 0 (tp_validDuration policy) ->
  legal srv s (set_clock (set_db s (set_audit (set_decisions (set_enrollments (set_requests (sys_db s)
    (<[id := set_Enrolled row g token account now]> (requests s))) (<[eid := enr]> (enrollments s)))
    (<[id := dec]> (decisions s))) l)) t).
Proof.
  intros enr Ht Hrow Hg Hnone Hen Hown Husr Hsub Hid Ho Hty Hpol Hw Hv Hval Hsecs.
  set (row' := set_Enrolled row g token account now).
  apply (legal_enroll _ _ _ row row' dec enr); try done.
  - constructor; simpl; try done. right. left. set_solver.
  - intros _ Hev. constructor; [done|]. exists row', u, usr. split_and!; try done. apply lookup_insert_eq.
  - intros _ Hev. constructor; [done|]. exists id, row', dec, g, secs.
    split_and!; try done; [apply lookup_insert_eq|apply lookup_insert_eq|].
    intros p Hp. rewrite Hpol in Hp. by injection Hp as <-.
Qed.

(** Announcing a committed enrollment: archive copy, waiter, notification. *)
Lemma safe_announce ev id row o n Q s :
  SInv s -> requests s !! id = Some row -> wo_Status o <> StatusApproved -> wo_Certificate o = "" ->
  outcome_class row (wo_Status o) (wo_Code o) (wo_ServiceAccount o) ->
  (forall s2, evolves s s2 -> SInv s2 -> Q (Ok tt) s2) ->
  safe (do* auditLog ev ;; do* notifyWaiter id o ;; do* perform (Notify n) ;; Return tt) Q s.
Proof.
  intros HI Hr Hna Hc Ho HQ. apply safe_bind, safe_LogOnly; [done|]. intros s1 Hev1 HI1.
  apply safe_bind, safe_notifyWaiter; [done| |].
  { eapply out_ok_mono; [exact Hev1|]. rewrite Hc. by eapply out_ok_row. }
  intros s2 Hev2 HI2. assert (evolves s s2) as E2 by chain.
  apply safe_bind, safe_notify; [done|]. intros s3 Hev3 HI3. apply safe_ret, HQ; [chain|done].
Qed.

Lemma safe_approveServiceEnrollment r u i policy requested client dc sel Q s :
  SInv s -> seen s (set_UserID r (us_ID u)) -> known_user s u i ->
  srv_policies srv CertificateTypeService = Some policy -> cr_Type r = CertificateTypeService ->
  sel_ServiceAccount sel
    ∈ ApprovableServiceAccounts i (co_AllowUserAccounts (opt_Service (srv_Options srv))) ->
  (forall e s2, evolves s s2 -> SInv s2 -> Q (Err e) s2) ->
  (forall s2, evolves s s2 -> SInv s2 -> approved_by s2 (cr_ID r) i -> Q (Ok tt) s2) ->
  safe (approveServiceEnrollment srv ParseAuthorizedKey ParseAddress (set_UserID r (us_ID u))
          (narrowRequestedOptions policy requested) client i policy dc sel) Q s.
Proof.
  intros HI Hseen Hu Hpol Hty Hacc HE HQ. unfold approveServiceEnrollment.
  set (req := set_UserID r (us_ID u)) in *. set (account := sel_ServiceAccount sel) in *. cbv zeta.
  destruct (validateNotificationEmail _ _) as [email|e]; [|by apply safe_ret, HE].
  set (outcome := evaluate_policy _ _ _ _ _ _).
  pose proof (evaluate_policy_ceiling (srv_engine srv) (cr_Type req) i (cr_SourceIP req)
                (tp_validDuration policy) (tp_enrollmentDuration policy)) as Hceil. fold outcome in Hceil.
  pose proof (narrow_within CertificateTypeService policy outcome requested (cr_SourceIP req) Hpol)
    as Hwithin.
  destruct (narrowOptions outcome _ _) as [g out2]. simpl in Hwithin.
  destruct (executeKeyIDTemplate _ _) as [keyID|e]; [|by apply safe_ret, HE].
  destruct (validate_principals [account]) as [[]|e] eqn:Hval; [|by apply safe_ret, HE].
  apply validate_principals_ok in Hval. apply Forall_cons in Hval as [Hval _].
  apply safe_bind, safe_uuid; [done|]. intros s1 token Hev1 HI1 Htok.
  apply safe_bind, safe_uuid; [done|]. intros s2 eid Hev2 HI2 Heid. assert (evolves s s2) as E2 by chain.
  destruct (describeAuthorizedKey _ _) as [fp kt].
  apply safe_bind, safe_now; [done|]. intros s3 Hev3 HI3. assert (evolves s s3) as E3 by chain.
  set (now := sys_clock s3). cbv zeta.
  apply safe_bind, safe_uuid; [done|]. intros s4 did Hev4 HI4 _. assert (evolves s s4) as E4 by chain.
  set (out3 := recordApproverExtensions _ _ _ _). set (expires := TruncateTime _ _).
  apply safe_bind, safe_prepare; [done|]. intros prep s5 Hev5 HI5. assert (evolves s s5) as E5 by chain.
  pose proof (newDecision_fields did req DecisionApproved i dc now (Some (out_explanation out3))) as Hf.
  set (dec := newDecision did req DecisionApproved i dc now _) in *.
  cbv zeta in Hf. destruct Hf as (F1 & F2 & F3 & F4 & F5 & F6 & F7).
  set (enr := MkEnrollment eid _ _ _ _ _ _ _ _ _ _ _ _ _ _ _).
  apply safe_bind_ok, safe_exec; [done| |].
  2:{ intros s6 e Hev6 HI6. apply HE; [chain|done]. }
  intros s6 t1 t2 Hev6 HI6 Ht1 Ht2. assert (evolves s s6) as E6 by chain. run_tx x d' Etx. destruct x.
  apply enroll_tx_ok in Etx as (row & l & Hrow & Hg & Hnone & Hen & ->); [|done].
  unbool. change (requests s6 !! cr_ID r = Some row) in Hrow.
  destruct (decided_row s6 r u i row) as (Hown & Hhead & usr & Husr & Hsub);
    [by eapply seen_mono|by eapply known_user_mono|done|].
  assert (cr_Type row = CertificateTypeService /\ cr_PublicKey row = cr_PublicKey r) as [Hty' Hkey]
    by (unfold cr_Type, cr_PublicKey in *; by rewrite Hhead).
  split.
  - unfold enr. change (cr_PublicKey req) with (cr_PublicKey r). rewrite <- Hkey.
    apply (legal_enrollment _ _ _ _ _ usr policy); try done; [lia|simpl; congruence|by apply (vouch _ _ i)|].
    by apply seconds_bound.
  - intros Hev7 HI7. set (s7 := set_clock _ _) in *.
    assert (requests s7 !! cr_ID r = Some (set_Enrolled row g token account now)) as Hr7 by apply lookup_insert_eq.
    assert (decisions s7 !! cr_ID r = Some dec) as Hd7 by apply lookup_insert_eq.
    assert (evolves s s7) as E7 by chain.
    eapply safe_announce; try done. intros s8 Hev8 HI8. apply HQ; [chain|done|]. exists dec.
    split; [by eapply evolves_decision|done].
Qed.

Lemma safe_ttlCutoffFor ty Q s :
  SInv s -> (forall t s2, evolves s s2 -> SInv s2 -> Q t s2) -> safe (ttlCutoffFor srv ty) Q s.
Proof.
  intros HI HQ. unfold ttlCutoffFor. destruct (_ <=? 0); [by apply safe_ret, HQ|].
  apply safe_bind, safe_now; [done|]. intros s2 Hev HI2. by apply safe_ret, HQ.
Qed.

(** Approval by [i]: on success the decision is recorded under [i]'s subject, and a
    signing type's job is queued. *)
Lemma safe_Approve id i dc sel Q s :
  SInv s ->
  (forall e s2, evolves s s2 -> SInv s2 -> Q (Err e) s2) ->
  (forall s2, evolves s s2 -> SInv s2 -> approved_by s2 id i ->
     (forall r, requests s2 !! id = Some r -> cr_Type r <> CertificateTypeService -> signing_job s2 id) ->
     Q (Ok tt) s2) ->
  safe (Approve srv ParseAuthorizedKey ParseAddress id i dc sel) Q s.
Proof.
  intros HI HE HQ. unfold Approve. apply safe_bind_ok, safe_lookupRequest; [done|done|].
  intros r s1 Hev1 HI1 Hr. destruct (lookup_seen _ _ _ _ HI1 Hr) as [Hid Hseen].
  destruct (negb _).
  { apply safe_bind, safe_ttlCutoffFor; [done|]. intros t s2 Hev2 HI2. apply safe_ret, HE; [chain|done]. }
  apply safe_bind, safe_ttlCutoffFor; [done|]. intros cutoff s2 Hev2 HI2.
  assert (evolves s s2) as E2 by chain.
  destruct (past_cutoff r cutoff).
  { apply safe_bind, safe_expire; [done|]. intros s3 Hev3 HI3. apply safe_ret, HE; [chain|done]. }
  destruct (unmarshal _ _) as [requested|e]; [|by apply safe_ret, HE].
  destruct (policyFor srv (cr_Type r)) as [policy|e] eqn:Hpol; [|by apply safe_ret, HE].
  apply policyFor_Ok in Hpol. cbv zeta.
  set (requested' := from_option _ _ _). apply safe_bind_ok, safe_resolveUser; [done| |].
  { intros e s3 Hev3 HI3. apply HE; [chain|done]. }
  intros u s3 Hev3 HI3 Hu. assert (evolves s s3) as E3 by chain.
  set (i' := set_Extra i _).
  destruct (checkApproverAuthorization _ _ _ _) as [[]|e] eqn:Hauth; [|by apply safe_ret, HE].
  apply safe_bind_ok. apply (safe_bindRequester _ _ _ i); [done| |done| |].
  { eapply seen_mono; [|exact Hseen]. chain. }
  { intros e s4 Hev4 HI4. apply HE; [chain|done]. }
  intros s4 Hev4 HI4 Hs4 Hu4. assert (evolves s s4) as E4 by chain.
  destruct (if srv_FIPS srv then _ else _) as [[]|e]; [|by apply safe_ret, HE].
  destruct (flow_type _ _ Hpol) as [Hsig Henr]. destruct (tp_flow policy) eqn:Hflow.
  - by apply safe_ret, HE.
  - specialize (Henr eq_refl).
    apply safe_approveServiceEnrollment; [done|done|done|by rewrite Henr in Hpol|done| | |].
    + rewrite Henr in Hauth, Hpol. exact (authorized_enrollment policy i' sel Hpol Hauth).
    + intros e s5 Hev5 HI5. apply HE; [chain|done].
    + intros s5 Hev5 HI5 Ha. rewrite Hid in Ha. apply HQ; [chain|done|done|].
      intros r5 Hr5 Ht5. exfalso. apply Ht5.
      destruct (seen_mono _ _ _ Hev5 Hs4) as (row & Hrow & Hrr).
      change (cr_ID (set_UserID r _)) with (cr_ID r) in Hrow. rewrite Hid in Hrow. simplify_eq.
      by rewrite (row_evolves_type _ _ Hrr).
  - specialize (Hsig eq_refl).
    apply safe_approveForSigning; [done|done|done|done|done| | |].
    + exact (authorized_signing _ policy i' sel Hpol Hsig Hauth).
    + intros e s5 Hev5 HI5. apply HE; [chain|done].
    + intros s5 Hev5 HI5 Ha Hj. rewrite Hid in Ha, Hj. apply HQ; [chain|done|done|done].
Qed.
End approval.
