(* ===== verification/WaitSafe.v ===== *)
(** * Waiting, claiming, console codes and the sweep are legal under every interleaving *)

From S2P Require Import Prelude Netip Model UserCode Accounts Condition Lifetime CertPolicy Sha256 World AuditLog CertRequest CertWait Signer Invariant Legal CertSafe.
Local Open Scope prog_scope.

Section waiting.
Context (srv : Server).
Notation SInv := (SInv srv).
Notation safe := (safe srv).

(** ** Page claims *)

(** What an answer of the claim page promises: only the claimer of a fresh row gets a
    token, and its hash is the one stored; a match presented the stored token. *)
Definition claim_ok (s : Sys) (id presented : string) (x : ClaimPageResult) : Prop :=
  match cl_Outcome x with
  | ClaimPageClaimed => exists r, requests s !! id = Some r
      /\ cr_ClaimTokenHash r = Some (hashClaimToken (cl_Token x))
  | ClaimPageMatched => presented <> "" /\ cl_Token x = "" /\ exists r, requests s !! id = Some r
      /\ cr_ClaimTokenHash r = Some (hashClaimToken presented)
  | _ => cl_Token x = ""
  end.

Lemma claim_ok_mono s s' id presented x :
  evolves s s' -> claim_ok s id presented x -> claim_ok s' id presented x.
Proof.
  intros Hev. unfold claim_ok. destruct (cl_Outcome x); try done.
  - intros (r & Hr & Hh). destruct (evolves_request _ _ _ _ Hev Hr) as (r' & ? & Hrr).
    exists r'. split; [done|]. by apply Hrr.
  - intros (? & ? & r & Hr & Hh). destruct (evolves_request _ _ _ _ Hev Hr) as (r' & ? & Hrr).
    split_and!; try done. exists r'. split; [done|]. by apply Hrr.
Qed.

Lemma safe_decide_claim r hash presented ua id Q s :
  SInv s -> (exists row, requests s !! id = Some row /\ cr_ClaimTokenHash row = Some hash) ->
  (forall x s2, evolves s s2 -> SInv s2 -> claim_ok s2 id presented x -> Q (Ok x) s2) ->
  safe (decide_claim r hash presented ua) Q s.
Proof.
  intros HI Hrow HQ. unfold decide_claim. apply safe_bind, safe_now; [done|].
  intros s2 Hev HI2. apply safe_ret, HQ; [done|done|]. eapply claim_ok_mono; [exact Hev|].
  unfold compare_claim. destruct (negb _ && _) eqn:E.
  - unbool. simpl. destruct Hrow as (row & ? & ?). split_and!; [done|done|]. exists row.
    split; [done|]. by subst hash.
  - by destruct (_ && _ && _ && _).
Qed.

Lemma safe_claimApprovalPage r presented ua Q s :
  SInv s -> seen s r ->
  (forall e s2, evolves s s2 -> SInv s2 -> Q (Err e) s2) ->
  (forall x s2, evolves s s2 -> SInv s2 -> claim_ok s2 (cr_ID r) presented x -> Q (Ok x) s2) ->
  safe (claimApprovalPage r presented ua) Q s.
Proof.
  intros HI Hseen HE HQ. unfold claimApprovalPage. cbv zeta. 
  set (ua' := if (claimUserAgentMaxLen <? String.length ua)%nat
              then String.substring 0 claimUserAgentMaxLen ua else ua).
  destruct (cr_ClaimTokenHash r) as [hash|] eqn:Hh.
  { apply (safe_decide_claim _ _ _ _ (cr_ID r)); [done| |done].
    destruct Hseen as (row & Hrow & Hrr). exists row. split; [done|]. by apply Hrr. }
  apply safe_bind_ok. unfold newClaimToken. apply safe_bind_ok, safe_rand; [done|].
  intros s1 raw Hev1 HI1. destruct raw as [raw|e]; [|by apply HE]. apply safe_ret.
  set (token := base64_RawURLEncode raw). set (hash := hashClaimToken token).
  apply safe_bind, safe_now; [done|]. intros s2 Hev2 HI2. assert (evolves s s2) as E2 by chain.
  set (at_ := sys_clock s2). apply safe_bind_ok, safe_exec; [done| |].
  2:{ intros s3 e Hev3 HI3. apply HE; [chain|done]. }
  intros s3 t1 t2 Hev3 HI3 Ht1 Ht2. assert (evolves s s3) as E3 by chain.
  destruct (seen_mono _ _ _ E3 Hseen) as (row & Hrow & Hrr). unfold update_request.
  unfold requests in Hrow. rewrite Hrow.
  destruct (cr_ClaimTokenHash row) as [h0|] eqn:Hh0;
    rewrite ?bool_decide_true, ?bool_decide_false by eauto; try (intros [? ?]; congruence); simpl.
  - split; [apply legal_same_db; lia|]. intros Hev4 HI4. set (s4 := set_clock _ _) in *.
    assert (evolves s s4) as E4 by chain. apply safe_bind_ok, safe_query; [done|].
    intros s5 Hev5 HI5. assert (evolves s s5) as E5 by chain. split; [by apply HE|].
    destruct (db_requests (sys_db s5) !! cr_ID r) as [r5|] eqn:Hr5; [|by apply safe_ret, HE].
    destruct (cr_ClaimTokenHash r5) as [h5|] eqn:Hh5; [|by apply safe_ret, HE].
    apply (safe_decide_claim _ _ _ _ (cr_ID r)); [done|by exists r5|].
    intros x s6 Hev6 HI6. apply HQ; [chain|done].
  - set (row' := set_Claim row hash at_ ua'). split.
    + apply (legal_update_request _ _ _ row); [lia|done| | | |done|done].
      * constructor; simpl; try done. intros h Hx. congruence.
      * apply (rq_owner _ _ _ (si_req _ _ HI3 _ _ Hrow)).
      * apply (rq_decision _ _ _ (si_req _ _ HI3 _ _ Hrow)).
    + intros Hev4 HI4. set (s4 := set_clock _ _) in *. assert (evolves s s4) as E4 by chain.
      apply safe_bind, safe_now; [done|]. intros s5 Hev5 HI5. assert (evolves s s5) as E5 by chain.
      apply safe_bind, safe_Record; [done|]. intros s6 Hev6 HI6. apply safe_ret, HQ; [chain|done|].
      assert (evolves s4 s6) as E46 by chain. eapply claim_ok_mono; [exact E46|].
      simpl. exists row'. unfold requests. simpl. rewrite lookup_insert_eq. done.
Qed.

Lemma safe_ClaimApprovalPage id presented ua Q s :
  SInv s ->
  (forall e s2, evolves s s2 -> SInv s2 -> Q (Err e) s2) ->
  (forall x s2, evolves s s2 -> SInv s2 -> claim_ok s2 id presented x -> Q (Ok x) s2) ->
  safe (ClaimApprovalPage id presented ua) Q s.
Proof.
  intros HI HE HQ. unfold ClaimApprovalPage. apply safe_bind_ok, safe_query; [done|].
  intros s2 Hev HI2. split; [by apply HE|].
  destruct (db_requests (sys_db s2) !! id) as [r|] eqn:Hr; [|by apply safe_ret, HQ].
  destruct (lookup_seen _ _ _ _ HI2 Hr) as [Hid Hseen].
  apply safe_claimApprovalPage; [done|done| |].
  - intros e s3 Hev3 HI3. apply HE; [chain|done].
  - intros x s3 Hev3 HI3. rewrite Hid. apply HQ; [chain|done].
Qed.

(** ** Reconciling and waking *)

Lemma safe_enrollmentExpiry code Q s :
  SInv s -> (forall t s2, evolves s s2 -> SInv s2 -> Q t s2) -> safe (enrollmentExpiry code) Q s.
Proof.
  intros HI HQ. unfold enrollmentExpiry. destruct (empty_str code); [by apply safe_ret, HQ|].
  apply safe_bind, safe_query; [done|]. intros s2 Hev HI2.
  split; [by apply safe_ret, HQ|]. by destruct (enrollment_by_code _ _); apply safe_ret, HQ.
Qed.

Lemma safe_reconcileStatus id r Q s :
  SInv s -> requests s !! id = Some r ->
  (forall e s2, evolves s s2 -> SInv s2 -> Q (Err e) s2) ->
  (forall b s2, evolves s s2 -> SInv s2 -> Q (Ok b) s2) ->
  safe (reconcileStatus srv id r) Q s.
Proof.
  intros HI Hr HE HQ. unfold reconcileStatus.
  assert (cr_ID r = id) as Hid by apply (rq_id _ _ _ (si_req _ _ HI _ _ Hr)).
  assert (forall st, cr_Status r = st -> st ∈ [StatusDenied; StatusExpired; StatusFailed] ->
    safe (do* notifyWaiter id (status_outcome st) ;; Return false) Q s) as Hsimple.
  { intros st Hst Hin. apply safe_bind, safe_notifyWaiter; [done| |intros s2 Hev HI2; by apply safe_ret, HQ].
    rewrite !elem_of_cons in Hin. simpl.
    destruct Hin as [->|[->|[->|?%elem_of_nil]]]; [..|done];
      (apply (out_ok_row srv _ _ r); [done|done|done|]); simpl; rewrite Hst; set_solver. }
  destruct (cr_Status r) eqn:Hst; try (by apply Hsimple; [done|set_solver]); try (by apply safe_ret, HQ).
  - apply safe_bind, safe_ttlCutoffFor; [done|]. intros t s2 Hev2 HI2.
    destruct (past_cutoff r t); [|by apply safe_ret, HQ].
    apply safe_bind, safe_expire; [done|]. intros s3 Hev3 HI3. apply safe_ret, HQ; [chain|done].
  - by apply safe_ret, HE.
  - apply safe_bind, safe_enrollmentExpiry; [done|]. intros t s2 Hev2 HI2.
    apply safe_bind, safe_notifyWaiter; [done| |].
    { simpl. eapply out_ok_mono; [exact Hev2|]. apply (out_ok_row srv _ _ r); [done|done|done|]. done. }
    intros s3 Hev3 HI3. apply safe_ret, HQ; [chain|done].
  - exfalso. pose proof (rq_decision _ _ _ (si_req _ _ HI _ _ Hr)) as Hd. by rewrite Hst in Hd.
Qed.

Lemma safe_awaitStatus_loop fuel : forall id want cur deadline Q s,
  SInv s -> (exists s0, evolves s0 s /\ requests s0 !! id = Some cur) ->
  (forall r s2, evolves s s2 -> SInv s2 ->
     (exists s0, evolves s0 s2 /\ requests s0 !! id = Some r) -> Q r s2) ->
  safe (awaitStatus_loop fuel id want cur deadline) Q s.
Proof.
  induction fuel as [|fuel IH]; intros id want cur deadline Q s HI Hcur HQ; simpl;
    [by apply safe_ret, HQ|].
  assert (forall s2, evolves s s2 -> exists s0, evolves s0 s2 /\ requests s0 !! id = Some cur) as Hc.
  { intros s2 Hev. destruct Hcur as (s0 & ? & ?). exists s0. split; [by etrans|done]. }
  apply safe_bind, safe_now; [done|]. intros s1 Hev1 HI1.
  destruct (negb _); [apply safe_ret, HQ; auto|].
  apply safe_bind, safe_sleep; [done|]. intros s2 b Hev2 HI2. assert (evolves s s2) as E2 by chain.
  destruct b; simpl; [|apply safe_ret, HQ; auto].
  apply safe_bind, safe_lookupRequest; [done| |].
  - intros e s3 Hev3 HI3. assert (evolves s s3) as E3 by chain. apply safe_ret, HQ; auto.
  - intros r s3 Hev3 HI3 Hr. assert (evolves s s3) as E3 by chain.
    assert (exists s0, evolves s0 s3 /\ requests s0 !! id = Some r) as Hr3 by (by exists s3).
    destruct (bool_decide _); [by apply safe_ret, HQ|]. apply IH; [done|done|].
    intros r' s4 Hev4 HI4. apply HQ; [chain|done].
Qed.

(** A handled wake message is one the row confirms. *)
Lemma safe_tryHandleWakeMessage id msg Q s :
  SInv s -> (forall m, msg = Enc m -> PubWake id m ∈ sys_published s) ->
  (forall s2, evolves s s2 -> SInv s2 -> Q None s2) ->
  (forall o s2, evolves s s2 -> SInv s2 -> cached_ok s2 id o -> Q (Some o) s2) ->
  safe (tryHandleWakeMessage id msg) Q s.
Proof.
  intros HI Hmsg HN HQ. unfold tryHandleWakeMessage. destruct msg as [m|raw]; [|by apply safe_ret, HN].
  specialize (Hmsg m eq_refl). pose proof (si_pub _ _ HI _ Hmsg) as Hok. simpl in Hok.
  destruct (negb _); [by apply safe_ret, HN|].
  apply safe_bind, safe_lookupRequest; [done|intros e s2 Hev HI2; by apply safe_ret, HN|].
  intros r s1 Hev1 HI1 Hr. apply safe_bind.
  assert (forall r' s2, evolves s s2 -> SInv s2 ->
    safe (if bool_decide (cr_Status r' = om_Status m) then
            let* now := perform Now in
            let resolved := MkOutcome (om_Status m) (om_Certificate m) (om_Code m)
                              (om_ServiceAccount m) (default zero_time (om_ExpiresAt m)) now in
            do* perform (CacheSet id resolved) ;; Ret (Some resolved)
          else Ret None) Q s2) as Hk.
  { intros r' s2 Hev2 HI2. destruct (bool_decide _); [|by apply safe_ret, HN].
    apply safe_bind, safe_now; [done|]. intros s3 Hev3 HI3. assert (evolves s s3) as E3 by chain.
    cbv zeta. apply safe_bind, safe_cache_set; [done| |].
    - intros s4 Hev4 HI4. unfold cached_ok. simpl. eapply out_ok_mono; [|exact Hok]. chain.
    - intros s4 Hev4 HI4. apply safe_ret, HQ; [chain|done|]. unfold cached_ok. simpl.
      eapply out_ok_mono; [|exact Hok]. chain. }
  destruct (negb _ && _); [|by apply safe_ret, Hk].
  unfold awaitStatus. apply safe_bind, safe_now; [done|]. intros s2 Hev2 HI2.
  assert (evolves s s2) as E2 by chain.
  apply safe_awaitStatus_loop; [done|by exists s1|].
  intros r' s3 Hev3 HI3 _. apply Hk; [chain|done].
Qed.

(** Whatever [Wait] answers is an outcome the invariant vouches for. *)
Lemma safe_wait_loop fuel : forall id Q s,
  SInv s ->
  (forall e s2, evolves s s2 -> SInv s2 -> Q (Err e) s2) ->
  (forall s2, evolves s s2 -> SInv s2 -> Q (Ok None) s2) ->
  (forall o s2, evolves s s2 -> SInv s2 -> cached_ok s2 id o -> Q (Ok (Some o)) s2) ->
  safe (wait_loop srv fuel id) Q s.
Proof.
  induction fuel as [|fuel IH]; intros id Q s HI HE HN HQ; simpl; [by apply safe_ret, HN|].
  apply safe_bind, safe_cache_get; [done|]. intros s1 Hev1 HI1.
  destruct (sys_resolved s1 !! id) as [o|] eqn:Ho.
  { apply safe_ret, HQ; [done|done|]. by apply (si_cache _ _ HI1). }
  assert (forall s2, evolves s s2 -> SInv s2 -> safe (wait_loop srv fuel id) Q s2) as Hagain.
  { intros s2 Hev2 HI2. apply IH; [done|..].
    - intros e s3 Hev3 HI3. apply HE; [chain|done].
    - intros s3 Hev3 HI3. apply HN; [chain|done].
    - intros o s3 Hev3 HI3. apply HQ; [chain|done]. }
  apply safe_bind_ok, safe_lookupRequest; [done| |].
  { intros e s2 Hev2 HI2. apply HE; [chain|done]. }
  intros r s2 Hev2 HI2 Hr. assert (evolves s s2) as E2 by chain.
  apply safe_bind_ok, safe_reconcileStatus; [done|done| |].
  { intros e s3 Hev3 HI3. apply HE; [chain|done]. }
  intros block s3 Hev3 HI3. assert (evolves s s3) as E3 by chain.
  destruct block; simpl; [|by apply Hagain].
  apply safe_bind.
  assert (forall timer s4, evolves s s4 -> SInv s4 ->
    safe (let? msg := waitForUpdate id timer in
          match msg with
          | None => wait_loop srv fuel id
          | Some m => let* handled := tryHandleWakeMessage id m in
                      match handled with Some o => Return (Some o) | None => wait_loop srv fuel id end
          end) Q s4) as Hk.
  { intros timer s4 Hev4 HI4. apply safe_bind_ok. unfold waitForUpdate.
    apply safe_bind, safe_receive; [done|]. intros s5 x Hev5 HI5 Hx. assert (evolves s s5) as E5 by chain.
    destruct x as [m| | |]; apply safe_ret; [|by apply HE|by apply HE|by apply Hagain].
    apply safe_bind, safe_tryHandleWakeMessage; [done| | |].
    - intros m' ->. by apply Hx.
    - intros s6 Hev6 HI6. apply Hagain; [chain|done].
    - intros o s6 Hev6 HI6 Hok. apply safe_ret, HQ; [chain|done|done]. }
  unfold expiryTimer. destruct (_ <=? 0); [by apply safe_ret, Hk|].
  apply safe_bind, safe_now; [done|]. intros s4 Hev4 HI4. apply safe_ret, Hk; [chain|done].
Qed.

Lemma safe_Wait fuel id Q s :
  SInv s ->
  (forall e s2, evolves s s2 -> SInv s2 -> Q (Err e) s2) ->
  (forall s2, evolves s s2 -> SInv s2 -> Q (Ok None) s2) ->
  (forall o s2, evolves s s2 -> SInv s2 -> cached_ok s2 id o -> Q (Ok (Some o)) s2) ->
  safe (Wait srv fuel id) Q s.
Proof.
  intros HI HE HN HQ. unfold Wait. apply safe_bind, safe_cache_get; [done|]. intros s1 Hev1 HI1.
  destruct (sys_resolved s1 !! id) as [o|] eqn:Ho.
  { apply safe_ret, HQ; [done|done|]. by apply (si_cache _ _ HI1). }
  apply safe_bind_ok, safe_subscribe; [done|]. intros s2 x Hev2 HI2. assert (evolves s s2) as E2 by chain.
  destruct x; [|by apply HE]. apply safe_wait_loop; [done|..].
  - intros e s3 Hev3 HI3. apply HE; [chain|done].
  - intros s3 Hev3 HI3. apply HN; [chain|done].
  - intros o s3 Hev3 HI3. apply HQ; [chain|done].
Qed.

(** ** Console codes *)

Lemma safe_ResolveUserCode code i Q s :
  SInv s ->
  (forall e s2, evolves s s2 -> SInv s2 -> Q (Err e) s2) ->
  (forall id u s2, evolves s s2 -> SInv s2 -> known_user s2 u i ->
     (exists r, requests s2 !! id = Some r /\ cr_UserID r = Some (us_ID u)) -> Q (Ok id) s2) ->
  safe (ResolveUserCode srv code i) Q s.
Proof.
  intros HI HE HQ. unfold ResolveUserCode.
  destruct (NormalizeUserCode code) as [c|e]; [|by apply safe_ret, HE].
  apply safe_bind_ok, safe_query; [done|]. intros s1 Hev1 HI1. split; [by apply HE|].
  destruct (request_by_code _ _ _) as [r|] eqn:Hr; [|by apply safe_ret, HE].
  apply find_row_Some in Hr as (id & Hr & _). destruct (lookup_seen _ _ _ _ HI1 Hr) as [Hid Hseen].
  apply safe_bind.
  assert (forall (b : bool) s2, evolves s s2 -> evolves s1 s2 -> SInv s2 ->
    safe (if b then Fail (ExpiredError (text "console login request"))
          else let? user := resolveUser i in
               let? r := bindRequester r user in
               do* auditRecord (MkAudit AuditCertCodeResolved
                   (Some (AuditSubjectFromIdentity i (us_ID user))) false None (text "")
                   (detail [("request_id", AVString (cr_ID r));
                            ("cert_type", AVString (type_string (cr_Type r)));
                            ("username", AVString (rh_Username (cr_Head r)));
                            ("hostname", AVString (rh_Hostname (cr_Head r)));
                            ("tty", AVString (rh_TTY (cr_Head r)))]) zero_time) ;;
               Return (cr_ID r)) Q s2) as Hk.
  { intros b s2 Hev2 E12 HI2. destruct b; [by apply safe_ret, HE|].
    apply safe_bind_ok, safe_resolveUser; [done| |].
    { intros e s3 Hev3 HI3. apply HE; [chain|done]. }
    intros u s3 Hev3 HI3 Hu. assert (evolves s s3) as E3 by chain.
    apply safe_bind_ok. apply (safe_bindRequester _ _ _ i); [done| |done| |].
    { eapply seen_mono; [|exact Hseen]. chain. }
    { intros e s4 Hev4 HI4. apply HE; [chain|done]. }
    intros s4 Hev4 HI4 Hs4 Hu4. assert (evolves s s4) as E4 by chain.
    apply safe_bind, safe_Record; [done|]. intros s5 Hev5 HI5. apply safe_ret.
    eapply HQ; [chain|done|by eapply known_user_mono|].
    destruct (seen_mono _ _ _ Hev5 Hs4) as (row & Hrow & Hrr). exists row.
    split; [done|]. by apply Hrr. }
  destruct (bool_decide _); [|by apply safe_ret, (Hk false)].
  apply safe_bind, safe_ttlCutoffFor; [done|]. intros t s2 Hev2 HI2. assert (evolves s s2) as E2 by chain.
  destruct (past_cutoff r t); [|by apply safe_ret, (Hk false)].
  apply safe_bind, safe_expire; [done|]. intros s3 Hev3 HI3. apply safe_ret, (Hk true); [chain|chain|done].
Qed.

(** ** The sweep *)

Lemma fail_rows_rows ids reason t : forall d rs d',
  fail_rows ids reason t d = (rs, d') ->
  d' = set_requests d (db_requests d')
  /\ (forall id r, db_requests d !! id = Some r -> cr_Status r <> StatusSigning ->
       db_requests d' !! id = Some r)
  /\ (forall id r', db_requests d' !! id = Some r' -> exists r, db_requests d !! id = Some r
       /\ (r' = r \/ cr_Status r = StatusSigning
                      /\ r' = set_FailureReason (set_Resolved r StatusFailed t) reason))
  /\ (forall id r, db_requests d !! id = Some r -> is_Some (db_requests d' !! id))
  /\ Forall (fun r' => exists id, db_requests d' !! id = Some r' /\ cr_Status r' = StatusFailed) rs.
Proof.
  induction ids as [|id ids IH]; intros d rs d' H; simpl in H.
  { injection H as <- <-. split_and!; [by destruct d|done| |eauto|done].
    intros id r' Hr. exists r'. eauto. }
  destruct (db_requests d !! id) as [r|] eqn:Hr; [destruct (bool_decide _) eqn:Hb|]; [|by apply IH..].
  unbool. destruct (fail_rows ids reason t _) as [rs0 d0] eqn:E. injection H as <- <-.
  destruct (IH _ _ _ E) as (H1 & H2 & H3 & H4 & H5). simpl in *.
  set (x := set_FailureReason _ _) in *.
  assert (db_requests d0 !! id = Some x) as Hx.
  { apply H2; [apply lookup_insert_eq|done]. }
  split_and!.
  - rewrite H1. by destruct d.
  - intros k rk Hk Hst. destruct (decide (k = id)) as [->|]; [congruence|].
    apply H2; [by rewrite lookup_insert_ne|done].
  - intros k rk Hk. destruct (H3 k rk Hk) as (r1 & Hr1 & Hor).
    destruct (decide (k = id)) as [->|].
    + rewrite lookup_insert_eq in Hr1. injection Hr1 as <-. exists r. split; [done|right].
      split; [done|]. destruct Hor as [->|[Hs _]]; [done|by simpl in Hs].
    + rewrite lookup_insert_ne in Hr1 by done. eauto.
  - intros k rk Hk. destruct (decide (k = id)) as [->|]; [eauto|].
    eapply H4. by rewrite lookup_insert_ne.
  - constructor; [exists id; done|done].
Qed.

Lemma legal_fail_rows s ids reason t t2 :
  sys_clock s <= t2 ->
  legal srv s (set_clock (set_db s (fail_rows ids reason t (sys_db s)).2) t2).
Proof.
  intros Ht HI. destruct (fail_rows ids reason t (sys_db s)) as [rs d'] eqn:E.
  destruct (fail_rows_rows _ _ _ _ _ _ E) as (H1 & _ & H3 & H4 & _). simpl.
  assert (forall id r r', db_requests (sys_db s) !! id = Some r -> db_requests d' !! id = Some r' ->
            row_evolves r r') as Hrel.
  { intros id r r' Hr Hr'. destruct (H3 id r' Hr') as (r0 & Hr0 & Hor). simplify_eq.
    destruct Hor as [->|[Hs ->]]; [done|]. constructor; simpl; try done.
    right. right. rewrite Hs. set_solver. }
  assert (evolves s (set_clock (set_db s d') t2)) as Hev.
  { rewrite H1. constructor; proj; try reflexivity; [|lia]. intros id r Hr.
    destruct (H4 id r Hr) as [r' Hr']. eauto. }
  apply SInv_step; [done|done| |rewrite H1; by_frame..].
  intros id r' Hr'. destruct (H3 id r' Hr') as (r & Hr & Hor). rewrite H1. proj.
  destruct Hor as [->|[Hs ->]]; [by left|right].
  destruct (si_req _ _ HI _ _ Hr) as [K1 K2 K3 K4 K5 K6]. constructor; proj; try done.
  - by rewrite Hs in K4.
  - intros _. apply K5. rewrite Hs. set_solver.
Qed.

Lemma safe_report_failed rs : forall Q s,
  SInv s -> Forall (fun r => seen s r /\ cr_Status r = StatusFailed) rs ->
  (forall s2, evolves s s2 -> SInv s2 -> Q tt s2) -> safe (report_failed rs) Q s.
Proof.
  induction rs as [|r rs IH]; intros Q s HI Hrs HQ; simpl; [by apply safe_ret, HQ|].
  apply Forall_cons in Hrs as [[Hseen Hst] Hrs].
  apply safe_bind, safe_now; [done|]. intros s1 Hev1 HI1.
  apply safe_bind, safe_Record; [done|]. intros s2 Hev2 HI2. assert (evolves s s2) as E2 by chain.
  apply safe_bind, safe_notifyWaiter; [done| |].
  { destruct (seen_mono _ _ _ E2 Hseen) as (row & Hrow & Hrr).
    apply (out_ok_row srv _ _ row); [done|done|done|]. simpl.
    rewrite (row_evolves_terminal _ _ StatusFailed Hrr); [set_solver|done|set_solver]. }
  intros s3 Hev3 HI3. assert (evolves s s3) as E3 by chain. apply IH; [done| |].
  - eapply Forall_impl; [exact Hrs|]. intros x [Hx ?]. split; [by eapply seen_mono|done].
  - intros s4 Hev4 HI4. apply HQ; [chain|done].
Qed.

Lemma safe_failStranded ids Q s :
  SInv s -> (forall s2, evolves s s2 -> SInv s2 -> Q tt s2) -> safe (failStranded ids) Q s.
Proof.
  intros HI HQ. unfold failStranded. apply safe_bind, safe_now; [done|]. intros s1 Hev1 HI1.
  apply safe_bind, safe_exec; [done| |].
  2:{ intros s2 e Hev2 HI2. apply safe_ret, HQ; [chain|done]. }
  intros s2 t1 t2 Hev2 HI2 Ht1 Ht2.
  pose proof (legal_fail_rows s2 ids (text FailureReasonStranded) (sys_clock s1) t2 ltac:(lia)) as Hl.
  destruct (fail_rows ids _ _ (sys_db s2)) as [rs d'] eqn:E. simpl in Hl. split; [done|].
  intros Hev3 HI3. assert (evolves s (set_clock (set_db s2 d') t2)) as E3 by chain.
  destruct (fail_rows_rows _ _ _ _ _ _ E) as (_ & _ & _ & _ & H5).
  apply safe_report_failed; [done| |].
  - eapply Forall_impl; [exact H5|]. intros r (id & Hr & Hst). split; [|done].
    by destruct (lookup_seen srv (set_clock (set_db s2 d') t2) id r HI3 Hr).
  - intros s4 Hev4 HI4. apply HQ; [chain|done].
Qed.

Lemma safe_SweepStrandedRequests Q s :
  SInv s -> (forall r s2, evolves s s2 -> SInv s2 -> Q r s2) -> safe (SweepStrandedRequests srv) Q s.
Proof.
  intros HI HQ. unfold SweepStrandedRequests. apply safe_bind.
  assert (forall t s1, evolves s s1 -> SInv s1 ->
    safe (let? stranded := perform (Query (rows_where (is_stranded t))) in
          if (length stranded =? 0)%nat then Return tt
          else do* failStranded (map cr_ID stranded) ;; Return tt) Q s1) as Hk.
  { intros t s1 Hev1 HI1. apply safe_bind_ok, safe_query; [done|]. intros s2 Hev2 HI2.
    assert (evolves s s2) as E2 by chain. split; [by apply HQ|].
    destruct (_ =? 0)%nat; [by apply safe_ret, HQ|].
    apply safe_bind, safe_failStranded; [done|]. intros s3 Hev3 HI3. apply safe_ret, HQ; [chain|done]. }
  unfold strandedCutoff. destruct (_ <=? 0); [by apply safe_ret, Hk|].
  apply safe_bind, safe_now; [done|]. intros s1 Hev1 HI1. by apply safe_ret, Hk.
Qed.

Lemma safe_EvictResolved Q s :
  SInv s -> (forall s2, evolves s s2 -> SInv s2 -> Q tt s2) -> safe (EvictResolved srv) Q s.
Proof.
  intros HI HQ. unfold EvictResolved. apply safe_bind, safe_now; [done|]. intros s1 Hev1 HI1.
  apply safe_cache_evict; [done|]. intros s2 Hev2 HI2. apply HQ; [chain|done].
Qed.
End waiting.
