(* ===== verification/ReplySafe.v ===== *)
(** * The signer and the reply handler are legal under every interleaving

    A job that was published leads only to replies that match it; a reply that was
    published leads only to certificate rows and outcomes that match it. *)

From S2P Require Import Prelude Netip Model UserCode Accounts Condition Lifetime CertPolicy Sha256 World AuditLog CertRequest Signer SignReply Invariant Legal CertSafe.
Local Open Scope prog_scope.

Section signer.
Context (srv : Server) (ParseAuthorizedKey : string -> option sshPublicKey).
Notation SInv := (SInv srv).
Notation safe := (safe srv).

(** ** The signer *)

Lemma Sign_ok ca job fips limits rep :
  Sign ParseAuthorizedKey ca job fips limits = inl rep ->
  rep_RequestID rep = job_RequestID job /\ rep_Type rep = job_Type job /\ Failed rep = false
  /\ reply_matches rep job
  /\ 0 < job_ValidBefore job - job_ValidAfter job
       <= (if bool_decide (job_Type job = CertificateTypeService)
           then sl_MaxServiceCertLifetime limits else sl_MaxCertLifetime limits)
  /\ (exists t, certTypeFor (job_Type job) = inl t)
  /\ validate_principals (job_Principals job) = Ok tt
  /\ exists k, ParseAuthorizedKey (job_PublicKey job) = Some k
       /\ (fips = true -> exists t, FromSSHAlgorithm (pk_Type k) = Some t /\ IsApprovedInFIPS t = true).
Proof.
  unfold Sign, parsePublicKey. destruct (Before _ _ || _) eqn:Hb; [done|].
  apply orb_false_iff in Hb as [Hb He]. unfold Before in Hb.
  apply Z.ltb_ge in Hb. apply Z.eqb_neq in He.
  destruct (_ <? _) eqn:Hcap; [done|]. apply Z.ltb_ge in Hcap.
  destruct (certTypeFor _) as [t|] eqn:Ht; [|done].
  destruct (ParseAuthorizedKey _) as [k|] eqn:Hk; [|done].
  destruct (fips && _) eqn:Hf; [done|].
  destruct (validate_principals _) as [[]|] eqn:Hp; [|done].
  destruct ca as [sign|]; [|done]. destruct (sign _) as [m|]; [|done]. intros [= <-].
  split_and!; try done; [lia|by eexists|]. exists k. split; [done|]. intros ->. simpl in Hf.
  destruct (FromSSHAlgorithm _) as [a|]; [|done]. exists a. split; [done|].
  by destruct (IsApprovedInFIPS a).
Qed.

Lemma safe_signer_handle ca fips limits payload Q s :
  SInv s -> (forall j, payload = Enc j -> PubJob j ∈ sys_published s) ->
  (forall r s2, evolves s s2 -> SInv s2 -> Q r s2) ->
  safe (signer_handle ParseAuthorizedKey ca fips limits payload) Q s.
Proof.
  intros HI Hj HQ. destruct payload as [j|]; simpl; [|by apply safe_ret, HQ].
  apply safe_publish; [done| |by intros; apply HQ].
  intros s1 Hev HI1. exists j. split; [by eapply evolves_published, Hj|].
  destruct (Sign _ ca j fips limits) as [rep|e] eqn:E.
  - apply Sign_ok in E as (? & ? & ? & ? & _). done.
  - split_and!; [done|done|]. unfold Failed. simpl. intros Hf. exfalso. revert Hf.
    unfold Sign, parsePublicKey in E.
    repeat case_match; simplify_eq; simpl; try done;
      match goal with H : certTypeFor _ = inr _ |- _ => unfold certTypeFor in H; case_match; by simplify_eq end.
Qed.

End signer.

(** ** The reply handler *)

Section replies.
Context (srv : Server).
Notation SInv := (SInv srv).
Notation safe := (safe srv).

(** What a reply may be reported as. *)
Lemma reply_out_ok s rep st cert :
  SInv s -> PubReply rep ∈ sys_published s ->
  st = StatusApproved /\ Failed rep = false /\ cert = rep_Certificate rep \/ st = StatusFailed ->
  out_ok s (rep_RequestID rep) st cert "" "".
Proof.
  intros HI Hrep Hst. destruct (si_pub _ _ HI _ Hrep) as (j & Hj & Hid & Hty & _).
  rewrite Hid in *. constructor.
  - destruct (si_pub _ _ HI _ Hj) as [[_ (r & d & p & Hr & _ & _ & _ & Hs & _)]|[_ (x & e & Hx & _)]].
    + rewrite (rq_kind _ _ _ (si_req _ _ HI _ _ Hr)). exists r. split; [done|].
      by destruct Hst as [(-> & _)| ->].
    + rewrite (tk_kind _ _ _ (si_ret _ _ HI _ _ Hx)). naive_solver.
  - intros ->. exists rep. naive_solver.
Qed.

(** What the origin of a reply says about the request behind it. *)
Definition origin_ok (s : Sys) (rep : SignedReply) (o : certificateOrigin) : Prop :=
  forall rid, og_RequestID o = Some rid ->
    exists r, requests s !! rid = Some r /\ (forall u, og_UserID o = Some u -> cr_UserID r = Some u)
      /\ (rep_Type rep <> CertificateTypeService -> rid = rep_RequestID rep).

Lemma origin_ok_mono s s' rep o : evolves s s' -> origin_ok s rep o -> origin_ok s' rep o.
Proof.
  intros Hev H rid Hrid. destruct (H rid Hrid) as (r & Hr & Hu & ?).
  destruct (evolves_request _ _ _ _ Hev Hr) as (r' & Hr' & Hrr). exists r'.
  split_and!; [done| |done]. intros u Ho. by apply Hrr, Hu.
Qed.

Lemma safe_resolveOrigin rep Q s :
  SInv s -> (forall o s2, evolves s s2 -> SInv s2 -> origin_ok s2 rep o -> Q o s2) ->
  safe (resolveOrigin rep) Q s.
Proof.
  intros HI HQ. unfold resolveOrigin. destruct (bool_decide (rep_Type rep = _)) eqn:Hty; unbool.
  - apply safe_bind. unfold resolveRetrievalOwner. apply safe_bind, safe_query; [done|].
    intros s1 Hev1 HI1. split; [by apply safe_ret, safe_ret, HQ|].
    destruct (db_retrievals (sys_db s1) !! _) as [x|]; [|by apply safe_ret, safe_ret, HQ].
    apply safe_bind, safe_query; [done|]. intros s2 Hev2 HI2. assert (evolves s s2) as E2 by chain.
    split; [by apply safe_ret, safe_ret, HQ|].
    destruct (db_enrollments (sys_db s2) !! _) as [e|] eqn:He; [|by apply safe_ret, safe_ret, HQ].
    apply safe_ret, safe_ret, HQ; [done|done|]. intros rid. simpl.
    destruct (ek_row _ _ _ _ (si_enr _ _ HI2 _ _ He)) as (rid' & r & d & g & secs & -> & Hr & _ & _ & _ & _ & Hu & _).
    intros [= <-]. exists r. split_and!; [done| |done]. by intros u [= <-].
  - apply safe_bind, safe_query; [done|]. intros s1 Hev1 HI1. split; [by apply safe_ret, HQ|].
    destruct (db_requests (sys_db s1) !! _) as [r|] eqn:Hr; [|by apply safe_ret, HQ].
    destruct (reportedContext r) as [u h]. apply safe_ret, HQ; [done|done|].
    intros rid. simpl. intros [= <-]. by exists r.
Qed.

Lemma safe_recordCertificate rep Q s :
  SInv s -> PubReply rep ∈ sys_published s -> Failed rep = false ->
  (forall e s2, evolves s s2 -> SInv s2 -> Q (Err e) s2) ->
  (forall o s2, evolves s s2 -> SInv s2 -> is_Some (certificates s2 !! rep_Serial rep) -> Q (Ok o) s2) ->
  safe (recordCertificate rep) Q s.
Proof.
  intros HI Hrep Hf HE HQ. unfold recordCertificate. apply safe_bind, safe_resolveOrigin; [done|].
  intros o s1 Hev1 HI1 Ho. apply safe_bind, safe_uuid; [done|]. intros s2 cid Hev2 HI2 _.
  assert (evolves s s2) as E2 by chain. cbv zeta.
  apply safe_bind_ok, safe_exec; [done| |intros s3 e Hev3 HI3; apply HE; [chain|done]].
  intros s3 t1 t2 Hev3 HI3 Ht1 Ht2. unfold create_certificate. simpl ce_SerialNumber.
  assert (evolves s s3) as E3 by chain.
  assert (forall o' s4, evolves s s4 -> SInv s4 -> is_Some (certificates s4 !! rep_Serial rep) -> safe
    (do* auditRecord (issued_event rep o') ;; Return o') Q s4) as Hk.
  { intros o' s4 Hev4 HI4 [c Hc]. apply safe_bind, safe_Record; [done|]. intros s5 Hev5 HI5.
    apply safe_ret, HQ; [chain|done|]. exists c. eapply lookup_weaken; [exact Hc|apply Hev5]. }
  destruct (bool_decide _) eqn:Hex; unbool.
  - split; [apply legal_same_db; lia|]. intros Hev4 HI4. apply safe_bind, safe_bind, safe_query; [done|].
    intros s5 Hev5 HI5. assert (evolves s s5) as E5 by (etrans; [exact E2|]; by etrans).
    assert (is_Some (certificates s5 !! rep_Serial rep)) as Hc5.
    { destruct Hex as [c Hc]. exists c. eapply lookup_weaken; [exact Hc|apply Hev5]. }
    split; [by apply safe_ret, Hk|].
    destruct (_ <$> _) as [id|]; by apply safe_ret, Hk.
  - rewrite <- eq_None_not_Some in Hex. set (c := MkCertificate _ _ _ _ _ _ _ _ _ _ _ _).
    split.
    + apply (legal_create_certificate srv s3 c); [lia|done|]. intros _. constructor; [done|].
      exists rep. split_and!; try done; [by eapply evolves_published|]. simpl.
      destruct (og_RequestID o) as [rid|] eqn:Hrid; [|done].
      eapply (origin_ok_mono s1); [chain|exact Ho|done].
    + intros Hev4 HI4. apply safe_bind, safe_ret, Hk; [by exact (transitivity E2 Hev4)|done|].
      unfold certificates. simpl. rewrite lookup_insert_eq. eauto.
Qed.

Lemma safe_notifyIssued rep o Q s :
  SInv s -> (forall s2, evolves s s2 -> SInv s2 -> Q tt s2) -> safe (notifyIssued srv rep o) Q s.
Proof.
  intros HI HQ. unfold notifyIssued. destruct (empty_str _); [by apply safe_ret, HQ|].
  destruct (issued_kind _) as [k|]; [|by apply safe_ret, HQ]. apply safe_bind.
  assert (forall l s1, evolves s s1 -> SInv s1 -> safe (perform (Notify (MkNotice k
            (derefOrEmpty (og_UserID o)) (issued_payload srv rep o ++ l)))) Q s1) as Hk.
  { intros l s1 Hev1 HI1. apply safe_notify; [done|]. intros s2 Hev2 HI2. apply HQ; [chain|done]. }
  unfold applyApprover. destruct (empty_str _); [by apply safe_ret, Hk|].
  apply safe_bind, safe_query; [done|]. intros s1 Hev1 HI1. split; [by apply safe_ret, Hk|].
  destruct (db_decisions (sys_db s1) !! _) as [d|]; [|by apply safe_ret, Hk].
  apply safe_bind. unfold approverDisplayName.
  destruct (empty_str _); [by apply safe_ret, safe_ret, Hk|].
  apply safe_bind, safe_query; [done|]. intros s2 Hev2 HI2. assert (evolves s s2) as E2 by chain.
  split; [by apply safe_ret, safe_ret, Hk|].
  destruct (user_by_subject _ _); by apply safe_ret, safe_ret, Hk.
Qed.

Lemma safe_markResolved id st reason Q s :
  SInv s -> st ∈ [StatusApproved; StatusFailed] ->
  (forall r s2, evolves s s2 -> SInv s2 -> Q r s2) -> safe (markResolved id st reason) Q s.
Proof.
  intros HI Hst HQ. unfold markResolved. apply safe_bind, safe_now; [done|]. intros s1 Hev1 HI1.
  apply safe_bind_ok, safe_exec; [done| |intros; apply HQ; [chain|done]].
  intros s2 t1 t2 Hev2 HI2 Ht1 Ht2. unfold update_request.
  destruct (db_requests (sys_db s2) !! id) as [r|] eqn:Hr.
  2:{ split; [apply legal_same_db; lia|]. intros ? ?. apply safe_ret, HQ; [by etrans|done]. }
  destruct (bool_decide _) eqn:Hs; unbool.
  2:{ split; [apply legal_same_db; lia|]. intros ? ?. apply safe_ret, HQ; [by etrans|done]. }
  split; [|intros ? ?; apply safe_ret, HQ; [by etrans|done]].
  assert (cr_Status r ∈ [StatusSigning; StatusApproved; StatusFailed]) as Hsg by (rewrite Hs; set_solver).
  apply (legal_update_request _ _ _ r); [lia|done| | | |done|].
  - constructor; simpl; try done. right. right. done.
  - apply (rq_owner _ _ _ (si_req _ _ HI2 _ _ Hr)).
  - pose proof (rq_decision _ _ _ (si_req _ _ HI2 _ _ Hr)) as Hd. rewrite Hs in Hd. simpl.
    rewrite !elem_of_cons in Hst. destruct Hst as [->|[->|Hn]]; [done|done|by apply elem_of_nil in Hn].
  - simpl. intros ->. rewrite !elem_of_cons in Hst. destruct Hst as [?|[?|Hn]]; [done|done|by apply elem_of_nil in Hn].
Qed.

Lemma safe_reply_handle payload Q s :
  SInv s -> (forall rep, payload = Enc rep -> PubReply rep ∈ sys_published s) ->
  (forall r s2, evolves s s2 -> SInv s2 -> Q r s2) -> safe (reply_handle srv payload) Q s.
Proof.
  intros HI Hp HQ. destruct payload as [rep|]; simpl; [|by apply safe_ret, HQ].
  specialize (Hp rep eq_refl). destruct (Failed rep) eqn:Hf.
  - unfold resolveFailure. apply safe_bind, safe_notifyWaiter; [done| |].
    { apply reply_out_ok; [done|done|by right]. }
    intros s1 Hev1 HI1. apply safe_bind. unfold auditSignFailed.
    apply safe_bind, safe_query; [done|]. intros s2 Hev2 HI2. assert (evolves s s2) as E2 by chain.
    split; (apply safe_bind, safe_now; [done|]; intros s3 Hev3 HI3; apply safe_Record; [done|];
      intros s4 Hev4 HI4; assert (evolves s s4) as E4 by (etrans; [exact E2|]; chain);
      destruct (negb _); [by apply safe_ret, HQ|apply safe_markResolved; [done|set_solver|];
      intros; apply HQ; [chain|done]]).
  - unfold resolveSuccess. apply safe_bind_ok, safe_recordCertificate; [done|done|done|by intros; apply HQ|].
    intros o s1 Hev1 HI1 _. apply safe_bind, safe_notifyWaiter; [done| |].
    { apply reply_out_ok; [done|by eapply evolves_published|by left]. }
    intros s2 Hev2 HI2. assert (evolves s s2) as E2 by chain.
    apply safe_bind, safe_notifyIssued; [done|]. intros s3 Hev3 HI3. assert (evolves s s3) as E3 by chain.
    destruct (negb _); [by apply safe_ret, HQ|]. apply safe_markResolved; [done|set_solver|].
    intros. apply HQ; [chain|done].
Qed.
End replies.
