(* ===== verification/EnrollSafe.v ===== *)
(** * The enrollment, user and retention operations are legal under every interleaving *)

From S2P Require Import Prelude Netip Model UserCode Accounts Condition Lifetime CertPolicy Sha256 World AuditLog CertRequest Signer Enrollment Users Invariant Legal CertSafe.
Local Open Scope prog_scope.

Section enrollments.
Context (srv : Server).
Context (ParseAuthorizedKey : string -> option sshPublicKey).
Context (ParseAddress : string -> bool).
Notation SInv := (SInv srv).
Notation safe := (safe srv).

(** Every column update of an enrollment keeps what a certificate is built from. *)
Lemma upd_enrollment_evolves e a b c d f : enrollment_evolves e (upd_enrollment e a b c d f).
Proof. done. Qed.
Hint Resolve upd_enrollment_evolves : core.

Lemma safe_update_enrollment id guard f (Q : res bool -> Sys -> Prop) s :
  SInv s -> (forall e, enrollment_evolves e (f e)) ->
  (forall r s2, evolves s s2 -> SInv s2 -> Q r s2) ->
  safe (perform (Exec (fun _ _ => update_enrollment id guard f))) Q s.
Proof.
  intros HI Hf HQ. apply safe_exec; [done| |auto]. intros s1 t1 t2 Hev HI1 Ht1 Ht2.
  unfold update_enrollment. destruct (db_enrollments (sys_db s1) !! id) as [e|] eqn:He.
  2:{ split; [apply legal_same_db; lia|auto]. }
  destruct (guard e); [|split; [apply legal_same_db; lia|auto]].
  split; [|auto]. apply (legal_update_enrollment _ _ _ e); [lia|done|done].
Qed.

Lemma safe_notifyExpiredAttempt e ip t Q s :
  SInv s -> (forall s2, evolves s s2 -> SInv s2 -> Q tt s2) ->
  safe (notifyExpiredAttempt srv ParseAuthorizedKey e ip t) Q s.
Proof.
  intros HI HQ. unfold notifyExpiredAttempt. cbv zeta. destruct (_ <=? 0); [by apply safe_ret, HQ|].
  apply safe_bind, safe_update_enrollment; [done|intros; apply upd_enrollment_evolves|].
  intros r s1 Hev1 HI1. destruct r as [[]|]; [|by apply safe_ret, HQ..].
  destruct (describeAuthorizedKey _ _) as [fp kt].
  apply safe_notify; [done|]. intros s2 Hev2 HI2. apply HQ; [chain|done].
Qed.

(** A certificate handed out is the one a successful reply to this retrieval carried,
    and its row is recorded. *)
Lemma safe_awaitSignedCertificate fuel : forall id n Q s,
  SInv s -> (forall e s2, evolves s s2 -> SInv s2 -> Q (Err e) s2) ->
  (forall cert s2, evolves s s2 -> SInv s2 -> is_Some (certificates s2 !! n) ->
     (exists rep, PubReply rep ∈ sys_published s2 /\ rep_RequestID rep = id
        /\ Failed rep = false /\ rep_Certificate rep = cert) -> Q (Ok cert) s2) ->
  safe (awaitSignedCertificate srv fuel id n) Q s.
Proof.
  induction fuel as [|fuel IH]; intros id n Q s HI HE HQ; simpl; [by apply safe_ret, HE|].
  apply safe_bind, safe_receive; [done|]. intros s1 got Hev1 HI1 Hgot.
  assert (forall s2, evolves s s2 -> SInv s2 -> safe (awaitSignedCertificate srv fuel id n) Q s2) as Hk.
  { intros s2 Hev2 HI2. apply IH; [done|intros; apply HE; [chain|done]|].
    intros cert s3 Hev3 HI3. apply HQ; [chain|done]. }
  destruct got as [[m|]| | |]; [|by apply Hk|by apply safe_ret, HE..].
  specialize (Hgot m eq_refl).
  pose proof (si_pub _ _ HI1 _ Hgot) as Hm. simpl in Hm.
  destruct (om_Status m) eqn:Hst; try (by apply Hk); [|by apply safe_ret, HE].
  apply safe_bind, safe_query; [done|]. intros s2 Hev2 HI2. assert (evolves s s2) as E2 by chain.
  split; [by apply Hk|]. destruct (db_certificates (sys_db s2) !! n) as [c|] eqn:Hc; [|by apply Hk].
  apply safe_ret, HQ; [done|done|by eexists|].
  destruct (ok_cert _ _ _ _ _ _ Hm eq_refl) as (rep & Hrep & ? & ? & ?). exists rep.
  split_and!; try done. exact (evolves_published _ _ _ Hev2 Hrep).
Qed.

Lemma safe_markRetrievalSucceeded eid rid t Q s :
  SInv s -> (forall s2, evolves s s2 -> SInv s2 -> Q tt s2) ->
  safe (markRetrievalSucceeded eid rid t) Q s.
Proof.
  intros HI HQ. unfold markRetrievalSucceeded. apply safe_bind.
  assert (forall s1, evolves s s1 -> SInv s1 -> safe (do* perform (Exec (fun _ _ =>
        update_enrollment eid (fun row => negb (bool_decide (is_Some (en_RedeemedAt row))))
          (fun row => set_Redeemed row t))) ;; Ret tt) Q s1) as Hk.
  { intros s1 Hev1 HI1. apply safe_bind, safe_update_enrollment; [done|intros; apply upd_enrollment_evolves|].
    intros r s2 Hev2 HI2. apply safe_ret, HQ; [chain|done]. }
  apply safe_exec; [done| |auto]. intros s1 t1 t2 Hev1 HI1 Ht1 Ht2. unfold update_retrieval.
  destruct (db_retrievals (sys_db s1) !! rid) as [x|] eqn:Hx.
  2:{ split; [apply legal_same_db; lia|auto]. }
  split; [|auto]. destruct (si_ret _ _ HI1 _ _ Hx) as [H1 H2 H3].
  apply legal_put_retrieval; [lia| |done|done|done]. intros y Hy. unfold retrievals in Hy. by simplify_eq.
Qed.

Lemma safe_notifyRedemption e x ps t b1 b2 Q s :
  SInv s -> (forall s2, evolves s s2 -> SInv s2 -> Q tt s2) ->
  safe (notifyRedemption srv e x ps t b1 b2) Q s.
Proof. intros HI HQ. by apply safe_notify. Qed.

(** The job of a redemption is backed by its enrollment in every later state. *)
Lemma retrieval_job_backed s1 s6 s8 eid e rid ip sn now opts validBefore :
  evolves s1 s8 -> evolves s6 s8 -> enrollments s1 !! eid = Some e -> en_ID e = eid ->
  retrievals s6 !! rid = Some (MkRetrieval rid eid ip sn now false) ->
  (length (decodeEnrollmentPrincipals e) =? 0)%nat = false -> en_OptionSet e = Enc opts ->
  (forall secs, en_CertificateDurationSeconds e = Some secs -> validBefore = now + secs * Second) ->
  pub_ok srv s8 (PubJob (MkJob rid CertificateTypeService (en_PublicKey e) (decodeEnrollmentPrincipals e)
                           (en_KeyID e) opts now validBefore sn)).
Proof.
  intros E18 E68 He Heid Hx6 Hlen Hopts Hvb. right. split; [done|]. simpl.
  destruct (evolves_retrieval _ _ _ _ E68 Hx6) as (x8 & Hx8 & Hxx).
  destruct (evolves_enrollment _ _ _ _ E18 He) as (e8 & He8 & Hee8).
  destruct Hee8 as (E & F2 & F3 & F4 & F5 & F6). injection E as G1 G2 G3 G4 G5.
  injection Hxx as X1 X2 X3 X4 X5. exists x8, e8. rewrite X2. simpl. split_and!; try done.
  - rewrite F3. unfold decodeEnrollmentPrincipals in *. by destruct (en_Principals e).
  - by rewrite F2.
  - intros secs. rewrite F6. apply Hvb.
Qed.

(** What the certificate of a redemption traces back to, in every later state. *)
Definition redeemed_as (s : Sys) (code cert : string) : Prop :=
  exists rep e x, PubReply rep ∈ sys_published s /\ Failed rep = false
    /\ rep_Certificate rep = cert /\ retrievals s !! rep_RequestID rep = Some x
    /\ enrollments s !! er_EnrollmentID x = Some e /\ en_Code e = code
    /\ is_Some (certificates s !! er_CertificateSerial x).

Lemma redemption_traced s1 s6 s9 s rid eid e rep ip sn now :
  evolves s1 s -> evolves s6 s -> evolves s9 s -> enrollments s1 !! eid = Some e ->
  retrievals s6 !! rid = Some (MkRetrieval rid eid ip sn now false) ->
  is_Some (certificates s9 !! sn) -> PubReply rep ∈ sys_published s9 -> rep_RequestID rep = rid ->
  Failed rep = false -> redeemed_as s (en_Code e) (rep_Certificate rep).
Proof.
  intros F1 F6 F9 He Hx6 [c Hrow] Hrep Hrid Hfail.
  destruct (evolves_retrieval _ _ _ _ F6 Hx6) as (x12 & Hx12 & Hxx). injection Hxx as X1 X2 X3 X4 X5.
  destruct (evolves_enrollment _ _ _ _ F1 He) as (e12 & He12 & (E & _)). injection E as G1 G2 G3 G4 G5.
  exists rep, e12, x12. rewrite X2, X4, Hrid. simpl. split_and!; try done.
  - exact (evolves_published _ _ _ F9 Hrep).
  - exists c. eapply lookup_weaken; [exact Hrow|apply F9].
Qed.

(** Redeeming a code: the certificate answers a job built from the enrollment. *)
Lemma safe_Retrieve fuel code ip Q s :
  SInv s -> (forall e s2, evolves s s2 -> SInv s2 -> Q (Err e) s2) ->
  (forall cert s2, evolves s s2 -> SInv s2 -> redeemed_as s2 code cert -> Q (Ok cert) s2) ->
  safe (Retrieve srv ParseAuthorizedKey fuel code ip) Q s.
Proof.
  intros HI HE HQ. unfold Retrieve. apply safe_bind_ok, safe_query; [done|]. intros s1 Hev1 HI1.
  split; [by apply HE|]. destruct (enrollment_by_code code (sys_db s1)) as [e|] eqn:Hcode;
    [|by apply safe_ret, HE].
  apply find_row_Some in Hcode as (eid & He & Hc). unbool.
  pose proof (ek_id _ _ _ _ (si_enr _ _ HI1 _ _ He)) as Heid.
  apply safe_bind, safe_now; [done|]. intros s2 Hev2 HI2. assert (evolves s s2) as E2 by chain.
  destruct (negb _).
  { apply safe_bind, safe_notifyExpiredAttempt; [done|]. intros s3 Hev3 HI3.
    apply safe_ret, HE; [chain|done]. }
  cbv zeta. destruct (length _ =? 0)%nat eqn:Hlen; [by apply safe_ret, HE|].
  destruct (unmarshal _ _) as [opts|err] eqn:Hopts; [|by apply safe_ret, HE].
  apply safe_bind_ok, safe_serialNew; [done|]. intros sn s3 Hev3 HI3. assert (evolves s s3) as E3 by chain.
  destruct sn as [sn|err]; [|by apply HE].
  apply safe_bind, safe_uuid; [done|]. intros s4 rid Hev4 HI4 Hkind. assert (evolves s s4) as E4 by chain.
  set (now := sys_clock s2). assert (evolves s1 s4) as E14 by (etrans; [exact Hev2|]; chain).
  apply safe_bind_ok, safe_exec; [done| |intros; apply HE; [chain|done]].
  intros s5 t1 t2 Hev5 HI5 Ht1 Ht2. unfold create_retrieval. simpl er_ID.
  destruct (bool_decide _) eqn:Hfresh; [done|]. unbool. rewrite <- eq_None_not_Some in Hfresh.
  assert (evolves s1 s5) as E15 by chain.
  destruct (evolves_enrollment _ _ _ _ E15 He) as (e5 & He5 & Hee5).
  split.
  { apply legal_put_retrieval; [lia| |done|exact (evolves_issued _ _ _ _ Hev5 Hkind)|].
    - intros y Hy. unfold retrievals in Hy. congruence.
    - simpl. rewrite Heid. by exists e5. }
  rewrite Heid.
  intros Hev6 HI6. set (s6 := set_clock _ _) in *. assert (evolves s s6) as E6 by chain.
  assert (evolves s1 s6) as E16 by chain.
  assert (retrievals s6 !! rid = Some (MkRetrieval rid eid ip sn now false)) as Hx6 by apply lookup_insert_eq.
  apply safe_bind_ok, safe_subscribe; [done|]. intros s7 sub Hev7 HI7. assert (evolves s s7) as E7 by chain.
  destruct sub as [[]|err]; [|by apply HE].
  apply safe_bind_ok. apply safe_publish; [done| |].
  { intros s8 Hev8 HI8. assert (evolves s6 s8) as E68 by chain.
    apply (retrieval_job_backed s1 s6 s8 eid e rid ip); try done; [by etrans| |by intros secs ->].
    destruct (en_OptionSet e); simpl in Hopts; by simplify_eq. }
  intros s8 pub Hev8 HI8 _. assert (evolves s s8) as E8 by chain. destruct pub as [[]|err]; [|by apply HE].
  cbv zeta. apply safe_bind, safe_awaitSignedCertificate; [done| |].
  { intros err s9 Hev9 HI9. assert (evolves s s9) as E9 by chain.
    apply safe_bind, safe_notifyRedemption; [done|]. intros s10 Hev10 HI10.
    apply safe_ret, HE; [chain|done]. }
  intros cert s9 Hev9 HI9 Hrow (rep & Hrep & Hrid & Hfail & Hcert). assert (evolves s s9) as E9 by chain.
  apply safe_bind, safe_markRetrievalSucceeded; [done|]. intros s10 Hev10 HI10.
  apply safe_bind, safe_Record; [done|]. intros s11 Hev11 HI11.
  apply safe_bind, safe_notifyRedemption; [done|]. intros s12 Hev12 HI12.
  assert (evolves s9 s12) as F9 by (etrans; [exact Hev10|]; chain).
  assert (evolves s6 s12) as F6 by (etrans; [exact Hev7|]; etrans; [exact Hev8|]; chain).
  apply safe_ret, HQ; [chain|done|]. rewrite <- Hcert, <- Hc.
  by apply (redemption_traced s1 s6 s9 s12 rid eid e rep ip sn now); [etrans|..].
Qed.

Lemma safe_remind now e Q s :
  SInv s -> (forall r s2, evolves s s2 -> SInv s2 -> Q r s2) ->
  safe (remind srv ParseAuthorizedKey now e) Q s.
Proof.
  intros HI HQ. unfold remind. cbv zeta. apply safe_bind_ok, safe_update_enrollment;
    [done|intros; apply upd_enrollment_evolves|].
  intros r s1 Hev1 HI1. destruct r as [[]|]; [|by apply safe_ret, HQ|by apply HQ].
  simpl. destruct (describeAuthorizedKey _ _) as [fp kt].
  apply safe_bind, safe_notify; [done|]. intros s2 Hev2 HI2. apply safe_ret, HQ; [chain|done].
Qed.

Lemma safe_remind_all now due : forall Q s,
  SInv s -> (forall r s2, evolves s s2 -> SInv s2 -> Q r s2) ->
  safe (remind_all srv ParseAuthorizedKey now due) Q s.
Proof.
  induction due as [|e due IH]; intros Q s HI HQ; simpl; [by apply safe_ret, HQ|].
  apply safe_bind_ok, safe_remind; [done|]. intros r s1 Hev1 HI1. destruct r; [|by apply HQ].
  apply IH; [done|]. intros. apply HQ; [chain|done].
Qed.

Lemma safe_SweepExpiryReminders Q s :
  SInv s -> (forall r s2, evolves s s2 -> SInv s2 -> Q r s2) ->
  safe (SweepExpiryReminders srv ParseAuthorizedKey) Q s.
Proof.
  intros HI HQ. unfold SweepExpiryReminders. cbv zeta. destruct (_ <=? 0); [by apply safe_ret, HQ|].
  apply safe_bind, safe_now; [done|]. intros s1 Hev1 HI1. apply safe_bind_ok, safe_query; [done|].
  intros s2 Hev2 HI2. assert (evolves s s2) as E2 by chain. split; [by apply HQ|].
  apply safe_remind_all; [done|]. intros. apply HQ; [chain|done].
Qed.

Lemma safe_lookupEnrollment id Q s :
  SInv s -> (forall e s2, evolves s s2 -> SInv s2 -> Q (Err e) s2) ->
  (forall e s2, evolves s s2 -> SInv s2 -> enrollments s2 !! id = Some e -> Q (Ok e) s2) ->
  safe (lookupEnrollment id) Q s.
Proof.
  intros HI HE HQ. unfold lookupEnrollment. apply safe_bind_ok, safe_query; [done|].
  intros s1 Hev HI1. split; [by apply HE|].
  destruct (db_enrollments (sys_db s1) !! id) eqn:E; apply safe_ret; auto.
Qed.

Lemma safe_actorUserID i Q s :
  SInv s -> (forall a s2, evolves s s2 -> SInv s2 -> Q a s2) -> safe (actorUserID i) Q s.
Proof.
  intros HI HQ. unfold actorUserID. apply safe_bind, safe_query; [done|]. intros s1 Hev HI1.
  split; [by apply safe_ret, HQ|]. destruct (user_by_subject _ _); by apply safe_ret, HQ.
Qed.

(** Who may change an enrollment: a holder of its account, or a SOC member. *)
Definition may_manage (i : Identity) (e : Enrollment) : Prop :=
  ownsEnrollment srv i e = true \/ GrantsSOC (srv_Admin srv) (id_Groups i) = true.

Lemma may_manage_guard i e :
  negb (ownsEnrollment srv i e) && negb (GrantsSOC (srv_Admin srv) (id_Groups i)) = false ->
  may_manage i e.
Proof. unfold may_manage. destruct (ownsEnrollment _ _ _), (GrantsSOC _ _); naive_solver. Qed.

Lemma safe_SetNotificationEmail id i address Q s :
  SInv s -> (forall e s2, evolves s s2 -> SInv s2 -> Q (Err e) s2) ->
  (forall e s2, evolves s s2 -> SInv s2 -> may_manage i e -> Q (Ok tt) s2) ->
  safe (SetNotificationEmail srv ParseAddress id i address) Q s.
Proof.
  intros HI HE HQ. unfold SetNotificationEmail.
  destruct (validateNotificationEmail _ _); [|by apply safe_ret, HE].
  apply safe_bind_ok, safe_lookupEnrollment; [done|done|]. intros e s1 Hev1 HI1 He.
  destruct (negb _ && _) eqn:Hg; [by apply safe_ret, HE|]. apply may_manage_guard in Hg.
  apply safe_bind_ok, safe_update_enrollment; [done|intros; apply upd_enrollment_evolves|].
  intros r s2 Hev2 HI2. assert (evolves s s2) as E2 by chain. destruct r; [|by apply HE].
  apply safe_bind, safe_actorUserID; [done|]. intros actor s3 Hev3 HI3. assert (evolves s s3) as E3 by chain.
  apply safe_bind, safe_Record; [done|]. intros s4 Hev4 HI4.
  apply safe_ret, (HQ e); [chain|done|done].
Qed.

Lemma safe_ExpireForIdentity id i reason Q s :
  SInv s -> (forall e s2, evolves s s2 -> SInv s2 -> Q (Err e) s2) ->
  (forall e s2, evolves s s2 -> SInv s2 -> may_manage i e -> Q (Ok tt) s2) ->
  safe (ExpireForIdentity srv id i reason) Q s.
Proof.
  intros HI HE HQ. unfold ExpireForIdentity.
  destruct (ValidateAuditReason _ _) as [rs|]; [|by apply safe_ret, HE].
  apply safe_bind_ok, safe_lookupEnrollment; [done|done|]. intros e s1 Hev1 HI1 He.
  destruct (negb (ownsEnrollment _ _ _) && _) eqn:Hg; [by apply safe_ret, HE|]. apply may_manage_guard in Hg.
  apply safe_bind, safe_now; [done|]. intros s2 Hev2 HI2. assert (evolves s s2) as E2 by chain.
  destruct (negb _); [by eapply safe_ret, HQ|].
  apply safe_bind, safe_actorUserID; [done|]. intros actor s3 Hev3 HI3. assert (evolves s s3) as E3 by chain.
  cbv zeta. apply safe_bind, safe_prepare; [done|]. intros prepared s4 Hev4 HI4.
  assert (evolves s s4) as E4 by chain.
  apply safe_bind_ok, safe_exec; [done| |intros; apply HE; [chain|done]].
  intros s5 t1 t2 Hev5 HI5 Ht1 Ht2. run_tx a d' E. unfold tx_bind, update_enrollment in E.
  destruct (db_enrollments (sys_db s5) !! id) as [e5|] eqn:He5; [|done]. simpl in E.
  destruct a. apply (auditTx_ok prepared) in E as [l ->]. split.
  - pose proof (legal_update_enrollment srv s5 id e5 (set_Expired e5 (sys_clock s2)) t2) as H1.
    etrans; [apply H1; [lia|done|apply upd_enrollment_evolves]|].
    set (s6 := set_clock _ _). apply (legal_audit srv s6 l t2). simpl. lia.
  - intros Hev6 HI6. assert (evolves s (set_clock (set_db s5 (set_audit (set_enrollments (sys_db s5)
      (<[id:=set_Expired e5 (sys_clock s2)]> (db_enrollments (sys_db s5)))) l)) t2)) as E6 by chain.
    apply safe_bind, safe_LogOnly; [done|]. intros s7 Hev7 HI7. eapply safe_ret, HQ; [chain|done|done].
Qed.

(** ** Listings only read *)

Lemma safe_ListForIdentity i Q s :
  SInv s -> (forall r s2, evolves s s2 -> SInv s2 -> Q r s2) ->
  safe (ListForIdentity srv ParseAuthorizedKey i) Q s.
Proof.
  intros HI HQ. unfold ListForIdentity. cbv zeta. destruct (_ =? 0)%nat; [by apply safe_ret, HQ|].
  apply safe_bind_ok, safe_query; [done|]. intros s1 Hev1 HI1. split; [by apply HQ|].
  destruct (_ =? 0)%nat; [by apply safe_ret, HQ|].
  apply safe_bind_ok. unfold retrievalCounts. apply safe_query; [done|].
  intros s2 Hev2 HI2. assert (evolves s s2) as E2 by chain. split; [by apply HQ|].
  apply safe_bind_ok. unfold latestRetrievals. apply safe_query; [done|].
  intros s3 Hev3 HI3. assert (evolves s s3) as E3 by chain. split; [by apply HQ|]. by apply safe_ret, HQ.
Qed.

Lemma safe_ListRetrievals id i Q s :
  SInv s -> (forall r s2, evolves s s2 -> SInv s2 -> Q r s2) -> safe (ListRetrievals srv id i) Q s.
Proof.
  intros HI HQ. unfold ListRetrievals. apply safe_bind_ok, safe_query; [done|]. intros s1 Hev1 HI1.
  split; [by apply HQ|]. destruct (find_row _ _) as [e|]; [|by apply safe_ret, HQ].
  destruct (_ && _); [by apply safe_ret, HQ|].
  apply safe_bind_ok, safe_query; [done|]. intros s2 Hev2 HI2. assert (evolves s s2) as E2 by chain.
  split; [by apply HQ|].
  apply safe_bind_ok, safe_query; [done|]. intros s3 Hev3 HI3. assert (evolves s s3) as E3 by chain.
  split; [by apply HQ|]. by apply safe_ret, HQ.
Qed.

(** ** Users and retention *)

Lemma safe_upsertUser i Q s :
  SInv s -> (forall r s2, evolves s s2 -> SInv s2 -> Q r s2) -> safe (upsertUser i) Q s.
Proof.
  intros HI HQ. unfold upsertUser. apply safe_bind, safe_now; [done|]. intros s1 Hev1 HI1.
  apply safe_bind, safe_uuid; [done|]. intros s2 id Hev2 HI2 _. assert (evolves s s2) as E2 by chain.
  cbv zeta. apply safe_exec; [done| |intros; apply HQ; [chain|done]].
  intros s3 t1 t2 Hev3 HI3 Ht1 Ht2. unfold put_user. simpl us_Subject. simpl us_ID.
  destruct (user_by_subject _ _) as [old|] eqn:Hold.
  - apply find_row_Some in Hold as (k & Hk & _).
    pose proof (si_user _ _ HI3 k old Hk) as Hid. split.
    + apply legal_put_user; [lia|done|]. intros y Hy. unfold users in Hy. rewrite Hid in Hy. by simplify_eq.
    + intros. apply HQ; [chain|done].
  - destruct (bool_decide _) eqn:Hex; [done|]. unbool. rewrite <- eq_None_not_Some in Hex. split.
    + apply legal_put_user; [lia|done|]. intros y Hy. unfold users in Hy. congruence.
    + intros. apply HQ; [chain|done].
Qed.

Lemma safe_checkUserDisabled sub Q s :
  SInv s -> (forall r s2, evolves s s2 -> SInv s2 -> Q r s2) -> safe (checkUserDisabled sub) Q s.
Proof.
  intros HI HQ. unfold checkUserDisabled. apply safe_bind, safe_query; [done|]. intros s1 Hev HI1.
  split; [by apply safe_ret, HQ|]. destruct (user_by_subject _ _); [|by apply safe_ret, HQ].
  destruct (bool_decide _); by apply safe_ret, HQ.
Qed.

Lemma safe_deleteOldestAuditEvents fuel : forall limit deleted Q s,
  SInv s -> (forall r s2, evolves s s2 -> SInv s2 -> Q r s2) ->
  safe (deleteOldestAuditEvents fuel limit deleted) Q s.
Proof.
  induction fuel as [|fuel IH]; intros limit deleted Q s HI HQ; simpl; [by apply safe_ret, HQ|].
  destruct (_ <=? _)%nat; [by apply safe_ret, HQ|].
  apply safe_bind_ok, safe_query; [done|]. intros s1 Hev1 HI1. split; [by apply HQ|].
  destruct (_ =? 0)%nat; [by apply safe_ret, HQ|].
  apply safe_bind_ok, safe_exec; [done| |intros; apply HQ; [chain|done]].
  intros s2 t1 t2 Hev2 HI2 Ht1 Ht2. simpl. split; [apply legal_audit; lia|].
  intros Hev3 HI3. apply IH; [done|]. intros. apply HQ; [|done]. etrans; [exact Hev1|chain].
Qed.

Lemma safe_SweepAuditEvents retention maxRows Q s :
  SInv s -> (forall r s2, evolves s s2 -> SInv s2 -> Q r s2) ->
  safe (SweepAuditEvents retention maxRows) Q s.
Proof.
  intros HI HQ. unfold SweepAuditEvents. apply safe_bind_ok.
  assert (forall s1, evolves s s1 -> SInv s1 -> safe (if maxRows <=? 0 then Return tt
    else let? total := perform (Query (fun d => Z.of_nat (length (db_audit d)))) in
    if total <=? maxRows then Return tt
    else
      let excess := Z.to_nat (total - maxRows) in
      let? _ := deleteOldestAuditEvents (S excess) excess 0 in
      Return tt) Q s1) as Hk.
  { intros s1 Hev1 HI1. destruct (_ <=? 0); [by apply safe_ret, HQ|].
    apply safe_bind_ok, safe_query; [done|]. intros s2 Hev2 HI2. assert (evolves s s2) as E2 by chain.
    split; [by apply HQ|]. destruct (_ <=? _); [by apply safe_ret, HQ|]. cbv zeta.
    apply safe_bind_ok, safe_deleteOldestAuditEvents; [done|]. intros r s3 Hev3 HI3.
    assert (evolves s s3) as E3 by chain. destruct r; [by apply safe_ret, HQ|by apply HQ]. }
  destruct (0 <? retention); [|by apply safe_ret, Hk].
  apply safe_bind, safe_now; [done|]. intros s1 Hev1 HI1. cbv zeta.
  apply safe_exec; [done| |intros; apply HQ; [chain|done]].
  intros s2 t1 t2 Hev2 HI2 Ht1 Ht2. cbv zeta beta. split; [apply legal_audit; lia|]. intros. apply Hk; [chain|done].
Qed.
End enrollments.
