(* ===== verification/System.v ===== *)
(** * The running system

    Handler calls run as threads over one shared state, one atomic effect at a time in
    any order; the signer and the reply handler are started by what was published; a
    restart loses every thread and the outcome cache. Every reachable state satisfies
    [SInv], every step evolves the state, and every answer a finished call gave is
    still true. *)

From S2P Require Import Prelude Netip Model UserCode Accounts Condition Lifetime CertPolicy Sha256 World AuditLog CertRequest CertWait Signer SignReply Enrollment Users Invariant Legal CertSafe WaitSafe ReplySafe EnrollSafe.

(** ** Calls *)

Inductive call : Type -> Type :=
| CallCreateRequest (p : NewCertRequestParams) : call (res CreatedRequest)
| CallClaimApprovalPage (id presented userAgent : string) : call (res ClaimPageResult)
| CallResolveUserCode (submitted : list Z) (i : Identity) : call (res string)
| CallDetail (id : string) (i : Identity) : call (res RequestDetail)
| CallApprove (id : string) (i : Identity) (dc : DecisionContext) (sel : ApprovalSelection) : call (res unit)
| CallDeny (id : string) (i : Identity) (dc : DecisionContext) : call (res unit)
| CallWait (fuel : nat) (id : string) : call (res (option WaitOutcome))
| CallSweepStranded : call (res unit)
| CallEvictResolved : call unit
| CallRetrieve (fuel : nat) (code sourceIP : string) : call (res string)
| CallSetNotificationEmail (id : string) (i : Identity) (address : string) : call (res unit)
| CallExpireForIdentity (id : string) (i : Identity) (reason : string) : call (res unit)
| CallSweepExpiryReminders : call (res unit)
| CallListForIdentity (i : Identity) : call (res (list ServiceEnrollment))
| CallListRetrievals (requestID : string) (i : Identity) : call (res RetrievalLog)
| CallUpsertUser (i : Identity) : call (res unit)
| CallCheckUserDisabled (subject : string) : call (res unit)
| CallSweepAuditEvents (retention : Duration) (maxRows : Z) : call (res unit)
| CallSign (ca : option (sshCertificate -> option string)) (fips : bool) (limits : SignLimits)
    (payload : encoded SigningJob) : call (res unit)
| CallReply (payload : encoded SignedReply) : call (res unit).

(** A consumer is called with bytes of its topic: a published message, or garbage. *)
Definition startable {A} (c : call A) (s : Sys) : Prop :=
  match c with
  | CallSign _ _ _ (Enc j) => PubJob j ∈ sys_published s
  | CallReply (Enc rep) => PubReply rep ∈ sys_published s
  | _ => True
  end.

Section system.
Context (srv : Server).
Context (ParseAuthorizedKey : string -> option sshPublicKey) (ParseAddress : string -> bool).

Definition handler {A} (c : call A) : prog A :=
  match c in call A return prog A with
  | CallCreateRequest p => CreateRequest srv p
  | CallClaimApprovalPage id presented ua => ClaimApprovalPage id presented ua
  | CallResolveUserCode submitted i => ResolveUserCode srv submitted i
  | CallDetail id i => Detail srv id i
  | CallApprove id i dc sel => Approve srv ParseAuthorizedKey ParseAddress id i dc sel
  | CallDeny id i dc => Deny srv id i dc
  | CallWait fuel id => Wait srv fuel id
  | CallSweepStranded => SweepStrandedRequests srv
  | CallEvictResolved => EvictResolved srv
  | CallRetrieve fuel code ip => Retrieve srv ParseAuthorizedKey fuel code ip
  | CallSetNotificationEmail id i a => SetNotificationEmail srv ParseAddress id i a
  | CallExpireForIdentity id i reason => ExpireForIdentity srv id i reason
  | CallSweepExpiryReminders => SweepExpiryReminders srv ParseAuthorizedKey
  | CallListForIdentity i => ListForIdentity srv ParseAuthorizedKey i
  | CallListRetrievals id i => ListRetrievals srv id i
  | CallUpsertUser i => upsertUser i
  | CallCheckUserDisabled sub => checkUserDisabled sub
  | CallSweepAuditEvents retention maxRows => SweepAuditEvents retention maxRows
  | CallSign ca fips limits payload => signer_handle ParseAuthorizedKey ca fips limits payload
  | CallReply payload => reply_handle srv payload
  end.

(** ** Configurations *)

(** A slot holds a call and what is left of its program; a finished call keeps its
    answer ([Ret]). *)
Inductive slot : Type :=
| Idle
| Thread (A : Type) (c : call A) (rest : prog A).

Record config : Type := Config { cf_threads : nat -> slot; cf_sys : Sys }.

Definition put (ts : nat -> slot) (i : nat) (x : slot) : nat -> slot :=
  fun j => if Nat.eqb j i then x else ts j.

Definition empty_db : DB := MkDB ∅ ∅ ∅ ∅ ∅ ∅ [].
Definition boot (t : GoTime) : Sys := MkSys empty_db ∅ [] [] [] t ∅.

Inductive step : config -> config -> Prop :=
| step_call ts s i A (c : call A) :
    ts i = Idle -> startable c s -> step (Config ts s) (Config (put ts i (Thread A c (handler c))) s)
| step_effect ts s i A (c : call A) X (e : eff X) k ch x s' :
    ts i = Thread A c (Step e k) -> exec_eff ch s e = (x, s') ->
    step (Config ts s) (Config (put ts i (Thread A c (k x))) s')
| step_restart ts s : step (Config ts s) (Config (fun _ => Idle) (set_resolved s ∅)).

(** Any number of steps. *)
Inductive steps : config -> config -> Prop :=
| steps_refl cf : steps cf cf
| steps_cons a b c : step a b -> steps b c -> steps a c.

(** Reached from an empty database at some start time. *)
Definition reachable (cf : config) : Prop := exists t, steps (Config (fun _ => Idle) (boot t)) cf.

(** ** What the answers promise *)

(** The promise of an answer, still true in every later state. *)
Definition promise {A} (c : call A) : A -> Sys -> Prop :=
  match c in call A return A -> Sys -> Prop with
  | CallCreateRequest _ => fun a s =>
      match a with Ok x => exists r, requests s !! cd_ID x = Some r | Err _ => True end
  | CallClaimApprovalPage id presented _ => fun a s =>
      match a with Ok x => claim_ok s id presented x | Err _ => True end
  | CallResolveUserCode _ i => fun a s =>
      match a with
      | Ok id => exists r u usr, requests s !! id = Some r /\ cr_UserID r = Some u
          /\ users s !! u = Some usr /\ us_Subject usr = id_Subject i
      | Err _ => True
      end
  | CallDetail id i => fun a s =>
      match a with
      | Ok _ => exists r u usr, requests s !! id = Some r /\ cr_UserID r = Some u
          /\ users s !! u = Some usr /\ us_Subject usr = id_Subject i
      | Err _ => True
      end
  | CallApprove id i _ _ => fun a s =>
      match a with
      | Ok _ => approved_by s id i
          /\ (forall r, requests s !! id = Some r -> cr_Type r <> CertificateTypeService -> signing_job s id)
      | Err _ => True
      end
  | CallDeny id i _ => fun a s =>
      match a with
      | Ok _ => exists d, decisions s !! id = Some d /\ de_Outcome d = DecisionDenied
                  /\ de_Subject d = id_Subject i
      | Err _ => True
      end
  | CallWait _ id => fun a s =>
      match a with Ok (Some o) => cached_ok s id o | _ => True end
  | CallRetrieve _ code _ => fun a s =>
      match a with
      | Ok cert => exists rep e x, PubReply rep ∈ sys_published s /\ Failed rep = false
          /\ rep_Certificate rep = cert /\ retrievals s !! rep_RequestID rep = Some x
          /\ enrollments s !! er_EnrollmentID x = Some e /\ en_Code e = code
          /\ is_Some (certificates s !! er_CertificateSerial x)
      | Err _ => True
      end
  | _ => fun _ _ => True
  end.
(** ** The invariant of configurations *)

(** The server was built from its certificate options, as at startup. *)
Definition configured : Prop := exists TemplateParse claims,
  compileCertOptions TemplateParse (srv_Options srv) claims = Ok (srv_engine srv, srv_policies srv).

Definition compiled_table : Prop := forall ty p, srv_policies srv ty = Some p ->
  exists o, options_for (srv_Options srv) ty = Some o /\ policy_sound (srv_Options srv) ty o p.

Lemma owned_mono s s' id subject :
  evolves s s' ->
  (exists r u usr, requests s !! id = Some r /\ cr_UserID r = Some u
     /\ users s !! u = Some usr /\ us_Subject usr = subject) ->
  exists r u usr, requests s' !! id = Some r /\ cr_UserID r = Some u
     /\ users s' !! u = Some usr /\ us_Subject usr = subject.
Proof.
  intros Hev (r & u & usr & Hr & Hu & Husr & Hs).
  destruct (evolves_request _ _ _ _ Hev Hr) as (r' & Hr' & Hrr).
  destruct (evolves_user _ _ _ _ Hev Husr) as (usr' & ? & ?).
  exists r', u, usr'. split_and!; [done|by apply Hrr|done|congruence].
Qed.

Lemma promise_mono {A} (c : call A) a s s' :
  SInv srv s -> evolves s s' -> promise c a s -> promise c a s'.
Proof.
  intros HI Hev. destruct c; simpl; try done; destruct a as [a|]; try done.
  - intros (r & Hr). destruct (evolves_request _ _ _ _ Hev Hr) as (r' & ? & _). eauto.
  - by apply claim_ok_mono.
  - by apply owned_mono.
  - by apply owned_mono.
  - intros [Ha Hj]. split; [by eapply approved_by_mono|]. intros r' Hr' Hty.
    destruct Ha as (d & Hd & _).
    destruct (dk_row _ _ _ _ (si_dec _ _ HI _ _ Hd)) as (r & u & usr & Hr & _).
    destruct (evolves_request _ _ _ _ Hev Hr) as (r2 & Hr2 & Hrr). simplify_eq.
    rewrite (row_evolves_type _ _ Hrr) in Hty. destruct (Hj r Hr Hty) as (j & ? & ?).
    exists j. split; [by eapply evolves_published|done].
  - intros (d & Hd & ? & ?). exists d. split; [by eapply evolves_decision|done].
  - destruct a as [o|]; [|done]. by apply out_ok_mono.
  - intros (rep & e & x & H1 & H2 & H3 & Hx & He & Hc & [ce Hce]).
    destruct (evolves_retrieval _ _ _ _ Hev Hx) as (x' & Hx' & Hxx). injection Hxx as X1 X2 X3 X4 X5.
    destruct (evolves_enrollment _ _ _ _ Hev He) as (e' & He' & (E & _)). injection E as G1 G2 G3 G4 G5.
    exists rep, e', x'. rewrite X2, X4. split_and!; try done; [by eapply evolves_published|congruence|].
    exists ce. eapply lookup_weaken; [exact Hce|apply Hev].
Qed.

Lemma handler_safe {A} (c : call A) s :
  compiled_table -> SInv srv s -> startable c s -> safe srv (handler c) (promise c) s.
Proof.
  intros Hc HI Hs. destruct c; simpl in *.
  - apply safe_CreateRequest; [done|done|]. intros; simpl; eauto.
  - apply safe_ClaimApprovalPage; [done|done|]. by intros.
  - apply safe_ResolveUserCode; [done|done|].
    intros id u s2 Hev HI2 (usr & ? & ?) (r & ? & ?). simpl. eauto 10.
  - apply safe_Detail; [done|done|].
    intros x u s2 Hev HI2 (usr & ? & ?) (r & Hr & Hrr) <- Hu. simpl.
    exists r, (us_ID u), usr. split_and!; [done|by apply Hrr|done|done].
  - apply safe_Approve; [done|done|done|]. by intros.
  - apply safe_Deny; [done|done|]. by intros.
  - apply safe_Wait; [done|done|done|]. by intros.
  - by apply safe_SweepStrandedRequests.
  - by apply safe_EvictResolved.
  - apply safe_Retrieve; [done|done|]. by intros.
  - by apply safe_SetNotificationEmail.
  - by apply safe_ExpireForIdentity.
  - by apply safe_SweepExpiryReminders.
  - by apply safe_ListForIdentity.
  - by apply safe_ListRetrievals.
  - by apply safe_upsertUser.
  - by apply safe_checkUserDisabled.
  - by apply safe_SweepAuditEvents.
  - apply safe_signer_handle; [done| |done]. by intros j ->.
  - apply safe_reply_handle; [done| |done]. by intros rep ->.
Qed.

Definition thread_ok (s : Sys) (th : slot) : Prop :=
  match th with
  | Idle => True
  | Thread _ c rest => safe srv rest (promise c) s
  end.

Definition config_ok (cf : config) : Prop :=
  SInv srv (cf_sys cf) /\ forall i, thread_ok (cf_sys cf) (cf_threads cf i).

Lemma thread_ok_step s s' th : SInv srv s -> legal srv s s' -> thread_ok s th -> thread_ok s' th.
Proof.
  intros HI Hl. destruct th as [|A c rest]; [done|]. unfold thread_ok, safe. intros H.
  apply (wp_rely _ _ _ _ s); [|apply _|done|done].
  intros a Ha _. destruct (Hl HI) as [Hev _]. exact (promise_mono _ _ _ _ HI Hev Ha).
Qed.

Lemma put_ok s ts i x :
  (forall j, thread_ok s (ts j)) -> thread_ok s x -> forall j, thread_ok s (put ts i x j).
Proof. intros H Hx j. unfold put. by destruct (Nat.eqb j i). Qed.

Lemma SInv_boot t : SInv srv (boot t).
Proof. constructor; simpl; set_solver. Qed.

Lemma step_ok cf cf' :
  compiled_table -> step cf cf' -> config_ok cf ->
  config_ok cf' /\ evolves (cf_sys cf) (cf_sys cf').
Proof.
  intros Hc Hstep [HI Hts]. destruct Hstep as [ts s i A c Hi Hs|ts s i A c X e k ch x s' Hi Hex|ts s];
    unfold config_ok; simpl in *.
  - split; [|done]. split; [done|]. apply put_ok; [done|]. by apply handler_safe.
  - pose proof (Hts i) as Ht. rewrite Hi in Ht. unfold thread_ok, safe in Ht. simpl in Ht.
    specialize (Ht s (reflexivity s) ch). rewrite Hex in Ht. destruct Ht as [HG Hk].
    destruct (HG HI) as [Hev HI']. split; [|done]. split; [done|].
    apply put_ok; [|done]. intros j. exact (thread_ok_step _ _ _ HI HG (Hts j)).
  - assert (legal srv s (set_resolved s ∅)) as Hl.
    { intros _. apply SInv_step; [done|evolve|by_frame..| |by_frame]. intros id o Ho. simpl in Ho.
      by rewrite lookup_empty in Ho. }
    destruct (Hl HI). by split; [split|].
Qed.

Lemma steps_ok cf cf' :
  compiled_table -> steps cf cf' -> config_ok cf ->
  config_ok cf' /\ evolves (cf_sys cf) (cf_sys cf').
Proof.
  intros Hc H. induction H as [cf|a b c Hab Hbc IH]; intros Hok; [done|].
  destruct (step_ok _ _ Hc Hab Hok) as [Hb Hev]. destruct (IH Hb) as [Hcc Hev2].
  split; [done|]. by etrans.
Qed.

Lemma configured_table : configured -> compiled_table.
Proof. intros (parse & claims & H). exact (proj2 (compileCertOptions_ok _ _ _ _ _ H)). Qed.

Lemma reachable_ok cf : configured -> reachable cf -> config_ok cf.
Proof.
  intros Hc%configured_table [t Ht]. apply (steps_ok _ _ Hc Ht). split; [apply SInv_boot|done].
Qed.
Lemma reachable_SInv ts s : configured -> reachable (Config ts s) -> SInv srv s.
Proof. intros Hc Hr. apply (reachable_ok _ Hc Hr). Qed.

(** A finished call's answer keeps its promise. *)
Lemma reachable_promise ts s i A (c : call A) a :
  configured -> reachable (Config ts s) -> ts i = Thread A c (Ret a) -> promise c a s.
Proof.
  intros Hc Hr Hi. pose proof (proj2 (reachable_ok _ Hc Hr) i) as H. simpl in H. by rewrite Hi in H.
Qed.

(** ** Running one call to its end without interference *)

Lemma safe_run {A} (p : prog A) Q : forall cs s,
  safe srv p Q s -> SInv srv s -> SInv srv (run cs p s).2.
Proof.
  induction p as [a|X e k IH]; intros cs s Hp HI; [done|]. unfold safe in *. simpl in *.
  specialize (Hp s (reflexivity s) (default calm (head cs))). destruct (exec_eff _ s e) as [x s2].
  destruct Hp as [HG Hk]. apply (IH x); [done|]. by apply HG.
Qed.

Lemma call_SInv {A} (c : call A) cs s :
  configured -> SInv srv s -> startable c s -> SInv srv (run cs (handler c) s).2.
Proof. intros Hc HI Hs. apply (safe_run _ (promise c)); [|done]. by apply handler_safe; [apply configured_table|..]. Qed.

Lemma steps_trans a b c : steps a b -> steps b c -> steps a c.
Proof. induction 1 as [|x y z Hxy Hyz IH]; [done|]. intros Hc. eapply steps_cons; [done|by apply IH]. Qed.

Lemma run_steps A (c : call A) (p : prog A) : forall cs ts s i a s',
  ts i = Thread A c p -> run cs p s = (a, s') ->
  exists ts', steps (Config ts s) (Config ts' s') /\ ts' i = Thread A c (Ret a)
    /\ forall j, j <> i -> ts' j = ts j.
Proof.
  induction p as [b|X e k IH]; intros cs ts s i a s' Hi Hrun; simpl in Hrun.
  { injection Hrun as <- <-. exists ts. split_and!; [apply steps_refl|done|done]. }
  destruct (exec_eff (default calm (head cs)) s e) as [x s1] eqn:Hex.
  destruct (IH x (tail cs) (put ts i (Thread A c (k x))) s1 i a s') as (ts' & Hsteps & Hi' & Hj).
  { unfold put. by rewrite Nat.eqb_refl. }
  { done. }
  exists ts'. split_and!; [|done|].
  - eapply steps_cons; [|exact Hsteps]. by eapply step_effect.
  - intros j Hne. rewrite Hj by done. unfold put. by rewrite (proj2 (Nat.eqb_neq j i)).
Qed.

(** [p] after [n] of its own steps. *)
Fixpoint advance {A} (n : nat) (cs : list choice) (p : prog A) (s : Sys) : prog A * Sys :=
  match n, p with
  | S n', Step e k =>
      let '(x, s') := exec_eff (default calm (head cs)) s e in advance n' (tail cs) (k x) s'
  | _, _ => (p, s)
  end.

Lemma advance_steps A (c : call A) n : forall (p : prog A) cs ts s i,
  ts i = Thread A c p ->
  exists ts', steps (Config ts s) (Config ts' (advance n cs p s).2)
    /\ ts' i = Thread A c (advance n cs p s).1 /\ forall j, j <> i -> ts' j = ts j.
Proof.
  induction n as [|n IH]; intros p cs ts s i Hi; [exists ts; split_and!; [apply steps_refl|done|done]|].
  destruct p as [b|X e k]; simpl; [exists ts; split_and!; [apply steps_refl|done|done]|].
  destruct (exec_eff (default calm (head cs)) s e) as [x s1] eqn:Hex.
  destruct (IH (k x) (tail cs) (put ts i (Thread A c (k x))) s1 i) as (ts' & Hsteps & Hi' & Hj).
  { unfold put. by rewrite Nat.eqb_refl. }
  exists ts'. split_and!; [|done|].
  - eapply steps_cons; [|exact Hsteps]. by eapply step_effect.
  - intros j Hne. rewrite Hj by done. unfold put. by rewrite (proj2 (Nat.eqb_neq j i)).
Qed.

Lemma reachable_advance ts s i A (c : call A) cs n :
  reachable (Config ts s) -> ts i = Idle -> startable c s ->
  exists ts', reachable (Config ts' (advance n cs (handler c) s).2)
    /\ ts' i = Thread A c (advance n cs (handler c) s).1 /\ forall j, j <> i -> ts' j = ts j.
Proof.
  intros [t Ht] Hi Hs.
  destruct (advance_steps A c n (handler c) cs (put ts i (Thread A c (handler c))) s i)
    as (ts' & Hsteps & Hi' & Hj).
  { unfold put. by rewrite Nat.eqb_refl. }
  exists ts'. split_and!; [|done|].
  - exists t. eapply steps_trans; [exact Ht|]. eapply steps_cons; [|exact Hsteps]. by apply step_call.
  - intros j Hne. rewrite Hj by done. unfold put. by rewrite (proj2 (Nat.eqb_neq j i)).
Qed.

Lemma reachable_resume ts s i A (c : call A) p cs a s' :
  reachable (Config ts s) -> ts i = Thread A c p -> run cs p s = (a, s') ->
  exists ts', reachable (Config ts' s') /\ ts' i = Thread A c (Ret a)
    /\ forall j, j <> i -> ts' j = ts j.
Proof.
  intros [t Ht] Hi Hrun. destruct (run_steps A c p cs ts s i a s' Hi Hrun) as (ts' & Hsteps & Hi' & Hj).
  exists ts'. split_and!; [|done|done]. exists t. by eapply steps_trans.
Qed.

Lemma reachable_call ts s i A (c : call A) cs :
  reachable (Config ts s) -> ts i = Idle -> startable c s ->
  exists ts', reachable (Config ts' (run cs (handler c) s).2)
    /\ ts' i = Thread A c (Ret (run cs (handler c) s).1) /\ forall j, j <> i -> ts' j = ts j.
Proof.
  intros Hr Hi Hs. destruct (reachable_advance ts s i A c [] 0 Hr Hi Hs) as (ts1 & H1 & Hi1 & Hj1).
  destruct (run cs (handler c) s) as [a s'] eqn:Hrun.
  destruct (reachable_resume ts1 s i A c (handler c) cs a s' H1 Hi1 Hrun) as (ts' & H2 & Hi2 & Hj2).
  exists ts'. split_and!; [done|done|]. intros j Hne. rewrite Hj2, Hj1 by done. done.
Qed.
End system.
