(* ===== verification/Scenario.v ===== *)
(** * A worked scenario

    One server, one person, one user certificate from login to delivery, and one
    service enrollment with a redemption, evaluated: the concrete states on which the
    theorems' hypotheses are shown to hold. *)

From S2P Require Import Prelude Netip Model UserCode Accounts Condition Lifetime CertPolicy Sha256 World AuditLog CertRequest CertWait Signer SignReply Enrollment Users Invariant Legal CertSafe WaitSafe ReplySafe EnrollSafe System.

Module Demo.

Definition server : Server :=
  MkServer Sample.options PolicySample.compiled.1 PolicySample.compiled.2 true "https://ssh.example.com"
    (MkAdmin "admins" "soc" "audit") Hour (14 * 24 * Hour).

Definition ParseAuthorizedKey (k : string) : option sshPublicKey :=
  if empty_str k then None else Some (MkKey "ecdsa-sha2-nistp256" ("SHA256:" +:+ k)).
Definition ParseAddress (_ : string) : bool := true.

Lemma server_configured : configured server.
Proof. exists PolicySample.parse, {[ "age" ]}. exact PolicySample.compiled_ok. Qed.

Notation handle := (handler server ParseAuthorizedKey ParseAddress).

Definition ann : Identity :=
  MkIdentity "sub-ann" "ann" "ann@example.com" "Ann" ["ops"] ["ann-admin"] ["backup"] None ∅.

Definition no_context : HostContext :=
  MkHostContext "" "" None None None None "" "" "" "" None [] None.

Definition params (ty : CertificateType) : NewCertRequestParams :=
  MkParams ty "ecdsa-sha2-nistp256 KEY" "ann" "192.0.2.7" "ann" "laptop"
    (MkOptions ["permit-pty"; "permit-X11-forwarding"] "" [] false) "" "" "" "" no_context.

Definition context : DecisionContext := MkDecisionContext "192.0.2.7" "browser" "en" "".
Definition selection (account : string) : ApprovalSelection := MkSelection account [] None "".

(** A step at time [t] drawing uuid [u] and entropy [b]. *)
Definition at_ (t : GoTime) (u : string) (b : list Z) : choice := MkChoice t 0 false b u (ArriveMessage 0) false.

Definition start : Sys := boot (1000 * Second).
Definition run_call {A} (cs : list choice) (c : call A) (s : Sys) : A * Sys := run cs (handle c) s.

(** Log in and ask for a user certificate. *)
Definition s1 : Sys := (run_call [] (CallUpsertUser ann) start).2.
Definition created := run_call [at_ 0 "req-1" []] (CallCreateRequest (params CertificateTypeUser)) s1.
Definition approve := CallApprove "req-1" ann context (selection "").
Definition approved := run_call [] approve created.2.


Definition ca : option (sshCertificate -> option string) := Some (fun c => Some ("cert of " +:+ sc_KeyId c)).
Definition limits : SignLimits := MkLimits (24 * Hour) (24 * Hour).
Definition no_job : SigningJob := MkJob "" (CertificateTypeOther "") "" [] "" no_options 0 0 0.
Definition no_reply : SignedReply := MkReply "" (CertificateTypeOther "") "" 0 "" [] "" ∅ [] 0 0 (text "") "".
Definition last_job (s : Sys) : SigningJob :=
  match last (sys_published s) with Some (PubJob j) => j | _ => no_job end.
Definition last_reply (s : Sys) : SignedReply :=
  match last (sys_published s) with Some (PubReply r) => r | _ => no_reply end.

Definition job1 : SigningJob := last_job approved.2.
Definition sign1 := CallSign ca true limits (Enc job1).
Definition signed := run_call [] sign1 approved.2.
Definition reply1 : SignedReply := last_reply signed.2.
Definition delivered := run_call [] (CallReply (Enc reply1)) signed.2.
Definition waited := run_call [] (CallWait 2 "req-1") delivered.2.

(** The same person enrolls a service account and a host redeems the code. *)
Definition asked := run_call [at_ 0 "req-2" []] (CallCreateRequest (params CertificateTypeService)) waited.2.
Definition enroll := CallApprove "req-2" ann context (selection "backup").
Definition claim := CallClaimApprovalPage "req-2" "" "browser".
Definition claimed := run_call [] claim asked.2.
Definition claim_token : string := match claimed.1 with Ok x => cl_Token x | Err _ => "" end.
Definition reload := CallClaimApprovalPage "req-2" claim_token "browser".
Definition reloaded := run_call [] reload claimed.2.
Definition enrolled := run_call [] enroll reloaded.2.
Definition code : string := match map_to_list (enrollments enrolled.2) with (_, e) :: _ => en_Code e | [] => "" end.
Definition retrieve := CallRetrieve 2 code "192.0.2.9".
Definition redeem_choices := [calm; calm; at_ 0 "" [1; 2; 3]; at_ 0 "ret-1" []].
Definition redeeming := advance 7 redeem_choices (handle retrieve) enrolled.2.
Definition job2 : SigningJob := last_job redeeming.2.
Definition signed2 := run_call [] (CallSign ca true limits (Enc job2)) redeeming.2.
Definition reply2 : SignedReply := last_reply signed2.2.
Definition delivered2 := run_call [] (CallReply (Enc reply2)) signed2.2.
Definition redeemed := run [at_ 0 "" []] redeeming.1 delivered2.2.

Definition finish : Sys := redeemed.2.

(** ** The answers *)

Example created_ok : created.1 = Ok (MkCreated "req-1" (1480 * Second) "").
Proof. vm_compute. reflexivity. Qed.
Example approved_ok : approved.1 = Ok tt.
Proof. vm_compute. reflexivity. Qed.
Example job1_queued : last (sys_published approved.2) = Some (PubJob job1).
Proof. vm_compute. reflexivity. Qed.
Example reply1_sent : last (sys_published signed.2) = Some (PubReply reply1).
Proof. vm_compute. reflexivity. Qed.
Example waited_ok :
  waited.1 = Ok (Some (MkOutcome StatusApproved "cert of {{.Username}}ann" "" "" zero_time (1000 * Second))).
Proof. vm_compute. reflexivity. Qed.
Example claimed_outcome :
  (fun x => (cl_Outcome x, cl_Token x)) <$> (match claimed.1 with Ok x => Some x | Err _ => None end)
  = Some (ClaimPageClaimed, claim_token).
Proof. vm_compute. reflexivity. Qed.
Example reloaded_ok : reloaded.1 = Ok (MkClaimResult ClaimPageMatched "").
Proof. vm_compute. reflexivity. Qed.
Example enrolled_ok : enrolled.1 = Ok tt.
Proof. vm_compute. reflexivity. Qed.
Example job2_queued : last (sys_published redeeming.2) = Some (PubJob job2).
Proof. vm_compute. reflexivity. Qed.
Example reply2_sent : last (sys_published signed2.2) = Some (PubReply reply2).
Proof. vm_compute. reflexivity. Qed.
Example redeemed_ok : redeemed.1 = Ok "cert of {{.Username}}ann".
Proof. vm_compute. reflexivity. Qed.

Lemma last_elem {A} (l : list A) x : last l = Some x -> x ∈ l.
Proof. intros [l' ->]%last_Some. set_solver. Qed.

(** The scenario is a run of the system. *)
Lemma scenario : exists ts, reachable server ParseAuthorizedKey ParseAddress (Config ts finish)
  /\ ts 2%nat = Thread _ approve (Ret (Ok tt))
  /\ ts 5%nat = Thread _ (CallWait 2 "req-1") (Ret waited.1)
  /\ ts 7%nat = Thread _ claim (Ret claimed.1)
  /\ ts 12%nat = Thread _ reload (Ret (Ok (MkClaimResult ClaimPageMatched "")))
  /\ ts 8%nat = Thread _ enroll (Ret (Ok tt))
  /\ ts 9%nat = Thread _ retrieve (Ret (Ok "cert of {{.Username}}ann")).
Proof.
  assert (reachable server ParseAuthorizedKey ParseAddress (Config (fun _ => Idle) start)) as R.
  { exists (1000 * Second). apply steps_refl. }
  pose proof (reachable_call server ParseAuthorizedKey ParseAddress) as go.
  destruct (go _ start 0%nat _ (CallUpsertUser ann) [] R eq_refl I) as (t0 & R0 & I0 & J0).
  destruct (go _ s1 1%nat _ (CallCreateRequest (params CertificateTypeUser)) [at_ 0 "req-1" []] R0)
    as (t1 & R1 & I1 & J1); [by rewrite J0|done|].
  destruct (go _ created.2 2%nat _ approve [] R1) as (t2 & R2 & I2 & J2); [by rewrite J1, J0|done|].
  destruct (go _ approved.2 3%nat _ sign1 [] R2) as (t3 & R3 & I3 & J3);
    [by rewrite J2, J1, J0|exact (last_elem _ _ job1_queued)|].
  destruct (go _ signed.2 4%nat _ (CallReply (Enc reply1)) [] R3) as (t4 & R4 & I4 & J4);
    [by rewrite J3, J2, J1, J0|exact (last_elem _ _ reply1_sent)|].
  destruct (go _ delivered.2 5%nat _ (CallWait 2 "req-1") [] R4) as (t5 & R5 & I5 & J5);
    [by rewrite J4, J3, J2, J1, J0|done|].
  destruct (go _ waited.2 6%nat _ (CallCreateRequest (params CertificateTypeService)) [at_ 0 "req-2" []] R5)
    as (t6 & R6 & I6 & J6); [by rewrite J5, J4, J3, J2, J1, J0|done|].
  destruct (go _ asked.2 7%nat _ claim [] R6) as (t7 & R7 & I7 & J7);
    [by rewrite J6, J5, J4, J3, J2, J1, J0|done|].
  destruct (go _ claimed.2 12%nat _ reload [] R7) as (t7' & R7' & I7' & J7');
    [by rewrite J7, J6, J5, J4, J3, J2, J1, J0|done|].
  destruct (go _ reloaded.2 8%nat _ enroll [] R7') as (t8 & R8 & I8 & J8);
    [by rewrite J7', J7, J6, J5, J4, J3, J2, J1, J0|done|].
  destruct (reachable_advance server ParseAuthorizedKey ParseAddress _ enrolled.2 9%nat _ retrieve
              redeem_choices 7 R8) as (t9 & R9 & I9 & J9);
    [by rewrite J8, J7', J7, J6, J5, J4, J3, J2, J1, J0|done|].
  destruct (go _ redeeming.2 10%nat _ (CallSign ca true limits (Enc job2)) [] R9) as (t10 & R10 & I10 & J10);
    [by rewrite J9, J8, J7', J7, J6, J5, J4, J3, J2, J1, J0|exact (last_elem _ _ job2_queued)|].
  destruct (go _ signed2.2 11%nat _ (CallReply (Enc reply2)) [] R10) as (t11 & R11 & I11 & J11);
    [by rewrite J10, J9, J8, J7', J7, J6, J5, J4, J3, J2, J1, J0|exact (last_elem _ _ reply2_sent)|].
  assert (t11 9%nat = Thread _ retrieve redeeming.1) as I9' by (rewrite J11, J10 by done; exact I9).
  destruct (reachable_resume server ParseAuthorizedKey ParseAddress _ delivered2.2 _ _ _ _ [at_ 0 "" []]
              redeemed.1 redeemed.2 R11 I9' (surjective_pairing _)) as (t12 & R12 & I12 & J12).
  exists t12. split_and!.
  - exact R12.
  - rewrite J12, J11, J10, J9, J8, J7', J7, J6, J5, J4, J3 by done. rewrite <- approved_ok. exact I2.
  - rewrite J12, J11, J10, J9, J8, J7', J7, J6 by done. exact I5.
  - rewrite J12, J11, J10, J9, J8, J7' by done. exact I7.
  - rewrite J12, J11, J10, J9, J8 by done. rewrite <- reloaded_ok. exact I7'.
  - rewrite J12, J11, J10, J9 by done. rewrite <- enrolled_ok. exact I8.
  - rewrite <- redeemed_ok. exact I12.
Qed.
End Demo.
