(* ===== verification/Safety.v ===== *)
(** * Safety of the running system

    What holds in every state reachable by any interleaving of any calls: the
    invariant, the trail behind every certificate, the request life cycle, and what
    an answer means. *)

From S2P Require Import Prelude Netip Model UserCode Accounts Condition Lifetime CertPolicy Sha256 World AuditLog CertRequest CertWait Signer SignReply Enrollment Users Invariant Legal CertSafe WaitSafe ReplySafe EnrollSafe System Scenario.

(** ** What the signer grants *)

Lemma elem_of_insert_sorted x y l : x ∈ insert_sorted y l <-> x = y \/ x ∈ l.
Proof.
  induction l as [|z l IH]; simpl; [set_solver|]. destruct (String.leb y z); set_solver.
Qed.

Lemma elem_of_sort_strings x l : x ∈ sort_strings l <-> x ∈ l.
Proof.
  induction l as [|y l IH]; simpl; [done|]. rewrite elem_of_insert_sorted. set_solver.
Qed.

Lemma lookup_extensions (l : list string) : forall (m : gmap string string) e,
  is_Some (foldl (fun m e => <[e := ""]> m) m l !! e) <-> is_Some (m !! e) \/ e ∈ l.
Proof.
  induction l as [|x l IH]; intros m e; simpl; [set_solver|]. rewrite IH, lookup_insert_is_Some'. set_solver.
Qed.

Lemma elem_of_grantedExtensions p e :
  e ∈ grantedExtensions p <-> is_Some (perm_Extensions p !! e).
Proof.
  unfold grantedExtensions. rewrite elem_of_sort_strings, list_elem_of_fmap. split.
  - intros ([k v] & -> & Hin%elem_of_map_to_list). by exists v.
  - intros [v Hv]. exists (e, v). split; [done|]. by apply elem_of_map_to_list.
Qed.

Lemma granted_extension g e :
  e ∈ grantedExtensions (permissionsFor g) <->
  e ∈ ro_Extensions g \/ ro_NoTouchRequired g = true /\ e = "no-touch-required".
Proof.
  rewrite elem_of_grantedExtensions. simpl. destruct (ro_NoTouchRequired g).
  - rewrite lookup_insert_is_Some', lookup_extensions, lookup_empty. split.
    + intros [->|[[? ?]|?]]; [by right|done|by left].
    + intros [?|[_ ->]]; [by right; right|by left].
  - rewrite lookup_extensions, lookup_empty. split; [intros [[? ?]|?]; [done|by left]|].
    intros [?|[? _]]; [by right|done].
Qed.

Lemma critical_option g k :
  ro_ForceCommand g = "" -> is_Some (perm_CriticalOptions (permissionsFor g) !! k) -> k = "source-address".
Proof.
  simpl. intros ->. simpl. destruct (0 <? _)%nat; [rewrite lookup_insert_is_Some'|];
    rewrite lookup_empty; intros H; [|by destruct H].
  destruct H as [|[? ?]]; done.
Qed.

Section safety.
Context (srv : Server).
Context (ParseAuthorizedKey : string -> option sshPublicKey) (ParseAddress : string -> bool).
Notation reachable := (reachable srv ParseAuthorizedKey ParseAddress).
Notation steps := (steps srv ParseAuthorizedKey ParseAddress).

(** ** The approval behind a job *)

(** The approval a signing job carries out: who decided, for which row, and that what
    the job asks for is what was decided, inside the type's ceilings. *)
Record approval_behind (s : Sys) (j : SigningJob) (rid : string) (r : CertificateRequest) (d : Decision)
  (p : certTypePolicy) : Prop := {
  ab_row : requests s !! rid = Some r;
  ab_decision : decisions s !! rid = Some d;
  ab_approved : de_Outcome d = DecisionApproved;
  ab_owner : exists u usr, cr_UserID r = Some u /\ users s !! u = Some usr /\ us_Subject usr = de_Subject d;
  ab_type : cr_Type r = job_Type j;
  ab_key : cr_PublicKey r = job_PublicKey j;
  ab_policy : srv_policies srv (job_Type j) = Some p;
  ab_extensions : ro_Extensions (job_RequestedOptions j) ⊆ tp_extensions p;
  ab_touch : ro_NoTouchRequired (job_RequestedOptions j) = true -> job_Type j = CertificateTypeService;
  ab_command : ro_ForceCommand (job_RequestedOptions j) = "";
  ab_lifetime : job_ValidBefore j - job_ValidAfter j <= Z.max 0 (tp_validDuration p);
  ab_valid : Forall (fun x => ValidatePrincipal x = Ok tt) (job_Principals j);
  ab_principals : if bool_decide (job_Type j = CertificateTypeService)
    then exists account, job_Principals j = [account] /\ can_vouch_for srv d account
    else job_Principals j <> [] /\ held_by_decider d (job_Principals j);
}.

Lemma job_approval s j :
  SInv srv s -> PubJob j ∈ sys_published s -> exists rid r d p, approval_behind s j rid r d p.
Proof.
  intros HI Hj. destruct (si_pub _ _ HI _ Hj) as [Hreq|Hret].
  - destruct Hreq as (Hty & r & d & p & Hr & H1 & H2 & H3 & H4 & Hd & Ho & Hps & Hg & Hva & Hp & Hlife).
    destruct (dk_row _ _ _ _ (si_dec _ _ HI _ _ Hd)) as (r0 & u & usr & Hr0 & Hu & Husr & Hsub & _ & Hgr).
    rewrite Hr in Hr0. injection Hr0 as <-.
    destruct (Hgr Ho) as (ps & g & E1 & E2 & Hne & Hval & Hheld & Hwt & _); [congruence|].
    rewrite Hps in E1. injection E1 as <-. rewrite Hg in E2. injection E2 as <-.
    destruct Hwt as (p' & Hp' & He & Ht & Hf). rewrite H1, Hp in Hp'. injection Hp' as <-.
    exists (job_RequestID j), r, d, p. constructor; try done; [by exists u, usr|by rewrite <- H1|lia|].
    by rewrite bool_decide_false.
  - destruct Hret as (Hty & x & e & Hx & He & H1 & H2 & Hkey & Hkid & Hps & Hopt & Hdur).
    destruct (ek_row _ _ _ _ (si_enr _ _ HI _ _ He)) as (rid & r & d & g & secs & K1 & Hr & Hst & _ & _
      & K2 & Hu & Hd & Ho & Hvouch & K3 & Hval & K4 & _ & Hwt & K5 & Hsecs).
    rewrite Hps in K3. injection K3 as K3. rewrite Hopt in K4. injection K4 as K4.
    destruct Hwt as (p & Hp & Hexts & Htouch & Hf).
    destruct (dk_row _ _ _ _ (si_dec _ _ HI _ _ Hd)) as (r0 & u & usr & Hr0 & Hu0 & Husr & Hsub & _).
    rewrite Hr in Hr0. injection Hr0 as <-.
    destruct (rq_enrolled _ _ _ (si_req _ _ HI _ _ Hr) Hst) as [Hrt _].
    exists rid, r, d, p. rewrite <- K4 in *. constructor; rewrite ?Hty; try done.
    + by exists u, usr.
    + congruence.
    + rewrite (Hdur _ K5). specialize (Hsecs p Hp). lia.
    + rewrite K3. by apply Forall_singleton.
    + rewrite bool_decide_true by done. eauto.
Qed.

Lemma reply_job s rep :
  SInv srv s -> PubReply rep ∈ sys_published s -> Failed rep = false ->
  exists j, PubJob j ∈ sys_published s /\ rep_RequestID rep = job_RequestID j
    /\ rep_Type rep = job_Type j /\ reply_matches rep j.
Proof.
  intros HI Hrep Hf. destruct (si_pub _ _ HI _ Hrep) as (j & ? & ? & ? & Hm). exists j. auto.
Qed.

(** ** Theorems *)

(** C2: every state the system can reach satisfies the invariant. Whatever calls are
    started, however their steps interleave, whatever statements, publishes and
    entropy reads fail, whatever messages arrive in whatever order and whenever the
    process restarts: request rows, decisions, enrollments, redemptions, certificates,
    published messages and cached outcomes agree with one another as [SInv] says. *)
Theorem reachable_invariant ts s : configured srv -> reachable (Config ts s) -> SInv srv s.
Proof. apply reachable_SInv. Qed.

(** C1: every issued certificate traces back to an approval. Behind each row of the
    certificates table there is a request decided "approved" by the very person who
    owns the request; the certificate has the request's type, a lifetime within the
    type's configured maximum, extensions inside the type's allow-list (plus
    no-touch-required for services only), no critical option but source-address, and
    well-formed principals: accounts the approver held when they decided, or for a
    service the single account the approver could vouch for. *)
Theorem certificate_provenance ts s n c :
  configured srv -> reachable (Config ts s) -> certificates s !! n = Some c ->
  exists rid r d u usr p exts crit,
    requests s !! rid = Some r /\ decisions s !! rid = Some d /\ de_Outcome d = DecisionApproved
    /\ cr_UserID r = Some u /\ users s !! u = Some usr /\ us_Subject usr = de_Subject d
    /\ cr_Type r = ce_Type c /\ srv_policies srv (ce_Type c) = Some p
    /\ ce_ExpiresAt c - ce_IssuedAt c <= Z.max 0 (tp_validDuration p)
    /\ ce_Extensions c = Enc exts
    /\ (forall e, e ∈ exts -> e ∈ tp_extensions p
           \/ e = "no-touch-required" /\ ce_Type c = CertificateTypeService)
    /\ ce_CriticalOptions c = Enc crit /\ (forall k, is_Some (crit !! k) -> k = "source-address")
    /\ Forall (fun x => ValidatePrincipal x = Ok tt) (ce_Principals c)
    /\ (if bool_decide (ce_Type c = CertificateTypeService)
        then exists account, ce_Principals c = [account] /\ can_vouch_for srv d account
        else ce_Principals c <> [] /\ held_by_decider d (ce_Principals c)).
Proof.
  intros Hc Hr Hn. pose proof (reachable_SInv _ _ _ _ _ Hc Hr) as HI.
  destruct (ck_reply _ _ _ (si_cert _ _ HI _ _ Hn))
    as (rep & Hrep & Hf & _ & Hty & _ & Hps & Hva & Hvb & Hex & Hcr & _).
  destruct (reply_job _ _ HI Hrep Hf) as (j & Hj & _ & Hjt & (_ & _ & Mps & Mva & Mvb & Mcr & Mex)).
  destruct (job_approval _ _ HI Hj) as (rid & r & d & p & [K1 K2 K3 K4 K5 _ K7 K8 K9 K10 K11 K12 K13]).
  destruct K4 as (u & usr & Hu & Husr & Hsub).
  rewrite <- Hty, <- Hps, <- Hva, <- Hvb, <- Hex, <- Hcr, Mps, Mva, Mvb, Mcr, Mex, Hjt.
  exists rid, r, d, u, usr, p, (grantedExtensions (permissionsFor (job_RequestedOptions j))),
    (perm_CriticalOptions (permissionsFor (job_RequestedOptions j))).
  split_and!; try done.
  - intros e [He|[Ht ->]]%granted_extension; [left; by apply K8|right; auto].
  - intros k. by apply critical_option.
Qed.

(** C3: the request life cycle only moves forward. From any reachable state, along any
    further steps: a request row stays, keeps its key, type and creation data, only
    moves pending -> signing -> approved/failed or pending -> a final status, never
    changes its owner or its page claim once set, and its decision is never altered;
    a final status is final. *)
Theorem lifecycle_forward ts s ts' s' id r :
  configured srv -> reachable (Config ts s) -> steps (Config ts s) (Config ts' s') ->
  requests s !! id = Some r ->
  exists r', requests s' !! id = Some r' /\ cr_Head r' = cr_Head r
    /\ status_le (cr_Status r) (cr_Status r')
    /\ (forall u, cr_UserID r = Some u -> cr_UserID r' = Some u)
    /\ (forall h, cr_ClaimTokenHash r = Some h -> cr_ClaimTokenHash r' = Some h)
    /\ (forall d, decisions s !! id = Some d -> decisions s' !! id = Some d)
    /\ (cr_Status r <> StatusPending -> cr_Status r <> StatusSigning ->
        cr_Status r' = cr_Status r /\ decisions s' !! id = decisions s !! id).
Proof.
  intros Hc Hr Hsteps Hrow. pose proof (reachable_ok _ _ _ _ Hc Hr) as Hok.
  destruct (steps_ok _ _ _ _ _ (configured_table _ Hc) Hsteps Hok) as [[HI' _] Hev]. simpl in *.
  destruct (evolves_request _ _ _ _ Hev Hrow) as (r' & Hr' & Hrr). exists r'.
  pose proof (rq_decision _ _ _ (si_req _ _ (proj1 Hok) _ _ Hrow)) as Hd.
  pose proof (rq_decision _ _ _ (si_req _ _ HI' _ _ Hr')) as Hd'.
  split_and!; try done; try apply Hrr.
  - intros d. by apply evolves_decision.
  - intros Hnp Hns. assert (cr_Status r' = cr_Status r) as Hst.
    { destruct (re_status _ _ Hrr) as [->|[[? _]|[? _]]]; done. }
    split; [done|]. rewrite Hst in Hd'. simpl in Hd.
    destruct (decisions s !! id) as [d|] eqn:E; [by eapply evolves_decision|].
    destruct (cr_Status r); simpl in *; naive_solver.
Qed.

(** C5: a request is decided at most once. Once a call that approves a request has
    answered success, no call that denies it ever has or will have, and every other
    successful approval of it was made by the same person. *)
Theorem one_decision ts s i id who dc sel :
  configured srv -> reachable (Config ts s) ->
  ts i = Thread _ (CallApprove id who dc sel) (Ret (Ok tt)) ->
  forall j,
    (forall who' dc', ts j <> Thread _ (CallDeny id who' dc') (Ret (Ok tt)))
    /\ (forall who' dc' sel', ts j = Thread _ (CallApprove id who' dc' sel') (Ret (Ok tt)) ->
         id_Subject who' = id_Subject who).
Proof.
  intros Hc Hr Hi j.
  destruct (reachable_promise _ _ _ _ _ _ _ _ _ Hc Hr Hi) as [(d & Hd & Ho & Hs) _]. split.
  - intros who' dc' Hj.
    destruct (reachable_promise _ _ _ _ _ _ _ _ _ Hc Hr Hj) as (d' & Hd' & Ho' & _). congruence.
  - intros who' dc' sel' Hj.
    destruct (reachable_promise _ _ _ _ _ _ _ _ _ Hc Hr Hj) as [(d' & Hd' & _ & Hs') _]. congruence.
Qed.

(** C9: a successful approval is recorded under the approver's name and acted on. The
    request's decision is "approved" by the caller's subject, the request is owned by
    that subject, and for a certificate that is signed at once a job for exactly this
    request was queued, with the request's key and the decision's principals. *)
Theorem approval_recorded ts s i id who dc sel :
  configured srv -> reachable (Config ts s) ->
  ts i = Thread _ (CallApprove id who dc sel) (Ret (Ok tt)) ->
  exists r d u usr, requests s !! id = Some r /\ decisions s !! id = Some d
    /\ de_Outcome d = DecisionApproved /\ de_Subject d = id_Subject who
    /\ cr_UserID r = Some u /\ users s !! u = Some usr /\ us_Subject usr = id_Subject who
    /\ cr_Status r <> StatusPending
    /\ (cr_Type r <> CertificateTypeService ->
        exists j, PubJob j ∈ sys_published s /\ job_RequestID j = id /\ job_PublicKey j = cr_PublicKey r
          /\ de_Principals d = Some (Enc (job_Principals j))).
Proof.
  intros Hc Hr Hi. pose proof (reachable_SInv _ _ _ _ _ Hc Hr) as HI.
  destruct (reachable_promise _ _ _ _ _ _ _ _ _ Hc Hr Hi) as [(d & Hd & Ho & Hs) Hjob].
  destruct (dk_row _ _ _ _ (si_dec _ _ HI _ _ Hd)) as (r & u & usr & Hrow & Hu & Husr & Hsub & Hst & _).
  exists r, d, u, usr. split_and!; try done; [congruence|]. intros Hty.
  destruct (Hjob r Hrow Hty) as (j & Hj & <-). exists j.
  destruct (si_pub _ _ HI _ Hj) as [(_ & r' & d' & p & K1 & _ & K2 & _ & _ & K3 & _ & K4 & _)|(_ & x & e & Hx & _)].
  - split_and!; try done; congruence.
  - pose proof (rq_kind _ _ _ (si_req _ _ HI _ _ Hrow)). pose proof (tk_kind _ _ _ (si_ret _ _ HI _ _ Hx)).
    congruence.
Qed.



(** C22: an approval page is claimed by one browser. Two page loads that were both told
    "claimed" hold tokens with the same stored hash, and a load told "matched"
    presented a token with that hash; every other load gets no token. *)
Theorem page_claimed_once ts s i j id pi ui pj uj xi xj :
  configured srv -> reachable (Config ts s) ->
  ts i = Thread _ (CallClaimApprovalPage id pi ui) (Ret (Ok xi)) ->
  ts j = Thread _ (CallClaimApprovalPage id pj uj) (Ret (Ok xj)) ->
  cl_Outcome xi = ClaimPageClaimed ->
  match cl_Outcome xj with
  | ClaimPageClaimed => hashClaimToken (cl_Token xj) = hashClaimToken (cl_Token xi)
  | ClaimPageMatched => hashClaimToken pj = hashClaimToken (cl_Token xi) /\ cl_Token xj = ""
  | _ => cl_Token xj = ""
  end.
Proof.
  intros Hc Hr Hi Hj Hxi.
  pose proof (reachable_promise _ _ _ _ _ _ _ _ _ Hc Hr Hi) as Pi.
  pose proof (reachable_promise _ _ _ _ _ _ _ _ _ Hc Hr Hj) as Pj. simpl in Pi, Pj.
  unfold claim_ok in Pi, Pj. rewrite Hxi in Pi. destruct Pi as (r & Hrow & Hh).
  destruct (cl_Outcome xj); try done.
  - destruct Pj as (r' & Hrow' & Hh'). congruence.
  - destruct Pj as (_ & Ht & r' & Hrow' & Hh'). split; [congruence|done].
Qed.
End safety.

(** ** The theorems at the worked scenario *)

Import Demo.

Lemma reachable_invariant_witness : SInv server finish.
Proof.
  destruct scenario as (ts & Hr & _).
  exact (reachable_invariant server ParseAuthorizedKey ParseAddress ts finish server_configured Hr).
Defined.

Definition demo_row (id : string) : CertificateRequest := default zero_request (requests finish !! id).
Definition demo_cert : Certificate :=
  default (MkCertificate "" (CertificateTypeOther "") None None "" 0 "" [] (Undecodable "") (Undecodable "") 0 0)
    (certificates finish !! 0).

Example demo_row_1 : requests finish !! "req-1" = Some (demo_row "req-1").
Proof. vm_compute. reflexivity. Qed.
Example demo_cert_0 : certificates finish !! 0 = Some demo_cert.
Proof. vm_compute. reflexivity. Qed.

Lemma certificate_provenance_witness :
  exists rid d, decisions finish !! rid = Some d /\ de_Outcome d = DecisionApproved.
Proof.
  destruct scenario as (ts & Hr & _).
  destruct (certificate_provenance server ParseAuthorizedKey ParseAddress ts finish 0 demo_cert
    server_configured Hr demo_cert_0) as (rid & r & d & u & usr & p & ex & cr & _ & Hd & Ho & _).
  exists rid, d. split; [exact Hd|exact Ho].
Defined.

Lemma lifecycle_forward_witness :
  exists r', requests (set_resolved finish ∅) !! "req-1" = Some r' /\ cr_Status r' = StatusApproved.
Proof.
  destruct scenario as (ts & Hr & _).
  destruct (lifecycle_forward server ParseAuthorizedKey ParseAddress ts finish (fun _ => Idle)
    (set_resolved finish ∅) "req-1" (demo_row "req-1") server_configured Hr)
    as (r' & Hr' & _ & _ & _ & _ & _ & Hfin).
  - eapply steps_cons; [apply step_restart|apply steps_refl].
  - exact demo_row_1.
  - exists r'. split; [exact Hr'|]. apply Hfin; vm_compute; discriminate.
Defined.

Lemma one_decision_witness : exists ts, ts 2%nat = Thread _ approve (Ret (Ok tt))
  /\ forall j who dc, ts j <> Thread _ (CallDeny "req-1" who dc) (Ret (Ok tt)).
Proof.
  destruct scenario as (ts & Hr & H2 & _). exists ts. split; [exact H2|]. intros j.
  exact (proj1 (one_decision server ParseAuthorizedKey ParseAddress ts finish 2 "req-1" ann context
    (selection "") server_configured Hr H2 j)).
Defined.

Lemma approval_recorded_witness :
  exists d, decisions finish !! "req-1" = Some d /\ de_Subject d = "sub-ann".
Proof.
  destruct scenario as (ts & Hr & H2 & _).
  destruct (approval_recorded server ParseAuthorizedKey ParseAddress ts finish 2 "req-1" ann context
    (selection "") server_configured Hr H2) as (r & d & u & usr & _ & Hd & _ & Hs & _).
  exists d. split; [exact Hd|exact Hs].
Defined.



Definition demo_claim : ClaimPageResult :=
  match claimed.1 with Ok x => x | Err _ => MkClaimResult ClaimPageMatched "" end.

Example demo_claim_ok : claimed.1 = Ok demo_claim.
Proof. vm_compute. reflexivity. Qed.

Example demo_claimed : cl_Outcome demo_claim = ClaimPageClaimed.
Proof. vm_compute. reflexivity. Qed.

Lemma page_claimed_once_witness : hashClaimToken claim_token = hashClaimToken (cl_Token demo_claim).
Proof.
  destruct scenario as (ts & Hr & _ & _ & H7 & H12 & _). rewrite demo_claim_ok in H7.
  exact (proj1 (page_claimed_once server ParseAuthorizedKey ParseAddress ts finish 7 12 "req-2" _ _ _ _
    demo_claim (MkClaimResult ClaimPageMatched "") server_configured Hr H7 H12 demo_claimed)).
Defined.
