(* ===== verification/Behaviour.v ===== *)
(** * What each call does when it runs

    Functional behaviour of the handlers on every branch, for every sequence of
    environment choices (failing statements, arbitrary clock and entropy), or for
    every choice sequence without failures where the claim is that work is done. *)

From S2P Require Import Prelude Netip Model UserCode Accounts Condition Lifetime CertPolicy Sha256 World AuditLog CertRequest CertWait Signer SignReply Enrollment Users Seq Invariant Legal CertSafe ReplySafe System Scenario Safety.
Local Open Scope prog_scope.

(** ** Vocabulary *)

Definition jobs (l : list Published) : list SigningJob :=
  omap (fun m => match m with PubJob j => Some j | _ => None end) l.

(** Nothing was decided, enrolled, redeemed, issued or queued for signing. *)
Record nothing_granted (s s' : Sys) : Prop := {
  ng_decisions : decisions s' = decisions s;
  ng_enrollments : enrollments s' = enrollments s;
  ng_retrievals : retrievals s' = retrievals s;
  ng_certificates : certificates s' = certificates s;
  ng_users : users s' = users s;
  ng_jobs : jobs (sys_published s') = jobs (sys_published s);
}.

#[export] Instance nothing_granted_po : PreOrder nothing_granted.
Proof. split; [by constructor|]. intros a b c [] []. constructor; congruence. Qed.

Lemma nothing_granted_records s s' : same_records s s' -> nothing_granted s s'.
Proof.
  intros H. constructor.
  - by apply same_records_decisions.
  - by apply same_records_enrollments.
  - by apply same_records_retrievals.
  - by apply same_records_certificates.
  - by apply same_records_users.
  - by rewrite (sr_published _ _ H).
Qed.

(** The row [id] is as it was, or its pending version was expired. *)
Definition at_most_expired (s s' : Sys) (id : string) : Prop :=
  requests s' = requests s
  \/ exists r t, requests s !! id = Some r /\ cr_Status r = StatusPending
       /\ requests s' = <[id := set_Resolved r StatusExpired t]> (requests s).

Section steps.
Context (srv : Server) (P : choice -> Prop).

Lemma seq_ttlCutoffFor ty (Q : GoTime -> Sys -> Prop) s :
  (forall t, sys_clock s <= t -> Q (ttl_cutoff srv ty t) (set_clock s t)) ->
  seq P (ttlCutoffFor srv ty) Q s.
Proof.
  intros HQ. unfold ttlCutoffFor. unfold ttl_cutoff in HQ. cbv zeta in HQ. destruct (_ <=? 0) eqn:E.
  - apply seq_ret. specialize (HQ (sys_clock s) ltac:(lia)). rewrite ?E in HQ. by destruct s.
  - apply seq_bind, seq_now. intros t Ht. apply seq_ret. specialize (HQ t Ht). by rewrite ?E in HQ.
Qed.

Lemma seq_lookupRequest id (Q : res CertificateRequest -> Sys -> Prop) s :
  match requests s !! id with
  | Some r => Q (Ok r) s
  | None => Q (Err (notFoundRequest id)) s
  end ->
  (~ (forall c, P c -> reliable c) -> Q (Err DBError) s) -> seq P (lookupRequest id) Q s.
Proof.
  intros HQ HE. unfold lookupRequest. apply seq_bind_ok, seq_query; [|done].
  unfold requests in HQ. by destruct (db_requests (sys_db s) !! id).
Qed.

Lemma seq_resolveUser i (Q : res User -> Sys -> Prop) s :
  (forall e, Q (Err e) s) ->
  (forall k u, users s !! k = Some u -> us_Subject u = id_Subject i -> Q (Ok u) s) ->
  seq P (resolveUser i) Q s.
Proof.
  intros HE HQ. unfold resolveUser. apply seq_bind_ok, seq_query; [|done].
  destruct (user_by_subject _ _) as [u|] eqn:E; apply seq_ret; [|done].
  apply find_row_Some in E as (k & Hk & Hs). unbool. by eapply HQ.
Qed.

(** Waking a waiter caches and publishes the outcome and leaves every table alone. *)
Lemma seq_notifyWaiter id o (Q : unit -> Sys -> Prop) s :
  (forall s' t, sys_db s' = sys_db s -> nothing_granted s s' -> requests s' = requests s ->
     sys_clock s <= t -> sys_resolved s' = <[id := MkOutcome (wo_Status o) (wo_Certificate o) (wo_Code o)
       (wo_ServiceAccount o) (wo_ExpiresAt o) t]> (sys_resolved s) ->
     sys_clock s <= sys_clock s' -> Q tt s') ->
  seq P (notifyWaiter id o) Q s.
Proof.
  intros HQ. unfold notifyWaiter. apply seq_bind, seq_now. intros t Ht.
  apply seq_bind, seq_cache_set. apply seq_bind, seq_publish.
  - apply seq_ret. apply (HQ _ t); try done. constructor; try done. simpl. unfold jobs.
    rewrite omap_app. simpl. by rewrite app_nil_r.
  - intros _ e. apply seq_ret. by apply (HQ _ t).
Qed.

Lemma seq_expire id (Q : unit -> Sys -> Prop) s :
  (forall s', nothing_granted s s' -> at_most_expired s s' id ->
     ((forall c, P c -> reliable c) -> forall r, requests s !! id = Some r -> cr_Status r = StatusPending ->
        exists t, requests s' !! id = Some (set_Resolved r StatusExpired t)) -> Q tt s') ->
  seq P (expire id) Q s.
Proof.
  intros HQ. unfold expire. apply seq_bind, seq_now. intros t Ht.
  apply seq_bind, seq_exec.
  2:{ intros Hf. apply seq_ret, HQ; [by constructor|by left|done]. }
  intros t1 t2 Ht1 Ht2. unfold update_request.
  destruct (db_requests (sys_db (set_clock s t)) !! id) as [r|] eqn:Hr; simpl in Hr.
  2:{ apply seq_ret, HQ; [by constructor|by left|]. intros _ r Hr'. unfold requests in Hr'. congruence. }
  destruct (bool_decide _) eqn:Hst; unbool.
  2:{ apply seq_ret, HQ; [by constructor|by left|]. intros _ r' Hr'. unfold requests in Hr'. congruence. }
  set (s2 := set_clock (set_db _ _) t2).
  assert (nothing_granted s s2) as H2 by by constructor.
  assert (requests s2 = <[id := set_Resolved r StatusExpired t]> (requests s)) as Hr2 by done.
  apply seq_bind.
  assert (forall ev s3, nothing_granted s s3 -> requests s3 = requests s2 ->
    seq P (do* auditRecord ev ;; notifyWaiter id (status_outcome StatusExpired)) Q s3) as Hk.
  { intros ev s3 H3 Hr3. apply seq_bind, seq_Record. intros s4 H4.
    apply seq_notifyWaiter. intros s5 t5 _ H5 Hr5 _ _ _. apply HQ.
    - etrans; [exact H3|]. etrans; [by apply nothing_granted_records|done].
    - right. exists r, t. split; [done|]. split; [done|].
      by rewrite Hr5, (same_records_requests _ _ H4), Hr3.
    - intros _ r' Hr' _. exists t. rewrite Hr5, (same_records_requests _ _ H4), Hr3, Hr2.
      unfold requests in Hr'. simplify_eq. apply lookup_insert_eq. }
  apply seq_lookupRequest; [|by intros _; apply Hk].
  destruct (requests s2 !! id); by apply Hk.
Qed.
End steps.

(** ** Decisions belong to the request's owner *)

Section strangers.
Context (srv : Server).
Context (ParseAuthorizedKey : string -> option sshPublicKey) (ParseAddress : string -> bool).

(** [i] is not the person the row [r] is bound to. *)
Definition stranger (s : Sys) (i : Identity) (r : CertificateRequest) : Prop :=
  exists owner, cr_UserID r = Some owner
    /\ forall k u, users s !! k = Some u -> us_Subject u = id_Subject i -> us_ID u <> owner.

(** What a refused call leaves behind. *)
Definition refused {A} (s : Sys) (id : string) (a : res A) (s' : Sys) : Prop :=
  is_ok a = false /\ nothing_granted s s' /\ at_most_expired s s' id.

Lemma seq_bind_stranger {B} P s0 s r i (f : CertificateRequest -> User -> prog (res B)) Q :
  stranger s0 i r -> users s = users s0 -> (forall e, Q (Err e) s) ->
  (forall k u, users s !! k = Some u -> us_Subject u = id_Subject i ->
    seq P (bindRequester r u) (fun a s' => match a with Ok r' => seq P (f r' u) Q s' | Err e => Q (Err e) s' end) s).
Proof.
  intros (owner & Ho & Hu) Hus HE k u Hk Hs. unfold bindRequester. rewrite Ho.
  rewrite bool_decide_false; [by apply seq_ret|].
  intros ->. rewrite Hus in Hk. by eapply Hu.
Qed.

Lemma refused_records {A} s id e s' : same_records s s' -> refused (A := A) s id (Err e) s'.
Proof.
  intros Hs. split_and!; [done|by apply nothing_granted_records|]. left. by apply same_records_requests.
Qed.

Lemma same_records_clock s t : sys_clock s <= t -> same_records s (set_clock s t).
Proof.
  intros Ht. constructor; try done. exists (db_audit (sys_db s)). simpl. by destruct (sys_db s).
Qed.

Lemma same_records_issued s x : same_records s (set_issued s x).
Proof. constructor; try done. exists (db_audit (sys_db s)). simpl. by destruct (sys_db s). Qed.

Lemma approve_stranger s id i dc sel r :
  requests s !! id = Some r -> stranger s i r ->
  seq any (Approve srv ParseAuthorizedKey ParseAddress id i dc sel) (refused s id) s.
Proof.
  intros Hr Hstr. pose proof (@refused_records unit s id) as HE. pose proof (same_records_clock s) as Hclock.
  unfold Approve. apply seq_bind_ok, seq_lookupRequest; [|by intros _; apply HE].
  rewrite Hr. destruct (negb _).
  { apply seq_bind, seq_ttlCutoffFor. intros t Ht. by apply seq_ret, HE, Hclock. }
  apply seq_bind, seq_ttlCutoffFor. intros t Ht. destruct (past_cutoff _ _).
  { apply seq_bind, seq_expire. intros s' Hng Hex _. apply seq_ret. split_and!; [done| |].
    - etrans; [by apply nothing_granted_records, Hclock|done].
    - exact Hex. }
  specialize (Hclock t Ht). destruct (unmarshal _ _); [|by apply seq_ret, HE].
  destruct (policyFor _ _); [|by apply seq_ret, HE]. cbv zeta.
  apply seq_bind_ok, seq_resolveUser; [by intros; apply HE|]. intros k u Hk Hs.
  destruct (checkApproverAuthorization _ _ _ _); [|by apply seq_ret, HE].
  apply seq_bind_ok.
  apply (seq_bind_stranger _ s _ r i (fun r' _ => _) _ Hstr) with k; try done.
  intros. by apply HE.
Qed.

Lemma deny_stranger s id i dc r :
  requests s !! id = Some r -> stranger s i r -> seq any (Deny srv id i dc) (refused s id) s.
Proof.
  intros Hr Hstr. pose proof (@refused_records unit s id) as HE. unfold Deny.
  apply seq_bind, seq_now. intros t Ht. pose proof (same_records_clock s t Ht) as H1.
  apply seq_bind_ok, seq_lookupRequest; [|by intros _; apply HE].
  change (requests (set_clock s t)) with (requests s). rewrite Hr.
  apply seq_bind, seq_uuid. intros u _.
  pose proof (transitivity H1 (same_records_issued (set_clock s t) (<[u := KRow]> (sys_issued s)))) as H2.
  cbv zeta. apply seq_bind_ok, seq_resolveUser; [by intros; apply HE|]. intros k usr Hk Hs.
  apply seq_bind_ok.
  apply (seq_bind_stranger _ s _ r i (fun r' _ => _) _ Hstr) with k; try done. intros. by apply HE.
Qed.

Lemma detail_stranger s id i r :
  requests s !! id = Some r -> stranger s i r -> seq any (Detail srv id i) (refused s id) s.
Proof.
  intros Hr Hstr. pose proof (@refused_records RequestDetail s id) as HE. unfold Detail.
  apply seq_bind_ok, seq_lookupRequest; [|by intros _; apply HE]. rewrite Hr.
  apply seq_bind_ok, seq_resolveUser; [by intros; apply HE|]. intros k usr Hk Hs.
  apply seq_bind_ok.
  apply (seq_bind_stranger _ s _ r i (fun r' _ => _) _ Hstr) with k; try done. intros. by apply HE.
Qed.

(** C4: a request can be read, approved or denied only by the person it is bound to.
    For anyone else, whatever the environment does, all three calls answer an error
    and grant nothing: no decision, enrollment, redemption, certificate or signing job
    appears, and at most the row's own deadline is enforced. *)
Theorem strangers_refused cs s id i dc sel r :
  requests s !! id = Some r -> stranger s i r ->
  refused s id (run cs (Approve srv ParseAuthorizedKey ParseAddress id i dc sel) s).1
               (run cs (Approve srv ParseAuthorizedKey ParseAddress id i dc sel) s).2
  /\ refused s id (run cs (Deny srv id i dc) s).1 (run cs (Deny srv id i dc) s).2
  /\ refused s id (run cs (Detail srv id i) s).1 (run cs (Detail srv id i) s).2.
Proof.
  intros Hr Hstr. split_and!; apply (seq_run any); try done; try (by apply Forall_true).
  - by eapply approve_stranger.
  - by eapply deny_stranger.
  - by eapply detail_stranger.
Qed.
End strangers.

(** ** Late approvals *)

Section late.
Context (srv : Server).
Context (ParseAuthorizedKey : string -> option sshPublicKey) (ParseAddress : string -> bool).

(** The approval window of [r] is over at [now]. *)
Definition overdue (r : CertificateRequest) (now : GoTime) : Prop :=
  0 <= cr_CreatedAt r /\ 0 < approvalTTLFor srv (cr_Type r)
  /\ cr_CreatedAt r + approvalTTLFor srv (cr_Type r) < now.

Lemma overdue_past r t now :
  overdue r now -> now <= t -> past_cutoff r (ttl_cutoff srv (cr_Type r) t) = true.
Proof.
  intros (H0 & H1 & H2) Ht. unfold ttl_cutoff, past_cutoff, IsZeroTime, zero_time, Before.
  cbv zeta. rewrite (proj2 (Z.leb_gt _ _) H1).
  apply andb_true_intro. split; [|apply Z.ltb_lt; lia].
  apply negb_true_iff, Z.eqb_neq. intros E. unfold Second, Millisecond, Microsecond in E. lia.
Qed.

(** C19: an approval that comes too late is refused and closes the request. Once a
    pending request's approval window is over, an approval by anyone, with a working
    database, answers "expired", grants nothing, and leaves the row expired. *)
Theorem late_approval_expires cs s id i dc sel r :
  Forall reliable cs -> requests s !! id = Some r -> cr_Status r = StatusPending ->
  overdue r (sys_clock s) ->
  let '(a, s') := run cs (Approve srv ParseAuthorizedKey ParseAddress id i dc sel) s in
  a = Err (ExpiredError (text "certificate request")) /\ nothing_granted s s'
  /\ exists t, requests s' !! id = Some (set_Resolved r StatusExpired t).
Proof.
  intros Hcs Hr Hst Hod. apply (seq_run_pair reliable); [done|done|].
  unfold Approve. apply seq_bind_ok, seq_lookupRequest; [|by intros []].
  rewrite Hr. rewrite bool_decide_true by done. simpl.
  apply seq_bind, seq_ttlCutoffFor. intros t Ht. rewrite (overdue_past _ _ _ Hod Ht).
  apply seq_bind, seq_expire. intros s' Hng _ Hex. apply seq_ret. split_and!.
  - unfold notPendingError. rewrite Hst. pose proof (overdue_past _ _ _ Hod Ht) as Hp.
    unfold past_cutoff in Hp. by rewrite Hp.
  - etrans; [apply nothing_granted_records, (same_records_clock s t Ht)|done].
  - destruct (Hex (fun c H => H) r Hr Hst) as [t' ?]. by exists t'.
Qed.
End late.

(** ** Waiting *)

Section waiting.
Context (srv : Server).

Lemma run_perform {X A} cs (e : eff X) (f : X -> prog A) s :
  run cs (bind (perform e) f) s =
  let '(x, s1) := exec_eff (default calm (head cs)) s e in run (tail cs) (f x) s1.
Proof. done. Qed.

Lemma run_lookupRequest {A} cs id (f : res CertificateRequest -> prog A) s :
  run cs (bind (lookupRequest id) f) s =
  run (tail cs) (f (if ch_fault (default calm (head cs)) then Err DBError
                    else match requests s !! id with
                         | Some r => Ok r
                         | None => Err (notFoundRequest id)
                         end)) s.
Proof.
  unfold lookupRequest, bind_ok, bind, perform, requests. simpl.
  destruct (ch_fault _); [done|]. by destruct (db_requests (sys_db s) !! id).
Qed.

(** With [k] polls to the deadline, [S k] rounds are as good as any more. *)
Lemma awaitStatus_loop_fuel n id want deadline : forall k cs s current,
  deadline <= sys_clock s + Z.of_nat k * statusConfirmPoll ->
  run cs (awaitStatus_loop (S k + n) id want current deadline) s
  = run cs (awaitStatus_loop (S k) id want current deadline) s.
Proof.
  induction k as [|k IH]; intros cs s current Hd; cbn [awaitStatus_loop Nat.add];
    rewrite !run_perform; cbn -[run awaitStatus_loop bind perform lookupRequest];
    set (t := Z.max (sys_clock s) _); unfold Before.
  { rewrite (proj2 (Z.ltb_ge t deadline)) by lia. done. }
  destruct (t <? deadline); [|done]. cbn [negb]. rewrite !run_perform.
  destruct (exec_eff _ _ (Sleep _)) as [slept s1] eqn:Hex. destruct slept; [|done]. cbn [negb].
  rewrite !run_lookupRequest. set (row := if ch_fault _ then _ else _).
  destruct row as [r|]; [|done]. destruct (bool_decide _); [done|].
  change (S (k + n)) with (S k + n)%nat. apply IH.
  simpl in Hex. destruct (ch_cancelled _); [done|]. injection Hex as <-. simpl.
  unfold statusConfirmPoll, Millisecond, Microsecond in *. lia.
Qed.

(** C29: the status confirmation poll ends within its window. The loop that re-reads a
    row until it shows the announced status is cut off by its deadline: the fuel the
    model gives it (one round per poll interval of the window, plus one) is never the
    reason it stops, for any environment. *)
Theorem awaitStatus_terminates cs s id want current n :
  run cs (awaitStatus_loop (confirm_fuel + n) id want current (sys_clock s + statusConfirmWindow)) s
  = run cs (awaitStatus_loop confirm_fuel id want current (sys_clock s + statusConfirmWindow)) s.
Proof.
  change confirm_fuel with (S 80). apply awaitStatus_loop_fuel.
  unfold statusConfirmWindow, statusConfirmPoll, Second, Millisecond, Microsecond. lia.
Qed.

(** *** A waiter of a finished request is answered *)

Definition finished (r : CertificateRequest) : Prop :=
  cr_Status r ∈ [StatusDenied; StatusExpired; StatusFailed; StatusEnrolled].

Lemma seq_enrollmentExpiry P code (Q : GoTime -> Sys -> Prop) s :
  (forall t, Q t s) -> seq P (enrollmentExpiry code) Q s.
Proof.
  intros HQ. unfold enrollmentExpiry. destruct (empty_str code); [by apply seq_ret|].
  apply seq_bind, seq_query; [|intros _; by apply seq_ret].
  destruct (enrollment_by_code code (sys_db s)); by apply seq_ret.
Qed.

Lemma seq_reconcile_finished id r (Q : res bool -> Sys -> Prop) s :
  finished r ->
  (forall s' o, requests s' = requests s -> sys_resolved s' !! id = Some o -> wo_Status o = cr_Status r ->
     (cr_Status r = StatusEnrolled -> wo_Code o = cr_EnrollmentToken r) -> Q (Ok false) s') ->
  seq reliable (reconcileStatus srv id r) Q s.
Proof.
  intros Hf HQ. unfold reconcileStatus, finished in *. rewrite !elem_of_cons in Hf.
  assert (forall o, wo_Status o = cr_Status r ->
    (cr_Status r = StatusEnrolled -> wo_Code o = cr_EnrollmentToken r) ->
    seq reliable (do* notifyWaiter id o ;; Return false) Q s) as Hk.
  { intros o Ho Hc. apply seq_bind, seq_notifyWaiter. intros s' t _ _ Hr _ Hres _. apply seq_ret.
    eapply HQ; [done|rewrite Hres; apply lookup_insert_eq|done|done]. }
  destruct Hf as [E|[E|[E|[E|E%elem_of_nil]]]]; [rewrite E in *..|done]; try (by apply Hk).
  apply seq_bind, seq_enrollmentExpiry. intros t. by apply Hk.
Qed.

(** C15: a client that waits for a finished request is answered at once. With a working
    database and bus, waiting for a denied, expired, failed or enrolled request returns
    that status after at most two rounds, without needing any message; an enrolled
    outcome carries the enrollment code. *)
Theorem wait_answers_finished cs s id r n :
  Forall reliable cs -> requests s !! id = Some r -> finished r -> sys_resolved s !! id = None ->
  exists o s', run cs (Wait srv (2 + n) id) s = (Ok (Some o), s') /\ wo_Status o = cr_Status r
    /\ (cr_Status r = StatusEnrolled -> wo_Code o = cr_EnrollmentToken r).
Proof.
  intros Hcs Hr Hf Hc.
  pose proof (seq_run reliable (Wait srv (2 + n) id) (fun a _ => exists o, a = Ok (Some o)
    /\ wo_Status o = cr_Status r /\ (cr_Status r = StatusEnrolled -> wo_Code o = cr_EnrollmentToken r))
    eq_refl cs s Hcs) as H.
  destruct H as (o & Ha & Ho).
  { unfold Wait. apply seq_bind, seq_cache_get. rewrite Hc.
    apply seq_bind_ok, seq_subscribe; [|by intros []]. cbn [wait_loop Nat.add].
    apply seq_bind, seq_cache_get. rewrite Hc. apply seq_bind_ok, seq_lookupRequest; [|by intros []].
    rewrite Hr. apply seq_bind_ok, seq_reconcile_finished; [done|]. intros s' o _ Hres Hst Hcode.
    cbn [negb wait_loop]. apply seq_bind, seq_cache_get. rewrite Hres. apply seq_ret. eauto. }
  exists o, (run cs (Wait srv (2 + n) id) s).2. split; [|done].
  rewrite <- Ha. apply surjective_pairing.
Qed.
End waiting.

(** ** Wake messages are hints *)

Section wake.
Notation others := (fun s s' : Sys => evolves s s').
Notation free := (fun _ _ : Sys => True).

(** A version of the row [id] that was read at some point. *)
Definition was_read (s : Sys) (id : string) (r : CertificateRequest) : Prop :=
  exists row, requests s !! id = Some row /\ row_evolves r row.

Lemma was_read_mono s s' id r : evolves s s' -> was_read s id r -> was_read s' id r.
Proof.
  intros Hev (row & Hr & Hrr). destruct (evolves_request _ _ _ _ Hev Hr) as (row' & ? & ?).
  exists row'. split; [done|by etrans].
Qed.

Lemma wp_quiet {X A} (e : eff X) (k : X -> prog A) Q id r s :
  (forall c s1, sys_db (exec_eff c s1 e).2 = sys_db s1) -> was_read s id r ->
  (forall x s2, was_read s2 id r -> wp others free (k x) Q s2) ->
  wp others free (bind (perform e) k) Q s.
Proof.
  intros He Hr Hk s1 Hev c. specialize (He c s1).
  destruct (exec_eff c s1 e) as [x s2]. split; [done|]. simpl in He. apply Hk.
  destruct (was_read_mono _ _ _ _ Hev Hr) as (row & Hrow & Hrr). exists row.
  unfold requests in *. by rewrite He.
Qed.

(** A lookup fails or reads the row. *)
Lemma wp_lookup {A} id (k : res CertificateRequest -> prog A) Q s :
  (forall e s1, evolves s s1 -> wp others free (k (Err e)) Q s1) ->
  (forall r s1, evolves s s1 -> requests s1 !! id = Some r -> wp others free (k (Ok r)) Q s1) ->
  wp others free (bind (lookupRequest id) k) Q s.
Proof.
  intros HE HQ s1 Hev c. simpl. destruct (ch_fault c); [by split; [|apply HE]|].
  destruct (db_requests (sys_db s1) !! id) eqn:E; split; try done; [by apply HQ|by apply HE].
Qed.

Lemma wp_awaitStatus_loop fuel id want deadline Q : forall current s,
  was_read s id current -> (forall r s2, was_read s2 id r -> wp others free (Ret r) Q s2) ->
  wp others free (awaitStatus_loop fuel id want current deadline) Q s.
Proof.
  induction fuel as [|fuel IH]; intros current s Hr HQ; cbn [awaitStatus_loop]; [by apply HQ|].
  apply (wp_quiet _ _ _ id current); [done|done|]. intros now s2 Hr2.
  destruct (negb _); [by apply HQ|].
  apply (wp_quiet _ _ _ id current); [|done|].
  { intros c s1. simpl. by destruct (ch_cancelled c). }
  intros slept s3 Hr3. destruct slept; [|by apply HQ]. cbn [negb]. apply wp_lookup.
  - intros e s4 Hev. by apply HQ, (was_read_mono s3).
  - intros r s4 Hev Hr4. assert (was_read s4 id r) by by exists r.
    destruct (bool_decide _); [by apply HQ|]. by apply IH.
Qed.

(** C16: a wake message is a hint, never an authority. Whatever decodable message
    arrives on a request's topic, forged or stale, and whatever other handlers do
    meanwhile, the outcome handed to the waiter has a final status that the database
    row itself has at that moment. *)
Theorem wake_confirmed id m s :
  wp (fun s s' => evolves s s') (fun _ _ => True) (tryHandleWakeMessage id (Enc m))
    (fun a s' => match a with
                 | None => True
                 | Some o => resolving_status (wo_Status o) = true
                     /\ exists r, requests s' !! id = Some r /\ cr_Status r = wo_Status o
                 end) s.
Proof.
  unfold tryHandleWakeMessage. destruct (resolving_status (om_Status m)) eqn:Hres; [|done]. cbn [negb].
  apply wp_lookup; [done|]. intros r s1 _ Hr.
  assert (was_read s1 id r) as Hread by by exists r.
  apply wp_bind.
  set (Q := fun a s' => match a : option WaitOutcome with None => True
       | Some o => resolving_status (wo_Status o) = true
           /\ exists r, requests s' !! id = Some r /\ cr_Status r = wo_Status o end).
  assert (forall r' s2, was_read s2 id r' -> wp others free
    (if bool_decide (cr_Status r' = om_Status m) then
       let* now := perform Now in
       let resolved := MkOutcome (om_Status m) (om_Certificate m) (om_Code m)
                         (om_ServiceAccount m) (default zero_time (om_ExpiresAt m)) now in
       do* perform (CacheSet id resolved) ;; Ret (Some resolved)
     else Ret None) Q s2) as Hk.
  { intros r' s2 Hr2. destruct (bool_decide _) eqn:E; [|done]. unbool.
    apply (wp_quiet _ _ _ id r'); [done|done|]. intros now s3 Hr3. cbv zeta.
    apply (wp_quiet _ _ _ id r'); [done|done|]. intros _ s4 (row & Hrow & Hrr).
    split; [done|]. exists row. split; [done|]. simpl.
    eapply row_evolves_terminal; [done|done|]. destruct (om_Status m); simpl in Hres; try done; set_solver. }
  destruct (negb _ && _); [|by apply Hk].
  unfold awaitStatus. apply (wp_quiet _ _ _ id r); [done|done|]. intros now s2 Hr2.
  apply wp_awaitStatus_loop; [done|]. intros r' s3 Hr3. by apply Hk.
Qed.
End wake.

(** ** The stranded sweep *)

Section sweep.
Context (srv : Server).
Notation budget := (ApprovalTTL (srv_Options srv) + SigningGrace (srv_Options srv)).

Lemma fail_rows_lookup ids reason t : forall d rs d' id r,
  fail_rows ids reason t d = (rs, d') -> db_requests d !! id = Some r ->
  db_requests d' !! id = Some (if bool_decide (id ∈ ids /\ cr_Status r = StatusSigning)
                               then set_FailureReason (set_Resolved r StatusFailed t) reason else r).
Proof.
  induction ids as [|k ids IH]; intros d rs d' id r H Hr; simpl in H.
  { injection H as <- <-. rewrite bool_decide_false by set_solver. done. }
  destruct (db_requests d !! k) as [rk|] eqn:Hk; [destruct (bool_decide (cr_Status rk = _)) eqn:Hb|].
  - unbool. destruct (fail_rows ids reason t _) as [rs0 d0] eqn:E. injection H as <- <-.
    destruct (decide (id = k)) as [->|Hne].
    + rewrite Hr in Hk. injection Hk as <-. eapply IH in E; [|simpl; apply lookup_insert_eq].
      rewrite E. rewrite (bool_decide_true (k ∈ k :: ids /\ _)) by (split; [set_solver|done]).
      rewrite bool_decide_false; [done|]. by intros [_ ?].
    + eapply IH in E; [|simpl; by rewrite lookup_insert_ne]. rewrite E.
      f_equal. rewrite (bool_decide_ext (id ∈ ids /\ _) (id ∈ k :: ids /\ cr_Status r = StatusSigning)); [done|].
      set_solver.
  - unbool. rewrite (IH _ _ _ _ _ H Hr). f_equal.
    destruct (decide (id = k)) as [->|Hne].
    + rewrite Hr in Hk. injection Hk as <-. rewrite !bool_decide_false; [done|by intros [_ ?]..].
    + rewrite (bool_decide_ext (id ∈ ids /\ _) (id ∈ k :: ids /\ cr_Status r = StatusSigning)); [done|set_solver].
  - rewrite (IH _ _ _ _ _ H Hr). f_equal. destruct (decide (id = k)) as [->|Hne]; [congruence|].
    rewrite (bool_decide_ext (id ∈ ids /\ _) (id ∈ k :: ids /\ cr_Status r = StatusSigning)); [done|set_solver].
Qed.

Lemma seq_report_failed P rs : forall (Q : unit -> Sys -> Prop) s,
  (forall s', requests s' = requests s -> sys_clock s <= sys_clock s' -> Q tt s') ->
  seq P (report_failed rs) Q s.
Proof.
  induction rs as [|r rs IH]; intros Q s HQ; simpl; [by apply seq_ret, HQ|].
  apply seq_bind, seq_now. intros t Ht. apply seq_bind, seq_Record. intros s1 H1.
  apply seq_bind, seq_notifyWaiter. intros s2 t2 _ _ Hr2 _ _ Hc2. apply IH. intros s3 Hr3 Hc3.
  pose proof (sr_clock _ _ H1) as Hc1. simpl in Hc1. apply HQ; [|lia].
  rewrite Hr3, Hr2. by rewrite (same_records_requests _ _ H1).
Qed.

(** What the sweep does to one row, given the cutoff it computed. *)
Lemma seq_sweep P id r s (Q : res unit -> Sys -> Prop) :
  requests s !! id = Some r -> (forall k x, requests s !! k = Some x -> cr_ID x = k) ->
  (forall a s' t cutoff, sys_clock s <= t -> t <= sys_clock s' ->
     cutoff = (if ApprovalTTL (srv_Options srv) <=? 0 then zero_time else t - budget) ->
     (is_stranded cutoff r = false -> requests s' !! id = Some r) ->
     ((forall c, P c -> reliable c) -> is_stranded cutoff r = true ->
        exists t', requests s' !! id
          = Some (set_FailureReason (set_Resolved r StatusFailed t') (text FailureReasonStranded))) ->
     Q a s') ->
  seq P (SweepStrandedRequests srv) Q s.
Proof.
  intros Hr Hkeys HQ. unfold SweepStrandedRequests. apply seq_bind.
  assert (forall t cutoff, sys_clock s <= t ->
    cutoff = (if ApprovalTTL (srv_Options srv) <=? 0 then zero_time else t - budget) ->
    seq P (let? stranded := perform (Query (rows_where (is_stranded cutoff))) in
           if (length stranded =? 0)%nat then Return tt
           else do* failStranded (map cr_ID stranded) ;; Return tt) Q (set_clock s t)) as Hk.
  { intros t cutoff Ht Hcut. set (s1 := set_clock s t).
    assert (id ∈ map cr_ID (rows_where (is_stranded cutoff) (sys_db s1)) <-> is_stranded cutoff r = true) as Hin.
    { unfold rows_where. rewrite list_elem_of_fmap. split.
      - intros (x & -> & [Hx Hmem]%list_elem_of_filter). apply list_elem_of_fmap in Hmem as ([k y] & -> & Hy).
        apply elem_of_map_to_list in Hy. simpl in *. unfold requests in Hr, Hkeys.
        pose proof (Hkeys k y Hy) as <-. congruence.
      - intros Hs. exists r. split; [symmetry; by apply Hkeys|]. apply list_elem_of_filter. split; [done|].
        apply list_elem_of_fmap. exists (id, r). split; [done|]. by apply elem_of_map_to_list. }
    apply seq_bind_ok, seq_query.
    2:{ intros Hnr. apply (HQ _ _ t cutoff); [done|simpl; lia|done|done|by intros ?]. }
    destruct (_ =? 0)%nat eqn:Hlen.
    { apply seq_ret, (HQ _ _ t cutoff); [done|simpl; lia|done|done|]. intros _ Hs. exfalso.
      apply Hin in Hs. apply Nat.eqb_eq, nil_length_inv in Hlen. rewrite Hlen in Hs. set_solver. }
    apply seq_bind. unfold failStranded. apply seq_bind, seq_now. intros t1 Ht1. simpl in Ht1.
    apply seq_bind, seq_exec.
    2:{ intros Hnr. apply seq_ret, seq_ret, (HQ _ _ t cutoff); [done|simpl; lia|done|done|by intros ?]. }
    intros t2 t3 Ht2 Ht3. simpl in Ht2. cbv zeta beta.
    destruct (fail_rows _ _ _ _) as [rs d'] eqn:E. simpl in E.
    pose proof (fail_rows_lookup _ _ _ _ _ _ id r E Hr) as Hrow.
    apply seq_report_failed. intros s4 Hr4 Hc4. simpl in Hc4. apply seq_ret, (HQ _ _ t cutoff); [done|lia|done| |].
    - intros Hs. rewrite Hr4. unfold requests. simpl. rewrite Hrow. rewrite bool_decide_false; [done|].
      intros [Hmem _]. apply Hin in Hmem. congruence.
    - intros _ Hs. exists t1. rewrite Hr4. unfold requests. simpl. rewrite Hrow.
      rewrite bool_decide_true; [done|]. split; [by apply Hin|].
      unfold is_stranded in Hs. by unbool. }
  unfold strandedCutoff. destruct (_ <=? 0) eqn:E.
  - apply seq_ret. specialize (Hk (sys_clock s) zero_time ltac:(lia) eq_refl). by destruct s.
  - apply seq_bind, seq_now. intros t Ht. by apply seq_ret, Hk.
Qed.

(** C13: the sweep fails no request that can still be answered. A request row that is
    not awaiting its signature, or whose creation is within the approval window plus
    the signing grace of the moment the sweep ends, is left exactly as it was,
    whatever the environment does. *)
Theorem sweep_spares_in_flight cs s id r :
  SInv srv s -> requests s !! id = Some r ->
  0 < ApprovalTTL (srv_Options srv) -> budget <= sys_clock s ->
  let '(a, s') := run cs (SweepStrandedRequests srv) s in
  cr_Status r <> StatusSigning \/ sys_clock s' - budget <= cr_CreatedAt r ->
  requests s' !! id = Some r.
Proof.
  intros HI Hr Httl Hclock. apply (seq_run_pair any); [done|by apply Forall_true|].
  apply (seq_sweep _ id r); [done|intros k x Hx; apply (rq_id _ _ _ (si_req _ _ HI _ _ Hx))|].
  intros a s' t cutoff Ht Hs' Hcut Hkeep _ Hor. apply Hkeep.
  rewrite (proj2 (Z.leb_gt _ _) Httl) in Hcut. unfold is_stranded, IsZeroTime, Before, zero_time.
  destruct Hor as [Hst|Hc]; [by rewrite bool_decide_false|].
  rewrite (proj2 (Z.ltb_ge _ _)) by lia. rewrite orb_false_r. apply andb_false_intro2, Z.eqb_neq.
  unfold Second, Millisecond, Microsecond. lia.
Qed.

(** C14: the sweep resolves every stranded request. With a working database, a row
    still awaiting its signature after the approval window and the signing grace have
    passed is failed as stranded by one run of the sweep. *)
Theorem sweep_fails_stranded cs s id r :
  Forall reliable cs -> SInv srv s -> requests s !! id = Some r -> cr_Status r = StatusSigning ->
  0 < ApprovalTTL (srv_Options srv) -> cr_CreatedAt r < sys_clock s - budget ->
  let '(a, s') := run cs (SweepStrandedRequests srv) s in
  exists t, requests s' !! id
    = Some (set_FailureReason (set_Resolved r StatusFailed t) (text FailureReasonStranded)).
Proof.
  intros Hcs HI Hr Hst Httl Hold. apply (seq_run_pair reliable); [done|done|].
  apply (seq_sweep _ id r); [done|intros k x Hx; apply (rq_id _ _ _ (si_req _ _ HI _ _ Hx))|].
  intros a s' t cutoff Ht Hs' Hcut _ Hfail. apply Hfail; [done|].
  rewrite (proj2 (Z.leb_gt _ _) Httl) in Hcut. unfold is_stranded, Before.
  rewrite bool_decide_true by done. simpl. rewrite (proj2 (Z.ltb_lt _ _)) by lia. apply orb_true_r.
Qed.
End sweep.

(** ** The theorems at the worked scenario *)

Import Demo.

Definition bob : Identity := MkIdentity "sub-bob" "bob" "" "" [] [] [] None ∅.

Definition row_in (s : Sys) (id : string) : CertificateRequest := default zero_request (requests s !! id).

Lemma approved_SInv : SInv server approved.2.
Proof.
  apply (call_SInv server ParseAuthorizedKey ParseAddress approve); [exact server_configured| |done].
  apply (call_SInv server ParseAuthorizedKey ParseAddress (CallCreateRequest (params CertificateTypeUser)));
    [exact server_configured| |done].
  apply (call_SInv server ParseAuthorizedKey ParseAddress (CallUpsertUser ann)); [exact server_configured| |done].
  apply SInv_boot.
Qed.

Lemma strangers_refused_witness : is_ok (run [] (Deny server "req-1" bob context) approved.2).1 = false.
Proof.
  destruct (strangers_refused server ParseAuthorizedKey ParseAddress [] approved.2 "req-1" bob context
    (selection "") (row_in approved.2 "req-1")) as (_ & H & _).
  - vm_compute. reflexivity.
  - exists (default "" (cr_UserID (row_in approved.2 "req-1"))). split; [vm_compute; reflexivity|].
    assert (map_Forall (fun _ u => us_Subject u <> "sub-bob") (users approved.2)) as Hb.
    { apply (bool_decide_unpack _). vm_compute. exact I. }
    intros k u Hk Hs. destruct (Hb k u Hk Hs).
  - exact (proj1 H).
Defined.

Lemma late_approval_expires_witness :
  (run [] (handle approve) (set_clock created.2 (5000 * Second))).1
  = Err (ExpiredError (text "certificate request")).
Proof.
  pose proof (late_approval_expires server ParseAuthorizedKey ParseAddress []
    (set_clock created.2 (5000 * Second)) "req-1" ann context (selection "") (row_in created.2 "req-1")) as H.
  destruct (run [] (Approve _ _ _ _ _ _ _) _) as [a s'] eqn:E.
  destruct H as (Ha & _); [constructor|vm_compute; reflexivity|vm_compute; reflexivity| |].
  - split; [vm_compute; discriminate|split; vm_compute; reflexivity].
  - rewrite <- Ha. exact (f_equal fst E).
Defined.

Lemma wait_answers_finished_witness : exists o s',
  run [] (Wait server 2 "req-2") (set_resolved finish ∅) = (Ok (Some o), s') /\ wo_Status o = StatusEnrolled.
Proof.
  destruct (wait_answers_finished server [] (set_resolved finish ∅) "req-2" (row_in finish "req-2") 0)
    as (o & s' & H1 & H2 & _).
  - constructor.
  - vm_compute. reflexivity.
  - apply (bool_decide_unpack _). vm_compute. exact I.
  - reflexivity.
  - exists o, s'. split; [exact H1|]. rewrite H2. vm_compute. reflexivity.
Defined.

(** The approved request, its signature never coming, much later. *)
Definition stranded : Sys := set_clock approved.2 (5000 * Second).

Lemma stranded_SInv : SInv server stranded.
Proof.
  apply (legal_clock server approved.2 (5000 * Second)); [vm_compute; discriminate|exact approved_SInv].
Qed.

(** The approved request shortly after its approval. *)
Definition in_flight : Sys := set_clock approved.2 (1100 * Second).

Lemma in_flight_SInv : SInv server in_flight.
Proof.
  apply (legal_clock server approved.2 (1100 * Second)); [vm_compute; discriminate|exact approved_SInv].
Qed.

Lemma sweep_spares_in_flight_witness :
  requests (run [] (SweepStrandedRequests server) in_flight).2 !! "req-1" = Some (row_in in_flight "req-1").
Proof.
  pose proof (sweep_spares_in_flight server [] in_flight "req-1" (row_in in_flight "req-1") in_flight_SInv) as H.
  assert (sys_clock (run [] (SweepStrandedRequests server) in_flight).2 = 1100 * Second) as Hc
    by (vm_compute; reflexivity).
  destruct (run [] (SweepStrandedRequests server) in_flight) as [a s'].
  apply H; [vm_compute; reflexivity|vm_compute; reflexivity|vm_compute; discriminate|].
  right. simpl in Hc. rewrite Hc. vm_compute. discriminate.
Defined.

Lemma sweep_fails_stranded_witness :
  exists r, requests (run [] (SweepStrandedRequests server) stranded).2 !! "req-1" = Some r
    /\ cr_Status r = StatusFailed.
Proof.
  pose proof (sweep_fails_stranded server [] stranded "req-1" (row_in stranded "req-1")) as H.
  destruct (run [] (SweepStrandedRequests server) stranded) as [a s'].
  destruct H as [t Ht];
    [constructor|exact stranded_SInv|vm_compute; reflexivity|vm_compute; reflexivity|vm_compute; reflexivity
    |vm_compute; reflexivity|].
  eexists. split; [exact Ht|reflexivity].
Defined.
