(* ===== verification/Delivery.v ===== *)
(** * From approval to certificate: the signer, the reply handler, redemption

    What the signer accepts, how a reply is delivered and in which order, that a
    repeated reply changes nothing, and that a dead code yields nothing. *)

From S2P Require Import Prelude Netip Model UserCode Accounts Condition Lifetime CertPolicy Sha256 World AuditLog CertRequest CertWait Signer SignReply Enrollment Users Seq Invariant Legal CertSafe ReplySafe EnrollSafe System Scenario Safety Behaviour.
Local Open Scope prog_scope.

(** ** The signer's own checks *)

Section signer.
Context (ParseAuthorizedKey : string -> option sshPublicKey).

(** The certificate a job asks for, and the reply that reports it. *)
Definition job_certificate (job : SigningJob) (k : sshPublicKey) : sshCertificate :=
  MkSSHCertificate k (job_Serial job) ssh_UserCert (job_KeyID job) (job_Principals job)
    (unix64 (job_ValidAfter job)) (unix64 (job_ValidBefore job)) (permissionsFor (job_RequestedOptions job)).

Definition job_reply (job : SigningJob) (k : sshPublicKey) (marshalled : string) : SignedReply :=
  MkReply (job_RequestID job) (job_Type job) (trim_space marshalled) (job_Serial job) (job_KeyID job)
    (job_Principals job) (pk_FingerprintSHA256 k)
    (perm_CriticalOptions (permissionsFor (job_RequestedOptions job)))
    (grantedExtensions (permissionsFor (job_RequestedOptions job)))
    (job_ValidAfter job) (job_ValidBefore job) (text "") "".

Definition known_type (t : CertificateType) : bool :=
  match t with CertificateTypeOther _ => false | _ => true end.

Lemma certTypeFor_known t :
  certTypeFor t = if known_type t then inl ssh_UserCert
                  else inr (MkSignError ErrCodeUnsupportedType
                              (Msg "certificate type %q is not supported yet" [type_string t])).
Proof. by destruct t. Qed.

Lemma validate_principals_Forall ps :
  validate_principals ps = Ok tt <-> Forall (fun p => ValidatePrincipal p = Ok tt) ps.
Proof.
  split; [apply validate_principals_ok|]. induction 1 as [|p ps Hp _ IH]; [done|]. simpl. by rewrite Hp.
Qed.

(** C11: the signer signs exactly the jobs that pass its own checks, and signs exactly
    what the job says. A signature comes out if and only if the lifetime is positive
    and within the cap for the type, the type is one of the four, the key parses (and
    under FIPS is of an approved algorithm), every principal is well-formed, and the
    CA key signs; the certificate and the reply then carry the job's serial, key id,
    principals, validity and permissions unchanged. *)
Theorem Sign_exact ca job fips limits rep :
  Sign ParseAuthorizedKey ca job fips limits = inl rep <->
  0 < job_ValidBefore job - job_ValidAfter job
    <= (if bool_decide (job_Type job = CertificateTypeService)
        then sl_MaxServiceCertLifetime limits else sl_MaxCertLifetime limits)
  /\ known_type (job_Type job) = true
  /\ Forall (fun p => ValidatePrincipal p = Ok tt) (job_Principals job)
  /\ exists k sign m, ParseAuthorizedKey (job_PublicKey job) = Some k
       /\ (fips = true -> exists t, FromSSHAlgorithm (pk_Type k) = Some t /\ IsApprovedInFIPS t = true)
       /\ ca = Some sign /\ sign (job_certificate job k) = Some m /\ rep = job_reply job k m.
Proof.
  rewrite <- validate_principals_Forall. unfold Sign, parsePublicKey. rewrite certTypeFor_known. split.
  - destruct (Before _ _ || _) eqn:Hb; [done|]. apply orb_false_iff in Hb as [Hb He]. unfold Before in Hb.
    apply Z.ltb_ge in Hb. apply Z.eqb_neq in He.
    destruct (_ <? _) eqn:Hcap; [done|]. apply Z.ltb_ge in Hcap.
    destruct (known_type _) eqn:Ht; [|done].
    destruct (ParseAuthorizedKey _) as [k|] eqn:Hk; [|done]. destruct (fips && _) eqn:Hf; [done|].
    destruct (validate_principals _) as [[]|] eqn:Hp; [|done].
    destruct ca as [sign|]; [|done]. destruct (sign _) as [m|] eqn:Hm; [|done]. intros [= <-].
    split_and!; try done; [lia|]. exists k, sign, m. split_and!; try done. intros ->. simpl in Hf.
    destruct (FromSSHAlgorithm _) as [a|]; [|done]. exists a. split; [done|]. by destruct (IsApprovedInFIPS a).
  - intros (Hlife & Ht & Hp & k & sign & m & Hk & Hfips & -> & Hm & ->).
    unfold Before. rewrite (proj2 (Z.ltb_ge _ _)) by lia. rewrite (proj2 (Z.eqb_neq _ _)) by lia. simpl.
    rewrite (proj2 (Z.ltb_ge _ _)) by lia. rewrite Ht, Hk, Hp.
    assert ((fips && negb (match FromSSHAlgorithm (pk_Type k) with
      | Some t => IsApprovedInFIPS t | None => false end)) = false) as ->.
    { destruct fips; [|done]. destruct (Hfips eq_refl) as (t & -> & ->). done. }
    unfold job_certificate in Hm. by rewrite Hm.
Qed.
End signer.

(** ** Delivering a reply *)

Section replies.
Context (srv : Server).

(** A certificate row that reports [rep]. *)
Definition reports (c : Certificate) (rep : SignedReply) : Prop :=
  ce_SerialNumber c = rep_Serial rep /\ ce_Type c = rep_Type rep /\ ce_KeyID c = rep_KeyID rep
  /\ ce_Principals c = rep_Principals rep /\ ce_Extensions c = Enc (rep_Extensions rep)
  /\ ce_CriticalOptions c = Enc (rep_CriticalOptions rep)
  /\ ce_IssuedAt c = rep_ValidAfter rep /\ ce_ExpiresAt c = rep_ValidBefore rep.

(** Everything but the certificates table, the audit trail and the clock. *)
Definition only_certificates (s s' : Sys) : Prop :=
  exists certs l, sys_db s' = set_audit (set_certificates (sys_db s) certs) l
    /\ sys_resolved s' = sys_resolved s /\ sys_published s' = sys_published s.

Lemma only_certificates_intro s s1 s2 certs :
  same_records s s1 -> sys_db s2 = set_certificates (sys_db s1) certs ->
  sys_resolved s2 = sys_resolved s1 -> sys_published s2 = sys_published s1 -> only_certificates s s2.
Proof. intros [[l Hl] Hr Hp _] Hd Hr2 Hp2. exists certs, l. rewrite Hd, Hl, Hr2, Hp2. done. Qed.

Lemma only_certificates_trans s s1 s2 : only_certificates s s1 -> same_records s1 s2 -> only_certificates s s2.
Proof.
  intros (certs & l & Hd & Hr & Hp) [[l' Hl'] Hr' Hp' _]. exists certs, l'.
  rewrite Hl', Hd. split_and!; [done|congruence|congruence].
Qed.

Lemma only_certificates_requests s s' : only_certificates s s' -> requests s' = requests s.
Proof. intros (certs & l & Hd & _). unfold requests. by rewrite Hd. Qed.

Lemma seq_resolveOrigin P rep (Q : certificateOrigin -> Sys -> Prop) s :
  (forall o, ((forall c, P c -> reliable c) -> rep_Type rep <> CertificateTypeService ->
      forall r, requests s !! rep_RequestID rep = Some r ->
      og_UserID o = cr_UserID r /\ og_RequestID o = Some (rep_RequestID rep)) -> Q o s) ->
  seq P (resolveOrigin rep) Q s.
Proof.
  intros HQ. unfold resolveOrigin. destruct (bool_decide _) eqn:Hty; unbool.
  - assert (forall o, Q o s) as HQ' by (intros; apply HQ; by intros ? []). clear HQ.
    apply seq_bind. unfold resolveRetrievalOwner. apply seq_bind, seq_query; [|by intros _; apply seq_ret, seq_ret].
    destruct (db_retrievals _ !! _); [|by apply seq_ret, seq_ret].
    apply seq_bind, seq_query; [|by intros _; apply seq_ret, seq_ret].
    destruct (db_enrollments _ !! _); by apply seq_ret, seq_ret.
  - apply seq_bind, seq_query; [|intros Hnr; by apply seq_ret, HQ].
    destruct (db_requests (sys_db s) !! _) as [r|] eqn:Hr.
    + destruct (reportedContext r). apply seq_ret, HQ. intros _ _ r' Hr'. unfold requests in Hr'. by simplify_eq.
    + apply seq_ret, HQ. intros _ _ r' Hr'. unfold requests in Hr'. congruence.
Qed.

Lemma seq_recordCertificate P rep (Q : res certificateOrigin -> Sys -> Prop) s :
  (~ (forall c, P c -> reliable c) -> forall e s', same_records s s' -> Q (Err e) s') ->
  (forall o s', only_certificates s s' ->
     (forall c, certificates s !! rep_Serial rep = Some c -> certificates s' = certificates s) ->
     (certificates s !! rep_Serial rep = None -> exists c, certificates s' = <[rep_Serial rep := c]> (certificates s)
        /\ reports c rep
        /\ ((forall c, P c -> reliable c) -> rep_Type rep <> CertificateTypeService ->
            forall r, requests s !! rep_RequestID rep = Some r ->
            ce_UserID c = cr_UserID r /\ ce_CertificateRequestID c = Some (rep_RequestID rep))) ->
     Q (Ok o) s') ->
  seq P (recordCertificate rep) Q s.
Proof.
  intros HE HQ. unfold recordCertificate. apply seq_bind, seq_resolveOrigin. intros o Ho.
  apply seq_bind, seq_uuid. intros cid _. set (s1 := set_issued s _).
  assert (same_records s s1) as H1 by apply same_records_issued. cbv zeta.
  set (c := MkCertificate _ _ _ _ _ _ _ _ _ _ _ _).
  apply seq_bind_ok, seq_exec; [|intros Hnr; by apply HE].
  intros t1 t2 Ht1 Ht2. simpl in Ht1. unfold create_certificate. destruct (bool_decide _) eqn:Hex; unbool.
  - assert (same_records s (set_clock (set_db s1 (sys_db s1)) t2)) as H2.
    { etrans; [exact H1|]. constructor; simpl; try done; [|lia]. exists (db_audit (sys_db s)). by destruct (sys_db s). }
    set (s2 := set_clock _ _) in *.
    assert (forall o' s3, same_records s s3 -> seq P
      (do* auditRecord (issued_event rep o') ;; Return o') Q s3) as Hk.
    { intros o' s3 H3. apply seq_bind, seq_Record. intros s4 H4. apply seq_ret, HQ.
      - assert (same_records s s4) as H5 by (by etrans).
        eapply (only_certificates_intro s s4 s4 (certificates s4)); [done| |done|done].
        unfold certificates. by destruct (sys_db s4).
      - intros _ _. by rewrite (same_records_certificates _ _ H4), (same_records_certificates _ _ H3).
      - intros Hn. unfold certificates in Hn. simpl in Hex. rewrite Hn in Hex. by destruct Hex. }
    apply seq_bind, seq_bind, seq_query; [|intros _; by apply seq_ret, Hk].
    destruct (_ <$> _); by apply seq_ret, Hk.
  - rewrite <- eq_None_not_Some in Hex. simpl in Hex. apply seq_bind, seq_ret, seq_bind, seq_Record.
    intros s3 H3. apply seq_ret, HQ.
    + eapply only_certificates_trans; [|exact H3].
      eapply (only_certificates_intro s s1); [done|reflexivity|done|done].
    + intros c' Hc'. unfold certificates in Hc'. congruence.
    + intros _. exists c. split_and!; [|done|done].
      rewrite (same_records_certificates _ _ H3). done.
Qed.

Lemma seq_notifyIssued P rep o (Q : unit -> Sys -> Prop) s :
  (forall s', sys_db s' = sys_db s -> sys_resolved s' = sys_resolved s ->
     sys_published s' = sys_published s -> Q tt s') -> seq P (notifyIssued srv rep o) Q s.
Proof.
  intros HQ. unfold notifyIssued. destruct (empty_str _); [by apply seq_ret, HQ|].
  destruct (issued_kind _) as [k|]; [|by apply seq_ret, HQ].
  apply seq_bind. unfold applyApprover.
  assert (forall l, seq P (perform (Notify (MkNotice k (derefOrEmpty (og_UserID o))
            (issued_payload srv rep o ++ l)))) Q s) as Hk by (intros l; by apply seq_notify, HQ).
  destruct (empty_str _); [by apply seq_ret|].
  apply seq_bind, seq_query; [|intros _; by apply seq_ret].
  destruct (db_decisions _ !! _); [|by apply seq_ret]. apply seq_bind. unfold approverDisplayName.
  destruct (empty_str _); [by apply seq_ret, seq_ret|].
  apply seq_bind, seq_query; [|intros _; by apply seq_ret, seq_ret].
  destruct (user_by_subject _ _); by apply seq_ret, seq_ret.
Qed.

(** The row leaves signing, or is left alone. *)
Lemma seq_markResolved P id st reason (Q : res unit -> Sys -> Prop) s :
  (forall a s' d, sys_db s' = d -> sys_resolved s' = sys_resolved s -> sys_published s' = sys_published s ->
     ((forall c, P c -> reliable c) -> a = Ok tt) ->
     ((forall r, requests s !! id = Some r -> cr_Status r <> StatusSigning) -> d = sys_db s) ->
     (forall r, (forall c, P c -> reliable c) -> requests s !! id = Some r -> cr_Status r = StatusSigning ->
        exists t, d = set_requests (sys_db s)
          (<[id := set_FailureReason (set_Resolved r st t) reason]> (requests s))) -> Q a s') ->
  seq P (markResolved id st reason) Q s.
Proof.
  intros HQ. unfold markResolved. apply seq_bind, seq_now. intros t Ht.
  apply seq_bind_ok, seq_exec.
  2:{ intros Hnr. by apply (HQ _ _ (sys_db s)). }
  intros t1 t2 Ht1 Ht2. unfold update_request.
  destruct (db_requests (sys_db (set_clock s t)) !! id) as [r|] eqn:Hr; simpl in Hr.
  2:{ apply seq_ret, (HQ _ _ (sys_db s)); try done. intros r _ Hr'. unfold requests in Hr'. congruence. }
  destruct (bool_decide _) eqn:Hst; unbool.
  - apply seq_ret. eapply HQ; [done..| |].
    + intros H. exfalso. by eapply H.
    + intros r' _ Hr' _. unfold requests in Hr'. simplify_eq. by exists t.
  - apply seq_ret, (HQ _ _ (sys_db s)); try done. intros r' _ Hr' ?. unfold requests in Hr'. congruence.
Qed.

(** C10: a signed reply is recorded, delivered and resolved. With a working database
    and bus, handling a successful reply for a request in signing writes one
    certificate row that reports the reply and is owned by the request's owner, puts
    the certificate where the waiting client finds it, and moves the request to
    approved. *)
Theorem reply_delivers cs s rep r :
  Forall reliable cs -> Failed rep = false -> rep_Type rep <> CertificateTypeService ->
  requests s !! rep_RequestID rep = Some r -> cr_Status r = StatusSigning ->
  certificates s !! rep_Serial rep = None ->
  let '(a, s') := run cs (reply_handle srv (Enc rep)) s in
  a = Ok tt
  /\ (exists c, certificates s' = <[rep_Serial rep := c]> (certificates s) /\ reports c rep
        /\ ce_UserID c = cr_UserID r /\ ce_CertificateRequestID c = Some (rep_RequestID rep))
  /\ (exists o, sys_resolved s' !! rep_RequestID rep = Some o /\ wo_Status o = StatusApproved
        /\ wo_Certificate o = rep_Certificate rep)
  /\ exists r', requests s' !! rep_RequestID rep = Some r' /\ cr_Status r' = StatusApproved
        /\ decisions s' = decisions s.
Proof.
  intros Hcs Hf Hty Hr Hst Hc. apply (seq_run_pair reliable); [done|done|].
  simpl. rewrite Hf. unfold resolveSuccess.
  apply seq_bind_ok, seq_recordCertificate; [by intros []|]. intros o s1 H1 _ Hnew.
  destruct (Hnew Hc) as (c & Hcs1 & Hrep & Hown). destruct (Hown (fun c H => H) Hty r Hr) as [Hu Hrid].
  pose proof (only_certificates_requests _ _ H1) as Hr1.
  destruct H1 as (certs & l & Hd1 & _).
  apply seq_bind, seq_notifyWaiter. intros s2 t2 Hd2 _ _ _ Hres2 _. simpl in Hres2.
  apply seq_bind, seq_notifyIssued. intros s3 Hd3 Hres3 _.
  unfold resolvesRequestRow. rewrite bool_decide_false by done. simpl.
  apply seq_markResolved. intros a s4 d Hd4 Hres4 _ Hok _ Hset.
  assert (requests s3 = requests s) as Hr3.
  { unfold requests. by rewrite Hd3, Hd2, Hd1. }
  rewrite <- Hr3 in Hr. destruct (Hset r (fun c H => H) Hr Hst) as [t ->].
  split_and!; [by apply Hok| | |].
  - exists c. split_and!; try done. unfold certificates. rewrite Hd4. simpl. rewrite Hd3, Hd2. exact Hcs1.
  - rewrite Hres4, Hres3, Hres2. rewrite lookup_insert_eq. by eexists.
  - eexists. split_and!; [unfold requests; rewrite Hd4; simpl; apply lookup_insert_eq|done|].
    unfold decisions. rewrite Hd4. simpl. by rewrite Hd3, Hd2, Hd1.
Qed.

(** C18: a repeated reply changes nothing. Replies are delivered at least once: handling
    a reply whose certificate is already on record, for a request that has left
    signing (or for a redemption), leaves requests, decisions, enrollments,
    redemptions and certificates exactly as they were, whatever the environment does. *)
Theorem repeated_reply_harmless cs s rep c :
  Failed rep = false -> certificates s !! rep_Serial rep = Some c ->
  (rep_Type rep = CertificateTypeService
   \/ forall r, requests s !! rep_RequestID rep = Some r -> cr_Status r <> StatusSigning) ->
  let '(_, s') := run cs (reply_handle srv (Enc rep)) s in
  requests s' = requests s /\ decisions s' = decisions s /\ enrollments s' = enrollments s
  /\ retrievals s' = retrievals s /\ certificates s' = certificates s.
Proof.
  intros Hf Hc Hdone. rewrite (surjective_pairing (run _ _ _)).
  set (Q := fun (a : res unit) s' => requests s' = requests s /\ decisions s' = decisions s
    /\ enrollments s' = enrollments s /\ retrievals s' = retrievals s /\ certificates s' = certificates s).
  apply (seq_run any _ Q I cs s); [by apply Forall_true|].
  assert (forall a s' l, sys_db s' = set_audit (set_certificates (sys_db s) (certificates s)) l -> Q a s') as HQ.
  { intros a s' l Hd. unfold Q, requests, decisions, enrollments, retrievals, certificates. by rewrite Hd. }
  simpl. rewrite Hf. unfold resolveSuccess.
  apply seq_bind_ok, seq_recordCertificate.
  { intros _ e s' [[l Hl] _ _ _]. apply (HQ _ _ l). rewrite Hl. unfold certificates. by destruct (sys_db s). }
  intros o s1 (certs & l & Hd1 & _) Hsame _. specialize (Hsame c Hc).
  assert (certs = certificates s) as -> by (rewrite <- Hsame; unfold certificates; by rewrite Hd1).
  apply seq_bind, seq_notifyWaiter. intros s2 t2 Hd2 _ _ _ _ _.
  apply seq_bind, seq_notifyIssued. intros s3 Hd3 _ _.
  assert (sys_db s3 = set_audit (set_certificates (sys_db s) (certificates s)) l) as Hd by by rewrite Hd3, Hd2.
  unfold resolvesRequestRow. destruct (bool_decide _) eqn:Hty; simpl; unbool; [by apply seq_ret, (HQ _ _ l)|].
  destruct Hdone as [|Hdone]; [done|]. apply seq_markResolved. intros a s4 d Hd4 _ _ _ Hkeep _.
  apply (HQ _ _ l). rewrite Hd4, Hkeep; [done|]. intros r. unfold requests. rewrite Hd. apply Hdone.
Qed.
End replies.

(** ** The order of delivery

    Programs that touch neither the request rows nor the outcome cache, step by step. *)

Section order.
Context (srv : Server).

Definition frame (s s' : Sys) : Prop :=
  requests s' = requests s /\ sys_resolved s' = sys_resolved s.

#[local] Instance frame_po : PreOrder frame.
Proof. split; [done|]. intros a b c [] []. split; congruence. Qed.

Definition frames {A} (p : prog A) : Prop := forall s, wp eq frame p (fun _ _ => True) s.

Lemma frames_ret {A} (a : A) : frames (Ret a).
Proof. done. Qed.

Lemma frames_bind {A B} (p : prog A) (f : A -> prog B) : frames p -> (forall a, frames (f a)) -> frames (bind p f).
Proof. intros Hp Hf s. apply wp_bind. eapply wp_mono; [|apply Hp]. intros a s' _. apply Hf. Qed.

Lemma frames_bind_ok {A B} (p : prog (res A)) (f : A -> prog (res B)) :
  frames p -> (forall a, frames (f a)) -> frames (bind_ok p f).
Proof. intros Hp Hf. apply frames_bind; [done|]. intros [a|e]; [apply Hf|apply frames_ret]. Qed.

Lemma frames_perform {X} (e : eff X) : (forall c s, frame s (exec_eff c s e).2) -> frames (perform e).
Proof. intros H s s1 <- c. specialize (H c s). by destruct (exec_eff c s e). Qed.

Lemma frames_query {A} (q : DB -> A) : frames (perform (Query q)).
Proof. apply frames_perform. done. Qed.

Lemma frames_exec {A} (stmt : GoTime -> GoTime -> tx A) :
  (forall t1 t2 d, db_requests (stmt t1 t2 d).2 = db_requests d) -> frames (perform (Exec stmt)).
Proof.
  intros H. apply frames_perform. intros c s. simpl. destruct (ch_fault c); [done|].
  set (t1 := Z.max _ _). set (t2 := t1 + _). specialize (H t1 t2 (sys_db s)).
  destruct (stmt t1 t2 (sys_db s)) as [[a|e] d']; [|done]. split; [|done]. exact H.
Qed.

Lemma frames_Return {A} (a : A) : frames (Return a).
Proof. done. Qed.
Lemma frames_Fail {A} e : frames (Fail (A := A) e).
Proof. done. Qed.

Hint Resolve frames_ret frames_Return frames_Fail frames_bind frames_bind_ok frames_query frames_exec : frames.
Hint Extern 2 (frames (perform _)) => apply frames_perform; intros; done : frames.

Lemma frames_prepare ev : frames (prepare ev).
Proof.
  unfold prepare. apply frames_bind; [destruct (IsZeroTime _); auto with frames|]. intros t.
  destruct (validate_reason _ _); cbv zeta; [|auto with frames].
  apply frames_bind; [by apply frames_perform|auto with frames].
Qed.

Lemma frames_Record ev : frames (Record_ ev).
Proof.
  unfold Record_. apply frames_bind; [apply frames_prepare|]. intros [[row prepared]|e]; [|auto with frames].
  apply frames_bind; [auto with frames|]. intros _. destruct (tableSkipped _); auto with frames.
Qed.

Lemma frames_recordCertificate rep : frames (recordCertificate rep).
Proof.
  unfold recordCertificate. apply frames_bind.
  { unfold resolveOrigin, resolveRetrievalOwner. destruct (bool_decide _).
    - apply frames_bind; [|auto with frames]. apply frames_bind; [auto with frames|].
      intros [[x|]|]; auto with frames. apply frames_bind; [auto with frames|].
      intros [[e|]|]; auto with frames.
    - apply frames_bind; [auto with frames|]. intros [[r|]|]; auto with frames.
      destruct (reportedContext r). auto with frames. }
  intros o. apply frames_bind; [auto with frames|]. intros cid. cbv zeta. apply frames_bind_ok.
  { apply frames_exec. intros t1 t2 d. unfold create_certificate. by destruct (bool_decide _). }
  intros created. apply frames_bind.
  { destruct created; [auto with frames|]. apply frames_bind; [auto with frames|].
    intros [[id|]|]; auto with frames. }
  intros o'. apply frames_bind; [apply frames_Record|auto with frames].
Qed.

Lemma frames_notifyIssued rep o : frames (notifyIssued srv rep o).
Proof.
  unfold notifyIssued, applyApprover, approverDisplayName. destruct (empty_str _); [auto with frames|].
  destruct (issued_kind _); [|auto with frames]. apply frames_bind; [|auto with frames].
  destruct (empty_str _); [auto with frames|]. apply frames_bind; [auto with frames|].
  intros [[d|]|]; [|auto with frames..]. apply frames_bind; [|auto with frames].
  destruct (empty_str _); [auto with frames|]. apply frames_bind; [auto with frames|].
  intros [[u|]|]; auto with frames.
Qed.

(** A framed program keeps any fact about the rows and the cache at every step. *)
Lemma frames_keep {A} (p : prog A) (I : Sys -> Prop) :
  (forall s s', frame s s' -> I s -> I s') -> frames p ->
  forall s, I s -> wp eq (fun _ s' => I s') p (fun _ s' => I s') s.
Proof.
  intros HI Hp. assert (forall s, wp eq frame p (fun _ _ => True) s -> I s ->
    wp eq (fun _ s' => I s') p (fun _ s' => I s') s) as H; [|intros s Hs; by apply H].
  clear Hp. induction p as [a|X e k IH]; simpl; intros s Hp Hs; [done|].
  intros s1 <- c. specialize (Hp s eq_refl c). destruct (exec_eff c s e) as [x s2].
  destruct Hp as [Hf Hk]. assert (I s2) by by eapply HI. split; [done|]. by apply IH.
Qed.

(** A fact that holds after each step holds after any number of them. *)
Lemma wp_advance {A} (p : prog A) (I : Sys -> Prop) Q : forall n cs s,
  wp eq (fun _ s' => I s') p Q s -> I s -> I (advance n cs p s).2.
Proof.
  induction p as [a|X e k IH]; intros n cs s Hp Hs; [by destruct n|]. destruct n as [|n]; [done|]. simpl in *.
  specialize (Hp s eq_refl (default calm (head cs))). destruct (exec_eff _ s e) as [x s2].
  destruct Hp. by apply IH.
Qed.

(** Before the cache is written the rows are as they were; after it, it is written. *)
Lemma wp_notifyWaiter (I : Sys -> Prop) id o s :
  (forall s', requests s' = requests s -> I s') ->
  (forall s', (exists o', sys_resolved s' !! id = Some o' /\ wo_Certificate o' = wo_Certificate o) -> I s') ->
  wp eq (fun _ s' => I s') (notifyWaiter id o)
    (fun _ s' => exists o', sys_resolved s' !! id = Some o' /\ wo_Certificate o' = wo_Certificate o) s.
Proof.
  intros H1 H2. intros s1 <- c1. split; [by apply H1|]. intros s2 <- c2. split; [by apply H1|].
  intros s3 <- c3. simpl. set (x := MkOutcome _ _ _ _ _ _).
  assert (exists o', <[id := x]> (sys_resolved s) !! id = Some o' /\ wo_Certificate o' = wo_Certificate o) as Hx.
  { exists x. split; [apply lookup_insert_eq|done]. }
  destruct (ch_fault c3); (split; [by apply H2|exact Hx]).
Qed.

(** C6: a certificate is delivered before its request reads "approved". At every point
    while a successful reply for a request in signing is handled (cut the handler off
    after any number of its steps), if the row already reads approved then the
    certificate is already where the waiting client finds it; so on a running server
    "approved with nothing cached" never shows. *)
Theorem delivered_before_approved cs s rep r n :
  Failed rep = false -> requests s !! rep_RequestID rep = Some r -> cr_Status r = StatusSigning ->
  let s' := (advance n cs (reply_handle srv (Enc rep)) s).2 in
  forall r', requests s' !! rep_RequestID rep = Some r' -> cr_Status r' = StatusApproved ->
  exists o, sys_resolved s' !! rep_RequestID rep = Some o /\ wo_Certificate o = rep_Certificate rep.
Proof.
  intros Hf Hr Hst. set (id := rep_RequestID rep) in *. simpl. rewrite Hf.
  set (I := fun s' => forall r', requests s' !! id = Some r' -> cr_Status r' = StatusApproved ->
    exists o, sys_resolved s' !! id = Some o /\ wo_Certificate o = rep_Certificate rep).
  set (cached := fun s' => exists o, sys_resolved s' !! id = Some o /\ wo_Certificate o = rep_Certificate rep).
  set (waiting := fun s' => requests s' !! id = Some r).
  assert (forall s', waiting s' -> I s') as Hw.
  { intros s' Hw r' Hr' Ha. unfold waiting in Hw. congruence. }
  assert (forall s', cached s' -> I s') as Hc by (intros s' H r' _ _; exact H).
  apply (wp_advance _ I (fun _ _ => True)); [|by apply Hw].
  unfold resolveSuccess. apply wp_bind_ok.
  apply (wp_conseq eq eq (fun _ s' => waiting s') (fun _ s' => I s')); [done|by intros; apply Hw|].
  eapply wp_mono; [|apply (frames_keep (recordCertificate rep) waiting); [|apply frames_recordCertificate|exact Hr]].
  2:{ intros s0 s' [E _]. unfold waiting. by rewrite E. }
  intros [o|e] s1 H1; [|done]. apply wp_bind. eapply wp_mono; [|apply (wp_notifyWaiter I); [|exact Hc]].
  2:{ intros s' E. apply Hw. unfold waiting. by rewrite E. }
  intros [] s2 H2. apply wp_bind.
  apply (wp_conseq eq eq (fun _ s' => cached s') (fun _ s' => I s')); [done|by intros; apply Hc|].
  eapply wp_mono; [|apply (frames_keep _ cached); [|apply frames_notifyIssued|exact H2]].
  2:{ intros s0 s' [_ E]. unfold cached. by rewrite E. }
  intros [] s3 H3. destruct (negb _); [done|]. unfold markResolved.
  apply (wp_conseq eq eq (fun _ s' => cached s') (fun _ s' => I s')); [done|by intros; apply Hc|].
  intros s4 <- c4. split; [exact H3|]. intros s5 <- c5. simpl.
  destruct (ch_fault c5); [by split|]. unfold update_request.
  destruct (db_requests _ !! _); [destruct (bool_decide _)|]; by split.
Qed.
End order.

(** ** Redeeming and managing enrollments *)

Section enrollment.
Context (srv : Server).
Context (ParseAuthorizedKey : string -> option sshPublicKey) (ParseAddress : string -> bool).

Lemma seq_notifyExpiredAttempt P e ip t (Q : unit -> Sys -> Prop) s :
  (forall s', retrievals s' = retrievals s -> certificates s' = certificates s ->
     sys_published s' = sys_published s -> Q tt s') ->
  seq P (notifyExpiredAttempt srv ParseAuthorizedKey e ip t) Q s.
Proof.
  intros HQ. unfold notifyExpiredAttempt. cbv zeta. destruct (_ <=? 0); [by apply seq_ret, HQ|].
  apply seq_bind, seq_exec; [|by intros _; apply seq_ret, HQ].
  intros t1 t2 Ht1 Ht2. unfold update_enrollment.
  destruct (db_enrollments _ !! _) as [x|]; [|by apply seq_ret, HQ].
  destruct (from_option _ _ _); [|by apply seq_ret, HQ].
  destruct (describeAuthorizedKey _ _). by apply seq_notify, HQ.
Qed.

(** C20: a dead code yields nothing and tells nothing. With a working database,
    redeeming a code that was never issued and redeeming one that has expired answer
    the same "not found"; no redemption is recorded and no signing job is queued. *)
Theorem dead_code_refused cs s fuel code ip :
  Forall reliable cs ->
  (forall e, enrollment_by_code code (sys_db s) = Some e -> en_ExpiresAt e <= sys_clock s) ->
  let '(a, s') := run cs (Retrieve srv ParseAuthorizedKey fuel code ip) s in
  a = Err (NotFoundError (text "enrollment")) /\ retrievals s' = retrievals s
  /\ certificates s' = certificates s /\ sys_published s' = sys_published s.
Proof.
  intros Hcs Hdead. apply (seq_run_pair reliable); [done|done|].
  unfold Retrieve. apply seq_bind_ok, seq_query; [|by intros []].
  destruct (enrollment_by_code code (sys_db s)) as [e|]; [|by apply seq_ret].
  specialize (Hdead e eq_refl). apply seq_bind, seq_now. intros t Ht.
  unfold After. rewrite (proj2 (Z.ltb_ge _ _)) by lia. simpl.
  apply seq_bind, seq_notifyExpiredAttempt. intros s' H1 H2 H3. apply seq_ret. done.
Qed.

(** C21: only holders of a service account, and the security operations role, manage its
    enrollments. Anyone else who tries to change an enrollment's notification address
    or to end it early gets an error, and no table changes but the audit trail,
    whatever the environment does. *)
Theorem enrollment_managed_by_holders cs s id i e address reason :
  enrollments s !! id = Some e -> ownsEnrollment srv i e = false ->
  GrantsSOC (srv_Admin srv) (id_Groups i) = false ->
  (let '(a, s') := run cs (SetNotificationEmail srv ParseAddress id i address) s in
   is_ok a = false /\ same_records s s')
  /\ (let '(a, s') := run cs (ExpireForIdentity srv id i reason) s in
      is_ok a = false /\ same_records s s').
Proof.
  intros He Hown Hsoc. split; (apply (seq_run_pair any); [done|by apply Forall_true|]).
  - unfold SetNotificationEmail. destruct (validateNotificationEmail _ _); [|by apply seq_ret].
    apply seq_bind_ok. unfold lookupEnrollment. apply seq_bind_ok, seq_query; [|by intros _].
    unfold enrollments in He. rewrite He. apply seq_ret. rewrite Hown, Hsoc. by apply seq_ret.
  - unfold ExpireForIdentity. destruct (ValidateAuditReason _ _); [|by apply seq_ret].
    apply seq_bind_ok. unfold lookupEnrollment. apply seq_bind_ok, seq_query; [|by intros _].
    unfold enrollments in He. rewrite He. apply seq_ret. rewrite Hown, Hsoc. by apply seq_ret.
Qed.

Lemma elem_of_insert_desc {A} (key : A -> Z) x y l : x ∈ insert_desc key y l <-> x = y \/ x ∈ l.
Proof. induction l as [|z l IH]; simpl; [set_solver|]. destruct (_ <=? _); set_solver. Qed.

Lemma elem_of_sort_desc {A} (key : A -> Z) x l : x ∈ sort_desc key l <-> x ∈ l.
Proof. induction l as [|y l IH]; simpl; [done|]. rewrite elem_of_insert_desc. set_solver. Qed.

(** C33: the service list shows a person exactly the enrollments they may manage as a
    holder. With a working database, an enrollment is listed if and only if its
    account is among those the caller may approve for. *)
Theorem listing_matches_ownership cs s i :
  Forall reliable cs ->
  exists l, (run cs (ListForIdentity srv ParseAuthorizedKey i) s).1 = Ok l
    /\ forall e, (exists id, enrollments s !! id = Some e) -> en_ServiceAccount e <> "" ->
         (e ∈ map sv_Enrollment l <-> ownsEnrollment srv i e = true).
Proof.
  intros Hcs. pattern (run cs (ListForIdentity srv ParseAuthorizedKey i) s).1.
  apply (seq_run reliable _ (fun a _ => exists l, a = Ok l /\ forall e,
    (exists id, enrollments s !! id = Some e) -> en_ServiceAccount e <> "" ->
    (e ∈ map sv_Enrollment l <-> ownsEnrollment srv i e = true)) eq_refl cs s Hcs).
  assert (forall e, en_ServiceAccount e <> "" ->
    (ownsEnrollment srv i e = true <-> en_ServiceAccount e ∈ heldServiceAccounts srv i)) as Hown.
  { intros e Hne. unfold ownsEnrollment. apply empty_str_false in Hne. rewrite Hne. apply contains_true. }
  unfold ListForIdentity. cbv zeta. set (held := heldServiceAccounts srv i) in *.
  destruct (length held =? 0)%nat eqn:Hlen.
  { apply seq_ret. exists []. split; [done|]. intros e _ Hne. rewrite Hown by done.
    apply Nat.eqb_eq, nil_length_inv in Hlen. rewrite Hlen. set_solver. }
  apply seq_bind_ok, seq_query; [|by intros []].
  set (rows := map _ (sort_desc _ _)).
  assert (forall e, (exists id, enrollments s !! id = Some e) -> en_ServiceAccount e <> "" ->
    (e ∈ map fst rows <-> ownsEnrollment srv i e = true)) as Hrows.
  { intros e (id & Hid) Hne. rewrite Hown by done. subst rows.
    replace (map fst (map (fun e0 => (e0, us_Username <$> db_users (sys_db s) !! en_UserID e0))
      (sort_desc en_CreatedAt (filter (fun e0 => en_ServiceAccount e0 ∈ held)
         (map snd (map_to_list (db_enrollments (sys_db s)))))))) with
      (sort_desc en_CreatedAt (filter (fun e0 => en_ServiceAccount e0 ∈ held)
         (map snd (map_to_list (db_enrollments (sys_db s)))))).
    2:{ rewrite List.map_map. simpl. by rewrite List.map_id. }
    rewrite elem_of_sort_desc, list_elem_of_filter. split; [by intros [? _]|]. intros ?. split; [done|].
    apply list_elem_of_fmap. exists (id, e). split; [done|]. by apply elem_of_map_to_list. }
  destruct (length rows =? 0)%nat eqn:Hlr.
  { apply seq_ret. exists []. split; [done|]. intros e Hex Hne. rewrite <- Hrows by done.
    apply Nat.eqb_eq, nil_length_inv in Hlr. rewrite Hlr. done. }
  apply seq_bind_ok. unfold retrievalCounts. apply seq_query; [|by intros []].
  apply seq_bind_ok. unfold latestRetrievals. apply seq_query; [|by intros []].
  apply seq_ret. eexists. split; [done|]. intros e Hex Hne. rewrite <- Hrows by done.
  rewrite List.map_map. simpl. done.
Qed.
End enrollment.

(** ** The theorems at the worked scenario *)

Import Demo.

Lemma proj_lookup {A B} (f : A -> B) (o : option A) x y : o = Some x -> f <$> o = Some y -> f x = y.
Proof. intros -> [=]. done. Qed.

Lemma reply_delivers_witness :
  (run [] (reply_handle server (Enc reply1)) signed.2).1 = Ok tt
  /\ exists c, certificates (run [] (reply_handle server (Enc reply1)) signed.2).2 !! 0 = Some c /\ reports c reply1.
Proof.
  pose proof (reply_delivers server [] signed.2 reply1 (row_in signed.2 "req-1")) as H.
  destruct (run [] (reply_handle server (Enc reply1)) signed.2) as [a s'].
  destruct H as (Ha & (c & Hc & Hrep & _) & _);
    [constructor|vm_compute; reflexivity|vm_compute; discriminate|vm_compute; reflexivity
    |vm_compute; reflexivity|vm_compute; reflexivity|].
  split; [exact Ha|]. exists c. split; [|exact Hrep]. simpl. rewrite Hc.
  change (rep_Serial reply1) with 0. apply lookup_insert_eq.
Defined.

Lemma repeated_reply_harmless_witness :
  certificates (run [] (reply_handle server (Enc reply1)) delivered.2).2 = certificates delivered.2.
Proof.
  pose proof (repeated_reply_harmless server [] delivered.2 reply1
    (default demo_cert (certificates delivered.2 !! 0))) as H.
  destruct (run [] (reply_handle server (Enc reply1)) delivered.2) as [a s'].
  apply H; [vm_compute; reflexivity|vm_compute; reflexivity|right].
  intros r Hr. rewrite (proj_lookup cr_Status _ r StatusApproved Hr); [discriminate|vm_compute; reflexivity].
Defined.

(** The handler cut off after its last step. *)
Definition handled : Sys := (advance 40 [] (reply_handle server (Enc reply1)) signed.2).2.

Lemma delivered_before_approved_witness :
  exists o, sys_resolved handled !! "req-1" = Some o /\ wo_Certificate o = rep_Certificate reply1.
Proof.
  apply (delivered_before_approved server [] signed.2 reply1 (row_in signed.2 "req-1") 40)
    with (row_in handled "req-1"); vm_compute; reflexivity.
Defined.

Definition expiry : Z := default 0 (en_ExpiresAt <$> enrollment_by_code code (sys_db finish)).

Lemma dead_code_refused_witness :
  (run [] (Retrieve server ParseAuthorizedKey 1 code "192.0.2.9") (set_clock finish (10 ^ 9 * Second))).1
  = Err (NotFoundError (text "enrollment")).
Proof.
  pose proof (dead_code_refused server ParseAuthorizedKey [] (set_clock finish (10 ^ 9 * Second)) 1 code
    "192.0.2.9") as H.
  destruct (run [] (Retrieve _ _ _ _ _) _) as [a s'].
  apply H; [constructor|]. intros e He.
  rewrite (proj_lookup en_ExpiresAt _ e expiry He); [vm_compute; discriminate|vm_compute; reflexivity].
Defined.

Definition demo_enrollment : string * Enrollment :=
  match map_to_list (enrollments finish) with
  | x :: _ => x
  | [] => ("", MkEnrollment "" "" "" (Undecodable "") "" (Undecodable "") "" None "" 0 0 None None "" None None)
  end.

Lemma enrollment_managed_by_holders_witness :
  is_ok (run [] (ExpireForIdentity server demo_enrollment.1 bob "because") finish).1 = false.
Proof.
  destruct (enrollment_managed_by_holders server ParseAddress [] finish demo_enrollment.1 bob
    demo_enrollment.2 "" "because") as [_ H]; [vm_compute; reflexivity|vm_compute; reflexivity|vm_compute; reflexivity|].
  destruct (run [] (ExpireForIdentity _ _ _ _) _) as [a s']. exact (proj1 H).
Defined.

Lemma listing_matches_ownership_witness : exists l,
  (run [] (ListForIdentity server ParseAuthorizedKey ann) finish).1 = Ok l
  /\ demo_enrollment.2 ∈ map sv_Enrollment l.
Proof.
  destruct (listing_matches_ownership server ParseAuthorizedKey [] finish ann) as (l & Hl & H); [constructor|].
  exists l. split; [exact Hl|]. apply H.
  - exists demo_enrollment.1. vm_compute. reflexivity.
  - vm_compute. discriminate.
  - vm_compute. reflexivity.
Defined.
