(* ===== verification/Bounds.v ===== *)
(** * Bounds on stored input, roles, users and retention

    What an unauthenticated client can make the server store, how the roles nest, what
    a login may change, and what the audit retention keeps. *)

From S2P Require Import Prelude Netip Model UserCode Accounts Condition Lifetime CertPolicy Sha256 World AuditLog CertRequest CertWait Signer SignReply Enrollment Users Seq Invariant Legal CertSafe ReplySafe System Scenario Safety Behaviour.
From Stdlib Require Import Sorted.
Local Open Scope prog_scope.

(** ** Host context *)

Lemma length_substring n : forall s, (String.length (String.substring 0 n s) <= n)%nat.
Proof. induction n as [|n IH]; intros [|c s]; simpl; try lia. specialize (IH s). lia. Qed.

Lemma truncateContextField_length v : (String.length (truncateContextField v) <= maxContextFieldLen)%nat.
Proof.
  unfold truncateContextField. destruct (_ <? _)%nat eqn:E; [apply length_substring|].
  by apply Nat.ltb_ge in E.
Qed.

Definition bounded (v : string) : Prop := (String.length v <= maxContextFieldLen)%nat.

Lemma bounded_take n l :
  Forall bounded (map truncateContextField (take n l))
  /\ (length (map truncateContextField (take n l)) <= n)%nat.
Proof.
  split.
  - apply Forall_forall. intros x Hx. apply list_elem_of_fmap in Hx as (y & -> & _).
    apply truncateContextField_length.
  - rewrite length_map. rewrite length_take. lia.
Qed.

(** C40: what a host reports about itself is bounded before it is stored. Every text
    field is at most 256 bytes, at most 8 trusted-CA fingerprints and 32 forbidden
    extensions of at most 256 bytes each are kept, and nothing the server itself
    decided about the request (id, type, key, source address, creation time, code)
    is touched. *)
Theorem host_context_bounded h hc :
  let h' := applyHostContext h hc in
  Forall bounded [rh_RequestingUser h'; rh_Process h'; rh_MachineID h'; rh_OS h'; rh_Client h'; rh_ClientMode h']
  /\ (forall l, rh_TrustedCAFingerprints h' = Some (Enc l) ->
        (0 < length l <= maxTrustedCAFingerprints)%nat /\ Forall bounded l)
  /\ (forall p, rh_ClientPolicy h' = Some (Enc p) ->
        (length (cp_ForbiddenExtensions p) <= maxClientPolicyExtensions)%nat
        /\ Forall bounded (cp_ForbiddenExtensions p))
  /\ (rh_ID h', rh_Type h', rh_PublicKey h', rh_SourceIP h', rh_CreatedAt h', rh_UserCode h')
     = (rh_ID h, rh_Type h, rh_PublicKey h, rh_SourceIP h, rh_CreatedAt h, rh_UserCode h).
Proof.
  simpl. split_and!; [|..|done].
  - repeat (apply Forall_cons; split; [apply truncateContextField_length|]). constructor.
  - intros l. unfold boundFingerprints. destruct (length (take _ _) =? 0)%nat eqn:E; [done|].
    intros [= <-]. apply Nat.eqb_neq in E.
    destruct (bounded_take maxTrustedCAFingerprints (hc_TrustedCAFingerprints hc)) as [Hb Hl].
    split; [|done]. rewrite length_map in *. lia.
  - intros p. unfold applyClientPolicy. destruct (hc_ClientPolicy hc) as [q|]; [|done].
    destruct (_ && _); [done|]. intros [= <-]. simpl.
    destruct (bounded_take maxClientPolicyExtensions (cp_ForbiddenExtensions q)). done.
Qed.

(** ** Source addresses *)

Definition link_local_text (a : string) : bool :=
  match ParseIP a with Some ip => IsLinkLocalUnicast ip | None => false end.

Lemma normalize_from addrs : forall acc,
  NoDup acc ->
  let out := foldl (fun out a => if link_local_text a then out else append_new out a) acc addrs in
  NoDup out /\ (forall a, a ∈ out <-> a ∈ acc \/ a ∈ addrs /\ link_local_text a = false)
  /\ exists rest, out = acc ++ rest /\ rest `sublist_of` addrs.
Proof.
  induction addrs as [|x addrs IH]; intros acc Hnd; simpl.
  { split_and!; [done| |exists []; by rewrite app_nil_r].
    intros a. rewrite elem_of_nil. tauto. }
  destruct (link_local_text x) eqn:Hll.
  - destruct (IH acc Hnd) as (H1 & H2 & rest & H3 & H4). split_and!; [exact H1| |].
    + intros a. rewrite H2, elem_of_cons. split; [tauto|]. intros [?|[[->|?] ?]]; [tauto|congruence|tauto].
    + exists rest. split; [exact H3|]. by apply sublist_cons.
  - destruct (IH (append_new acc x) (NoDup_append_new _ _ Hnd)) as (H1 & H2 & rest & H3 & H4).
    split_and!; [exact H1| |].
    + intros a. rewrite H2, elem_of_append_new, elem_of_cons. split; [intros [[?| ->]|?]; tauto|tauto].
    + destruct (contains acc x) eqn:E.
      * exists rest. split; [|by apply sublist_cons]. rewrite H3. unfold append_new. by rewrite E.
      * exists (x :: rest). split; [|by apply sublist_skip].
        rewrite H3. unfold append_new. rewrite E. by rewrite <- app_assoc.
Qed.

(** C34: the addresses a certificate is pinned to are the client's own, once each and
    without link-local ones. An address survives normalisation exactly when it was
    sent and is not a link-local address; order is kept and repeats are dropped; text
    that is no address at all is kept for the record. *)
Theorem normalizeSourceAddresses_spec addrs :
  NoDup (normalizeSourceAddresses addrs)
  /\ normalizeSourceAddresses addrs `sublist_of` addrs
  /\ forall a, a ∈ normalizeSourceAddresses addrs <->
       a ∈ addrs /\ ~ exists ip, ParseIP a = Some ip /\ IsLinkLocalUnicast ip = true.
Proof.
  destruct (normalize_from addrs [] (NoDup_nil_2)) as (H1 & H2 & rest & H3 & H4).
  change (foldl _ [] addrs) with (normalizeSourceAddresses addrs) in *. split_and!; [done|by rewrite H3|].
  intros a. rewrite H2. unfold link_local_text. destruct (ParseIP a) as [ip|].
  - rewrite elem_of_nil. destruct (IsLinkLocalUnicast ip) eqn:E.
    { split; [intros [[]|[_ ?]]; congruence|]. intros [_ H]. exfalso. apply H. eauto. }
    split; [|tauto]. intros [[]|[Ha _]]. split; [done|]. intros (ip' & [= <-] & ?). congruence.
  - rewrite elem_of_nil. split; [|tauto]. intros [[]|[Ha _]]. split; [done|]. by intros (ip & ? & _).
Qed.

(** ** Roles *)

(** The roles nest and an unset group grants nothing. An administrator is also in
    security operations, and security operations may also audit; a role is held
    exactly through membership in a configured group of that role or of a stronger
    one, so a server with no groups configured has no privileged users. *)
Theorem roles_nest a groups :
  (GrantsAdmin a groups = true -> GrantsSOC a groups = true)
  /\ (GrantsSOC a groups = true -> GrantsAuditor a groups = true)
  /\ (GrantsAuditor a groups = true <->
      exists g, g ∈ [adm_RequireGroup a; adm_SOCGroup a; adm_AuditorGroup a] /\ g <> "" /\ g ∈ groups)
  /\ (GrantsSOC a groups = true <->
      exists g, g ∈ [adm_RequireGroup a; adm_SOCGroup a] /\ g <> "" /\ g ∈ groups)
  /\ (GrantsAdmin a groups = true <-> adm_RequireGroup a <> "" /\ adm_RequireGroup a ∈ groups).
Proof.
  assert (forall g, containsGroup groups g = true <-> g <> "" /\ g ∈ groups) as Hc.
  { intros g. unfold containsGroup. rewrite andb_true_iff, negb_true_iff, empty_str_false, contains_true. done. }
  assert (forall g, negb (empty_str g) && containsGroup groups g = true <-> g <> "" /\ g ∈ groups) as Hg.
  { intros g. rewrite andb_true_iff, Hc, negb_true_iff, empty_str_false. naive_solver. }
  assert (GrantsAdmin a groups = true <-> adm_RequireGroup a <> "" /\ adm_RequireGroup a ∈ groups) as HA.
  { apply Hg. }
  assert (GrantsSOC a groups = true <->
    exists g, g ∈ [adm_RequireGroup a; adm_SOCGroup a] /\ g <> "" /\ g ∈ groups) as HS.
  { unfold GrantsSOC. destruct (GrantsAdmin a groups).
    - split; [intros _; exists (adm_RequireGroup a)|done]. split; [set_solver|by apply HA].
    - unfold IsSOCEnabled. rewrite Hg. split; [intros ?; exists (adm_SOCGroup a); set_solver|].
      intros (g & Hin & Hne & Hmem). apply elem_of_cons in Hin as [->|Hin]; [|set_solver].
      exfalso. assert (false = true) by by apply HA. done. }
  assert (GrantsAuditor a groups = true <->
    exists g, g ∈ [adm_RequireGroup a; adm_SOCGroup a; adm_AuditorGroup a] /\ g <> "" /\ g ∈ groups) as HU.
  { unfold GrantsAuditor. destruct (GrantsSOC a groups).
    - split; [intros _|done]. destruct HS as [HS _]. destruct (HS eq_refl) as (g & ? & ? & ?). exists g. set_solver.
    - unfold IsAuditorEnabled. rewrite Hg. split; [intros ?; exists (adm_AuditorGroup a); set_solver|].
      intros (g & Hin & Hne & Hmem). destruct (decide (g = adm_AuditorGroup a)) as [->|]; [done|].
      exfalso. assert (false = true); [|done]. apply HS. exists g. set_solver. }
  split_and!; try done.
  - rewrite HA, HS. intros. exists (adm_RequireGroup a). set_solver.
  - rewrite HS, HU. intros (g & ? & ?). exists g. set_solver.
Qed.

(** ** Users *)

(** One row per subject (the unique index), under its own id (the primary key). *)
Definition users_keyed (s : Sys) : Prop :=
  (forall k u, users s !! k = Some u -> us_ID u = k)
  /\ forall k1 k2 u1 u2, users s !! k1 = Some u1 -> users s !! k2 = Some u2 ->
       us_Subject u1 = us_Subject u2 -> k1 = k2.

Lemma user_by_subject_keyed s k u :
  users_keyed s -> users s !! k = Some u -> user_by_subject (us_Subject u) (sys_db s) = Some u.
Proof.
  intros [_ Huniq] Hk. unfold user_by_subject, users in *.
  destruct (find_row _ _) as [u'|] eqn:E.
  - apply find_row_Some in E as (k' & Hk' & Hs). unbool.
    pose proof (Huniq k' k u' u Hk' Hk Hs) as ->. congruence.
  - exfalso. unfold find_row in E. apply fmap_None in E.
    eapply List.find_none in E; [|apply list_elem_of_In, elem_of_map_to_list, Hk].
    simpl in E. by rewrite bool_decide_true in E.
Qed.

(** C30: a login refreshes who a person is, never whether they are locked out. When a
    known subject logs in, exactly their row changes: same id, subject, creation time
    and disabled mark, with the new name, address and accounts; and if the account
    was disabled, the check that follows refuses the session, whatever fails. *)
Theorem login_keeps_disabled cs cs' s i k u :
  users_keyed s -> users s !! k = Some u -> us_Subject u = id_Subject i ->
  let '(a, s1) := run cs (upsertUser i) s in
  (a = Ok tt -> exists u', users s1 = <[k := u']> (users s) /\ us_ID u' = us_ID u
     /\ us_Subject u' = us_Subject u /\ us_CreatedAt u' = us_CreatedAt u
     /\ us_DisabledAt u' = us_DisabledAt u /\ us_Username u' = id_Username i
     /\ us_OtherAccounts u' = Some (Enc (id_OtherAccounts i))
     /\ us_ServiceAccounts u' = Some (Enc (id_ServiceAccounts i)))
  /\ (is_Some (us_DisabledAt u) -> (run cs' (checkUserDisabled (id_Subject i)) s1).1 <> Ok tt).
Proof.
  intros Hkeys Hk Hsub. apply (seq_run_pair any); [done|by apply Forall_true|].
  assert (forall s1 u', users_keyed s1 -> users s1 !! k = Some u' -> us_Subject u' = id_Subject i ->
    us_DisabledAt u' = us_DisabledAt u ->
    is_Some (us_DisabledAt u) -> (run cs' (checkUserDisabled (id_Subject i)) s1).1 <> Ok tt) as Hcheck.
  { intros s1 u' Hk1 Hu1 Hs1 Hd1 Hdis.
    apply (seq_run any (checkUserDisabled (id_Subject i)) (fun a _ => a <> Ok tt)); [done|by apply Forall_true|].
    unfold checkUserDisabled. apply seq_bind, seq_query; [|by intros _; apply seq_ret].
    rewrite <- Hs1, (user_by_subject_keyed _ _ _ Hk1 Hu1), Hd1, bool_decide_true by done. by apply seq_ret. }
  unfold upsertUser. apply seq_bind, seq_now. intros t Ht. apply seq_bind, seq_uuid. intros id _. cbv zeta.
  apply seq_exec; [|intros _; split; [done|apply (Hcheck _ u); done]].
  intros t1 t2 Ht1 Ht2. unfold put_user. simpl us_Subject.
  pose proof (user_by_subject_keyed _ _ _ Hkeys Hk) as Hf. rewrite Hsub in Hf.
  change (sys_db (set_issued _ _)) with (sys_db s). rewrite Hf.
  pose proof (proj1 Hkeys k u Hk) as Hid. rewrite Hid. set (u' := refresh_user _ _).
  split; [intros _; exists u'; split_and!; done|]. apply (Hcheck _ u'); [|apply lookup_insert_eq|done|done].
  destruct Hkeys as [Hk1 Hk2]. split.
  - intros k0 u0. unfold users. simpl. intros [[<- <-]|[Hne H0]]%lookup_insert_Some; [done|by apply Hk1].
  - assert (forall k0 u0, <[k := u']> (users s) !! k0 = Some u0 ->
      exists v, users s !! k0 = Some v /\ us_Subject v = us_Subject u0) as Hold.
    { intros k0 u0 [[<- <-]|[Hne H0]]%lookup_insert_Some; [by exists u|by exists u0]. }
    intros k1 k2 u1 u2 H1 H2 Hs. destruct (Hold k1 u1 H1) as (v1 & ? & ?).
    destruct (Hold k2 u2 H2) as (v2 & ? & ?). eapply Hk2; [done|done|congruence].
Qed.

(** ** Audit retention *)

Lemma insert_oldest_perm a l : insert_oldest a l ≡ₚ a :: l.
Proof.
  induction l as [|b l IH]; simpl; [done|]. destruct (audit_before a b); [done|]. rewrite IH. constructor.
Qed.

Lemma oldest_first_perm l : oldest_first l ≡ₚ l.
Proof. induction l as [|a l IH]; simpl; [done|]. by rewrite insert_oldest_perm, IH. Qed.

Definition no_later (a b : AuditRow) : Prop := ar_CreatedAt a <= ar_CreatedAt b.

Lemma audit_before_time a b :
  if audit_before a b then no_later a b else no_later b a.
Proof.
  unfold audit_before, no_later. destruct (Z.ltb_spec (ar_CreatedAt a) (ar_CreatedAt b)); simpl; [lia|].
  destruct (Z.eqb_spec (ar_CreatedAt a) (ar_CreatedAt b)); simpl; [|lia]. destruct (String.leb _ _); lia.
Qed.

Lemma insert_oldest_sorted a l : StronglySorted no_later l -> StronglySorted no_later (insert_oldest a l).
Proof.
  induction 1 as [|b l Hs IH Hb]; simpl; [repeat constructor|]. pose proof (audit_before_time a b) as Hab.
  destruct (audit_before a b); constructor; try done.
  - by constructor.
  - constructor; [done|]. eapply Forall_impl; [exact Hb|]. unfold no_later in *. intros; lia.
  - rewrite insert_oldest_perm. by constructor.
Qed.

Lemma oldest_first_sorted l : StronglySorted no_later (oldest_first l).
Proof. induction l as [|a l IH]; simpl; [constructor|]. by apply insert_oldest_sorted. Qed.

(** [l'] is what is left of [l] when the oldest rows are dropped. *)
Definition newest_of (l l' : list AuditRow) : Prop :=
  l' `sublist_of` l /\ forall a b, a ∈ l' -> b ∈ l -> ar_ID b ∉ map ar_ID l' -> no_later b a.

Definition ids_unique (l : list AuditRow) : Prop := NoDup (map ar_ID l).

Lemma ids_unique_inj l a b : ids_unique l -> a ∈ l -> b ∈ l -> ar_ID a = ar_ID b -> a = b.
Proof.
  unfold ids_unique. induction l as [|x l IH]; simpl; [by intros _ ?%elem_of_nil|].
  intros [Hx Hnd]%NoDup_cons Ha Hb Hid.
  assert (forall y, y ∈ l -> ar_ID y <> ar_ID x) as Hne.
  { intros y Hy E. apply Hx. rewrite <- E. apply list_elem_of_fmap. by exists y. }
  apply elem_of_cons in Ha as [->|Ha]; apply elem_of_cons in Hb as [->|Hb]; auto.
  - by apply Hne in Hb.
  - by apply Hne in Ha.
Qed.

Lemma ids_unique_sublist l l' : l' `sublist_of` l -> ids_unique l -> ids_unique l'.
Proof. intros H Hnd. eapply sublist_NoDup; [exact Hnd|]. by apply fmap_sublist. Qed.

Lemma newest_of_trans l l1 l2 : ids_unique l -> newest_of l l1 -> newest_of l1 l2 -> newest_of l l2.
Proof.
  intros Hnd [S1 H1] [S2 H2]. split; [by etrans|]. intros a b Ha Hb Hn.
  assert (a ∈ l1) as Ha1 by (by eapply elem_of_sublist).
  destruct (decide (ar_ID b ∈ map ar_ID l1)) as [Hb1|Hb1]; [|auto].
  apply list_elem_of_fmap in Hb1 as (b1 & Hid & Hb1).
  pose proof (ids_unique_inj l b b1 Hnd Hb (elem_of_sublist _ _ _ Hb1 S1) Hid) as <-. auto.
Qed.

Lemma filter_none {A} (P : A -> Prop) `{!forall x, base.Decision (P x)} (l : list A) :
  (forall x, x ∈ l -> ~ P x) -> filter P l = [].
Proof.
  intros Hl. induction l as [|x l IH]; [done|]. rewrite filter_cons_False by (apply Hl; set_solver).
  apply IH. intros y Hy. apply Hl. set_solver.
Qed.

Lemma filter_every {A} (P : A -> Prop) `{!forall x, base.Decision (P x)} (l : list A) :
  (forall x, x ∈ l -> P x) -> filter P l = l.
Proof.
  intros Hl. induction l as [|x l IH]; [done|]. rewrite filter_cons_True by (apply Hl; set_solver).
  f_equal. apply IH. intros y Hy. apply Hl. set_solver.
Qed.

(** One batch: the [m] oldest rows go. *)
Lemma delete_batch l m :
  ids_unique l ->
  let ids := map ar_ID (take m (oldest_first l)) in
  let kept := filter (fun a => ar_ID a ∉ ids) l in
  newest_of l kept /\ length kept = (length l - m)%nat.
Proof.
  intros Hnd ids kept. pose proof (oldest_first_perm l) as Hp.
  rewrite <- (take_drop m (oldest_first l)) in Hp.
  assert (NoDup (map ar_ID (take m (oldest_first l) ++ drop m (oldest_first l)))) as Hnd'.
  { rewrite Hp. exact Hnd. }
  rewrite List.map_app in Hnd'. apply NoDup_app in Hnd' as (_ & Hdisj & _).
  assert (kept ≡ₚ drop m (oldest_first l)) as Hk.
  { subst kept. transitivity (filter (fun a => ar_ID a ∉ ids) (take m (oldest_first l) ++ drop m (oldest_first l)));
      [by rewrite Hp|]. rewrite filter_app.
    assert (filter (fun a => ar_ID a ∉ ids) (take m (oldest_first l)) = []) as ->.
    { apply filter_none. intros a Ha Hn. apply Hn. subst ids. apply list_elem_of_fmap. by exists a. }
    assert (filter (fun a => ar_ID a ∉ ids) (drop m (oldest_first l)) = drop m (oldest_first l)) as ->; [|done].
    apply filter_every. intros a Ha Hin. eapply Hdisj; [exact Hin|]. apply list_elem_of_fmap. by exists a. }
  split.
  - split; [apply sublist_filter|]. intros a b Ha Hb Hn. rewrite Hk in Ha.
    assert (b ∈ take m (oldest_first l)) as Hb'.
    { rewrite <- Hp, elem_of_app in Hb. destruct Hb as [Hb|Hb]; [done|]. exfalso. apply Hn.
      apply list_elem_of_fmap. exists b. split; [done|]. by rewrite Hk. }
    pose proof (oldest_first_sorted l) as Hs. rewrite <- (take_drop m (oldest_first l)) in Hs.
    revert Hs Hb' Ha. generalize (take m (oldest_first l)) (drop m (oldest_first l)).
    intros l1 l2. clear. induction l1 as [|x l1 IH]; simpl; [by intros _ ?%elem_of_nil|].
    intros [Hs Hx]%StronglySorted_inv. intros [->|Hb]%elem_of_cons Ha; [|auto].
    apply Forall_app in Hx as [_ Hx]. rewrite Forall_forall in Hx. auto.
  - rewrite Hk. rewrite length_drop. by rewrite oldest_first_perm.
Qed.

Notation audit s := (db_audit (sys_db s)).

Lemma seq_deleteOldest fuel : forall limit deleted (Q : res nat -> Sys -> Prop) s,
  ids_unique (audit s) -> (limit - deleted < fuel)%nat -> (limit - deleted <= length (audit s))%nat ->
  (forall s', newest_of (audit s) (audit s') ->
     length (audit s') = (length (audit s) - (limit - deleted))%nat -> Q (Ok (Nat.max limit deleted)) s') ->
  seq reliable (deleteOldestAuditEvents fuel limit deleted) Q s.
Proof.
  induction fuel as [|fuel IH]; intros limit deleted Q s Hnd Hf Hl HQ; [lia|]. simpl.
  assert (forall l, newest_of l l) as Hrefl.
  { intros l. split; [done|]. intros a b _ Hb Hn. exfalso. apply Hn. apply list_elem_of_fmap. by exists b. }
  destruct (Nat.leb_spec limit deleted) as [Hle|Hlt].
  { apply seq_ret. replace deleted with (Nat.max limit deleted) at 1 by lia. apply HQ; [done|lia]. }
  set (m := Nat.min (limit - deleted) auditSweepBatch).
  assert (0 < m <= limit - deleted)%nat as Hm by (subst m; unfold auditSweepBatch; lia).
  apply seq_bind_ok, seq_query; [|by intros []].
  destruct (delete_batch (audit s) m Hnd) as [Hnew Hlen].
  set (ids := map ar_ID (take m (oldest_first (audit s)))) in *.
  assert (length ids = m) as Hids.
  { subst ids. rewrite length_map, length_take, oldest_first_perm. lia. }
  rewrite Hids. rewrite (proj2 (Nat.eqb_neq m 0)) by lia.
  apply seq_bind_ok, seq_exec; [|by intros []]. intros t1 t2 Ht1 Ht2. simpl.
  set (s1 := set_clock _ _).
  assert (audit s1 = filter (fun a => ar_ID a ∉ ids) (audit s)) as Ha1 by done.
  apply IH.
  - eapply ids_unique_sublist; [|exact Hnd]. rewrite Ha1. apply Hnew.
  - lia.
  - rewrite Ha1, Hlen. lia.
  - intros s' Hn' Hl'. replace (Nat.max limit (deleted + m)) with (Nat.max limit deleted) by lia.
    apply HQ.
    + eapply newest_of_trans; [done|exact Hnew|]. rewrite <- Ha1. done.
    + rewrite Hl', Ha1, Hlen. lia.
Qed.


(** ** Observations on the worked scenario *)

Import Demo.

(** A request whose approval window ends exactly now. *)
Definition at_deadline : Sys := set_clock created.2 (1480 * Second).

(** At the last instant of its window a request can be approved but not denied. At
    the moment the approval deadline falls, an approval by the owner is accepted while
    a denial of the same pending request answers that it is no longer pending. *)
Example deadline_instant :
  (run [] (handle approve) at_deadline).1 = Ok tt
  /\ (run [] (handle (CallDeny "req-1" ann context)) at_deadline).1
     = Err (ConflictError (text "this certificate request is no longer pending"))
  /\ (cr_Status <$> requests at_deadline !! "req-1") = Some StatusPending.
Proof. vm_compute. done. Qed.

(** The demo server with the tiered policy on service certificates too. *)
Definition tiered_options : CertificateOptions :=
  MkCertificateOptions (Sample.cert_options Sample.staff_policy) (Sample.cert_options Sample.staff_policy)
    (Sample.cert_options Sample.no_policy) (Sample.cert_options Sample.no_policy) (10 * Minute).

Definition tiered_server : Server :=
  match compileCertOptions PolicySample.parse tiered_options {[ "age" ]} with
  | Ok (e, table) => MkServer tiered_options e table true "https://ssh.example.com"
                       (MkAdmin "admins" "soc" "audit") Hour (14 * 24 * Hour)
  | Err _ => server
  end.

(** Ann asks for a pty and X11; as approver she picks both extensions the type allows;
    her tier grants only the pty. *)
Definition picked : list string := ["permit-pty"; "permit-port-forwarding"].

Definition explained (ty : CertificateType) (account : string) : option ExtensionsExplanation :=
  let h {A} (c : call A) := handler tiered_server ParseAuthorizedKey ParseAddress c in
  let s1 := (run [at_ 0 "req-1" []] (h (CallCreateRequest (params ty))) Demo.s1).2 in
  let s2 := (run [] (h (CallApprove "req-1" ann context (MkSelection account [] (Some picked) ""))) s1).2 in
  match decisions s2 !! "req-1" with
  | Some d => match de_PolicyExplanation d with
              | Some (Enc x) => px_Extensions x
              | _ => None
              end
  | None => None
  end.

(** What the decision record says an approver chose is not what they chose. For a
    service enrollment the recorded "approver selected" set is already cut down by the
    tier, so the choice of port forwarding is lost; for a user certificate it is not
    recorded at all and the approver's set appears as what the client "requested". *)
Example extension_choice_misrecorded :
  (exists x, explained CertificateTypeService "backup" = Some x
     /\ xe_ApproverSelected x = Some ["permit-pty"] /\ xe_Requested x = ["permit-pty"]
     /\ xe_Effective x = ["permit-pty"])
  /\ exists x, explained CertificateTypeUser "" = Some x
     /\ xe_ApproverSelected x = None /\ xe_Requested x = picked.
Proof. split; eexists; (split; [vm_compute; reflexivity|]); done. Qed.

(** ** The theorems at concrete states *)

Definition locked_out : User :=
  MkUser "u1" "sub-ann" "ann" "" "" None None None 0 0 (Some (5 * Second)).
Definition locked_state : Sys := set_db start (set_users empty_db {[ "u1" := locked_out ]}).

Lemma locked_keyed : users_keyed locked_state.
Proof.
  assert (users locked_state = {[ "u1" := locked_out ]}) as E by reflexivity.
  unfold users_keyed. rewrite E. split.
  - intros k u [<- <-]%lookup_singleton_Some. done.
  - intros k1 k2 u1 u2 [<- _]%lookup_singleton_Some [<- _]%lookup_singleton_Some _. done.
Qed.

Lemma login_keeps_disabled_witness :
  (run [] (checkUserDisabled "sub-ann") (run [] (upsertUser ann) locked_state).2).1 <> Ok tt.
Proof.
  pose proof (login_keeps_disabled [] [] locked_state ann "u1" locked_out locked_keyed) as H.
  destruct (run [] (upsertUser ann) locked_state) as [a s1].
  apply H; [vm_compute; reflexivity|reflexivity|by eexists].
Defined.

